(* ===== verification/_CoqProject ===== *)
-Q . S2P
Prelude.v
Fmt.v
AllocMod.v
FreeList.v
LinkedList.v
BumpAlloc.v
FixedSizeBlock.v
TestsAlloc.v
AllocThms.v
HeapProg.v
HeapDemo.v
HeapTests.v
FrameAlloc.v
Scheduler.v
Machine.v
Thread.v
ThreadInv.v
ThreadHeap.v
ThreadThms.v
ThreadTrap.v
Vga.v
Libs.v
Keyboard.v
Executor.v
ExecLoop.v
Logger.v
TestRunner.v
Paging.v
FramePaging.v
Gdt.v
Kernel.v
KernelThms.v
Userland.v
UserlandThms.v
Syscall.v
Interrupts.v
Startup.v
StartupThms.v
Overflow.v
TrapThms.v
UserExec.v
UserExecThms.v
Irq.v
UserIrq.v
TrapFlags.v
Demos.v
Keeps.v
DemosThms.v
DemoHeap.v
Boot.v
Main.v
MainThms.v
FaultRecovery.v
Tests.v
TestsThms.v
Integration.v
Locks.v
KernelLocks.v
