(* ===== verification/Prelude.v ===== *)
(** * Apogee: a verification development for the apogee x86-64 kernel

    ** The program

    Apogee is a small bare-metal kernel in Rust.  [kernel_main] (src/src/main.rs)
    loads the descriptor tables and enables interrupts, maps the heap, runs
    the demos of src/src/demos.rs, and enters the async executor, which halts
    the CPU whenever no task is ready.  Its parts:

    - the heap: three allocators (src/src/allocator), of which the
      fixed-size-block one is the global allocator, and the frame allocator
      that feeds the page tables (src/src/memory.rs);
    - kernel threads with a cooperative round-robin scheduler and a context
      switch in assembly (src/src/thread.rs), counted by src/src/scheduler.rs;
    - async tasks and the keyboard, fed by interrupts (src/src/task);
    - the text console, the log and the serial port (src/src/vga_buffer.rs,
      src/src/logger.rs, src/src/serial.rs);
    - processes and the call boundary that authorizes requests
      (src/src/process.rs, src/src/kernel);
    - ring 3: segments and stacks (src/src/gdt.rs), interrupts and faults
      (src/src/interrupts.rs), system calls (src/src/syscall.rs) and the user
      programs (src/src/userland.rs).

    They meet in a few places: threads take their stacks from the heap, the
    services of the kernel object act on all the others, a user process is a
    record in the registry plus a host thread, and a trap from ring 3 runs on
    the privilege stack and may end the host thread there.

    ** How it is modelled

    Rust functions are Rocq functions of the same names, in the [outcome]
    monad of this file: a value, a panic, undefined behaviour, or a loop out
    of fuel.  Integers are [Z] with the overflow checks of the dev profile
    written out ([add_u64], [wrapping_add], [checked_add], ...).  State is
    passed explicitly.  Pointer structures live in stores: free-list nodes in
    a map of headers, stacks and saved contexts in a map of 64-bit words.
    Interleavings are step relations.  Code of other crates is a type class
    of operations with a class of laws, which state what its documentation
    promises; every property with hypotheses has a witness on concrete
    instances.

    Memory:
    - AllocMod.v: constants, [Layout], [align_up], and [GlobalAllocSpec], the
      contract of a global allocator, against which the threads are verified.
    - FreeList.v, LinkedList.v: allocator/linkedlist.rs; the list of regions
      as reference, and the pointer code that computes it.
    - BumpAlloc.v, FixedSizeBlock.v: allocator/bump.rs and
      allocator/fixed_size_block.rs (Modules [Bump], [Fixed]).
    - AllocThms.v: the allocators' theorems.
    - HeapProg.v, HeapDemo.v: programs that use the heap, as trees of their
      allocator calls; [Box], [Vec] and [Rc], and [sample_heap_allocations];
      HeapTests.v: the tests of src/tests/heap_allocation.rs.
    - FrameAlloc.v: [MonotonicFrameAllocator] of memory.rs.
    - Paging.v: the x86_64 crate's page tables as a parameter, [init_heap];
      FramePaging.v: the page tables with the kernel's frame allocator.

    Threads and tasks:
    - Scheduler.v: the counters of scheduler.rs.
    - Machine.v: the instructions of the naked functions; [switch_context],
      [syscall_isr] and the [iretq] of [enter_userland] as instruction lists.
    - Thread.v: thread.rs, on top of Machine.v; ThreadInv.v: its invariant
      [tinv] and the effect of each call; ThreadHeap.v: the blocks a thread
      takes on the kernel's heap; ThreadThms.v: the threads as a
      transition system; ThreadTrap.v: [exit_thread] on the privilege stack.
    - Libs.v: the queue, once-cell, waker, decoder, port and controller crates.
    - Keyboard.v: task/keyboard.rs with the interrupt between any two steps.
    - Executor.v: task/mod.rs and task/executor.rs; ExecLoop.v: the run loop,
      [sleep_if_idle] and interrupts; Startup.v, StartupThms.v: the two tasks
      of [kernel_main] in that loop, on the kernel; Overflow.v: keys that
      come faster than the ready queue can take.

    Output:
    - Fmt.v: the integer formats of [core::fmt].
    - Vga.v: vga_buffer.rs and the terminal it refines.
    - Logger.v: logger.rs and serial.rs.

    The kernel and ring 3:
    - Gdt.v: gdt.rs and what the CPU does on a trap.
    - Kernel.v, KernelThms.v: process.rs and kernel/*.rs.
    - Userland.v, UserlandThms.v: userland.rs.
    - Syscall.v, Interrupts.v, TrapThms.v: syscall.rs and interrupts.rs.
    - UserExec.v, UserExecThms.v: the user programs, decoded from their bytes
      and executed with the kernel's trap handling in between.
    - Irq.v, UserIrq.v: the timer and the keyboard interrupting code in ring 3
      and ring 0; TrapFlags.v: the interrupt flag across a thread switch.

    The whole:
    - Demos.v, DemosThms.v: [threading_demo] and [userland_demo]; Keeps.v:
      what they leave alone; DemoHeap.v: [threading_demo] on the heap as
      booted.
    - Boot.v: [init] of lib.rs and the memory part of [kernel_main].
    - Main.v, MainThms.v: [kernel_main] and [print_banner] of main.rs.
    - Locks.v, KernelLocks.v: which spin locks the kernel's functions take, in
      which order and with which interrupt flag, under any interleaving.
    - TestRunner.v: the test framework of lib.rs; TestsAlloc.v, Tests.v,
      TestsThms.v: the unit tests of all modules and [test_kernel_main];
      FaultRecovery.v: src/tests/fault_recovery_pf.rs and _gpf.rs;
      Integration.v: the test kernels of src/tests/heap_allocation.rs,
      async_tasks.rs, runtime_observability.rs, basic_boot.rs and
      should_panic.rs.

    ** What the theorems show

    - The kernel (MainThms.v, StartupThms.v): from what the bootloader hands
      over on a machine with enough memory, [kernel_main] reaches the
      executor's loop in at most twelve steps, never gets stuck and never
      panics; from then on the screen shows the banner, the greeting of the
      user program and the characters typed, whatever the timing of the
      interrupts.
    - Heap (AllocThms.v, HeapDemo.v): any sequence of calls that follows the
      contract runs without a panic, with blocks in the heap, aligned and
      disjoint, for all three allocators; the allocators compute first fit
      with sorted insertion and coalescing, and the size classes above it;
      the smoke test of the heap ends with every block back.  Frames come in
      sequence, each once (FrameAlloc.v).
    - Threads (ThreadThms.v, DemosThms.v): in every state reachable from boot
      [yield_now] returns, [spawn] returns or runs out of memory,
      [exit_thread] panics only when no thread is ready, a yield is an ordinary function call to the thread
      that makes it, a spawned thread starts at its entry, scheduling is round
      robin, and [threading_demo] ends.
    - Tasks and input (Keyboard.v, Executor.v, ExecLoop.v, StartupThms.v): no
      scancode is lost or reordered, no wake-up is lost, the ready loop ends,
      and the executor never halts with work to do.
    - Console and log (Vga.v, Logger.v): the screen refines a terminal with an
      unbounded history; a log line is sent whole or counted as dropped.
    - Kernel and ring 3 (KernelThms.v, UserlandThms.v, TrapThms.v,
      UserExecThms.v, DemosThms.v): user callers are confined to their own
      process, the registry agrees with its counters, a system call gives the
      interrupted context back, a process that exits or faults takes nothing
      else down, and the ring-3 demo, from process creation over every
      instruction of the program to the reaped thread, prints its message and
      leaves the kernel as it was.
    - Interrupts (Irq.v, UserIrq.v): code in ring 3 and in ring 0 cannot tell
      that it was interrupted, and the demo program runs the same under any
      interrupts.
    - Locks (KernelLocks.v): no [lock()] of the kernel ever waits for a lock
      that is taken, a panic can always print its message, and threads are
      switched with no lock taken, whatever interrupts come and however the
      threads interleave.
    - Tests (FaultRecovery.v, Integration.v, HeapTests.v, TestRunner.v): on
      any machine with enough memory the kernel passes the two fault-recovery
      tests and five other integration tests, the tests of the heap hold on
      any heap, and the harness reports what happened.  The 83 unit tests are
      evaluated on example libraries, as a check of the model (TestsThms.v).
    - Defects: a system call can name an unmapped page and panic the kernel
      ([user_window_hole]); the one privilege stack lets two threads in
      system calls overwrite each other's frames ([privilege_stack_shared]); a
      second process can never be set up ([create_process_sets_up]); more
      than a hundred scancodes that arrive inside one poll of the keyboard
      task, each just after the waker is registered, overflow the executor's
      queue ([ready_queue_overflow]); a thread that is switched to
      from a trap goes on with interrupts off
      ([trap_switch_interrupts_off]); a byte of 0x80 or more written to the
      console takes two cells ([console_write_shows]).

    ** Bounds and fuel

    Walks of the free list have one step per header in memory and one more
    ([walk_fuel]); the invariant shows no list is longer.  [next_frame] has
    one turn per memory region.  The ready loop gets one turn per wake-up
    queued or still to be caused, under the assumption that these fit the
    queue of 100.  A poll of the keyboard task gets enough turns for every
    scancode queued or still to arrive in it ([poll_fuel]); that no poll panics
    assumes at most 98 keyboard interrupts inside polls over the whole run
    (timer interrupts, and interrupts between polls, are not bounded), and [ready_queue_overflow] shows
    why there is a bound.  The demo programs get one step per instruction
    executed (eight, two) and [drive] ten turns, and the theorems hold for
    every larger fuel.  A number printed has at most 20 decimal or 16 hexadecimal
    digits, as a [u64] has.  The loops of the unit tests run on concrete data
    and get the turns they need.
    None of the theorems is conditional on the fuel having been enough.

    ** Not modelled

    - The nodes of [BTreeMap] and [VecDeque]: the registry, the ready queue and
      the thread table are maps and lists that take no heap, so that running
      out of heap shows only where the kernel allocates itself.  KernelLocks.v
      does count their allocations as uses of the heap's lock.
    - What functions log, except in Logger.v, in the tests about the log and
      in KernelLocks.v: the log goes to the serial port and nothing reads it
      back.
    - The one-time initialisation of [lazy_static] statics.
    - Compiled Rust code: of it only the stack use and the calling convention
      appear, as arguments of the theorems.
    - The contents of heap blocks: that a client's data survives is the
      separation of the blocks, and the tests that read values back are
      checked for their lengths and counts only.
    - Interrupts between the steps of the test kernels, except where a test
      halts to wait for one.
    - Concurrency of several CPUs: the kernel starts one.
    - The unused [KernelStack] and [UserContext] of process.rs; the panic
      handler of main.rs, which prints the message and halts; of src/tests
      stack_overflow.rs, which overflows the boot stack on purpose; the heap
      that the executors and queues of the integration tests take. *)

From Stdlib Require Import ZArith Lia Znumtheory.
From stdpp Require Import base gmap list strings numbers.

Open Scope Z_scope.

(** ** Outcomes of Rust code

    A Rust computation returns a value, panics (an [expect], an assertion or
    an arithmetic overflow check of the dev profile), or leaves the defined
    part of the language.  [Undef] is the last case: a read of a header that
    is not in memory.  [Diverge] is a loop that used up its fuel. *)

Inductive outcome (A : Type) : Type :=
| Ok (a : A)
| Panic (msg : string)
| Undef
| Diverge.

Arguments Ok {A} a.
Arguments Panic {A} msg.
Arguments Undef {A}.
Arguments Diverge {A}.

#[global] Instance outcome_ret : MRet outcome := @Ok.

#[global] Instance outcome_bind : MBind outcome := λ A B f m,
  match m with
  | Ok a => f a
  | Panic s => Panic s
  | Undef => Undef
  | Diverge => Diverge
  end.

(** [assert!(b, msg)], [debug_assert!(b, msg)]. *)
Definition rust_assert (b : bool) (msg : string) : outcome unit :=
  if b then Ok tt else Panic msg.

(** [o.expect(msg)]. *)
Definition expect {A} (o : option A) (msg : string) : outcome A :=
  match o with Some a => Ok a | None => Panic msg end.

(** ** 64-bit unsigned arithmetic

    [usize] and [u64] are both 64 bits wide on the kernel's target. *)

Definition u64_modulus : Z := 18446744073709551616.
Definition u64_max : Z := 18446744073709551615.

Definition is_u64 (x : Z) : Prop := 0 <= x < u64_modulus.

(** [a + b], [a - b] and [a * b] with the dev profile's overflow checks. *)
Definition add_u64 (a b : Z) : outcome Z :=
  if a + b <? u64_modulus then Ok (a + b)
  else Panic "attempt to add with overflow".

Definition sub_u64 (a b : Z) : outcome Z :=
  if b <=? a then Ok (a - b)
  else Panic "attempt to subtract with overflow".

Definition mul_u64 (a b : Z) : outcome Z :=
  if a * b <? u64_modulus then Ok (a * b)
  else Panic "attempt to multiply with overflow".

(** [a.checked_add(b)], [a.saturating_add(b)], [a.saturating_sub(b)]. *)
Definition checked_add (a b : Z) : option Z :=
  if a + b <? u64_modulus then Some (a + b) else None.

Definition saturating_add (a b : Z) : Z := Z.min (a + b) u64_max.

Definition saturating_sub (a b : Z) : Z := Z.max (a - b) 0.

(** [fetch_add] and [fetch_sub] of an atomic wrap around. *)
Definition wrapping_add (a b : Z) : Z := (a + b) mod u64_modulus.

Definition wrapping_sub (a b : Z) : Z := (a - b) mod u64_modulus.

(** [!x] on a [u64]. *)
Definition not_u64 (x : Z) : Z := Z.lxor x u64_max.

(** ** Lemmas on outcomes and arithmetic *)

Create HintDb apogee.

Lemma add_u64_ok a b : a + b < u64_modulus → add_u64 a b = Ok (a + b).
Proof. intros H. unfold add_u64. by rewrite (proj2 (Z.ltb_lt _ _) H). Qed.

Lemma sub_u64_ok a b : b <= a → sub_u64 a b = Ok (a - b).
Proof. intros H. unfold sub_u64. by rewrite (proj2 (Z.leb_le _ _) H). Qed.

Lemma mul_u64_ok a b : a * b < u64_modulus → mul_u64 a b = Ok (a * b).
Proof. intros H. unfold mul_u64. by rewrite (proj2 (Z.ltb_lt _ _) H). Qed.

Lemma checked_add_Some a b : a + b < u64_modulus → checked_add a b = Some (a + b).
Proof. intros H. unfold checked_add. by rewrite (proj2 (Z.ltb_lt _ _) H). Qed.

Lemma wrapping_sub_ok a b : 0 <= a - b < u64_modulus → wrapping_sub a b = a - b.
Proof. intros. unfold wrapping_sub. by apply Z.mod_small. Qed.

Lemma wrapping_add_ok a b : 0 <= a + b < u64_modulus → wrapping_add a b = a + b.
Proof. intros. unfold wrapping_add. by apply Z.mod_small. Qed.

Lemma rust_assert_true b msg : b = true → rust_assert b msg = Ok tt.
Proof. by intros ->. Qed.

(** The value of a computation known to return, for concrete runs. *)
Definition is_ok {A} (o : outcome A) : bool := match o with Ok _ => true | _ => false end.

Definition value {A} (d : A) (o : outcome A) : A := match o with Ok a => a | _ => d end.

Lemma value_ok {A} (d : A) o : is_ok o = true → o = Ok (value d o).
Proof. by destruct o. Qed.

(** [bind_ok] steps over one bind whose head is known to return. *)
Lemma bind_ok {A B} (m : outcome A) (a : A) (f : A → outcome B) :
  m = Ok a → (m ≫= f) = f a.
Proof. by intros ->. Qed.

Lemma bind_inv {A B} (m : outcome A) (f : A → outcome B) b :
  (m ≫= f) = Ok b → ∃ a, m = Ok a ∧ f a = Ok b.
Proof. destruct m; simpl; intros; try discriminate; eauto. Qed.

(** [binds] splits every hypothesis that says a bind returned. *)
Ltac binds :=
  repeat match goal with
  | H : (_ ≫= _) = Ok _ |- _ =>
      let a := fresh "a" in let Ha := fresh "Ha" in
      apply bind_inv in H; destruct H as (a & Ha & H)
  end.

(** [bstep] reduces a bind whose head is a value, and nothing else. *)
Ltac bstep := cbn [mbind outcome_bind].

(** Boolean comparisons on [Z] turned into propositions, then [lia]. *)
Ltac zbool :=
  repeat match goal with
  | H : (_ <? _) = true |- _ => apply Z.ltb_lt in H
  | H : (_ <? _) = false |- _ => apply Z.ltb_ge in H
  | H : (_ <=? _) = true |- _ => apply Z.leb_le in H
  | H : (_ <=? _) = false |- _ => apply Z.leb_gt in H
  | H : (_ =? _) = true |- _ => apply Z.eqb_eq in H
  | H : (_ =? _) = false |- _ => apply Z.eqb_neq in H
  | H : (_ && _)%bool = true |- _ => apply andb_prop in H; destruct H
  end.

Ltac zcase e :=
  let E := fresh "E" in destruct e eqn:E; zbool.

(** Closed decidable facts, by computation. *)
Ltac by_decide := refine (bool_decide_unpack _ _); vm_compute; exact I.

#[export] Hint Resolve add_u64_ok sub_u64_ok mul_u64_ok checked_add_Some : apogee.

(** ** Powers of two and masks *)

Definition is_pow2 (a : Z) : Prop := ∃ k, 0 <= k ∧ a = 2 ^ k.

Lemma is_pow2_pos a : is_pow2 a → 0 < a.
Proof. intros (k & Hk & ->). apply Z.pow_pos_nonneg; lia. Qed.

Lemma u64_max_ones : u64_max = Z.ones 64.
Proof. reflexivity. Qed.

(** [x & !(2^k - 1)] clears the low [k] bits. *)
Lemma land_not_mask x k :
  0 <= k <= 64 → is_u64 x →
  Z.land x (not_u64 (2 ^ k - 1)) = x - x mod 2 ^ k.
Proof.
  intros Hk Hx. unfold not_u64. rewrite u64_max_ones.
  replace (2 ^ k - 1) with (Z.ones k) by (rewrite Z.ones_equiv; lia).
  rewrite <- Z.land_ones by lia.
  replace (x - Z.land x (Z.ones k)) with (Z.ldiff x (Z.ones k)).
  2:{ rewrite <- (Z.lor_ldiff_and x (Z.ones k)) at 2.
      rewrite <- Z.lxor_lor, <- Z.add_nocarry_lxor.
      - lia.
      - apply Z.bits_inj'. intros n Hn.
        rewrite !Z.land_spec, Z.ldiff_spec, Z.bits_0.
        destruct (Z.testbit x n), (Z.testbit (Z.ones k) n); reflexivity.
      - apply Z.bits_inj'. intros n Hn.
        rewrite !Z.land_spec, Z.ldiff_spec, Z.bits_0.
        destruct (Z.testbit x n), (Z.testbit (Z.ones k) n); reflexivity. }
  apply Z.bits_inj'. intros n Hn.
  rewrite Z.land_spec, Z.lxor_spec, Z.ldiff_spec.
  destruct (Z.lt_ge_cases n 64) as [Hlt|Hge].
  - rewrite (Z.ones_spec_low 64 n) by lia. by rewrite xorb_true_r.
  - assert (Z.testbit x n = false) as ->; [|reflexivity].
    destruct (decide (x = 0)) as [->|Hne]; [apply Z.bits_0|].
    apply Z.bits_above_log2; [unfold is_u64 in Hx; lia|].
    apply Z.log2_lt_pow2; [unfold is_u64 in Hx; lia|].
    apply Z.lt_le_trans with u64_modulus; [unfold is_u64 in Hx; lia|].
    change u64_modulus with (2 ^ 64). apply Z.pow_le_mono_r; lia.
Qed.

Lemma round_down_divide x a : 0 < a → (a | x - x mod a).
Proof. intros Ha. exists (x / a). pose proof (Z.div_mod x a). lia. Qed.

Lemma round_up_least x a y :
  0 < a → (a | y) → x <= y → (x + a - 1) - (x + a - 1) mod a <= y.
Proof.
  intros Ha [q ->] Hle.
  pose proof (Z.div_mod (x + a - 1) a ltac:(lia)) as Hdm.
  pose proof (Z.mod_pos_bound (x + a - 1) a Ha).
  assert ((x + a - 1) / a < q + 1); [|nia].
  apply Z.div_lt_upper_bound; nia.
Qed.

Lemma round_up_ge x a : 0 < a → x <= (x + a - 1) - (x + a - 1) mod a.
Proof. intros Ha. pose proof (Z.mod_pos_bound (x + a - 1) a Ha). lia. Qed.

Lemma round_up_id x a : 0 < a → (a | x) → (x + a - 1) - (x + a - 1) mod a = x.
Proof.
  intros Ha Hd. pose proof (round_up_least x a x Ha Hd).
  pose proof (round_up_ge x a Ha). lia.
Qed.

Lemma pow2_divide a b : is_pow2 a → is_pow2 b → a <= b → (a | b).
Proof.
  intros (j & Hj & ->) (k & Hk & ->) Hle.
  assert (j <= k) by (apply (Z.pow_le_mono_r_iff 2); lia).
  exists (2 ^ (k - j)). rewrite <- Z.pow_add_r by lia. f_equal. lia.
Qed.

Lemma is_pow2_max a b : is_pow2 a → is_pow2 b → is_pow2 (Z.max a b).
Proof. intros. destruct (Z.max_spec a b) as [[_ ->]|[_ ->]]; done. Qed.

Lemma is_pow2_lit k : 0 <= k → is_pow2 (2 ^ k).
Proof. intros. by exists k. Qed.

(** ** Lists *)

Lemma take_take_app {A} n (X Y : list A) : take n (take n X ++ Y) = take n (X ++ Y).
Proof.
  destruct (decide (length X <= n)%nat); [by rewrite (take_ge X) by done|].
  rewrite (take_app_le X) by lia. rewrite (take_app_le (take _ X)) by (rewrite length_take; lia).
  rewrite take_take. f_equal. lia.
Qed.

Lemma elem_middle {A} (x : A) l1 l2 : x ∈ l1 ++ x :: l2.
Proof. apply elem_of_app. right. left. Qed.

Lemma elem_middle2 {A} (x y : A) l1 l2 : x ∈ l1 ++ y :: x :: l2.
Proof. apply elem_of_app. right. right. left. Qed.

Lemma Forall2_impl_r {A B} (P Q : A → B → Prop) l k :
  Forall2 P l k → (∀ x y, y ∈ k → P x y → Q x y) → Forall2 Q l k.
Proof.
  induction 1 as [|x y l k Hxy _ IH]; intros H; constructor.
  - apply H; [left|done].
  - apply IH. intros a b Hb. apply H. by right.
Qed.

Lemma Forall_elem {A} (P : A → Prop) l : Forall P l ↔ ∀ x, x ∈ l → P x.
Proof.
  rewrite Forall_forall. split; intros H x Hx; apply H; by apply list_elem_of_In.
Qed.

#[export] Hint Resolve elem_middle elem_middle2 : apogee.
