(* ===== verification/Fmt.v ===== *)
(** * Formatting

    What the kernel uses of [core::fmt]: the bytes of string literals, [{}]
    and [{:#x}] of unsigned integers, and the UTF-8 encoding of a [char].  A
    formatted message is the list of the pieces [write_fmt] passes to
    [write_str], in order. *)

From Stdlib Require Import ZArith Lia.
From stdpp Require Import base list strings numbers.
From S2P Require Import Prelude.

Open Scope Z_scope.

(** The bytes of a literal. *)
Fixpoint bytes (s : string) : list Z :=
  match s with
  | EmptyString => []
  | String c s => Z.of_N (Ascii.N_of_ascii c) :: bytes s
  end.

Definition newline : list Z := [10].

(** ** Integers *)

(** The digit [d], as [0]-[9] and [a]-[z]. *)
Definition digit (d : Z) : Z := if d <? 10 then 48 + d else 87 + d.

(** The digits of [n], most significant first, without leading zeros. *)
Fixpoint digits (fuel : nat) (base n : Z) : list Z :=
  match fuel with
  | O => []
  | S fuel => (if n / base =? 0 then [] else digits fuel base (n / base)) ++ [digit (n mod base)]
  end.

(** [{}] and [{:#x}] of a [u64] or [usize]; 20 decimal and 16 hexadecimal
    digits hold any of them. *)
Definition fmt_dec (n : Z) : list Z := digits 20 10 n.
Definition fmt_hex (n : Z) : list Z := bytes "0x" ++ digits 16 16 n.

(** The number a digit stands for, and the one a list of digits does. *)
Definition digit_value (c : Z) : Z := if c <? 58 then c - 48 else c - 87.
Definition digits_value (base : Z) (ds : list Z) : Z :=
  foldl (λ n c, n * base + digit_value c) 0 ds.

Lemma digit_value_digit d : 0 <= d < 36 → digit_value (digit d) = d.
Proof. intros Hd. unfold digit, digit_value. repeat case_match; zbool; lia. Qed.

Lemma digits_value_digits fuel base n :
  2 <= base <= 36 → 0 <= n < base ^ Z.of_nat fuel → digits_value base (digits fuel base n) = n.
Proof.
  intros Hb. revert n. induction fuel as [|fuel IH]; intros n Hn.
  { change (base ^ Z.of_nat 0) with 1 in Hn. cbn. lia. }
  rewrite Nat2Z.inj_succ, Z.pow_succ_r in Hn by lia. cbn [digits]. unfold digits_value.
  rewrite foldl_app. cbn [foldl]. rewrite digit_value_digit by (pose proof (Z.mod_pos_bound n base); lia).
  fold (digits_value base (if n / base =? 0 then [] else digits fuel base (n / base))).
  assert (digits_value base (if n / base =? 0 then [] else digits fuel base (n / base)) = n / base) as ->.
  { destruct (Z.eqb_spec (n / base) 0) as [->|]; [done|]. apply IH.
    split; [apply Z.div_pos; lia|apply Z.div_lt_upper_bound; lia]. }
  pose proof (Z.div_mod n base). lia.
Qed.

Lemma digits_head fuel base n d :
  2 <= base <= 36 → 0 < n < base ^ Z.of_nat fuel → head (digits fuel base n) = Some d → d ≠ 48.
Proof.
  intros Hb. revert n. induction fuel as [|fuel IH]; intros n Hn; [done|].
  rewrite Nat2Z.inj_succ, Z.pow_succ_r in Hn by lia. cbn [digits].
  destruct (Z.eqb_spec (n / base) 0) as [E|E].
  - intros [= <-]. pose proof (Z.div_mod n base). unfold digit. case_match; zbool; nia.
  - assert (0 <= n / base) by (apply Z.div_pos; lia). intros Hd. apply (IH (n / base)).
    + split; [lia|apply Z.div_lt_upper_bound; lia].
    + destruct fuel as [|fuel].
      * change (base ^ Z.of_nat 0) with 1 in Hn. pose proof (Z.div_lt_upper_bound n base 1). lia.
      * destruct (digits (S fuel) base (n / base)) eqn:El; [|done]. cbn [digits] in El.
        by apply app_nil in El as [_ ?].
Qed.

(** The formatted integer reads back as the number, and has no leading
    zero. *)
Lemma fmt_dec_value n :
  is_u64 n → digits_value 10 (fmt_dec n) = n ∧ (n ≠ 0 → head (fmt_dec n) ≠ Some 48).
Proof.
  intros Hn. unfold is_u64, u64_modulus in Hn. split; [apply digits_value_digits; simpl; lia|].
  intros Hne Hd. by apply (digits_head 20 10 n) in Hd; [|lia|simpl; lia].
Qed.

Lemma fmt_hex_value n :
  is_u64 n → ∃ ds, fmt_hex n = bytes "0x" ++ ds ∧ digits_value 16 ds = n.
Proof.
  intros Hn. unfold is_u64, u64_modulus in Hn. eexists. split; [done|].
  apply digits_value_digits; simpl; lia.
Qed.

(** ** Characters *)

(** [char::encode_utf8] *)
Definition encode_utf8 (c : Z) : list Z :=
  if c <? 0x80 then [c]
  else if c <? 0x800 then [Z.lor 0xC0 (Z.shiftr c 6); Z.lor 0x80 (Z.land c 0x3F)]
  else if c <? 0x10000 then
    [Z.lor 0xE0 (Z.shiftr c 12); Z.lor 0x80 (Z.land (Z.shiftr c 6) 0x3F); Z.lor 0x80 (Z.land c 0x3F)]
  else
    [Z.lor 0xF0 (Z.shiftr c 18); Z.lor 0x80 (Z.land (Z.shiftr c 12) 0x3F);
     Z.lor 0x80 (Z.land (Z.shiftr c 6) 0x3F); Z.lor 0x80 (Z.land c 0x3F)].
