(* ===== verification/AllocMod.v ===== *)
(** * The allocator module: constants, layouts, [align_up], the contract

    Models src/src/allocator/mod.rs (the heap's constants, [align_up]) and the
    parts of [core::alloc] the allocators use: [Layout] and the contract of
    [GlobalAlloc].  The contract is the class [GlobalAllocSpec]: what an
    allocator promises to its clients, stated once, implemented by the bump,
    linked-list and fixed-size-block allocators, and used by the client
    theorems at the end of this file. *)

From Stdlib Require Import ZArith Lia.
From stdpp Require Import base gmap list strings numbers.
From S2P Require Import Prelude.

Open Scope Z_scope.

(** ** Constants *)

Definition HEAP_START : Z := 0x444444440000.
Definition HEAP_SIZE : Z := 100 * 1024.

(** The heap lies in the lower half of the address space; [HEAP_START] does. *)
Definition addr_limit : Z := 9223372036854775808.

(** ** [Layout]

    [Layout::from_size_align] accepts a power-of-two alignment and a size
    that, rounded up to it, does not exceed [isize::MAX]. *)

Record Layout := mkLayout { l_size : Z; l_align : Z }.

Definition isize_max : Z := 9223372036854775807.

Definition is_power_of_two (a : Z) : bool :=
  (0 <? a) && (a =? 2 ^ Z.log2 a).

Definition from_size_align (size align : Z) : option Layout :=
  if negb (is_power_of_two align) then None
  else if isize_max + 1 - align <? size then None
  else Some (mkLayout size align).

Definition layout_ok (l : Layout) : Prop :=
  0 <= l_size l ∧ is_pow2 (l_align l) ∧ l_size l + l_align l <= isize_max + 1.

(** ** [align_up] *)

Definition align_up (addr align : Z) : outcome Z :=
  s ← add_u64 addr align;
  s' ← sub_u64 s 1;
  m ← sub_u64 align 1;
  Ok (Z.land s' (not_u64 m)).

(** The reference definition: the least multiple of [align] that is at least
    [addr]. *)
Definition round_up (addr align : Z) : Z :=
  (addr + align - 1) / align * align.

Lemma round_up_eq x a : 0 < a → round_up x a = (x + a - 1) - (x + a - 1) mod a.
Proof. intros. unfold round_up. pose proof (Z.div_mod (x + a - 1) a). lia. Qed.

Lemma round_up_div x a : 0 < a → (a | round_up x a).
Proof. intros. by exists ((x + a - 1) / a). Qed.

Lemma round_up_bounds x a : 0 < a → x <= round_up x a < x + a.
Proof.
  intros. rewrite round_up_eq by done.
  pose proof (Z.mod_pos_bound (x + a - 1) a). lia.
Qed.

Lemma round_up_min x a y : 0 < a → (a | y) → x <= y → round_up x a <= y.
Proof. intros. rewrite round_up_eq by done. by apply round_up_least. Qed.

Lemma round_up_fix x a : 0 < a → (a | x) → round_up x a = x.
Proof. intros. rewrite round_up_eq by done. by apply round_up_id. Qed.

Lemma align_up_ok addr align :
  is_pow2 align → 0 <= addr → addr + align < u64_modulus →
  align_up addr align = Ok (round_up addr align).
Proof.
  intros Hp Ha Hb. pose proof (is_pow2_pos _ Hp) as Hpos.
  unfold align_up. rewrite add_u64_ok by lia. simpl.
  rewrite !sub_u64_ok by lia. simpl. f_equal.
  rewrite round_up_eq by lia. destruct Hp as (k & Hk & ->).
  apply land_not_mask; [|unfold is_u64; lia].
  split; [done|]. apply (Z.pow_le_mono_r_iff 2); [lia..|].
  unfold u64_modulus in Hb. lia.
Qed.

Lemma is_power_of_two_spec a : is_power_of_two a = true ↔ is_pow2 a.
Proof.
  unfold is_power_of_two. rewrite andb_true_iff, Z.ltb_lt, Z.eqb_eq. split.
  - intros [Hpos Heq]. exists (Z.log2 a). split; [apply Z.log2_nonneg|done].
  - intros (k & Hk & ->). split; [apply Z.pow_pos_nonneg; lia|].
    by rewrite Z.log2_pow2.
Qed.

Lemma from_size_align_ok size align l :
  0 <= size → from_size_align size align = Some l →
  layout_ok l ∧ l = mkLayout size align.
Proof.
  unfold from_size_align, layout_ok. intros Hs.
  destruct (is_power_of_two align) eqn:Hp; simpl; [|done].
  apply is_power_of_two_spec in Hp. case_match eqn:E; [done|]. zbool.
  intros [= <-]. simpl. split_and!; try done. lia.
Qed.

#[export] Hint Resolve is_pow2_pos round_up_div : apogee.

(** ** The contract of a global allocator

    A client owns the blocks it was given and has not returned: a map from
    the address of a block to the layout it was requested with. *)

Definition apart (a n b m : Z) : Prop := a + n <= b ∨ b + m <= a.

(** What [GlobalAlloc] asks of a request: a valid layout of nonzero size. *)
Definition request_ok (l : Layout) : Prop := layout_ok l ∧ 0 < l_size l.

(** What a client may rely on: its blocks lie in the heap, are aligned as
    requested, and do not overlap. *)
Definition live_ok (lo hi : Z) (live : gmap Z Layout) : Prop :=
  (∀ p l, live !! p = Some l →
     lo <= p ∧ p + l_size l <= hi ∧ (l_align l | p)) ∧
  (∀ p l q k, live !! p = Some l → live !! q = Some k → p ≠ q →
     apart p (l_size l) q (l_size k)).

Section contract.
Context (S : Type).
(** The allocator's two operations, and the effect on its state of a client
    that writes [n] bytes at [a]. *)
Context (alloc : S → Layout → outcome (Z * S)).
Context (dealloc : S → Z → Layout → outcome S).
Context (scribble : S → Z → Z → S).

Class GlobalAllocSpec := {
  ga_inv : Z → Z → S → gmap Z Layout → Prop;
  ga_alloc : ∀ lo hi s live l, ga_inv lo hi s live → request_ok l →
    ∃ p s', alloc s l = Ok (p, s') ∧
      ((p = 0 ∧ ga_inv lo hi s' live) ∨
       (p ≠ 0 ∧ live !! p = None ∧ ga_inv lo hi s' (<[p:=l]> live)));
  ga_dealloc : ∀ lo hi s live p l, ga_inv lo hi s live → live !! p = Some l →
    ∃ s', dealloc s p l = Ok s' ∧ ga_inv lo hi s' (delete p live);
  ga_write : ∀ lo hi s live p l a n, ga_inv lo hi s live → live !! p = Some l →
    p <= a → 0 <= n → a + n <= p + l_size l → ga_inv lo hi (scribble s a n) live;
  ga_live : ∀ lo hi s live, ga_inv lo hi s live → live_ok lo hi live;
}.

(** A client: it requests blocks, frees blocks it owns, and writes inside
    blocks it owns. *)
Inductive client_op :=
| CAlloc (l : Layout)
| CFree (p : Z)
| CWrite (p off n : Z).

Definition client_step (st : S * gmap Z Layout) (op : client_op)
  : outcome (S * gmap Z Layout) :=
  let '(s, live) := st in
  match op with
  | CAlloc l =>
      '(p, s') ← alloc s l;
      Ok (s', if p =? 0 then live else <[p:=l]> live)
  | CFree p =>
      match live !! p with
      | None => Ok (s, live)
      | Some l => s' ← dealloc s p l; Ok (s', delete p live)
      end
  | CWrite p off n =>
      match live !! p with
      | None => Ok (s, live)
      | Some l =>
          if (0 <=? off) && (0 <=? n) && (off + n <=? l_size l)
          then Ok (scribble s (p + off) n, live) else Ok (s, live)
      end
  end.

Fixpoint client_run (st : S * gmap Z Layout) (ops : list client_op)
  : outcome (S * gmap Z Layout) :=
  match ops with
  | [] => Ok st
  | op :: ops => st' ← client_step st op; client_run st' ops
  end.

Definition op_ok (op : client_op) : Prop :=
  match op with CAlloc l => request_ok l | _ => True end.

Context `{GlobalAllocSpec}.

Lemma client_step_safe lo hi s live op :
  ga_inv lo hi s live → op_ok op →
  ∃ s' live', client_step (s, live) op = Ok (s', live') ∧ ga_inv lo hi s' live'.
Proof.
  intros Hinv Hop. destruct op as [l|p|p off n]; simpl.
  - destruct (ga_alloc lo hi s live l Hinv Hop)
      as (p & s' & -> & [[-> Hi]|(Hne & _ & Hi)]); simpl; [eauto|].
    rewrite (proj2 (Z.eqb_neq p 0) Hne). eauto.
  - destruct (live !! p) as [l|] eqn:Hp; [|eauto].
    destruct (ga_dealloc lo hi s live p l Hinv Hp) as (s' & -> & Hi). simpl. eauto.
  - destruct (live !! p) as [l|] eqn:Hp; [|eauto].
    case_match eqn:E; [|eauto]. zbool.
    do 2 eexists. split; [done|]. apply (ga_write lo hi s live p l); auto; lia.
Qed.

(** Against any allocator that meets the contract, a client's run never
    panics and never meets undefined behaviour. *)
Lemma client_run_safe lo hi ops s live :
  ga_inv lo hi s live → Forall op_ok ops →
  ∃ s' live', client_run (s, live) ops = Ok (s', live') ∧
    ga_inv lo hi s' live' ∧ live_ok lo hi live'.
Proof.
  revert s live. induction ops as [|op ops IH]; intros s live Hinv Hops; cbn [client_run].
  { eauto 6 using ga_live. }
  inversion_clear Hops.
  destruct (client_step_safe lo hi s live op) as (s' & live' & -> & Hi); [done..|].
  cbn. by apply IH.
Qed.
End contract.

Arguments ga_inv {S alloc dealloc scribble _}.
Arguments ga_alloc {S alloc dealloc scribble _}.
Arguments ga_dealloc {S alloc dealloc scribble _}.
Arguments ga_write {S alloc dealloc scribble _}.
Arguments ga_live {S alloc dealloc scribble _}.
