(* ===== verification/FreeList.v ===== *)
(** * Free regions as lists: the abstract side of the linked-list allocator

    The free list of src/src/allocator/linkedlist.rs, seen as the list of its
    regions [(start, size)].  This file gives the reference definitions of
    insertion, coalescing and first fit on such lists, the invariant of a
    free list, and its laws.  [LinkedList] proves that the pointer code
    computes these functions. *)

From Stdlib Require Import ZArith Lia.
From stdpp Require Import base gmap list numbers.
From S2P Require Import Prelude AllocMod.

Open Scope Z_scope.

(** [mem::size_of::<ListNode>()] and [mem::align_of::<ListNode>()]. *)
Definition MIN_BLOCK : Z := 16.
Definition NODE_ALIGN : Z := 8.

Abbreviation region := (Z * Z)%type.

(** ** Reference operations *)

Fixpoint insert_region (a s : Z) (l : list region) : list region :=
  match l with
  | [] => [(a, s)]
  | (b, t) :: l' =>
      if b <? a then (b, t) :: insert_region a s l' else (a, s) :: l
  end.

(** Merge [(a, s)] with the regions of [l] that touch it, and so on. *)
Fixpoint merge_into (a s : Z) (l : list region) : list region :=
  match l with
  | [] => [(a, s)]
  | (b, t) :: l' =>
      if b =? a + s then merge_into a (s + t) l' else (a, s) :: merge_into b t l'
  end.

Definition coalesce_regions (l : list region) : list region :=
  match l with [] => [] | (a, s) :: l' => merge_into a s l' end.

Definition add_region (a s : Z) (l : list region) : list region :=
  coalesce_regions (insert_region a s l).

(** A leftover is put back only when it can hold a header. *)
Definition add_leftover (a s : Z) (l : list region) : list region :=
  if MIN_BLOCK <=? s then add_region a s l else l.

Definition fits (size align : Z) (r : region) : bool :=
  round_up r.1 align + size <=? r.1 + r.2.

(** The first region that fits, with the regions before and after it. *)
Fixpoint first_fit (size align : Z) (l : list region)
  : option (list region * region * list region) :=
  match l with
  | [] => None
  | r :: l' =>
      if fits size align r then Some ([], r, l')
      else match first_fit size align l' with
           | Some (l1, r', l2) => Some (r :: l1, r', l2)
           | None => None
           end
  end.

Definition alloc_region (size align : Z) (l : list region) : option (Z * list region) :=
  match first_fit size align l with
  | None => None
  | Some (l1, (a, s), l2) =>
      let p := round_up a align in
      Some (p, add_leftover (p + size) (a + s - (p + size))
                 (add_leftover a (p - a) (l1 ++ l2)))
  end.

Definition total_bytes (l : list region) : Z := foldr (λ r n, r.2 + n) 0 l.

(** ** The invariant *)

(** The bytes that belong to some region. *)
Fixpoint covers (l : list region) (x : Z) : Prop :=
  match l with
  | [] => False
  | (a, s) :: l' => a <= x < a + s ∨ covers l' x
  end.

Definition clear_of (l : list region) (p n : Z) : Prop :=
  ∀ x, p <= x < p + n → ¬ covers l x.

(** Ascending, disjoint, inside [[lo, hi)], each region aligned for a header
    and large enough for one. *)
Fixpoint ordered (lo hi : Z) (l : list region) : Prop :=
  match l with
  | [] => lo <= hi
  | (a, s) :: l' => lo <= a ∧ MIN_BLOCK <= s ∧ (NODE_ALIGN | a) ∧ ordered (a + s) hi l'
  end.

(** No two neighbours touch: the list is fully coalesced. *)
Fixpoint separated (l : list region) : Prop :=
  match l with
  | (a, s) :: (((b, _) :: _) as l') => a + s < b ∧ separated l'
  | _ => True
  end.

Definition free_wf (lo hi : Z) (l : list region) : Prop :=
  ordered lo hi l ∧ separated l.

(** ** Ordered lists *)

Lemma ordered_le lo hi l : ordered lo hi l → lo <= hi.
Proof.
  revert lo. induction l as [|[a s] l IH]; simpl; intros lo H; [done|].
  destruct H as (H1 & H2 & _ & H3%IH). unfold MIN_BLOCK in *. lia.
Qed.

Lemma ordered_weaken lo lo' hi l : lo' <= lo → ordered lo hi l → ordered lo' hi l.
Proof. destruct l as [|[a s] l]; simpl; intuition lia. Qed.

Lemma ordered_covers lo hi l x : ordered lo hi l → covers l x → lo <= x < hi.
Proof.
  revert lo. induction l as [|[a s] l IH]; simpl; [done|].
  intros lo (H1 & H2 & _ & H3) [Hx|Hx].
  - apply ordered_le in H3. lia.
  - specialize (IH _ H3 Hx). unfold MIN_BLOCK in *. lia.
Qed.

Lemma ordered_app lo hi l1 l2 :
  ordered lo hi (l1 ++ l2) ↔ ∃ mid, ordered lo mid l1 ∧ ordered mid hi l2.
Proof.
  revert lo. induction l1 as [|[a s] l1 IH]; intros lo; simpl.
  - split.
    + intros H. exists lo. split; [lia|done].
    + intros (mid & Hle & H). by eapply ordered_weaken.
  - setoid_rewrite IH. split.
    + intros (H1 & H2 & H3 & mid & H4 & H5). eauto 10.
    + intros (mid & (H1 & H2 & H3 & H4) & H5). eauto 10.
Qed.

Lemma covers_app l1 l2 x : covers (l1 ++ l2) x ↔ covers l1 x ∨ covers l2 x.
Proof. induction l1 as [|[a s] l1 IH]; simpl; [tauto|]. rewrite IH. tauto. Qed.

Lemma ordered_in lo hi l a s :
  ordered lo hi l → (a, s) ∈ l →
  lo <= a ∧ MIN_BLOCK <= s ∧ (NODE_ALIGN | a) ∧ a + s <= hi.
Proof.
  intros Ho (l1 & l2 & ->)%list_elem_of_split.
  apply ordered_app in Ho. destruct Ho as (mid & H1 & H2 & H3 & H4 & H5).
  apply ordered_le in H1, H5. split_and!; auto; lia.
Qed.

Lemma covers_in l a s x : (a, s) ∈ l → a <= x < a + s → covers l x.
Proof.
  intros (l1 & l2 & ->)%list_elem_of_split Hx.
  apply covers_app. right. simpl. auto.
Qed.

Lemma clear_in l a s p n :
  clear_of l p n → (a, s) ∈ l → 0 < s → 0 < n → apart a s p n.
Proof.
  intros Hc Hin Hs Hn. unfold apart.
  destruct (decide (a + s <= p)); [by left|]. destruct (decide (p + n <= a)); [by right|].
  exfalso. apply (Hc (Z.max a p)); [lia|]. eapply covers_in; [done|lia].
Qed.

(** ** Insertion *)

Lemma insert_covers a s l x :
  covers (insert_region a s l) x ↔ a <= x < a + s ∨ covers l x.
Proof.
  induction l as [|[b t] l IH]; simpl; [tauto|].
  case_match; simpl; [rewrite IH|]; tauto.
Qed.

Lemma insert_ordered lo hi a s l :
  ordered lo hi l → lo <= a → a + s <= hi → MIN_BLOCK <= s → (NODE_ALIGN | a) →
  clear_of l a s → ordered lo hi (insert_region a s l).
Proof.
  unfold MIN_BLOCK. revert lo. induction l as [|[b t] l IH]; intros lo Ho Hlo Hhi Hs Ha Hc; simpl.
  { auto with lia. }
  destruct Ho as (H1 & H2 & H3 & H4). unfold MIN_BLOCK in *. zcase (b <? a); simpl.
  - split_and!; auto. apply IH; auto.
    + destruct (decide (b + t <= a)); [done|]. exfalso.
      apply (Hc a); [lia|]. left. lia.
    + intros x Hx Hcov. apply (Hc x); [done|]. by right.
  - split_and!; auto.
    destruct (decide (a + s <= b)); [done|]. exfalso.
    apply (Hc b); [lia|]. left. lia.
Qed.

Lemma insert_total a s l : total_bytes (insert_region a s l) = s + total_bytes l.
Proof.
  induction l as [|[b t] l IH]; simpl; [done|].
  case_match; simpl; unfold total_bytes in *; simpl in *; lia.
Qed.

(** ** Coalescing *)

Lemma merge_covers a s l x :
  0 <= s → (∀ b t, (b, t) ∈ l → 0 <= t) →
  covers (merge_into a s l) x ↔ a <= x < a + s ∨ covers l x.
Proof.
  revert a s. induction l as [|[b t] l IH]; intros a s Hs Hl; simpl; [tauto|].
  assert (0 <= t) by (apply (Hl b); left).
  zcase (b =? a + s); simpl.
  - subst b. rewrite IH; [|lia|by intros; eapply Hl; right]. intuition lia.
  - rewrite IH; [tauto|done|by intros; eapply Hl; right].
Qed.

Lemma merge_ordered lo hi a s l :
  ordered lo hi ((a, s) :: l) → ordered lo hi (merge_into a s l).
Proof.
  revert lo a s. induction l as [|[b t] l IH]; intros lo a s Ho; simpl; [done|].
  simpl in Ho. destruct Ho as (H1 & H2 & H3 & H4 & H5 & H6 & H7). unfold MIN_BLOCK in *.
  zcase (b =? a + s); simpl.
  - subst b. apply IH. simpl. unfold MIN_BLOCK. split_and!; auto; [lia|].
    by replace (a + (s + t)) with (a + s + t) by lia.
  - split_and!; auto. apply IH. simpl. auto.
Qed.

Lemma merge_head a s l : ∃ s' l', merge_into a s l = (a, s') :: l'.
Proof.
  revert s. induction l as [|[b t] l IH]; intros s; simpl; [eauto|].
  case_match; eauto.
Qed.

Lemma merge_separated lo hi a s l :
  ordered lo hi ((a, s) :: l) → separated (merge_into a s l).
Proof.
  revert lo a s. induction l as [|[b t] l IH]; intros lo a s Ho; simpl; [done|].
  simpl in Ho. destruct Ho as (H1 & H2 & H3 & H4 & H5 & H6 & H7). unfold MIN_BLOCK in *.
  zcase (b =? a + s); simpl.
  - subst b. apply (IH lo). simpl. unfold MIN_BLOCK. split_and!; auto; [lia|].
    by replace (a + (s + t)) with (a + s + t) by lia.
  - assert (separated (merge_into b t l)) as Hsep by (apply (IH (a + s)); simpl; auto).
    destruct (merge_head b t l) as (t' & l' & Heq). rewrite Heq in *.
    simpl in *. split; [lia|done].
Qed.

Lemma merge_total a s l : total_bytes (merge_into a s l) = s + total_bytes l.
Proof.
  revert a s. induction l as [|[b t] l IH]; intros a s; simpl; [done|].
  case_match; simpl; rewrite ?IH; unfold total_bytes; simpl; try lia.
Qed.

Lemma coalesce_total l : total_bytes (coalesce_regions l) = total_bytes l.
Proof. destruct l as [|[a s] l]; simpl; [done|]. apply merge_total. Qed.

Lemma coalesce_wf lo hi l : ordered lo hi l → free_wf lo hi (coalesce_regions l).
Proof.
  destruct l as [|[a s] l]; simpl; [done|]. intros H. split.
  - by apply merge_ordered.
  - by apply (merge_separated lo hi).
Qed.

Lemma coalesce_covers lo hi l x :
  ordered lo hi l → covers (coalesce_regions l) x ↔ covers l x.
Proof.
  destruct l as [|[a s] l]; simpl; [done|]. intros (H1 & H2 & H3 & H4).
  unfold MIN_BLOCK in *. apply merge_covers; [lia|].
  intros b t Hin. destruct (ordered_in _ _ _ _ _ H4 Hin) as (_ & H & _).
  unfold MIN_BLOCK in H. lia.
Qed.

(** ** Adding a region *)

Section add.
Context (lo hi : Z) (l : list region) (a s : Z).
Context (Hl : free_wf lo hi l) (Hlo : lo <= a) (Hhi : a + s <= hi).
Context (Hs : MIN_BLOCK <= s) (Ha : (NODE_ALIGN | a)) (Hc : clear_of l a s).

Lemma insert_ordered_here : ordered lo hi (insert_region a s l).
Proof. destruct Hl. by apply insert_ordered. Qed.

Lemma add_region_wf : free_wf lo hi (add_region a s l).
Proof. apply coalesce_wf, insert_ordered_here. Qed.

Lemma add_region_covers x : covers (add_region a s l) x ↔ a <= x < a + s ∨ covers l x.
Proof.
  unfold add_region. rewrite (coalesce_covers lo hi) by apply insert_ordered_here.
  apply insert_covers.
Qed.
End add.

Lemma add_region_total a s l : total_bytes (add_region a s l) = s + total_bytes l.
Proof. unfold add_region. by rewrite coalesce_total, insert_total. Qed.

(** ** Canonicity: a coalesced list is determined by the bytes it covers *)

Lemma separated_tail r l : separated (r :: l) → separated l.
Proof. destruct r as [a s], l as [|[b t] l]; simpl; tauto. Qed.

Lemma separated_gap lo hi a s l x :
  ordered lo hi ((a, s) :: l) → separated ((a, s) :: l) → covers l x → a + s < x.
Proof.
  destruct l as [|[b t] l]; [done|].
  intros (_ & _ & _ & Ho) [Hgap _] Hc. simpl in Ho.
  destruct Ho as (_ & H2 & H3 & H4). unfold MIN_BLOCK in *. simpl in Hc.
  destruct Hc as [Hx|Hx]; [lia|]. apply (ordered_covers _ _ _ _ H4) in Hx. lia.
Qed.

Lemma free_wf_tail lo hi a s l : free_wf lo hi ((a, s) :: l) → free_wf (a + s) hi l.
Proof. intros [(_ & _ & _ & Ho) Hs]. split; [done|]. by eapply separated_tail. Qed.

Lemma free_wf_weaken lo lo' hi l : lo' <= lo → free_wf lo hi l → free_wf lo' hi l.
Proof. intros ? []. split; [|done]. by eapply ordered_weaken. Qed.

Lemma free_wf_ext_head lo hi a s l b t k :
  free_wf lo hi ((a, s) :: l) → free_wf lo hi ((b, t) :: k) →
  (∀ x, covers ((a, s) :: l) x → covers ((b, t) :: k) x) →
  b <= a ∧ (b = a → s <= t).
Proof.
  intros [Ho Hsep] [Ho' Hsep'] Hx. pose proof Ho as (_ & Hs & _).
  pose proof Ho' as (_ & Ht & _ & Hk). unfold MIN_BLOCK in *. split.
  - destruct (Hx a) as [H|H]; [left; lia|lia|].
    apply (ordered_covers _ _ _ _ Hk) in H. lia.
  - intros ->. destruct (decide (s <= t)); [done|].
    destruct (Hx (a + t)) as [H|H]; [left; lia|lia|].
    apply (separated_gap _ _ _ _ _ _ Ho' Hsep') in H. lia.
Qed.

Lemma free_wf_ext lo hi l k :
  free_wf lo hi l → free_wf lo hi k → (∀ x, covers l x ↔ covers k x) → l = k.
Proof.
  revert lo k. induction l as [|[a s] l IH]; intros lo k Hl Hk Hx.
  - destruct k as [|[b t] k]; [done|]. exfalso.
    destruct Hk as [(_ & Ht & _) _]. unfold MIN_BLOCK in *.
    apply (proj2 (Hx b)). left. lia.
  - destruct k as [|[b t] k].
    { exfalso. destruct Hl as [(_ & Hs & _) _]. unfold MIN_BLOCK in *.
      apply (proj1 (Hx a)). left. lia. }
    destruct (free_wf_ext_head lo hi a s l b t k) as [H1 H2]; [done..|intros y; apply Hx|].
    destruct (free_wf_ext_head lo hi b t k a s l) as [H3 H4]; [done..|intros y; apply Hx|].
    assert (b = a) by lia. subst b. specialize (H2 eq_refl). specialize (H4 eq_refl).
    assert (t = s) by lia. subst t. f_equal. apply (IH (a + s)).
    + by eapply free_wf_tail.
    + by eapply free_wf_tail.
    + intros x. specialize (Hx x). simpl in Hx.
      pose proof (separated_gap lo hi a s l x) as G1.
      pose proof (separated_gap lo hi a s k x) as G2.
      destruct Hl, Hk. split; intros Hc.
      * destruct (proj1 Hx (or_intror Hc)); [specialize (G1 ltac:(done) ltac:(done) Hc); lia|done].
      * destruct (proj2 Hx (or_intror Hc)); [specialize (G2 ltac:(done) ltac:(done) Hc); lia|done].
Qed.

(** ** First fit *)

Lemma first_fit_Some size align l l1 r l2 :
  first_fit size align l = Some (l1, r, l2) →
  l = l1 ++ r :: l2 ∧ fits size align r = true ∧ Forall (λ q, fits size align q = false) l1.
Proof.
  revert l1. induction l as [|q l IH]; intros l1; simpl; [done|].
  destruct (fits size align q) eqn:Hq.
  - intros [= <- <- <-]. auto.
  - destruct (first_fit size align l) as [[[k1 r'] k2]|]; [|done].
    intros [= <- <- <-]. destruct (IH k1) as (-> & ? & ?); [done|]. auto.
Qed.

Lemma first_fit_None size align l :
  first_fit size align l = None ↔ Forall (λ q, fits size align q = false) l.
Proof.
  induction l as [|q l IH]; simpl; [naive_solver|].
  destruct (fits size align q) eqn:Hq.
  - split; [done|]. inversion_clear 1. congruence.
  - destruct (first_fit size align l) as [[[k1 r'] k2]|].
    + split; [done|]. inversion_clear 1 as [|? ? ? Hf]. by apply IH in Hf.
    + split; [|done]. constructor; [done|]. by apply IH.
Qed.

Lemma separated_remove lo hi l1 r l2 :
  free_wf lo hi (l1 ++ r :: l2) → free_wf lo hi (l1 ++ l2).
Proof.
  revert lo. induction l1 as [|[b t] l1 IH]; intros lo; simpl.
  - destruct r as [a s]. intros H. apply free_wf_weaken with (a + s).
    + destruct H as [(? & ? & _) _]. unfold MIN_BLOCK in *. lia.
    + by eapply free_wf_tail.
  - intros H. pose proof (IH _ (free_wf_tail _ _ _ _ _ H)) as [Ho Hs].
    destruct H as [(H1 & H2 & H3 & Ho') Hs']. split; [simpl; auto|].
    destruct l1 as [|[c u] l1]; simpl in *.
    + destruct l2 as [|[c u] l2]; [done|]. split; [|done].
      destruct r as [a s]. destruct Hs' as [? _], Ho' as (_ & ? & _ & ?).
      simpl in *. unfold MIN_BLOCK in *. lia.
    + destruct Hs'. auto.
Qed.

Lemma ordered_middle_clear lo hi l1 a s l2 :
  ordered lo hi (l1 ++ (a, s) :: l2) → clear_of (l1 ++ l2) a s.
Proof.
  intros (mid & H1 & H2 & H3 & H4 & H5)%ordered_app x Hx.
  rewrite covers_app. intros [Hc|Hc].
  - apply (ordered_covers _ _ _ _ H1) in Hc. lia.
  - apply (ordered_covers _ _ _ _ H5) in Hc. lia.
Qed.

(** ** Allocation from a free list *)

Lemma add_leftover_spec lo hi a s l :
  free_wf lo hi l → lo <= a → a + s <= hi → (NODE_ALIGN | a) → clear_of l a s →
  free_wf lo hi (add_leftover a s l) ∧
  (∀ x, covers (add_leftover a s l) x ↔ (MIN_BLOCK <= s ∧ a <= x < a + s) ∨ covers l x).
Proof.
  intros Hl Hlo Hhi Ha Hc. unfold add_leftover. zcase (MIN_BLOCK <=? s).
  - split; [by apply add_region_wf|]. intros x.
    rewrite (add_region_covers lo hi) by done. tauto.
  - split; [done|]. intros x. intuition lia.
Qed.

Lemma add_leftover_total a s l :
  total_bytes (add_leftover a s l) = total_bytes l + (if MIN_BLOCK <=? s then s else 0).
Proof. unfold add_leftover. case_match; [rewrite add_region_total|]; lia. Qed.

Lemma total_bytes_app l1 l2 : total_bytes (l1 ++ l2) = total_bytes l1 + total_bytes l2.
Proof. unfold total_bytes. induction l1; simpl in *; lia. Qed.

Lemma total_bytes_nonneg l : (∀ b t, (b, t) ∈ l → 0 <= t) → 0 <= total_bytes l.
Proof.
  unfold total_bytes. induction l as [|[b t] l IH]; simpl; intros Hl; [done|].
  assert (0 <= t) by (apply (Hl b); left).
  assert (0 <= foldr (λ r n, r.2 + n) 0 l); [|lia].
  apply IH. intros c u ?. apply (Hl c). by right.
Qed.

(** Everything the code relies on about a successful first-fit allocation. *)
Record alloc_region_post (lo hi size align : Z) (l : list region) (p : Z) (l' : list region)
  : Prop := {
  arp_aligned : (align | p);
  arp_lo : lo <= p;
  arp_hi : p + size <= hi;
  arp_was_free : ∀ x, p <= x < p + size → covers l x;
  arp_wf : free_wf lo hi l';
  arp_clear : clear_of l' p size;
  arp_sub : ∀ x, covers l' x → covers l x;
  arp_lost : ∀ x, covers l x → covers l' x ∨ p - MIN_BLOCK < x < p + size + MIN_BLOCK;
  arp_bytes : total_bytes l' + size <= total_bytes l < total_bytes l' + size + 2 * MIN_BLOCK;
  arp_exact : total_bytes l' + size = total_bytes l →
    ∀ x, covers l x → covers l' x ∨ p <= x < p + size;
}.

Section alloc_region.
Context (lo hi size align : Z) (l l1 l2 : list region) (a s : Z).
Context (Hl : free_wf lo hi l) (Hal : is_pow2 align) (Hal8 : NODE_ALIGN <= align).
Context (Hsz : 0 < size) (Hsz8 : (NODE_ALIGN | size)).
Context (Hfit : first_fit size align l = Some (l1, (a, s), l2)).

Let p := round_up a align.
Let k := add_leftover a (p - a) (l1 ++ l2).

Lemma fit_split : l = l1 ++ (a, s) :: l2.
Proof. by apply first_fit_Some in Hfit as (? & _ & _). Qed.

Lemma fit_bounds : lo <= a ∧ a <= p ∧ p + size <= a + s ∧ a + s <= hi.
Proof.
  pose proof (first_fit_Some _ _ _ _ _ _ Hfit) as (Heq & Hf & _).
  unfold fits in Hf. simpl in Hf. zbool.
  destruct Hl as [Ho _]. destruct (ordered_in lo hi l a s Ho) as (? & ? & ? & ?).
  { rewrite Heq. apply elem_of_app. right. left. }
  pose proof (round_up_bounds a align (is_pow2_pos _ Hal)). unfold p. lia.
Qed.

Lemma fit_aligned : (NODE_ALIGN | a) ∧ (align | p) ∧ (NODE_ALIGN | p + size).
Proof.
  pose proof (is_pow2_pos _ Hal) as Hpos.
  assert (align | p) as Hp by (by apply round_up_div).
  split_and!; [|done|].
  - destruct Hl as [Ho _]. apply (ordered_in lo hi l a s Ho).
    rewrite fit_split. apply elem_of_app. right. left.
  - apply Z.divide_add_r; [|done]. etransitivity; [|exact Hp].
    apply pow2_divide; [apply (is_pow2_lit 3); lia|done|done].
Qed.

Lemma rest_wf : free_wf lo hi (l1 ++ l2).
Proof. apply (separated_remove lo hi l1 (a, s)). by rewrite <- fit_split. Qed.

Lemma rest_clear b n : a <= b → b + n <= a + s → clear_of (l1 ++ l2) b n.
Proof.
  intros H1 H2 x Hx. destruct Hl as [Ho _]. rewrite fit_split in Ho.
  apply (ordered_middle_clear _ _ _ _ _ _ Ho). lia.
Qed.

Lemma front_spec : free_wf lo hi k ∧
  (∀ x, covers k x ↔ (MIN_BLOCK <= p - a ∧ a <= x < p) ∨ covers (l1 ++ l2) x).
Proof.
  destruct fit_bounds as (?&?&?&?), fit_aligned as (?&?&?).
  destruct (add_leftover_spec lo hi a (p - a) (l1 ++ l2)) as [Hw Hx];
    [apply rest_wf|lia..|done|apply rest_clear; lia|].
  split; [done|]. intros x. unfold k. rewrite Hx. intuition lia.
Qed.

Lemma fit_total :
  total_bytes l = total_bytes (add_leftover (p + size) (a + s - (p + size)) k) + size +
    (if MIN_BLOCK <=? p - a then 0 else p - a) +
    (if MIN_BLOCK <=? a + s - (p + size) then 0 else a + s - (p + size)).
Proof.
  unfold k. rewrite !add_leftover_total, fit_split, !total_bytes_app.
  change (total_bytes ((a, s) :: l2)) with (s + total_bytes l2).
  zcase (MIN_BLOCK <=? p - a); zcase (MIN_BLOCK <=? a + s - (p + size)); lia.
Qed.

Lemma alloc_region_fit :
  alloc_region_post lo hi size align l p
    (add_leftover (p + size) (a + s - (p + size)) k).
Proof.
  destruct fit_bounds as (?&?&?&?), fit_aligned as (?&?&?), front_spec as [Hk Hkx].
  assert (∀ x, covers l x ↔ a <= x < a + s ∨ covers (l1 ++ l2) x) as Hlx.
  { intros x. rewrite fit_split, !covers_app. simpl. tauto. }
  assert (clear_of (l1 ++ l2) a s) as Hc by (apply rest_clear; lia).
  destruct (add_leftover_spec lo hi (p + size) (a + s - (p + size)) k) as [Hw Hx];
    [done|lia|lia|done| |].
  { intros x Hr Hc'. apply Hkx in Hc' as [?|Hc']; [lia|]. apply (Hc x); [lia|done]. }
  split; auto; try lia.
  - intros x ?. apply Hlx. left. lia.
  - intros x Hr Hc'. apply Hx in Hc' as [?|Hc']; [lia|].
    apply Hkx in Hc' as [?|Hc']; [lia|]. apply (Hc x); [lia|done].
  - intros x Hc'. apply Hlx. apply Hx in Hc' as [?|Hc']; [left; lia|].
    apply Hkx in Hc' as [?|Hc']; [left; lia|]. by right.
  - intros x Hc'. rewrite Hx, Hkx. apply Hlx in Hc' as [Hr|Hr]; [|tauto].
    unfold MIN_BLOCK. destruct (decide (x < p)); destruct (decide (16 <= p - a));
      destruct (decide (16 <= a + s - (p + size))); intuition lia.
  - rewrite fit_total. unfold MIN_BLOCK.
    zcase (16 <=? p - a); zcase (16 <=? a + s - (p + size)); lia.
  - rewrite fit_total. unfold MIN_BLOCK in *. intros Heq x Hc'. rewrite Hx, Hkx.
    apply Hlx in Hc' as [Hr|Hr]; [|tauto].
    zcase (16 <=? p - a); zcase (16 <=? a + s - (p + size));
      destruct (decide (x < p)); destruct (decide (x < p + size)); intuition lia.
Qed.
End alloc_region.

Lemma alloc_region_spec lo hi size align l p l' :
  free_wf lo hi l → is_pow2 align → NODE_ALIGN <= align → 0 < size → (NODE_ALIGN | size) →
  alloc_region size align l = Some (p, l') → alloc_region_post lo hi size align l p l'.
Proof.
  intros. unfold alloc_region in *.
  destruct (first_fit size align l) as [[[l1 [a s]] l2]|] eqn:Hf; [|done].
  simplify_eq. by apply alloc_region_fit with (l1 := l1) (l2 := l2).
Qed.

Lemma ordered_total lo hi l :
  ordered lo hi l → MIN_BLOCK * Z.of_nat (length l) <= total_bytes l <= hi - lo.
Proof.
  revert lo. induction l as [|[a s] l IH]; intros lo Ho; simpl in *; [unfold total_bytes; simpl; lia|].
  destruct Ho as (H1 & H2 & _ & H4). specialize (IH _ H4).
  unfold total_bytes, MIN_BLOCK in *. simpl. lia.
Qed.

Lemma clear_sub l l' k n : clear_of l k n → (∀ x, covers l' x → covers l x) → clear_of l' k n.
Proof. intros Hc Hs x Hx Hcov. apply (Hc x); auto. Qed.

(** ** Blocks owned by clients

    [owned fp lo hi live l]: the blocks of [live], each of the footprint [fp]
    gives its layout, lie in the heap, outside the free regions [l], and do
    not overlap. *)

Section owned.
Context (fp al : Layout → Z).

Record owned (lo hi : Z) (live : gmap Z Layout) (l : list region) : Prop := {
  ow_block : ∀ p k, live !! p = Some k →
    request_ok k ∧ lo <= p ∧ p + fp k <= hi ∧ (al k | p) ∧ clear_of l p (fp k);
  ow_apart : ∀ p k q j, live !! p = Some k → live !! q = Some j → p ≠ q →
    apart p (fp k) q (fp j);
}.

Lemma owned_empty lo hi l : owned lo hi ∅ l.
Proof. split; [intros p k|intros p k q j]; by rewrite lookup_empty. Qed.

Lemma owned_sub lo hi live l l' :
  owned lo hi live l → (∀ x, covers l' x → covers l x) → owned lo hi live l'.
Proof.
  intros [H1 H2] Hsub. split; [|done]. intros p k Hp.
  destruct (H1 p k Hp) as (? & ? & ? & ? & ?). split_and!; try done.
  by eapply clear_sub.
Qed.

Lemma owned_delete lo hi live l p : owned lo hi live l → owned lo hi (delete p live) l.
Proof.
  intros [H1 H2]. split.
  - intros q j [_ Hq]%lookup_delete_Some. by apply H1.
  - intros q j r i [_ Hq]%lookup_delete_Some [_ Hr]%lookup_delete_Some. by apply H2.
Qed.

(** A new block cut out of the free regions. *)
Lemma owned_insert lo hi live l l' p k :
  owned lo hi live l → request_ok k → 0 < fp k → (∀ j, request_ok j → 0 < fp j) →
  lo <= p → p + fp k <= hi → (al k | p) →
  (∀ x, p <= x < p + fp k → covers l x) → clear_of l' p (fp k) →
  (∀ x, covers l' x → covers l x) →
  live !! p = None ∧ owned lo hi (<[p:=k]> live) l'.
Proof.
  intros Hown Hk Hfp Hpos Hlo Hhi Hal Hfree Hclr Hsub.
  assert (∀ q j, live !! q = Some j → apart p (fp k) q (fp j)) as Hap.
  { intros q j Hq. destruct (ow_block _ _ _ _ Hown q j Hq) as (Hj & _ & _ & _ & Hc).
    unfold apart. destruct (decide (p + fp k <= q)); [by left|].
    destruct (decide (q + fp j <= p)); [by right|]. exfalso.
    specialize (Hpos j Hj). apply (Hc (Z.max p q)); [lia|]. apply Hfree. lia. }
  split.
  { destruct (live !! p) as [j|] eqn:Hp; [|done]. specialize (Hap p j Hp).
    destruct (ow_block _ _ _ _ Hown p j Hp) as (Hj & _). specialize (Hpos j Hj).
    unfold apart in Hap. lia. }
  split.
  - intros q j [[<- <-]|[Hne Hq]]%lookup_insert_Some; [done|].
    by apply (ow_block _ _ _ _ (owned_sub _ _ _ _ _ Hown Hsub)).
  - intros q j r i [[<- <-]|[Hne Hq]]%lookup_insert_Some
      [[<- <-]|[Hne' Hr]]%lookup_insert_Some Hqr; [done| | |].
    + by apply Hap.
    + specialize (Hap _ _ Hq). unfold apart in *. tauto.
    + by apply (ow_apart _ _ _ _ Hown).
Qed.

(** A returned block joins the free regions. *)
Lemma owned_release lo hi live l l' p k :
  owned lo hi live l → live !! p = Some k →
  (∀ x, covers l' x → p <= x < p + fp k ∨ covers l x) → owned lo hi (delete p live) l'.
Proof.
  intros Hown Hp Hcov. destruct (owned_delete _ _ _ _ p Hown) as [H1 H2].
  split; [|done]. intros q j Hq. destruct (H1 q j Hq) as (? & ? & ? & ? & Hc).
  split_and!; try done. intros x Hx [Hx'|Hx']%Hcov; [|by apply (Hc x)].
  apply lookup_delete_Some in Hq as [Hne Hq].
  pose proof (ow_apart _ _ _ _ Hown p k q j Hp Hq Hne). unfold apart in *. lia.
Qed.

(** A block whose layout changes and whose footprint does not. *)
Lemma owned_relabel lo hi live l p j k :
  owned lo hi live l → live !! p = Some j → request_ok k → fp k = fp j → al k = al j →
  owned lo hi (<[p:=k]> live) l.
Proof.
  intros [H1 H2] Hp Hk Hfp Hal. split.
  - intros q i [[<- <-]|[Hne Hq]]%lookup_insert_Some; [|by apply H1].
    rewrite Hfp, Hal. destruct (H1 p j Hp) as (_ & ?). done.
  - intros q i r h [[<- <-]|[Hne Hq]]%lookup_insert_Some
      [[<- <-]|[Hne' Hr]]%lookup_insert_Some Hqr; rewrite ?Hfp; by (done || apply H2).
Qed.

(** The bytes of the blocks. *)
Definition owned_bytes (live : gmap Z Layout) : Z :=
  map_fold (λ _ k n, fp k + n) 0 live.

(** Blocks and free regions share the heap. *)
Lemma owned_total lo hi live l :
  (∀ k, request_ok k → MIN_BLOCK <= fp k ∧ (NODE_ALIGN | al k)) →
  free_wf lo hi l → owned lo hi live l → owned_bytes live + total_bytes l <= hi - lo.
Proof.
  intros Hfp. revert l. unfold owned_bytes.
  induction live as [|p k live Hp IH] using map_ind; intros l Hwf Hown.
  { rewrite map_fold_empty. pose proof (ordered_total lo hi l (proj1 Hwf)). lia. }
  rewrite map_fold_insert_L by (done || lia).
  destruct (ow_block _ _ _ _ Hown p k (lookup_insert_eq _ _ _)) as (Hk & ? & ? & Hd & Hc).
  destruct (Hfp k Hk) as [Hs Hd8].
  assert (NODE_ALIGN | p) by (by etransitivity).
  specialize (IH (add_region p (fp k) l)).
  rewrite add_region_total in IH. rewrite <- Z.add_assoc, (Z.add_comm (fp k)).
  rewrite <- Z.add_assoc, (Z.add_comm (total_bytes l)). apply IH.
  - by apply add_region_wf.
  - rewrite <- (delete_insert_id live p k Hp).
    apply owned_release with (l := l) (k := k); [done|apply lookup_insert_eq|].
    intros x. by rewrite (add_region_covers lo hi).
Qed.

Lemma owned_live lo hi live l :
  (∀ k, request_ok k → l_size k <= fp k ∧ (l_align k | al k)) →
  owned lo hi live l → live_ok lo hi live.
Proof.
  intros Hfp [H1 H2]. split.
  - intros p k Hp. destruct (H1 p k Hp) as (Hk & ? & ? & ? & _).
    destruct (Hfp k Hk). split_and!; [lia..|]. by etransitivity.
  - intros p k q j Hp Hq Hne. specialize (H2 p k q j Hp Hq Hne).
    destruct (H1 p k Hp) as (Hk & _), (H1 q j Hq) as (Hj & _).
    pose proof (Hfp k Hk). pose proof (Hfp j Hj). unfold apart in *. lia.
Qed.
End owned.

Arguments ow_block {fp al lo hi live l}.
Arguments ow_apart {fp al lo hi live l}.
