(* ===== verification/LinkedList.v ===== *)
(** * The linked-list allocator, at the level of its pointers

    Models src/src/allocator/linkedlist.rs.  The free list is threaded through
    the heap: a header [ListNode] lies at the start of each free region.  The
    heap is the store [hmem] of the headers it holds, by address; a write
    destroys every header it overlaps, so a header that the code (or a client)
    has overwritten is not found any more and reading it is [Undef].

    The operations are the code's, slot by slot.  The theorems show that they
    compute the functions of [FreeList] on the list of regions, that no
    assertion, overflow check or [expect] fires, and that the allocator meets
    the contract of [AllocMod]. *)

From Stdlib Require Import ZArith Lia.
From stdpp Require Import base gmap list strings numbers.
From S2P Require Import Prelude AllocMod FreeList.

Open Scope Z_scope.

(** ** State *)

Record ListNode := mkNode { n_size : Z; n_next : option Z }.

Record LinkedListAllocator := mkLLA {
  head : option Z;
  heap_start : Z;
  heap_end : Z;
}.

Abbreviation hmem := (gmap Z ListNode).

(** The allocator and the heap it threads its list through. *)
Record world := mkWorld { w_self : LinkedListAllocator; w_mem : hmem }.

(** ** The store of headers *)

(** A write to [[lo, hi)] destroys the headers it overlaps. *)
Definition clobber (lo hi : Z) (m : hmem) : hmem :=
  filter (λ kv, hi <= lo ∨ kv.1 + MIN_BLOCK <= lo ∨ hi <= kv.1) m.

Definition store_node (a : Z) (n : ListNode) (m : hmem) : hmem :=
  <[a := n]> (clobber a (a + MIN_BLOCK) m).

Definition load_node (a : Z) (m : hmem) : outcome ListNode :=
  match m !! a with Some n => Ok n | None => Undef end.

(** ** [ListNode] *)

Definition start_addr (a : Z) : Z := a.

Definition end_addr (a : Z) (n : ListNode) : outcome Z := add_u64 (start_addr a) (n_size n).

(** [ListNode::new(size)]; [take_next] returns the link and the emptied node. *)
Definition node_new (size : Z) : ListNode := mkNode size None.

Definition take_next (n : ListNode) : option Z * ListNode :=
  (n_next n, mkNode (n_size n) None).

Definition set_next (n : ListNode) (next : option Z) : ListNode :=
  mkNode (n_size n) next.

(** ** Slots: the places that hold a link ([&mut Option<&mut ListNode>]) *)

Inductive Slot :=
| SHead            (* [&mut self.head] *)
| SNext (a : Z).   (* [&mut node.next] of the node at [a] *)

Definition read_slot (w : world) (s : Slot) : outcome (option Z) :=
  match s with
  | SHead => Ok (head (w_self w))
  | SNext a => n ← load_node a (w_mem w); Ok (n_next n)
  end.

Definition set_head (self : LinkedListAllocator) (h : option Z) : LinkedListAllocator :=
  mkLLA h (heap_start self) (heap_end self).

Definition write_slot (w : world) (s : Slot) (v : option Z) : outcome world :=
  match s with
  | SHead => Ok (mkWorld (set_head (w_self w) v) (w_mem w))
  | SNext a =>
      n ← load_node a (w_mem w);
      Ok (mkWorld (w_self w) (store_node a (set_next n v) (w_mem w)))
  end.

Definition store (w : world) (a : Z) (n : ListNode) : world :=
  mkWorld (w_self w) (store_node a n (w_mem w)).

(** Loops visit each header at most once. *)
Definition walk_fuel (w : world) : nat := S (size (w_mem w)).

(** ** Operations *)

Definition allocation_size (l : Layout) : outcome Z :=
  align_up (Z.max (l_size l) MIN_BLOCK) NODE_ALIGN.

Definition allocation_align (l : Layout) : Z := Z.max (l_align l) NODE_ALIGN.

Definition empty : LinkedListAllocator := mkLLA None 0 0.

(** Walk to the first region that starts after [addr]. *)
Fixpoint walk_to (fuel : nat) (w : world) (slot : Slot) (addr : Z) : outcome Slot :=
  match fuel with
  | O => Diverge
  | S fuel =>
      entry ← read_slot w slot;
      match entry with
      | None => Ok slot
      | Some a =>
          if start_addr a <? addr then
            node ← load_node a (w_mem w);
            e ← end_addr a node;
            _ ← rust_assert (e <=? addr) "free region overlaps an existing region";
            walk_to fuel w (SNext a) addr
          else Ok slot
      end
  end.

(** Merge every pair of adjacent free regions. *)
Fixpoint coalesce_loop (fuel : nat) (w : world) (slot : Slot) : outcome world :=
  match fuel with
  | O => Diverge
  | S fuel =>
      entry ← read_slot w slot;
      match entry with
      | None => Ok w
      | Some a =>
          node ← load_node a (w_mem w);
          merge ← match n_next node with
                  | None => Ok false
                  | Some b =>
                      _ ← load_node b (w_mem w);
                      e ← end_addr a node;
                      Ok (start_addr b =? e)
                  end;
          if (merge : bool) then
            b ← expect (n_next node) "merge checked above";
            let w := store w a (mkNode (n_size node) None) in
            next ← load_node b (w_mem w);
            size ← add_u64 (n_size node) (n_size next);
            let w := store w a (mkNode size None) in
            let '(link, next') := take_next next in
            let w := store w b next' in
            let w := store w a (mkNode size link) in
            coalesce_loop fuel w slot
          else coalesce_loop fuel w (SNext a)
      end
  end.

Definition coalesce (w : world) : outcome world := coalesce_loop (walk_fuel w) w SHead.

Definition in_heap (self : LinkedListAllocator) (addr size : Z) : bool :=
  (heap_start self <=? addr) && (saturating_add addr size <=? heap_end self).

(** Splice a header for the new region into the list at [slot]. *)
Definition splice (w : world) (slot : Slot) (addr size : Z) : outcome world :=
  next ← read_slot w slot;
  w ← write_slot w slot None;
  let w := store w addr (mkNode size next) in
  write_slot w slot (Some addr).

Definition add_free_region (w : world) (addr size : Z) : outcome world :=
  _ ← rust_assert (MIN_BLOCK <=? size) "free region smaller than a node";
  up ← align_up addr NODE_ALIGN;
  _ ← rust_assert (up =? addr) "free region misaligned for a node";
  _ ← rust_assert (in_heap (w_self w) addr size) "free region outside the heap";
  slot ← walk_to (walk_fuel w) w SHead addr;
  w ← splice w slot addr size;
  coalesce w.

Definition init (w : world) (heap_start heap_size : Z) : outcome world :=
  let heap_end := saturating_add heap_start heap_size in
  let w := mkWorld (mkLLA None heap_start heap_end) (w_mem w) in
  start ← align_up heap_start NODE_ALIGN;
  let size := saturating_sub heap_end start in
  if MIN_BLOCK <=? size then add_free_region w start size else Ok w.

Definition heap_size (self : LinkedListAllocator) : Z :=
  saturating_sub (heap_end self) (heap_start self).

Fixpoint count_loop (fuel : nat) (m : hmem) (current : option Z) (count : Z) : outcome Z :=
  match fuel, current with
  | O, _ => Diverge
  | S _, None => Ok count
  | S fuel, Some a =>
      count ← add_u64 count 1;
      node ← load_node a m;
      count_loop fuel m (n_next node) count
  end.

Definition free_region_count (w : world) : outcome Z :=
  count_loop (walk_fuel w) (w_mem w) (head (w_self w)) 0.

Fixpoint bytes_loop (fuel : nat) (m : hmem) (current : option Z) (bytes : Z) : outcome Z :=
  match fuel, current with
  | O, _ => Diverge
  | S _, None => Ok bytes
  | S fuel, Some a =>
      node ← load_node a m;
      bytes ← add_u64 bytes (n_size node);
      bytes_loop fuel m (n_next node) bytes
  end.

Definition free_bytes (w : world) : outcome Z :=
  bytes_loop (walk_fuel w) (w_mem w) (head (w_self w)) 0.

(** The branch of [find_region] that found a fitting region: unlink it and
    put the leftovers back. *)
Definition carve (w : world) (slot : Slot)
    (region_start alloc_start alloc_end region_end : Z) : outcome (option Z * world) :=
  entry ← read_slot w slot;
  removed ← expect entry "region checked above";
  w ← write_slot w slot None;
  node ← load_node removed (w_mem w);
  let '(successor, node') := take_next node in
  let w := store w removed node' in
  w ← write_slot w slot successor;
  front ← sub_u64 alloc_start region_start;
  back ← sub_u64 region_end alloc_end;
  w ← (if MIN_BLOCK <=? front then add_free_region w region_start front else Ok w);
  w ← (if MIN_BLOCK <=? back then add_free_region w alloc_end back else Ok w);
  Ok (Some alloc_start, w).

Fixpoint find_loop (fuel : nat) (w : world) (slot : Slot) (size align : Z)
  : outcome (option Z * world) :=
  match fuel with
  | O => Diverge
  | S fuel =>
      entry ← read_slot w slot;
      match entry with
      | None => Ok (None, w)
      | Some a =>
          node ← load_node a (w_mem w);
          let region_start := start_addr a in
          region_end ← end_addr a node;
          alloc_start ← align_up region_start align;
          let fit := match checked_add alloc_start size with
                     | Some alloc_end =>
                         if alloc_end <=? region_end then Some alloc_end else None
                     | None => None
                     end in
          match fit with
          | Some alloc_end => carve w slot region_start alloc_start alloc_end region_end
          | None => find_loop fuel w (SNext a) size align
          end
      end
  end.

Definition find_region (w : world) (size align : Z) : outcome (option Z * world) :=
  find_loop (walk_fuel w) w SHead size align.

Definition alloc (w : world) (l : Layout) : outcome (Z * world) :=
  size ← allocation_size l;
  let align := allocation_align l in
  '(r, w) ← find_region w size align;
  Ok (match r with Some addr => addr | None => 0 end, w).

Definition dealloc (w : world) (addr : Z) (l : Layout) : outcome world :=
  size ← allocation_size l;
  _ ← rust_assert (in_heap (w_self w) addr size) "dealloc: pointer outside the heap";
  up ← align_up addr NODE_ALIGN;
  _ ← rust_assert (up =? addr) "dealloc: pointer not aligned for a free-list node";
  add_free_region w addr size.

(** A client that writes [n] bytes at [a] destroys the headers there. *)
Definition scribble (w : world) (a n : Z) : world :=
  mkWorld (w_self w) (clobber a (a + n) (w_mem w)).

(** ** The store *)

Lemma clobber_lookup lo hi m k :
  clobber lo hi m !! k = if decide (hi <= lo ∨ k + MIN_BLOCK <= lo ∨ hi <= k) then m !! k else None.
Proof.
  unfold clobber. destruct (decide _) as [Hd|Hd].
  - destruct (m !! k) as [n|] eqn:E.
    + by apply map_lookup_filter_Some.
    + apply map_lookup_filter_None. by left.
  - apply map_lookup_filter_None. right. intros n _. exact Hd.
Qed.

Lemma store_node_eq a n m : store_node a n m !! a = Some n.
Proof. apply lookup_insert_eq. Qed.

Lemma store_node_ne a n m k : MIN_BLOCK <= Z.abs (k - a) → store_node a n m !! k = m !! k.
Proof.
  unfold MIN_BLOCK. intros H. unfold store_node.
  rewrite lookup_insert_ne by lia. rewrite clobber_lookup.
  rewrite decide_True; [done|]. unfold MIN_BLOCK. lia.
Qed.

Lemma clobber_insert a n m :
  clobber a (a + MIN_BLOCK) (<[a:=n]> m) = clobber a (a + MIN_BLOCK) m.
Proof.
  apply map_eq. intros k. rewrite !clobber_lookup. unfold MIN_BLOCK. case_decide; [|done].
  rewrite lookup_insert_ne by lia. done.
Qed.

Lemma clobber_idem lo hi m : clobber lo hi (clobber lo hi m) = clobber lo hi m.
Proof. apply map_eq. intros k. rewrite !clobber_lookup. by case_decide. Qed.

Lemma store_store a n n' m : store_node a n (store_node a n' m) = store_node a n m.
Proof. unfold store_node. by rewrite clobber_insert, clobber_idem. Qed.

Lemma load_node_ok a n m : m !! a = Some n → load_node a m = Ok n.
Proof. unfold load_node. by intros ->. Qed.

(** ** Representation: a list of regions threaded through the heap *)

Definition hd_or (l : list region) (tl : option Z) : option Z :=
  match l with [] => tl | (a, _) :: _ => Some a end.

Fixpoint chain_to (m : hmem) (l : list region) (tl : option Z) : Prop :=
  match l with
  | [] => True
  | (a, s) :: l' => m !! a = Some (mkNode s (hd_or l' tl)) ∧ chain_to m l' tl
  end.

(** [rep w l]: the allocator's list is [l]. *)
Definition rep (w : world) (l : list region) : Prop :=
  head (w_self w) = hd_or l None ∧ chain_to (w_mem w) l None.

(** The slot that holds the link to what follows [l]. *)
Definition slot_after (l : list region) : Slot :=
  match list.last l with None => SHead | Some (a, _) => SNext a end.

(** The header at [k] is at least a header's width from those of [l]. *)
Definition far (l : list region) (k : Z) : Prop :=
  ∀ b t, (b, t) ∈ l → MIN_BLOCK <= Z.abs (k - b).

Lemma hd_or_app l1 l2 tl : hd_or (l1 ++ l2) tl = hd_or l1 (hd_or l2 tl).
Proof. by destruct l1 as [|[]]. Qed.

Lemma chain_to_app m l1 l2 tl :
  chain_to m (l1 ++ l2) tl ↔ chain_to m l1 (hd_or l2 tl) ∧ chain_to m l2 tl.
Proof.
  induction l1 as [|[a s] l1 IH]; simpl; [tauto|]. rewrite IH, hd_or_app. tauto.
Qed.

Lemma chain_to_far m m' l tl :
  chain_to m l tl → (∀ a s, (a, s) ∈ l → m' !! a = m !! a) → chain_to m' l tl.
Proof.
  induction l as [|[a s] l IH]; simpl; [done|]. intros [H1 H2] Hm. split.
  - rewrite <- H1. apply (Hm a s). left.
  - apply IH; [done|]. intros b t ?. apply (Hm b t). by right.
Qed.

Lemma chain_store_far m l tl a n :
  chain_to m l tl → far l a → chain_to (store_node a n m) l tl.
Proof.
  intros Hc Hf. eapply chain_to_far; [done|]. intros b t Hin.
  apply store_node_ne. specialize (Hf b t Hin). lia.
Qed.

Lemma slot_after_snoc l a s : slot_after (l ++ [(a, s)]) = SNext a.
Proof. unfold slot_after. by rewrite last_snoc. Qed.

(** Regions of an ordered list are a header's width apart. *)
Lemma ordered_far lo hi l1 a s l2 : ordered lo hi (l1 ++ (a, s) :: l2) → far (l1 ++ l2) a.
Proof.
  intros (mid & H1 & H2 & H3 & H4 & H5)%ordered_app b t Hin. unfold MIN_BLOCK in *.
  apply elem_of_app in Hin as [Hin|Hin].
  - destruct (ordered_in _ _ _ _ _ H1 Hin) as (_ & Ht & _ & He).
    unfold MIN_BLOCK in *. lia.
  - destruct (ordered_in _ _ _ _ _ H5 Hin) as (Hb & _). lia.
Qed.

Lemma far_app l1 l2 k : far (l1 ++ l2) k ↔ far l1 k ∧ far l2 k.
Proof.
  unfold far. setoid_rewrite elem_of_app. split.
  - intros H. split; intros b t ?; apply (H b t); auto.
  - intros [H1 H2] b t [?|?]; eauto.
Qed.

(** A header outside the regions of [l] is far from their headers. *)
Lemma clear_far lo hi l k : ordered lo hi l → clear_of l k MIN_BLOCK → far l k.
Proof.
  intros Ho Hk b t Hin. destruct (ordered_in _ _ _ _ _ Ho Hin) as (_ & Ht & _).
  pose proof (clear_in l b t k MIN_BLOCK Hk Hin) as Hd.
  unfold apart, MIN_BLOCK in *. lia.
Qed.

Lemma read_slot_rep w l1 l2 :
  rep w (l1 ++ l2) → read_slot w (slot_after l1) = Ok (hd_or l2 None).
Proof.
  intros [Hh Hc]. destruct l1 as [|[a s] l1 _] using rev_ind; simpl.
  - by rewrite Hh.
  - rewrite slot_after_snoc. simpl.
    rewrite <- app_assoc in Hc. apply chain_to_app in Hc as [_ [Hn _]].
    by rewrite (load_node_ok _ _ _ Hn).
Qed.

(** Writing the slot after [l1] replaces the rest of the list. *)
Lemma write_slot_rep w lo hi l1 l2 l3 v :
  rep w (l1 ++ l2) → chain_to (w_mem w) l3 None → v = hd_or l3 None →
  ordered lo hi (l1 ++ l3) →
  ∃ w', write_slot w (slot_after l1) v = Ok w' ∧ rep w' (l1 ++ l3) ∧
    w_self w' = set_head (w_self w) (hd_or (l1 ++ l3) None) ∧
    (∀ k, far l1 k → w_mem w' !! k = w_mem w !! k).
Proof.
  intros [Hh Hc] H3 -> Ho. destruct l1 as [|[a s] l1 _] using rev_ind; simpl in *.
  - eexists. split; [done|]. split_and!; done.
  - rewrite slot_after_snoc. simpl.
    rewrite <- app_assoc in Hc, Ho |- *. simpl in *.
    pose proof (ordered_far _ _ _ _ _ _ Ho) as Hfar. apply far_app in Hfar as [Hf1 Hf3].
    apply chain_to_app in Hc as [Hc1 [Hn Hc2]].
    rewrite (load_node_ok _ _ _ Hn). simpl. eexists. split; [done|].
    split_and!.
    + split; simpl.
      * rewrite Hh, <- app_assoc, !hd_or_app. done.
      * apply chain_to_app. split; [by apply chain_store_far|]. simpl. split.
        -- by rewrite store_node_eq.
        -- by apply chain_store_far.
    + simpl. rewrite <- app_assoc, hd_or_app in Hh. simpl in Hh.
      rewrite hd_or_app. simpl. rewrite <- Hh. by destruct (w_self w).
    + intros k [_ Hk]%far_app. simpl. apply store_node_ne. apply (Hk a s). left.
Qed.

(** There is fuel for a walk over the whole list. *)
Lemma ordered_nodup lo hi l : ordered lo hi l → NoDup l.*1.
Proof.
  revert lo. induction l as [|[a s] l IH]; simpl; intros lo Ho; [constructor|].
  destruct Ho as (_ & Hs & _ & Ho). constructor; [|by eapply IH].
  intros ([b t] & Hb & Hin)%list_elem_of_fmap. simpl in Hb. subst b.
  destruct (ordered_in _ _ _ _ _ Ho Hin) as (H & _). unfold MIN_BLOCK in *. lia.
Qed.

Lemma chain_to_lookup m l tl a s : chain_to m l tl → (a, s) ∈ l → is_Some (m !! a).
Proof.
  induction l as [|[b t] l IH]; simpl; [by intros _ ?%not_elem_of_nil|].
  intros [H1 H2] [Heq|Hin]%elem_of_cons; [|auto]. simplify_eq. eauto.
Qed.

Lemma chain_length m lo hi l tl : ordered lo hi l → chain_to m l tl → (length l <= size m)%nat.
Proof.
  intros Ho Hc. rewrite <- (length_fmap fst l).
  rewrite <- (size_list_to_set (C := gset Z)) by (by eapply ordered_nodup).
  rewrite <- (size_dom (D := gset Z) m). apply subseteq_size.
  intros a Ha. apply elem_of_list_to_set, list_elem_of_fmap in Ha as ([b s] & -> & Hin).
  apply elem_of_dom. by eapply chain_to_lookup.
Qed.

(** ** Walking and coalescing compute the reference functions *)

Lemma end_addr_ok lo hi l a s nx :
  ordered lo hi l → (a, s) ∈ l → hi <= addr_limit → end_addr a (mkNode s nx) = Ok (a + s).
Proof.
  intros Ho Hin Hhi. destruct (ordered_in _ _ _ _ _ Ho Hin) as (_ & _ & _ & ?).
  apply add_u64_ok. unfold addr_limit, u64_modulus, start_addr in *. simpl. lia.
Qed.

Lemma chain_middle m l1 a s l2 tl :
  chain_to m (l1 ++ (a, s) :: l2) tl → m !! a = Some (mkNode s (hd_or l2 tl)).
Proof. rewrite chain_to_app. simpl. tauto. Qed.

Lemma walk_to_spec fuel w lo hi l1 l2 addr s :
  rep w (l1 ++ l2) → ordered lo hi (l1 ++ l2) → hi <= addr_limit →
  0 < s → clear_of l2 addr s → (length l2 < fuel)%nat →
  ∃ k1 k2, l2 = k1 ++ k2 ∧
    walk_to fuel w (slot_after l1) addr = Ok (slot_after (l1 ++ k1)) ∧
    insert_region addr s l2 = k1 ++ (addr, s) :: k2.
Proof.
  revert fuel l1. induction l2 as [|[a t] l2 IH]; intros fuel l1 Hrep Ho Hhi Hs Hc Hf.
  - destruct fuel; [simpl in Hf; lia|]. exists [], []. simpl.
    rewrite (read_slot_rep _ _ _ Hrep), app_nil_r. done.
  - destruct fuel as [|fuel]; [simpl in Hf; lia|]. simpl.
    rewrite (read_slot_rep _ _ _ Hrep). simpl. unfold start_addr.
    zcase (a <? addr).
    2:{ exists [], ((a, t) :: l2). by rewrite app_nil_r. }
    pose proof (proj2 Hrep) as Hchain. apply chain_middle in Hchain as Hn.
    rewrite (load_node_ok _ _ _ Hn). simpl.
    rewrite (end_addr_ok lo hi (l1 ++ (a, t) :: l2)); [|done|apply elem_middle|done]. simpl.
    rewrite rust_assert_true; simpl.
    2:{ apply Z.leb_le. destruct (decide (a + t <= addr)); [done|].
        exfalso. apply (Hc addr); [lia|]. left. lia. }
    destruct (IH fuel (l1 ++ [(a, t)])) as (k1 & k2 & -> & Hw & Hi).
    + by rewrite <- app_assoc.
    + by rewrite <- app_assoc.
    + done.
    + done.
    + intros x Hx Hcov. apply (Hc x); [done|]. by right.
    + simpl in Hf. lia.
    + rewrite slot_after_snoc in Hw. exists ((a, t) :: k1), k2. split_and!.
      * done.
      * rewrite Hw, <- app_assoc. done.
      * simpl. by rewrite Hi.
Qed.

(** The four stores of one merge. *)
Definition merge_mem (m : hmem) (a b s s' : Z) (t : Z) (link : option Z) : hmem :=
  store_node a (mkNode s' link)
    (store_node b (mkNode t None)
       (store_node a (mkNode s' None) (store_node a (mkNode s None) m))).

Lemma merge_mem_far m a b s s' t link k :
  MIN_BLOCK <= Z.abs (k - a) → MIN_BLOCK <= Z.abs (k - b) →
  merge_mem m a b s s' t link !! k = m !! k.
Proof. intros. unfold merge_mem. by rewrite !store_node_ne. Qed.

Lemma far_cons a s l k : far ((a, s) :: l) k ↔ MIN_BLOCK <= Z.abs (k - a) ∧ far l k.
Proof.
  unfold far. setoid_rewrite elem_of_cons. split.
  - intros H. split; [apply (H a s); auto|]. intros b t ?. apply (H b t). auto.
  - intros [H1 H2] b t [Heq|Hin]; [by simplify_eq|eauto].
Qed.

(** One merge step: the region and its touching successor become one. *)
Lemma merge_step_rep w lo hi l1 a s b t l2 :
  rep w (l1 ++ (a, s) :: (b, t) :: l2) → ordered lo hi (l1 ++ (a, s) :: (b, t) :: l2) →
  rep (mkWorld (w_self w) (merge_mem (w_mem w) a b s (s + t) t (hd_or l2 None)))
      (l1 ++ (a, s + t) :: l2).
Proof.
  intros [Hh Hc] Ho.
  pose proof (ordered_far _ _ _ _ _ _ Ho) as [Fa1 Fa2]%far_app.
  rewrite cons_middle, app_assoc in Ho.
  pose proof (ordered_far _ _ _ _ _ _ Ho) as [[Fb1 _]%far_app Fb2]%far_app.
  apply far_cons in Fa2 as [Hab Fa2].
  rewrite chain_to_app in Hc. destruct Hc as (Hc1 & _ & _ & Hc2).
  split; simpl.
  - rewrite Hh, !hd_or_app. done.
  - apply chain_to_app. simpl. split_and!.
    + eapply chain_to_far; [done|]. intros c u Hin.
      specialize (Fa1 c u Hin). specialize (Fb1 c u Hin). apply merge_mem_far; lia.
    + apply store_node_eq.
    + eapply chain_to_far; [done|]. intros c u Hin.
      specialize (Fa2 c u Hin). specialize (Fb2 c u Hin). apply merge_mem_far; lia.
Qed.

Lemma ordered_merge lo hi l1 a s t l2 :
  ordered lo hi (l1 ++ (a, s) :: (a + s, t) :: l2) → ordered lo hi (l1 ++ (a, s + t) :: l2).
Proof.
  rewrite !ordered_app. intros (mid & H1 & H2 & H3 & H4 & _ & H5 & H6 & H7).
  exists mid. split; [done|]. simpl. unfold MIN_BLOCK in *. split_and!; auto; [lia|].
  by replace (a + (s + t)) with (a + s + t) by lia.
Qed.

(** One turn of the loop, in each of its two branches. *)
Lemma coalesce_turn_merge fuel w lo hi l1 a s t l2 :
  rep w (l1 ++ (a, s) :: (a + s, t) :: l2) →
  ordered lo hi (l1 ++ (a, s) :: (a + s, t) :: l2) → 0 <= lo → hi <= addr_limit →
  coalesce_loop (S fuel) w (slot_after l1) =
  coalesce_loop fuel
    (mkWorld (w_self w) (merge_mem (w_mem w) a (a + s) s (s + t) t (hd_or l2 None)))
    (slot_after l1).
Proof.
  intros Hrep Ho Hlo Hhi. pose proof (proj2 Hrep) as Hc. pose proof Hc as Hc2.
  rewrite cons_middle, app_assoc in Hc2.
  apply chain_middle in Hc as Hn. apply chain_middle in Hc2 as Hb.
  destruct (ordered_in lo hi _ a s Ho) as (Ha & Hs & _); [apply elem_middle|].
  cbn [coalesce_loop]. rewrite (read_slot_rep _ _ _ Hrep). simpl.
  rewrite (load_node_ok _ _ _ Hn). simpl. rewrite (load_node_ok _ _ _ Hb). simpl.
  rewrite (end_addr_ok lo hi (l1 ++ (a, s) :: (a + s, t) :: l2)); [|done|apply elem_middle|done].
  simpl. unfold start_addr. rewrite Z.eqb_refl.
  rewrite (load_node_ok (a + s) (mkNode t (hd_or l2 None))).
  2:{ rewrite store_node_ne; [done|]. unfold MIN_BLOCK in *. lia. }
  simpl. rewrite add_u64_ok; [done|]. apply ordered_merge in Ho.
  destruct (ordered_in lo hi _ a (s + t) Ho) as (_ & _ & _ & He); [apply elem_middle|].
  unfold addr_limit, u64_modulus in *. lia.
Qed.

Lemma coalesce_turn_skip fuel w lo hi l1 a s l2 :
  rep w (l1 ++ (a, s) :: l2) → ordered lo hi (l1 ++ (a, s) :: l2) → hi <= addr_limit →
  hd_or l2 None ≠ Some (a + s) →
  coalesce_loop (S fuel) w (slot_after l1) = coalesce_loop fuel w (slot_after (l1 ++ [(a, s)])).
Proof.
  intros Hrep Ho Hhi Hne. pose proof (proj2 Hrep) as Hc. apply chain_middle in Hc as Hn.
  cbn [coalesce_loop]. rewrite (read_slot_rep _ _ _ Hrep). simpl.
  rewrite (load_node_ok _ _ _ Hn), slot_after_snoc. simpl.
  destruct l2 as [|[b t] l2]; simpl in *; [done|].
  rewrite cons_middle, app_assoc in Hc. apply chain_middle in Hc as Hb.
  rewrite (load_node_ok _ _ _ Hb). simpl.
  rewrite (end_addr_ok lo hi (l1 ++ (a, s) :: (b, t) :: l2)); [|done|apply elem_middle|done].
  simpl. unfold start_addr. rewrite (proj2 (Z.eqb_neq b (a + s))); [done|congruence].
Qed.

Lemma coalesce_loop_spec fuel w lo hi l1 a s l2 :
  rep w (l1 ++ (a, s) :: l2) → ordered lo hi (l1 ++ (a, s) :: l2) →
  0 <= lo → hi <= addr_limit → (S (length l2) < fuel)%nat →
  ∃ w', coalesce_loop fuel w (slot_after l1) = Ok w' ∧ rep w' (l1 ++ merge_into a s l2) ∧
    w_self w' = w_self w ∧
    (∀ k, far (l1 ++ (a, s) :: l2) k → w_mem w' !! k = w_mem w !! k).
Proof.
  revert fuel w l1 a s. induction l2 as [|[b t] l2 IH];
    intros [|fuel] w l1 a s Hrep Ho Hlo Hhi Hf; try (simpl in Hf; lia).
  - rewrite (coalesce_turn_skip _ _ lo hi l1 a s []) by done.
    destruct fuel; [simpl in Hf; lia|]. cbn [coalesce_loop].
    rewrite (read_slot_rep w (l1 ++ [(a, s)]) []); [|by rewrite app_nil_r]. simpl. eauto.
  - simpl merge_into. zcase (b =? a + s).
    + subst b. rewrite (coalesce_turn_merge _ _ lo hi l1 a s t l2) by done.
      destruct (IH fuel _ l1 a (s + t) (merge_step_rep _ _ _ _ _ _ _ _ _ Hrep Ho))
        as (w' & Hw & Hr & Hself & Hfr); [by apply ordered_merge|done|done|simpl in Hf; lia|].
      exists w'. split_and!; [done..|]. intros k Hk. apply far_app in Hk as [Hk1 Hk2].
      apply far_cons in Hk2 as [Hka Hk2]. apply far_cons in Hk2 as [Hkb Hk2].
      rewrite Hfr; [by apply merge_mem_far|].
      apply far_app. split; [done|]. by apply far_cons.
    + rewrite (coalesce_turn_skip _ _ lo hi l1 a s ((b, t) :: l2)); [|done..|simpl; congruence].
      destruct (IH fuel w (l1 ++ [(a, s)]) b t) as (w' & Hw & Hr & Hself & Hfr);
        [by rewrite <- app_assoc..|done|done|simpl in Hf; lia|].
      exists w'. split_and!; [done| |done|].
      * by rewrite <- app_assoc in Hr.
      * intros k Hk. apply Hfr. by rewrite <- app_assoc.
Qed.

Lemma coalesce_spec w lo hi l :
  rep w l → ordered lo hi l → 0 <= lo → hi <= addr_limit →
  ∃ w', coalesce w = Ok w' ∧ rep w' (coalesce_regions l) ∧ w_self w' = w_self w ∧
    (∀ k, far l k → w_mem w' !! k = w_mem w !! k).
Proof.
  intros Hrep Ho Hlo Hhi. pose proof Hrep as [Hh Hc].
  pose proof (chain_length _ _ _ _ _ Ho Hc) as Hlen. unfold coalesce, walk_fuel.
  destruct l as [|[a s] l].
  - exists w. simpl. by rewrite Hh.
  - apply (coalesce_loop_spec _ _ lo hi [] a s l); [done..|simpl in Hlen; lia].
Qed.

(** ** The invariant of the allocator *)

Definition heap_is (w : world) (lo hi : Z) : Prop :=
  heap_start (w_self w) = lo ∧ heap_end (w_self w) = hi ∧ 0 < lo ∧ hi <= addr_limit.

(** [ll_inv lo hi w l]: the heap is [[lo, hi)] and its free list is [l]. *)
Definition ll_inv (lo hi : Z) (w : world) (l : list region) : Prop :=
  heap_is w lo hi ∧ rep w l ∧ free_wf lo hi l.

Lemma in_heap_true w lo hi addr s :
  heap_is w lo hi → lo <= addr → 0 <= s → addr + s <= hi → in_heap (w_self w) addr s = true.
Proof.
  intros (Hs & He & Hlo & Hhi) ? ? ?. unfold in_heap. rewrite Hs, He.
  unfold saturating_add, u64_max, addr_limit in *.
  apply andb_true_intro. split; apply Z.leb_le; lia.
Qed.

Lemma align_check w lo hi addr :
  heap_is w lo hi → lo <= addr <= hi → (NODE_ALIGN | addr) → align_up addr NODE_ALIGN = Ok addr.
Proof.
  intros (_ & _ & Hlo & Hhi) ? ?. unfold NODE_ALIGN, addr_limit in *.
  rewrite align_up_ok; [by rewrite round_up_fix|apply (is_pow2_lit 3); lia|lia|].
  unfold u64_modulus. lia.
Qed.

Lemma ordered_prefix lo hi l1 l2 : ordered lo hi (l1 ++ l2) → ordered lo hi l1.
Proof.
  rewrite <- (app_nil_r l1) at 2. rewrite !ordered_app. intros (mid & H1 & H2).
  exists mid. split; [done|]. simpl. by eapply ordered_le.
Qed.

(** Splicing a header inserts its region in the list. *)
Lemma splice_spec w lo hi k1 k2 addr s :
  rep w (k1 ++ k2) → ordered lo hi (k1 ++ (addr, s) :: k2) →
  ∃ w', splice w (slot_after k1) addr s = Ok w' ∧ rep w' (k1 ++ (addr, s) :: k2) ∧
    heap_start (w_self w') = heap_start (w_self w) ∧
    heap_end (w_self w') = heap_end (w_self w) ∧
    (∀ k, far k1 k → MIN_BLOCK <= Z.abs (k - addr) → w_mem w' !! k = w_mem w !! k).
Proof.
  intros Hrep Ho. unfold splice. rewrite (read_slot_rep _ _ _ Hrep). simpl.
  pose proof (ordered_far _ _ _ _ _ _ Ho) as [Fa1 Fa2]%far_app.
  destruct (write_slot_rep w lo hi k1 k2 [] None Hrep) as (w1 & -> & Hr1 & Hs1 & Hf1);
    [done..|rewrite app_nil_r; by eapply ordered_prefix|].
  rewrite app_nil_r in Hr1. simpl.
  destruct (write_slot_rep (store w1 addr (mkNode s (hd_or k2 None))) lo hi k1 []
    ((addr, s) :: k2) (Some addr)) as (w2 & -> & Hr2 & Hs2 & Hf2).
  - rewrite app_nil_r. split; [apply Hr1|]. by apply chain_store_far; [apply Hr1|].
  - simpl. split; [apply store_node_eq|]. apply chain_store_far; [|done].
    destruct Hrep as [_ Hc]. apply chain_to_app in Hc as [_ Hc].
    eapply chain_to_far; [done|]. intros b t Hin. apply Hf1.
    apply list_elem_of_split in Hin as (j1 & j2 & ->).
    rewrite app_comm_cons, app_assoc in Ho.
    apply ordered_far, far_app in Ho as [Ho _]. apply far_app in Ho. tauto.
  - done.
  - done.
  - exists w2. rewrite Hs2. simpl. rewrite Hs1. split_and!; try done.
    intros k Hk Hka. rewrite Hf2 by done. simpl. rewrite store_node_ne by done. by apply Hf1.
Qed.

Lemma add_free_region_spec lo hi w l addr s :
  ll_inv lo hi w l → lo <= addr → addr + s <= hi → MIN_BLOCK <= s → (NODE_ALIGN | addr) →
  clear_of l addr s →
  ∃ w', add_free_region w addr s = Ok w' ∧ ll_inv lo hi w' (add_region addr s l) ∧
    (∀ k, clear_of l k MIN_BLOCK → apart k MIN_BLOCK addr s → w_mem w' !! k = w_mem w !! k).
Proof.
  intros (Hh & Hrep & Hwf) Hlo Hhi Hs Ha Hc. pose proof Hwf as [Ho _].
  pose proof Hh as (Hhs & Hhe & Hpos & Hlim).
  assert (0 < s) by (unfold MIN_BLOCK in *; lia).
  unfold add_free_region. rewrite (rust_assert_true (MIN_BLOCK <=? s)) by (by apply Z.leb_le). bstep.
  rewrite (align_check w lo hi) by (done || lia). bstep.
  rewrite (rust_assert_true (addr =? addr)) by apply Z.eqb_refl. bstep.
  rewrite rust_assert_true by (eapply in_heap_true; eauto; lia). bstep.
  pose proof (chain_length _ _ _ _ _ Ho (proj2 Hrep)) as Hlen.
  destruct (walk_to_spec (walk_fuel w) w lo hi [] l addr s)
    as (k1 & k2 & -> & Hw & Hins); [done..|unfold walk_fuel; lia|].
  simpl app in Hw. change (slot_after []) with SHead in Hw. rewrite Hw. bstep.
  pose proof (insert_ordered lo hi addr s _ Ho Hlo Hhi Hs Ha Hc) as Hio. rewrite Hins in Hio.
  destruct (splice_spec w lo hi k1 k2 addr s Hrep Hio) as (w1 & -> & Hr1 & Hs1 & He1 & Hf1). bstep.
  destruct (coalesce_spec w1 lo hi _ Hr1 Hio) as (w2 & -> & Hr2 & Hs2 & Hf2); [lia|done|].
  exists w2. split_and!; [done| |].
  - split_and!; [|unfold add_region; by rewrite Hins|by apply add_region_wf].
    unfold heap_is. rewrite Hs2, Hs1, He1. done.
  - intros k Hk Hka. apply (clear_far lo hi) in Hk; [|done].
    apply far_app in Hk as [Hk1 Hk2]. unfold apart, MIN_BLOCK in *.
    rewrite Hf2; [apply Hf1; [done|unfold MIN_BLOCK; lia]|].
    apply far_app. split; [done|]. apply far_cons. split; [unfold MIN_BLOCK; lia|done].
Qed.

(** The conditional [add_free_region] calls of [find_region]. *)
Lemma leftover_spec lo hi w l a s :
  ll_inv lo hi w l → lo <= a → a + s <= hi → (NODE_ALIGN | a) → clear_of l a s →
  ∃ w', (if MIN_BLOCK <=? s then add_free_region w a s else Ok w) = Ok w' ∧
    ll_inv lo hi w' (add_leftover a s l) ∧
    (∀ k, clear_of l k MIN_BLOCK → apart k MIN_BLOCK a s → w_mem w' !! k = w_mem w !! k).
Proof.
  intros Hinv Hlo Hhi Ha Hc. unfold add_leftover. zcase (MIN_BLOCK <=? s).
  - by apply add_free_region_spec.
  - exists w. split_and!; [done|done|]. done.
Qed.

(** Unlinking the region after [l1] leaves the rest of the list. *)
Lemma unlink_spec lo hi w l1 a s l2 :
  ll_inv lo hi w (l1 ++ (a, s) :: l2) →
  ∃ w1 w2, write_slot w (slot_after l1) None = Ok w1 ∧
    load_node a (w_mem w1) = Ok (mkNode s (hd_or l2 None)) ∧
    write_slot (store w1 a (mkNode s None)) (slot_after l1) (hd_or l2 None) = Ok w2 ∧
    ll_inv lo hi w2 (l1 ++ l2) ∧
    (∀ k, clear_of (l1 ++ (a, s) :: l2) k MIN_BLOCK → w_mem w2 !! k = w_mem w !! k).
Proof.
  intros (Hh & Hrep & Hwf). pose proof Hwf as [Ho _].
  pose proof (ordered_far _ _ _ _ _ _ Ho) as [Fa1 Fa2]%far_app.
  pose proof (separated_remove _ _ _ _ _ Hwf) as Hwf'.
  destruct (write_slot_rep w lo hi l1 _ [] None Hrep) as (w1 & Hw1 & Hr1 & Hs1 & Hf1);
    [done..|rewrite app_nil_r; by eapply ordered_prefix|].
  rewrite app_nil_r in Hr1. pose proof (proj2 Hrep) as Hc.
  destruct (write_slot_rep (store w1 a (mkNode s None)) lo hi l1 [] l2 (hd_or l2 None))
    as (w2 & Hw2 & Hr2 & Hs2 & Hf2).
  - rewrite app_nil_r. split; [apply Hr1|]. by apply chain_store_far; [apply Hr1|].
  - apply chain_store_far; [|done]. apply chain_to_app in Hc as [_ [_ Hc]].
    eapply chain_to_far; [done|]. intros b t Hin. apply Hf1.
    apply list_elem_of_split in Hin as (j1 & j2 & ->). destruct Hwf' as [Ho' _].
    rewrite app_assoc in Ho'. apply ordered_far, far_app in Ho' as [Ho' _].
    apply far_app in Ho'. tauto.
  - done.
  - apply Hwf'.
  - exists w1, w2. split_and!; [done| |done| |].
    + apply load_node_ok. rewrite Hf1 by done. by eapply chain_middle.
    + split_and!; [|done|done]. unfold heap_is. rewrite Hs2. simpl. rewrite Hs1. done.
    + intros k Hk%(clear_far lo hi); [|done]. apply far_app in Hk as [Hk1 [Hka _]%far_cons].
      rewrite Hf2 by done. simpl. rewrite store_node_ne by done. by apply Hf1.
Qed.

Lemma carve_spec lo hi w l1 a s l2 p size :
  ll_inv lo hi w (l1 ++ (a, s) :: l2) → a <= p → 0 < size → p + size <= a + s →
  (NODE_ALIGN | p + size) →
  ∃ w', carve w (slot_after l1) a p (p + size) (a + s) = Ok (Some p, w') ∧
    ll_inv lo hi w' (add_leftover (p + size) (a + s - (p + size))
                       (add_leftover a (p - a) (l1 ++ l2))) ∧
    (∀ k, clear_of (l1 ++ (a, s) :: l2) k MIN_BLOCK → w_mem w' !! k = w_mem w !! k).
Proof.
  intros Hinv Hap Hsz Hpe Hal. pose proof Hinv as (_ & Hrep & [Ho Hsep]).
  destruct (ordered_in lo hi _ a s Ho) as (Hlo & Hs & Ha8 & Hhi); [apply elem_middle|].
  pose proof (ordered_middle_clear _ _ _ _ _ _ Ho) as Hclr.
  destruct (unlink_spec lo hi w l1 a s l2 Hinv) as (w1 & w2 & Hw1 & Hld & Hw2 & Hi2 & Hf2).
  unfold carve. rewrite (read_slot_rep _ _ _ Hrep). bstep. cbn [hd_or expect]. bstep.
  rewrite Hw1. bstep. rewrite Hld. bstep. cbn [take_next n_next n_size]. rewrite Hw2. bstep.
  rewrite !sub_u64_ok by lia. bstep.
  destruct (leftover_spec lo hi w2 (l1 ++ l2) a (p - a)) as (w3 & -> & Hi3 & Hf3);
    [done|lia|lia|done|intros x Hx; apply Hclr; lia|]. bstep.
  pose proof (proj2 (proj2 Hi2)) as Hwf2.
  destruct (add_leftover_spec lo hi a (p - a) (l1 ++ l2)) as [_ Hcov];
    [done|lia|lia|done|intros x Hx; apply Hclr; lia|].
  destruct (leftover_spec lo hi w3 (add_leftover a (p - a) (l1 ++ l2)) (p + size) (a + s - (p + size)))
    as (w4 & -> & Hi4 & Hf4); [done|lia|lia|done| |].
  { intros x Hx [[? ?]|Hc]%Hcov; [lia|]. apply (Hclr x); [lia|done]. }
  bstep. exists w4. split_and!; [done..|]. intros k Hk.
  pose proof (clear_in _ a s k MIN_BLOCK Hk (elem_middle _ _ _)) as Hap'.
  unfold apart, MIN_BLOCK in *.
  assert (∀ x, covers (l1 ++ l2) x → covers (l1 ++ (a, s) :: l2) x) as Hsub.
  { intros x. rewrite !covers_app. simpl. tauto. }
  rewrite Hf4; [|intros x Hx [[? ?]|Hc]%Hcov; [lia|by apply (Hk x), Hsub]|unfold apart; lia].
  rewrite Hf3; [by apply Hf2|by eapply clear_sub|unfold apart; lia].
Qed.

Lemma find_loop_spec fuel lo hi w l1 l2 size align :
  ll_inv lo hi w (l1 ++ l2) → is_pow2 align → align <= addr_limit →
  (length l2 < fuel)%nat →
  find_loop fuel w (slot_after l1) size align =
  match first_fit size align l2 with
  | None => Ok (None, w)
  | Some (k1, (a, s), _) =>
      carve w (slot_after (l1 ++ k1)) a (round_up a align) (round_up a align + size) (a + s)
  end.
Proof.
  intros Hinv Hal Hal64. pose proof Hinv as ((_ & _ & Hpos & Hlim) & Hrep & [Ho _]).
  revert fuel l1 Hinv Hrep Ho.
  induction l2 as [|[a s] l2 IH]; intros [|fuel] l1 Hinv Hrep Ho Hf; try (simpl in Hf; lia).
  { cbn [find_loop]. by rewrite (read_slot_rep _ _ _ Hrep). }
  destruct (ordered_in lo hi _ a s Ho) as (Hlo & Hs & Ha8 & Hhi); [apply elem_middle|].
  cbn [find_loop]. rewrite (read_slot_rep _ _ _ Hrep). bstep. cbn [hd_or].
  rewrite (load_node_ok _ _ _ (chain_middle _ _ _ _ _ _ (proj2 Hrep))). bstep.
  rewrite (end_addr_ok lo hi _ a s _ Ho (elem_middle _ _ _) Hlim). bstep.
  unfold start_addr. unfold addr_limit, MIN_BLOCK in *.
  rewrite align_up_ok by (done || unfold u64_modulus; lia). bstep.
  cbn [first_fit]. unfold fits at 1. cbn [fst snd].
  zcase (round_up a align + size <=? a + s).
  - rewrite checked_add_Some by (unfold u64_modulus; lia).
    rewrite (proj2 (Z.leb_le _ _)) by lia. by rewrite app_nil_r.
  - assert (match checked_add (round_up a align) size with
            | Some e => if e <=? a + s then Some e else None | None => None end = None) as ->.
    { unfold checked_add. zcase (round_up a align + size <? u64_modulus); [|done].
      by rewrite (proj2 (Z.leb_gt _ (a + s))). }
    rewrite <- slot_after_snoc with (l := l1) (s := s).
    rewrite IH; [|by rewrite <- app_assoc..|simpl in Hf; lia].
    destruct (first_fit size align l2) as [[[k1 [b t]] k2]|]; [|done].
    by rewrite <- app_assoc.
Qed.

(** ** [find_region] computes first fit *)

Lemma find_region_spec lo hi w l size align :
  ll_inv lo hi w l → is_pow2 align → NODE_ALIGN <= align → align <= addr_limit →
  0 < size → (NODE_ALIGN | size) →
  match alloc_region size align l with
  | None => find_region w size align = Ok (None, w)
  | Some (p, l') => ∃ w', find_region w size align = Ok (Some p, w') ∧ ll_inv lo hi w' l' ∧
      (∀ k, clear_of l k MIN_BLOCK → w_mem w' !! k = w_mem w !! k)
  end.
Proof.
  intros Hinv Hal Hal8 Hal64 Hsz Hsz8. pose proof Hinv as (_ & Hrep & Hwf).
  unfold find_region. change SHead with (slot_after []).
  rewrite (find_loop_spec _ lo hi w [] l size align); [|done..|].
  2:{ pose proof (chain_length _ _ _ _ _ (proj1 Hwf) (proj2 Hrep)). unfold walk_fuel. lia. }
  unfold alloc_region. destruct (first_fit size align l) as [[[l1 [a s]] l2]|] eqn:Hf; [|done].
  destruct (fit_bounds lo hi size align l l1 l2 a s) as (? & ? & ? & ?); [done..|].
  destruct (fit_aligned lo hi size align l l1 l2 a s) as (? & ? & ?); [done..|].
  pose proof (fit_split size align l l1 l2 a s Hf) as Heq. rewrite Heq in Hinv |- *.
  by apply carve_spec.
Qed.

(** ** Layouts *)

Definition block_size (l : Layout) : Z := round_up (Z.max (l_size l) MIN_BLOCK) NODE_ALIGN.

Lemma allocation_size_ok l : layout_ok l → allocation_size l = Ok (block_size l).
Proof.
  intros (H0 & Hp%is_pow2_pos & H2). unfold allocation_size, block_size.
  apply align_up_ok; [apply (is_pow2_lit 3); lia|lia|].
  unfold MIN_BLOCK, NODE_ALIGN, isize_max, u64_modulus in *. lia.
Qed.

Lemma block_size_bounds l :
  layout_ok l → l_size l <= block_size l ∧ MIN_BLOCK <= block_size l ∧ (NODE_ALIGN | block_size l).
Proof.
  intros _. unfold block_size.
  pose proof (round_up_bounds (Z.max (l_size l) MIN_BLOCK) NODE_ALIGN ltac:(done)).
  split_and!; [lia..|]. by apply round_up_div.
Qed.

Lemma allocation_align_ok l :
  layout_ok l → is_pow2 (allocation_align l) ∧ NODE_ALIGN <= allocation_align l ∧
    allocation_align l <= addr_limit ∧ (l_align l | allocation_align l).
Proof.
  intros (H0 & Hp & H2). unfold allocation_align.
  assert (is_pow2 NODE_ALIGN) by (apply (is_pow2_lit 3); lia).
  split_and!; [by apply is_pow2_max|lia| |].
  - unfold isize_max, addr_limit, NODE_ALIGN in *. lia.
  - apply pow2_divide; [done|by apply is_pow2_max|lia].
Qed.

(** ** [alloc] and [dealloc] *)

(** [alloc] computes first fit on the list of regions; it returns null, and
    leaves the allocator as it was, exactly when no region fits. *)
Lemma alloc_refines lo hi w l k :
  ll_inv lo hi w l → layout_ok k →
  match alloc_region (block_size k) (allocation_align k) l with
  | None => alloc w k = Ok (0, w)
  | Some (p, l') => ∃ w', alloc w k = Ok (p, w') ∧ ll_inv lo hi w' l' ∧
      alloc_region_post lo hi (block_size k) (allocation_align k) l p l' ∧
      (∀ q, clear_of l q MIN_BLOCK → w_mem w' !! q = w_mem w !! q)
  end.
Proof.
  intros Hinv Hk. destruct (block_size_bounds k Hk) as (Hb1 & Hb2 & Hb3).
  destruct (allocation_align_ok k Hk) as (Ha1 & Ha2 & Ha3 & Ha4).
  assert (0 < block_size k) by (unfold MIN_BLOCK in *; lia).
  pose proof (find_region_spec lo hi w l (block_size k) (allocation_align k)
    Hinv Ha1 Ha2 Ha3 ltac:(done) Hb3) as Hf.
  unfold alloc. rewrite allocation_size_ok by done. bstep.
  destruct (alloc_region _ _ l) as [[p l']|] eqn:Hal.
  - destruct Hf as (w' & -> & Hinv' & Hfr). bstep. exists w'. split_and!; try done.
    apply alloc_region_spec; try done. apply Hinv.
  - rewrite Hf. done.
Qed.

Lemma dealloc_refines lo hi w l p k :
  ll_inv lo hi w l → layout_ok k → lo <= p → p + block_size k <= hi →
  (NODE_ALIGN | p) → clear_of l p (block_size k) →
  ∃ w', dealloc w p k = Ok w' ∧ ll_inv lo hi w' (add_region p (block_size k) l) ∧
    (∀ q, clear_of l q MIN_BLOCK → apart q MIN_BLOCK p (block_size k) →
       w_mem w' !! q = w_mem w !! q).
Proof.
  intros Hinv Hk Hlo Hhi Hp Hc. destruct (block_size_bounds k Hk) as (Hb1 & Hb2 & Hb3).
  pose proof Hinv as (Hh & _). unfold MIN_BLOCK in *.
  unfold dealloc. rewrite allocation_size_ok by done. bstep.
  rewrite (rust_assert_true (in_heap (w_self w) p (block_size k)))
    by (eapply in_heap_true; eauto; lia). bstep.
  rewrite (align_check w lo hi) by (done || lia). bstep.
  rewrite (rust_assert_true (p =? p)) by apply Z.eqb_refl. bstep.
  by apply add_free_region_spec.
Qed.

(** A client's write to memory outside the free regions keeps the list. *)
Lemma clobber_inv lo hi w l a n :
  ll_inv lo hi w l → 0 <= n → clear_of l a n → ll_inv lo hi (scribble w a n) l.
Proof.
  intros (Hh & [Hr Hc] & Hwf) Hn Hclr. split_and!; [done| |done].
  split; [done|]. simpl. eapply chain_to_far; [done|]. intros b t Hin.
  destruct Hwf as [Ho _]. destruct (ordered_in _ _ _ _ _ Ho Hin) as (_ & Ht & _).
  rewrite clobber_lookup. unfold MIN_BLOCK in *.
  rewrite decide_True; [done|]. destruct (decide (n = 0)); [left; lia|].
  pose proof (clear_in l b t a n Hclr Hin). unfold apart in *. lia.
Qed.

(** ** The allocator meets the contract *)

Lemma footprint_ok k :
  request_ok k → l_size k <= block_size k ∧ (l_align k | allocation_align k).
Proof.
  intros [Hk _]. destruct (block_size_bounds k Hk) as (? & _).
  destruct (allocation_align_ok k Hk) as (_ & _ & _ & ?). done.
Qed.

Lemma block_size_pos k : request_ok k → 0 < block_size k.
Proof. intros [Hk _]. destruct (block_size_bounds k Hk). unfold MIN_BLOCK in *. lia. Qed.

Definition ll_contract (lo hi : Z) (w : world) (live : gmap Z Layout) : Prop :=
  ∃ l, ll_inv lo hi w l ∧ owned block_size allocation_align lo hi live l.

Lemma ll_alloc lo hi w live k :
  ll_contract lo hi w live → request_ok k →
  ∃ p w', alloc w k = Ok (p, w') ∧
    ((p = 0 ∧ ll_contract lo hi w' live) ∨
     (p ≠ 0 ∧ live !! p = None ∧ ll_contract lo hi w' (<[p:=k]> live))).
Proof.
  intros (l & Hinv & Hown) Hk. pose proof (alloc_refines lo hi w l k Hinv (proj1 Hk)) as Hal.
  destruct (alloc_region _ _ l) as [[p l']|]; [|exists 0, w; split; [done|left; by split; [|exists l]]].
  destruct Hal as (w' & -> & Hinv' & [] & _). exists p, w'. split; [done|]. right.
  destruct (owned_insert block_size allocation_align lo hi live l l' p k)
    as [Hnone Hown']; try done; [by apply block_size_pos|apply block_size_pos|].
  split_and!; [|done|by exists l'].
  destruct Hinv as ((_ & _ & Hpos & _) & _). lia.
Qed.

Lemma ll_dealloc lo hi w live p k :
  ll_contract lo hi w live → live !! p = Some k →
  ∃ w', dealloc w p k = Ok w' ∧ ll_contract lo hi w' (delete p live).
Proof.
  intros (l & Hinv & Hown) Hp.
  destruct (ow_block Hown p k Hp) as ([Hk Hk0] & Hlo & Hhi & Hal & Hc).
  destruct (allocation_align_ok k Hk) as (Ha1 & Ha2 & Ha3 & Ha4).
  assert (NODE_ALIGN | p) as Hp8.
  { etransitivity; [|exact Hal]. apply pow2_divide; [apply (is_pow2_lit 3); lia|done|done]. }
  destruct (dealloc_refines lo hi w l p k Hinv Hk Hlo Hhi Hp8 Hc) as (w' & -> & Hinv' & _).
  exists w'. split; [done|]. exists (add_region p (block_size k) l). split; [done|].
  apply owned_release with (l := l) (k := k); [done|done|]. intros x.
  destruct (block_size_bounds k Hk) as (_ & Hb & _).
  rewrite (add_region_covers lo hi) by (done || apply Hinv). done.
Qed.

Lemma ll_write lo hi w live p k a n :
  ll_contract lo hi w live → live !! p = Some k →
  p <= a → 0 <= n → a + n <= p + l_size k → ll_contract lo hi (scribble w a n) live.
Proof.
  intros (l & Hinv & Hown) Hp Ha Hn Hhi. exists l. split; [|done].
  destruct (ow_block Hown p k Hp) as (Hk & _ & _ & _ & Hc).
  destruct (footprint_ok k Hk) as [Hs _].
  apply clobber_inv; [done|done|]. intros x Hx. apply Hc. lia.
Qed.

#[global] Instance linked_list_spec : GlobalAllocSpec world alloc dealloc scribble := {|
  ga_inv := ll_contract;
  ga_alloc := ll_alloc;
  ga_dealloc := ll_dealloc;
  ga_write := ll_write;
  ga_live := λ lo hi w live '(ex_intro _ l (conj _ Hown)),
    owned_live _ _ _ _ _ _ footprint_ok Hown;
|}.

(** ** [init] and the diagnostics *)

Definition init_regions (start size : Z) : list region :=
  let a := round_up start NODE_ALIGN in
  if MIN_BLOCK <=? start + size - a then [(a, start + size - a)] else [].

Lemma init_inv w start size :
  0 < start → 0 <= size → start + size <= addr_limit →
  ∃ w', init w start size = Ok w' ∧ ll_inv start (start + size) w' (init_regions start size).
Proof.
  intros Hs Hsz Hlim. unfold init, init_regions.
  assert (saturating_add start size = start + size) as ->.
  { unfold saturating_add, addr_limit, u64_max in *. lia. }
  pose proof (round_up_bounds start NODE_ALIGN ltac:(done)) as Hb.
  pose proof (round_up_div start NODE_ALIGN ltac:(done)) as Hd.
  rewrite align_up_ok.
  2:{ apply (is_pow2_lit 3). lia. }
  2:{ lia. }
  2:{ unfold addr_limit, NODE_ALIGN, u64_modulus in *. lia. }
  bstep. set (a := round_up start NODE_ALIGN) in *.
  set (w0 := mkWorld (mkLLA None start (start + size)) (w_mem w)).
  assert (ll_inv start (start + size) w0 []) as Hinv.
  { split_and!; [done|done|]. split; [simpl; lia|done]. }
  unfold saturating_sub. zcase (MIN_BLOCK <=? start + size - a).
  - unfold MIN_BLOCK in E. rewrite (proj2 (Z.leb_le MIN_BLOCK _)) by (unfold MIN_BLOCK; lia).
    rewrite Z.max_l by lia.
    destruct (add_free_region_spec start (start + size) w0 [] a (start + size - a))
      as (w' & -> & Hinv' & _); [done|lia|lia|done|done|by intros x _ []|].
    exists w'. split; [done|exact Hinv'].
  - unfold MIN_BLOCK in *. rewrite (proj2 (Z.leb_gt 16 _)) by lia. eauto.
Qed.

Lemma count_loop_ok fuel m l c :
  chain_to m l None → (length l < fuel)%nat → c + Z.of_nat (length l) < u64_modulus →
  count_loop fuel m (hd_or l None) c = Ok (c + Z.of_nat (length l)).
Proof.
  revert fuel c. induction l as [|[a s] l IH]; intros [|fuel] c Hc Hf Hb; simpl in *; try lia.
  - f_equal. lia.
  - destruct Hc as [Hn Hc]. rewrite add_u64_ok by lia. bstep.
    rewrite (load_node_ok _ _ _ Hn). bstep. simpl. rewrite IH by (done || lia). f_equal. lia.
Qed.

Lemma bytes_loop_ok fuel m l c :
  chain_to m l None → (∀ b t, (b, t) ∈ l → 0 <= t) → (length l < fuel)%nat →
  0 <= c → c + total_bytes l < u64_modulus →
  bytes_loop fuel m (hd_or l None) c = Ok (c + total_bytes l).
Proof.
  revert fuel c. induction l as [|[a s] l IH]; intros [|fuel] c Hc Hpos Hf Hc0 Hb;
    simpl in *; try lia.
  - f_equal. lia.
  - destruct Hc as [Hn Hc]. rewrite (load_node_ok _ _ _ Hn). bstep. simpl.
    assert (0 <= s) by (apply (Hpos a); left).
    assert (∀ b t, (b, t) ∈ l → 0 <= t) as Hl by (intros b t ?; apply (Hpos b); by right).
    pose proof (total_bytes_nonneg l Hl).
    unfold total_bytes in *. simpl in *. rewrite add_u64_ok by lia. bstep.
    rewrite IH; [f_equal; lia|done|done|lia..].
Qed.

Lemma free_region_count_ok lo hi w l :
  ll_inv lo hi w l → free_region_count w = Ok (Z.of_nat (length l)).
Proof.
  intros ((_ & _ & Hpos & Hlim) & [Hh Hc] & [Ho _]). unfold free_region_count. rewrite Hh.
  pose proof (chain_length _ _ _ _ _ Ho Hc). pose proof (ordered_total _ _ _ Ho).
  apply (count_loop_ok _ _ l 0); [done|unfold walk_fuel; lia|].
  unfold addr_limit, u64_modulus, MIN_BLOCK in *. lia.
Qed.

Lemma free_bytes_ok lo hi w l : ll_inv lo hi w l → free_bytes w = Ok (total_bytes l).
Proof.
  intros ((_ & _ & Hpos & Hlim) & [Hh Hc] & [Ho _]). unfold free_bytes. rewrite Hh.
  pose proof (chain_length _ _ _ _ _ Ho Hc). pose proof (ordered_total _ _ _ Ho).
  apply (bytes_loop_ok _ _ l 0); [done| |unfold walk_fuel; lia|done|].
  - intros b t Hin. destruct (ordered_in _ _ _ _ _ Ho Hin) as (_ & Ht & _).
    unfold MIN_BLOCK in *. lia.
  - unfold addr_limit, u64_modulus, MIN_BLOCK in *. lia.
Qed.
