(* ===== verification/BumpAlloc.v ===== *)
(** * The bump allocator

    Models src/src/allocator/bump.rs: a cursor that only moves forward, and
    a [dealloc] that does nothing.  It has no headers in the heap, so a
    client's writes do not reach its state. *)

From Stdlib Require Import ZArith Lia.
From stdpp Require Import base gmap list strings numbers.
From S2P Require Import Prelude AllocMod FreeList.

Open Scope Z_scope.

Module Bump.

Record BumpAllocator := mkBump { heap_start : Z; heap_end : Z; next : Z }.

Definition empty : BumpAllocator := mkBump 0 0 0.

Definition init (self : BumpAllocator) (start size : Z) : BumpAllocator :=
  mkBump start (saturating_add start size) start.

Definition cursor (self : BumpAllocator) : Z := next self.

Definition remaining (self : BumpAllocator) : Z :=
  saturating_sub (heap_end self) (next self).

Definition heap_size (self : BumpAllocator) : Z :=
  saturating_sub (heap_end self) (heap_start self).

Definition alloc (self : BumpAllocator) (l : Layout) : outcome (Z * BumpAllocator) :=
  alloc_start ← align_up (next self) (l_align l);
  match checked_add alloc_start (l_size l) with
  | None => Ok (0, self)
  | Some alloc_end =>
      if heap_end self <? alloc_end then Ok (0, self)
      else Ok (alloc_start, mkBump (heap_start self) (heap_end self) alloc_end)
  end.

Definition dealloc (self : BumpAllocator) (ptr : Z) (l : Layout) : outcome BumpAllocator :=
  Ok self.

Definition scribble (self : BumpAllocator) (a n : Z) : BumpAllocator := self.

(** ** Specification *)

(** What the cursor has not handed out, as a free region. *)
Definition rest (self : BumpAllocator) : list region :=
  [(next self, heap_end self - next self)].

Definition bump_contract (lo hi : Z) (self : BumpAllocator) (live : gmap Z Layout) : Prop :=
  heap_start self = lo ∧ heap_end self = hi ∧ 0 < lo ∧ hi <= addr_limit ∧
  lo <= next self <= hi ∧ owned l_size l_align lo hi live (rest self).

Lemma alloc_spec lo hi self live l :
  bump_contract lo hi self live → request_ok l →
  let p := round_up (next self) (l_align l) in
  alloc self l =
    Ok (if hi <? p + l_size l then (0, self)
        else (p, mkBump lo hi (p + l_size l))).
Proof.
  intros (<- & <- & Hlo & Hhi & Hn & _) [(Hs & Hp & Hm) Hpos] p. unfold alloc.
  pose proof (is_pow2_pos _ Hp).
  rewrite align_up_ok; [|done|lia|unfold addr_limit, isize_max, u64_modulus in *; lia].
  bstep. pose proof (round_up_bounds (next self) (l_align l) ltac:(done)).
  rewrite checked_add_Some; [unfold p; by destruct (_ <? _)|].
  unfold addr_limit, isize_max, u64_modulus in *. lia.
Qed.

Lemma alloc_contract lo hi self live l :
  bump_contract lo hi self live → request_ok l →
  ∃ p self', alloc self l = Ok (p, self') ∧
    ((p = 0 ∧ bump_contract lo hi self' live) ∨
     (p ≠ 0 ∧ live !! p = None ∧ bump_contract lo hi self' (<[p:=l]> live))).
Proof.
  intros Hc Hl. rewrite (alloc_spec lo hi self live l Hc Hl).
  destruct Hl as [Hl Hpos]. pose proof Hl as (_ & Hp%is_pow2_pos & _).
  pose proof (round_up_bounds (next self) (l_align l) Hp) as Hb.
  pose proof Hc as (H1 & H2 & Hlo & Hhi & Hn & Hown).
  zcase (hi <? round_up (next self) (l_align l) + l_size l); [by eauto 10|].
  do 2 eexists. split; [done|]. right.
  destruct (owned_insert l_size l_align lo hi live (rest self)
    [(round_up (next self) (l_align l) + l_size l,
      hi - (round_up (next self) (l_align l) + l_size l))]
    (round_up (next self) (l_align l)) l) as [Hnone Hown'].
  1-5: done || lia || by intros j [].
  - lia.
  - by apply round_up_div.
  - intros x Hx. left. lia.
  - intros x Hx [Hx'|[]]. lia.
  - intros x [Hx|[]]. left. lia.
  - split_and!; [lia|done|]. unfold bump_contract. simpl. split_and!; try done; lia.
Qed.

Lemma dealloc_contract lo hi self live p l :
  bump_contract lo hi self live → live !! p = Some l →
  ∃ self', dealloc self p l = Ok self' ∧ bump_contract lo hi self' (delete p live).
Proof.
  intros (? & ? & ? & ? & ? & Hown) _. exists self. split; [done|].
  unfold bump_contract. split_and!; try done; try lia. by apply owned_delete.
Qed.

#[global] Instance bump_spec : GlobalAllocSpec BumpAllocator alloc dealloc scribble.
Proof.
  refine {| ga_inv := bump_contract; ga_alloc := alloc_contract; ga_dealloc := dealloc_contract |}.
  - done.
  - intros lo hi self live (_ & _ & _ & _ & _ & Hown).
    by eapply owned_live.
Defined.

Lemma init_contract self start size :
  0 < start → 0 <= size → start + size <= addr_limit →
  bump_contract start (start + size) (init self start size) ∅.
Proof.
  intros. unfold bump_contract, init. simpl.
  assert (saturating_add start size = start + size) as ->.
  { unfold saturating_add, addr_limit, u64_max in *. lia. }
  split_and!; (done || lia || apply owned_empty).
Qed.

End Bump.
