(* ===== verification/FixedSizeBlock.v ===== *)
(** * The fixed-size-block allocator: the kernel's global allocator

    Models src/src/allocator/fixed_size_block.rs.  Ten lists of cached blocks,
    one per size class, threaded through the same heap as the free list of
    the fallback allocator ([LinkedList]); the store of headers is shared.

    The theorems show that a block is never handed out while it is cached,
    free or owned by a client, that [alloc] and [dealloc] agree on the size of
    a block in every class, and that the accounting of [stats] is right. *)

From Stdlib Require Import ZArith Lia.
From stdpp Require Import base gmap list strings numbers.
From S2P Require Import Prelude AllocMod FreeList LinkedList.

Open Scope Z_scope.

Module Fixed.

Definition BLOCK_SIZES : list Z := [8; 16; 32; 64; 128; 256; 512; 1024; 2048; 4096].

Record FixedSizeBlockAllocator := mkFixed {
  list_heads : list (option Z);
  fallback_allocator : LinkedListAllocator;
}.

(** The allocator and the heap. *)
Record fworld := mkFW { f_self : FixedSizeBlockAllocator; f_mem : hmem }.

Definition empty : FixedSizeBlockAllocator :=
  mkFixed (replicate (length BLOCK_SIZES) None) LinkedList.empty.

(** ** Operations *)

(** The fallback allocator, with the heap it works on. *)
Definition fallback (w : fworld) : world := mkWorld (fallback_allocator (f_self w)) (f_mem w).

Definition with_fallback (w : fworld) (fb : world) : fworld :=
  mkFW (mkFixed (list_heads (f_self w)) (w_self fb)) (w_mem fb).

Definition init (w : fworld) (heap_start heap_size : Z) : outcome fworld :=
  fb ← LinkedList.init (fallback w) heap_start heap_size;
  Ok (with_fallback w fb).

(** [iter().position(p)] *)
Fixpoint position (p : Z → bool) (l : list Z) : option nat :=
  match l with
  | [] => None
  | x :: l => if p x then Some O else S <$> position p l
  end.

Definition list_index (l : Layout) : option nat :=
  let required := Z.max (l_size l) (l_align l) in
  position (λ s, required <=? s) BLOCK_SIZES.

(** [v[i]] on a slice. *)
Definition index {A} (v : list A) (i : nat) : outcome A :=
  expect (v !! i) "index out of bounds".

Definition fallback_alloc (w : fworld) (l : Layout) : outcome (Z * fworld) :=
  '(p, fb) ← LinkedList.alloc (fallback w) l;
  Ok (p, with_fallback w fb).

Definition set_list_head (w : fworld) (i : nat) (h : option Z) : fworld :=
  mkFW (mkFixed (<[i := h]> (list_heads (f_self w))) (fallback_allocator (f_self w))) (f_mem w).

Definition set_mem (w : fworld) (m : hmem) : fworld := mkFW (f_self w) m.

Definition alloc (w : fworld) (l : Layout) : outcome (Z * fworld) :=
  match list_index l with
  | Some i =>
      h ← index (list_heads (f_self w)) i;
      let w := set_list_head w i None in
      match h with
      | Some node =>
          n ← load_node node (f_mem w);
          let '(next, n') := take_next n in
          let w := set_mem w (store_node node n' (f_mem w)) in
          let addr := start_addr node in
          Ok (addr, set_list_head w i next)
      | None =>
          block_size ← index BLOCK_SIZES i;
          let block_align := block_size in
          layout ← expect (from_size_align block_size block_align) "invalid block layout";
          fallback_alloc w layout
      end
  | None => fallback_alloc w l
  end.

Definition dealloc (w : fworld) (ptr : Z) (l : Layout) : outcome fworld :=
  let to_fallback :=
    fb ← LinkedList.dealloc (fallback w) ptr l;
    Ok (with_fallback w fb) in
  match list_index l with
  | Some i =>
      size ← index BLOCK_SIZES i;
      if (MIN_BLOCK <=? size) && (NODE_ALIGN <=? size) then
        let w := set_mem w (store_node ptr (node_new size) (f_mem w)) in
        head ← index (list_heads (f_self w)) i;
        let w := set_list_head w i None in
        n ← load_node ptr (f_mem w);
        let w := set_mem w (store_node ptr (set_next n head) (f_mem w)) in
        Ok (set_list_head w i (Some ptr))
      else to_fallback
  | None => to_fallback
  end.

(** [stats]: bytes parked in one size class. *)
Fixpoint class_bytes (fuel : nat) (m : hmem) (size : Z) (block : option Z) (cached : Z)
  : outcome Z :=
  match fuel, block with
  | O, _ => Diverge
  | S _, None => Ok cached
  | S fuel, Some a =>
      cached ← add_u64 cached size;
      node ← load_node a m;
      class_bytes fuel m size (n_next node) cached
  end.

Fixpoint cached_bytes (m : hmem) (heads : list (option Z)) (sizes : list Z) (cached : Z)
  : outcome Z :=
  match heads, sizes with
  | [], _ => Ok cached
  | h :: heads, size :: sizes =>
      cached ← class_bytes (S (base.size m)) m size h cached;
      cached_bytes m heads sizes cached
  | _ :: _, [] => Panic "index out of bounds"
  end.

Record HeapStats := mkStats { st_heap_size : Z; st_free_bytes : Z }.

Definition stats (w : fworld) : outcome HeapStats :=
  cached ← cached_bytes (f_mem w) (list_heads (f_self w)) BLOCK_SIZES 0;
  let heap_size := LinkedList.heap_size (fallback_allocator (f_self w)) in
  free ← LinkedList.free_bytes (fallback w);
  total ← add_u64 free cached;
  Ok (mkStats heap_size total).

(** A client that writes [n] bytes at [a]. *)
Definition scribble (w : fworld) (a n : Z) : fworld :=
  set_mem w (clobber a (a + n) (f_mem w)).

(** ** Size classes *)

(** The layout of the block that serves a request. *)
Definition slab_layout (k : Layout) : Layout :=
  match list_index k with
  | Some i => match BLOCK_SIZES !! i with Some s => mkLayout s s | None => k end
  | None => k
  end.

Definition footprint (k : Layout) : Z := block_size (slab_layout k).
Definition falign (k : Layout) : Z := allocation_align (slab_layout k).

Lemma position_Some p l i :
  position p l = Some i → ∃ x, l !! i = Some x ∧ p x = true ∧
    (∀ j y, (j < i)%nat → l !! j = Some y → p y = false).
Proof.
  revert i. induction l as [|x l IH]; simpl; intros i; [done|].
  destruct (p x) eqn:Hx.
  - intros [= <-]. exists x. split_and!; [done..|]. lia.
  - destruct (position p l) as [n|]; [|done]. intros [= <-].
    destruct (IH n eq_refl) as (y & H1 & H2 & H3). exists y. split_and!; [done..|].
    intros [|j] z Hj; simpl; [by intros [= <-]|]. apply H3. lia.
Qed.

Lemma position_None p l : position p l = None → ∀ x, x ∈ l → p x = false.
Proof.
  induction l as [|y l IH]; simpl; [by intros _ ? ?%not_elem_of_nil|].
  destruct (p y) eqn:Hy; [done|]. destruct (position p l); [done|].
  intros _ x [->|Hin]%elem_of_cons; [done|]. by apply IH.
Qed.

(** A statement about every size class, checked class by class. *)
Lemma class_ind (P : nat → Z → Prop) :
  P 0%nat 8 → P 1%nat 16 → P 2%nat 32 → P 3%nat 64 → P 4%nat 128 → P 5%nat 256 →
  P 6%nat 512 → P 7%nat 1024 → P 8%nat 2048 → P 9%nat 4096 →
  ∀ i s, BLOCK_SIZES !! i = Some s → P i s.
Proof.
  intros. unfold BLOCK_SIZES in *.
  do 10 (destruct i as [|i]; [simpl in *; simplify_eq; done|]). done.
Qed.

Lemma class_pow2 i s : BLOCK_SIZES !! i = Some s → is_pow2 s.
Proof.
  revert i s. apply class_ind; first
    [ by apply (is_pow2_lit 3) | by apply (is_pow2_lit 4) | by apply (is_pow2_lit 5)
    | by apply (is_pow2_lit 6) | by apply (is_pow2_lit 7) | by apply (is_pow2_lit 8)
    | by apply (is_pow2_lit 9) | by apply (is_pow2_lit 10) | by apply (is_pow2_lit 11)
    | by apply (is_pow2_lit 12) ].
Qed.

Lemma class_facts i s :
  BLOCK_SIZES !! i = Some s →
  8 <= s <= 4096 ∧ from_size_align s s = Some (mkLayout s s) ∧
  list_index (mkLayout s s) = Some i ∧ block_size (mkLayout s s) = Z.max s MIN_BLOCK.
Proof. revert i s. apply class_ind; (split; [lia|split_and!; vm_compute; reflexivity]). Qed.

Lemma class_request i s : BLOCK_SIZES !! i = Some s → request_ok (mkLayout s s).
Proof.
  intros Hi. destruct (class_facts i s Hi) as (Hb & _). pose proof (class_pow2 i s Hi).
  split; [|simpl; lia]. split_and!; simpl; [lia|done|unfold isize_max; lia].
Qed.

Lemma slab_layout_class i s :
  BLOCK_SIZES !! i = Some s → slab_layout (mkLayout s s) = mkLayout s s.
Proof.
  intros Hi. destruct (class_facts i s Hi) as (_ & _ & Hl & _).
  unfold slab_layout. by rewrite Hl, Hi.
Qed.

Lemma class_inj i j s : BLOCK_SIZES !! i = Some s → BLOCK_SIZES !! j = Some s → i = j.
Proof.
  intros Hi Hj. destruct (class_facts i s Hi) as (_ & _ & H1 & _).
  destruct (class_facts j s Hj) as (_ & _ & H2 & _). congruence.
Qed.

(** [list_index] picks the smallest class that holds the layout. *)
Lemma list_index_Some k i :
  list_index k = Some i → ∃ s, BLOCK_SIZES !! i = Some s ∧
    l_size k <= s ∧ l_align k <= s ∧
    (∀ j t, (j < i)%nat → BLOCK_SIZES !! j = Some t → t < Z.max (l_size k) (l_align k)).
Proof.
  intros (s & Hs & Hle & Hmin)%position_Some. zbool. exists s. split_and!; [done|lia|lia|].
  intros j t Hj Ht. specialize (Hmin j t Hj Ht). zbool. done.
Qed.

Lemma list_index_None k : list_index k = None → 4096 < Z.max (l_size k) (l_align k).
Proof.
  intros H. apply Z.leb_gt. apply (position_None _ _ H 4096).
  apply (list_elem_of_lookup_2 _ 9%nat). done.
Qed.

Lemma slab_request k : request_ok k → request_ok (slab_layout k).
Proof.
  intros Hk. unfold slab_layout. destruct (list_index k) as [i|]; [|done].
  destruct (BLOCK_SIZES !! i) eqn:Hi; [|done]. by eapply class_request.
Qed.

Lemma footprint_min k : request_ok k → MIN_BLOCK <= footprint k ∧ (NODE_ALIGN | falign k).
Proof.
  intros [Hk _]%slab_request. destruct (block_size_bounds _ Hk) as (_ & ? & _).
  destruct (allocation_align_ok _ Hk) as (? & ? & _). split; [done|].
  apply pow2_divide; [by apply (is_pow2_lit 3)|done|done].
Qed.

Lemma footprint_covers k :
  request_ok k → l_size k <= footprint k ∧ (l_align k | falign k).
Proof.
  intros Hk. pose proof (footprint_ok _ (slab_request k Hk)) as [H1 H2].
  unfold footprint, falign. unfold slab_layout in *.
  destruct (list_index k) as [i|] eqn:Hi; [|done].
  destruct (list_index_Some k i Hi) as (s & Hs & Hle1 & Hle2 & _).
  rewrite Hs in *. simpl in *. split; [lia|]. etransitivity; [|exact H2].
  apply pow2_divide; [apply Hk|by eapply class_pow2|done].
Qed.

(** [alloc] and [dealloc] agree on the extent of a block: what the class
    hands out is what the original layout gives back. *)
Lemma small_class_agrees k i s :
  request_ok k → list_index k = Some i → BLOCK_SIZES !! i = Some s → s < MIN_BLOCK →
  block_size k = footprint k.
Proof.
  intros Hk Hi Hs Hsm. unfold footprint, slab_layout. rewrite Hi, Hs.
  destruct (class_facts i s Hs) as (_ & _ & _ & ->).
  destruct (list_index_Some k i Hi) as (s' & Hs' & Hle & _). simplify_eq.
  unfold block_size, MIN_BLOCK in *. rewrite Z.max_r by lia. rewrite Z.max_r by lia. done.
Qed.

(** ** The invariant *)

Definition blocks (s : Z) (cs : list Z) : list region := (λ a, (a, s)) <$> cs.

(** The list of class [i] caches exactly the blocks that [cached] gives the
    layout of the class. *)
Record class_ok (w : fworld) (cached : gmap Z Layout) (i : nat) (s : Z) (cs : list Z)
  : Prop := {
  co_head : list_heads (f_self w) !! i = Some (hd_or (blocks s cs) None);
  co_chain : chain_to (f_mem w) (blocks s cs) None;
  co_nodup : NoDup cs;
  co_cached : ∀ a, a ∈ cs ↔ cached !! a = Some (mkLayout s s);
}.

(** ** The reference allocator

    Ten stacks of blocks over a list of free regions, without pointers. *)
Record fref := mkRef { r_classes : list (list Z); r_free : list region }.

Definition ref_init (start size : Z) : fref :=
  mkRef (replicate (length BLOCK_SIZES) []) (init_regions start size).

(** First fit for the block that serves a request; 0 is the null pointer. *)
Definition ref_fallback (r : fref) (k : Layout) : Z * fref :=
  match alloc_region (footprint k) (falign k) (r_free r) with
  | Some (p, l) => (p, mkRef (r_classes r) l)
  | None => (0, r)
  end.

Definition ref_alloc (r : fref) (k : Layout) : Z * fref :=
  match list_index k with
  | Some i =>
      match r_classes r !! i with
      | Some (a :: cs) => (a, mkRef (<[i := cs]> (r_classes r)) (r_free r))
      | _ => ref_fallback r k
      end
  | None => ref_fallback r k
  end.

(** Blocks of 16 bytes and more are cached. *)
Definition ref_dealloc (r : fref) (p : Z) (k : Layout) : fref :=
  let free := mkRef (r_classes r) (add_region p (footprint k) (r_free r)) in
  match list_index k with
  | Some i =>
      if MIN_BLOCK <=? default 0 (BLOCK_SIZES !! i)
      then mkRef (alter (cons p) i (r_classes r)) (r_free r) else free
  | None => free
  end.

(** The reference state [r] the allocator is in, with the cached blocks
    [cached] and the clients' blocks [live]. *)
Record fixed_inv (lo hi : Z) (w : fworld) (live cached : gmap Z Layout) (r : fref)
  : Prop := {
  fi_fallback : ll_inv lo hi (fallback w) (r_free r);
  fi_len : length (list_heads (f_self w)) = length BLOCK_SIZES;
  fi_class : ∀ i s, BLOCK_SIZES !! i = Some s →
    ∃ cs, r_classes r !! i = Some cs ∧ class_ok w cached i s cs;
  fi_big : ∀ a k, cached !! a = Some k →
    MIN_BLOCK <= l_size k ∧ ∃ i, BLOCK_SIZES !! i = Some (l_size k) ∧ k = mkLayout (l_size k) (l_size k);
  fi_disj : live ##ₘ cached;
  fi_owned : owned footprint falign lo hi (live ∪ cached) (r_free r);
}.

Lemma elem_blocks s cs a t : (a, t) ∈ blocks s cs ↔ t = s ∧ a ∈ cs.
Proof. unfold blocks. rewrite list_elem_of_fmap. naive_solver. Qed.

(** A change of the heap that keeps the headers of the cached blocks. *)
Lemma class_ok_mem w m cached i s cs :
  class_ok w cached i s cs → (∀ a, is_Some (cached !! a) → m !! a = f_mem w !! a) →
  class_ok (set_mem w m) cached i s cs.
Proof.
  intros [H1 H2 H3 H4] Hm. split; try done. eapply chain_to_far; [done|].
  intros a t [-> Ha]%elem_blocks. apply Hm. exists (mkLayout s s). by apply H4.
Qed.

(** Two owned blocks have their headers apart. *)
Lemma owned_header_far lo hi m l a k b j :
  owned footprint falign lo hi m l → m !! a = Some k → m !! b = Some j → a ≠ b →
  MIN_BLOCK <= Z.abs (a - b).
Proof.
  intros Hown Ha Hb Hne. pose proof (ow_apart Hown a k b j Ha Hb Hne).
  destruct (ow_block Hown a k Ha) as (Hk & _), (ow_block Hown b j Hb) as (Hj & _).
  destruct (footprint_min k Hk), (footprint_min j Hj). unfold apart, MIN_BLOCK in *. lia.
Qed.

(** The header of an owned block lies outside the free regions. *)
Lemma owned_header_clear lo hi m l a k :
  owned footprint falign lo hi m l → m !! a = Some k → clear_of l a MIN_BLOCK.
Proof.
  intros Hown Ha. destruct (ow_block Hown a k Ha) as (Hk & _ & _ & _ & Hc).
  destruct (footprint_min k Hk). intros x Hx. apply Hc. lia.
Qed.

Section inv.
Context (lo hi : Z) (w : fworld) (live cached : gmap Z Layout) (r : fref).
Context (Hinv : fixed_inv lo hi w live cached r).

Lemma cached_owned a k : cached !! a = Some k → (live ∪ cached) !! a = Some k.
Proof. intros Ha. apply lookup_union_Some_r; [apply (fi_disj _ _ _ _ _ _ Hinv)|done]. Qed.

Lemma live_owned a k : live !! a = Some k → (live ∪ cached) !! a = Some k.
Proof. apply lookup_union_Some_l. Qed.

(** Storing a header in an owned block touches no other header in use. *)
Lemma store_owned_fallback p k n :
  (live ∪ cached) !! p = Some k →
  ll_inv lo hi (fallback (set_mem w (store_node p n (f_mem w)))) (r_free r).
Proof.
  intros Hp. destruct (fi_fallback _ _ _ _ _ _ Hinv) as (Hh & [Hr Hc] & Hwf).
  split_and!; [done| |done]. split; [done|]. simpl. apply chain_store_far; [done|].
  apply (clear_far lo hi); [apply Hwf|].
  apply (owned_header_clear lo hi _ _ _ _ (fi_owned _ _ _ _ _ _ Hinv) Hp).
Qed.

Lemma store_owned_other p k n a :
  (live ∪ cached) !! p = Some k → is_Some (cached !! a) → a ≠ p →
  store_node p n (f_mem w) !! a = f_mem w !! a.
Proof.
  intros Hp [j Ha%cached_owned] Hne. apply store_node_ne.
  by apply (owned_header_far lo hi _ _ _ _ _ _ (fi_owned _ _ _ _ _ _ Hinv) Ha Hp).
Qed.
End inv.

Lemma set_list_head_id w i h :
  list_heads (f_self w) !! i = Some h → set_list_head w i h = w.
Proof.
  intros Hi. unfold set_list_head. rewrite list_insert_id by done. by destruct w as [[] ?].
Qed.

(** ** The fallback paths *)

Lemma fallback_alloc_inv lo hi w live cached r k :
  fixed_inv lo hi w live cached r → request_ok k →
  ∃ p w' r', fallback_alloc w (slab_layout k) = Ok (p, w') ∧ ref_fallback r k = (p, r') ∧
    ((p = 0 ∧ w' = w ∧ r' = r) ∨
     (p ≠ 0 ∧ live !! p = None ∧ fixed_inv lo hi w' (<[p:=k]> live) cached r')).
Proof.
  intros Hinv Hk. unfold fallback_alloc. pose proof (slab_request k Hk) as Hsk.
  pose proof (alloc_refines lo hi (fallback w) _ _ (fi_fallback _ _ _ _ _ _ Hinv) (proj1 Hsk)) as Ha.
  unfold ref_fallback. change (footprint k) with (block_size (slab_layout k)).
  change (falign k) with (allocation_align (slab_layout k)).
  destruct (alloc_region _ _ (r_free r)) as [[p l']|].
  2:{ rewrite Ha. bstep. exists 0, w, r. split; [|split; [done|by left]]. do 2 f_equal.
      unfold with_fallback, fallback. simpl. by destruct w as [[] ?]. }
  destruct Ha as (fb & -> & Hfb & [] & Hfr). bstep.
  exists p, (with_fallback w fb), (mkRef (r_classes r) l').
  split; [done|]. split; [done|]. right.
  destruct (owned_insert footprint falign lo hi (live ∪ cached) (r_free r) l' p k) as [Hnone Hown'];
    try done; try apply Hinv.
  { unfold footprint. by apply block_size_pos. }
  { intros j Hj. unfold footprint. by apply block_size_pos, slab_request. }
  apply lookup_union_None in Hnone as [Hn1 Hn2]. split_and!; [|done|].
  { destruct (fi_fallback _ _ _ _ _ _ Hinv) as ((_ & _ & ? & _) & _). lia. }
  split.
  - by destruct fb.
  - apply Hinv.
  - intros i s Hi. destruct (fi_class _ _ _ _ _ _ Hinv i s Hi) as (cs & Hr & Hcs). exists cs. split; [done|].
    destruct (class_ok_mem w (w_mem fb) cached i s cs Hcs) as [H1 H2 H3 H4]; [|by split].
    intros a [j Ha]. apply Hfr.
    apply (owned_header_clear lo hi _ _ _ j (fi_owned _ _ _ _ _ _ Hinv)).
    by apply (cached_owned lo hi w live cached r).
  - apply Hinv.
  - apply map_disjoint_insert_l. split; [done|apply Hinv].
  - by rewrite <- insert_union_l.
Qed.

Lemma fallback_dealloc_inv lo hi w live cached r p k :
  fixed_inv lo hi w live cached r → live !! p = Some k → block_size k = footprint k →
  ∃ fb, LinkedList.dealloc (fallback w) p k = Ok fb ∧
    fixed_inv lo hi (with_fallback w fb) (delete p live) cached
      (mkRef (r_classes r) (add_region p (footprint k) (r_free r))).
Proof.
  intros Hinv Hp Hfp. pose proof (live_owned live cached p k Hp) as Hpo.
  destruct (ow_block (fi_owned _ _ _ _ _ _ Hinv) p k Hpo) as (Hk & Hlo & Hhi & Hal & Hc).
  destruct (footprint_min k Hk) as [Hmin Hd].
  assert (NODE_ALIGN | p) by (by etransitivity).
  destruct (dealloc_refines lo hi (fallback w) (r_free r) p k) as (fb & -> & Hfb & Hfr);
    [apply Hinv|apply Hk|by rewrite ?Hfp..|]. rewrite Hfp in *.
  exists fb. split; [done|].
  assert (cached !! p = None) as Hcp.
  { by eapply map_disjoint_Some_l; [apply (fi_disj _ _ _ _ _ _ Hinv)|]. }
  split.
  - by destruct fb.
  - apply Hinv.
  - intros i s Hi. destruct (fi_class _ _ _ _ _ _ Hinv i s Hi) as (cs & Hr & Hcs). exists cs. split; [done|].
    destruct (class_ok_mem w (w_mem fb) cached i s cs Hcs) as [H1 H2 H3 H4]; [|by split].
    intros a [j Ha]. pose proof (cached_owned _ _ _ _ _ _ Hinv a j Ha) as Hao. apply Hfr.
    + apply (owned_header_clear lo hi _ _ _ j (fi_owned _ _ _ _ _ _ Hinv) Hao).
    + assert (a ≠ p) as Hne by congruence.
      pose proof (ow_apart (fi_owned _ _ _ _ _ _ Hinv) a j p k Hao Hpo Hne) as Hap.
      destruct (ow_block (fi_owned _ _ _ _ _ _ Hinv) a j Hao) as (Hj & _).
      destruct (footprint_min j Hj). unfold apart, MIN_BLOCK in *. lia.
  - apply Hinv.
  - by apply map_disjoint_delete_l, Hinv.
  - rewrite <- (delete_id cached p Hcp), <- delete_union.
    apply owned_release with (l := r_free r) (k := k); [apply Hinv|done|].
    intros x. cbn [r_free]. rewrite (add_region_covers lo hi); try done. apply Hinv.
Qed.

(** ** The cached paths *)

Lemma list_heads_set w i j h hj :
  list_heads (f_self w) !! j = Some hj →
  list_heads (f_self (set_list_head w i h)) !! j = Some (if decide (i = j) then h else hj).
Proof.
  intros Hj. simpl. rewrite list_lookup_insert. apply lookup_lt_Some in Hj as Hlt.
  repeat case_decide; naive_solver.
Qed.

Lemma class_ok_other w m i h j s cached cached' cs :
  class_ok w cached j s cs → i ≠ j →
  (∀ a, is_Some (cached !! a) → a ∈ cs → m !! a = f_mem w !! a) →
  (∀ a, cached' !! a = Some (mkLayout s s) ↔ cached !! a = Some (mkLayout s s)) →
  class_ok (set_list_head (set_mem w m) i h) cached' j s cs.
Proof.
  intros [H1 H2 H3 H4] Hne Hm Hc. split.
  - rewrite (list_heads_set (set_mem w m) i j h _ H1). by rewrite decide_False.
  - simpl. eapply chain_to_far; [done|]. intros a t [-> Ha]%elem_blocks. apply Hm; [|done].
    exists (mkLayout s s). by apply H4.
  - done.
  - intros a. by rewrite Hc, H4.
Qed.

(** Moving a block between the clients' and the cached blocks. *)
Lemma union_take (m1 m2 : gmap Z Layout) a k :
  <[a:=k]> m1 ∪ delete a m2 = <[a:=k]> (m1 ∪ m2).
Proof.
  apply map_eq. intros b. rewrite <- insert_union_l.
  destruct (decide (a = b)) as [<-|Hne]; [by rewrite !lookup_insert_eq|].
  rewrite !lookup_insert_ne, !lookup_union, lookup_delete_ne by done. done.
Qed.

Lemma slab_same k i s :
  list_index k = Some i → BLOCK_SIZES !! i = Some s →
  footprint k = footprint (mkLayout s s) ∧ falign k = falign (mkLayout s s).
Proof.
  intros Hi Hs. unfold footprint, falign. rewrite (slab_layout_class i s Hs).
  unfold slab_layout. by rewrite Hi, Hs.
Qed.

Section cached.
Context (lo hi : Z) (w : fworld) (live cached : gmap Z Layout) (r : fref).
Context (Hinv : fixed_inv lo hi w live cached r).
Context (i : nat) (s : Z) (Hs : BLOCK_SIZES !! i = Some s).

(** The lists after the first block of class [i] was taken. *)
Lemma pop_classes a cs n :
  class_ok w cached i s (a :: cs) →
  r_classes r !! i = Some (a :: cs) →
  ∀ j t, BLOCK_SIZES !! j = Some t →
  ∃ ds, <[i := cs]> (r_classes r) !! j = Some ds ∧
    class_ok (set_list_head (set_mem w (store_node a n (f_mem w))) i
                    (hd_or (blocks s cs) None)) (delete a cached) j t ds.
Proof.
  intros [H1 [H2 H2'] H3 H4] Hri j t Hj. inversion_clear H3 as [|? ? Hnotin Hnd].
  assert (cached !! a = Some (mkLayout s s)) as Hca by (apply H4; left).
  pose proof (cached_owned _ _ _ _ _ _ Hinv a _ Hca) as Hao.
  destruct (decide (i = j)) as [<-|Hne].
  - simplify_eq. exists cs. split; [by eapply list_lookup_insert_eq, lookup_lt_Some|]. split.
    + etransitivity; [apply (list_heads_set (set_mem w _)); exact H1|].
      by rewrite decide_True.
    + simpl. eapply chain_to_far; [done|]. intros b u [-> Hb]%elem_blocks.
      apply (store_owned_other lo hi w live cached r Hinv a (mkLayout s s));
        [done| |by intros ->]. exists (mkLayout s s). apply H4. by right.
    + done.
    + intros b. rewrite lookup_delete_Some, <- H4, elem_of_cons.
      split; [intros Hb; split; [by intros ->|by right]|]. by intros [Hne [->|Hb]].
  - destruct (fi_class _ _ _ _ _ _ Hinv j t Hj) as (ds & Hrj & Hds). exists ds.
    split; [by rewrite list_lookup_insert_ne|]. apply class_ok_other with (cached := cached); [done|done| |].
    + intros b Hb Hbds. apply (store_owned_other lo hi w live cached r Hinv a _ n b Hao Hb).
      intros ->. apply (co_cached _ _ _ _ _ Hds) in Hbds. apply Hne, (class_inj i j s Hs). congruence.
    + intros b. rewrite lookup_delete_Some. split; [tauto|]. intros Hb. split; [|done].
      intros ->. apply Hne, (class_inj i j s Hs). congruence.
Qed.

(** The lists after block [p] was put in front of class [i]. *)
Lemma push_classes p k cs :
  class_ok w cached i s cs → r_classes r !! i = Some cs → live !! p = Some k →
  ∀ j t, BLOCK_SIZES !! j = Some t →
  ∃ ds, alter (cons p) i (r_classes r) !! j = Some ds ∧ class_ok (set_list_head
           (set_mem w (store_node p (mkNode s (hd_or (blocks s cs) None)) (f_mem w))) i (Some p))
           (<[p := mkLayout s s]> cached) j t ds.
Proof.
  intros [H1 H2 H3 H4] Hri Hp j t Hj. pose proof (live_owned live cached p k Hp) as Hpo.
  assert (cached !! p = None) as Hcp.
  { by eapply map_disjoint_Some_l; [apply (fi_disj _ _ _ _ _ _ Hinv)|]. }
  destruct (decide (i = j)) as [<-|Hne].
  - simplify_eq. exists (p :: cs). split; [by rewrite list_lookup_alter_eq, Hri|]. split.
    + etransitivity; [apply (list_heads_set (set_mem w _)); exact H1|].
      by rewrite decide_True.
    + simpl. split; [apply store_node_eq|]. eapply chain_to_far; [done|].
      intros b u [-> Hb]%elem_blocks. apply H4 in Hb.
      apply (store_owned_other lo hi w live cached r Hinv p k); [done|by eexists|congruence].
    + constructor; [|done]. rewrite H4. congruence.
    + intros b. rewrite elem_of_cons, H4, lookup_insert_Some.
      destruct (decide (p = b)) as [->|]; intuition congruence.
  - destruct (fi_class _ _ _ _ _ _ Hinv j t Hj) as (ds & Hrj & Hds). exists ds.
    split; [by rewrite list_lookup_alter_ne|]. apply class_ok_other with (cached := cached); [done|done| |].
    + intros b [h Hb] _. apply (store_owned_other lo hi w live cached r Hinv p k);
        [done|by eexists|congruence].
    + intros b. rewrite lookup_insert_Some. split; [|intros Hb; right; split; congruence].
      intros [[-> Heq]|[_ Hb]]; [|done].
      destruct Hne. apply (class_inj i j s Hs). congruence.
Qed.
End cached.

(** Taking the first cached block of a class. *)
Lemma alloc_hit_inv lo hi w live cached r k i s a cs :
  fixed_inv lo hi w live cached r → request_ok k → list_index k = Some i →
  BLOCK_SIZES !! i = Some s → r_classes r !! i = Some (a :: cs) → class_ok w cached i s (a :: cs) →
  ∃ w', alloc w k = Ok (a, w') ∧ a ≠ 0 ∧ live !! a = None ∧
    fixed_inv lo hi w' (<[a:=k]> live) (delete a cached) (mkRef (<[i := cs]> (r_classes r)) (r_free r)).
Proof.
  intros Hinv Hk Hi Hs Hri Hcls. pose proof Hcls as [H1 [H2 _] _ H4].
  assert (cached !! a = Some (mkLayout s s)) as Hca by (apply H4; left).
  pose proof (cached_owned _ _ _ _ _ _ Hinv a _ Hca) as Hao.
  unfold alloc. rewrite Hi. unfold index. rewrite H1. bstep. cbn [expect hd_or blocks fmap list_fmap].
  bstep. cbn [set_list_head f_mem]. rewrite (load_node_ok _ _ _ H2). bstep.
  eexists. split; [done|]. split_and!.
  { destruct (ow_block (fi_owned _ _ _ _ _ _ Hinv) a _ Hao) as (_ & ? & _).
    destruct (fi_fallback _ _ _ _ _ _ Hinv) as ((_ & _ & ? & _) & _). lia. }
  { by eapply map_disjoint_Some_r; [apply (fi_disj _ _ _ _ _ _ Hinv)|]. }
  cbn [take_next n_next n_size]. set (n' := mkNode s None).
  unfold set_mem, set_list_head. cbn [f_self list_heads fallback_allocator f_mem].
  rewrite list_insert_insert_eq.
  change (fixed_inv lo hi (set_list_head (set_mem w (store_node a n' (f_mem w))) i
    (hd_or (blocks s cs) None)) (<[a:=k]> live) (delete a cached) (mkRef (<[i := cs]> (r_classes r)) (r_free r))).
  split.
  - apply (store_owned_fallback lo hi w live cached r Hinv a _ n' Hao).
  - simpl. rewrite length_insert. apply Hinv.
  - by apply (pop_classes lo hi w live cached r).
  - intros b j [_ Hb]%lookup_delete_Some. by apply (fi_big _ _ _ _ _ _ Hinv b).
  - apply map_disjoint_insert_l. split; [apply lookup_delete_eq|].
    apply map_disjoint_delete_r, Hinv.
  - rewrite union_take. destruct (slab_same k i s Hi Hs).
    by apply owned_relabel with (j := mkLayout s s); [apply Hinv|..].
Qed.

(** Caching a returned block. *)
Lemma dealloc_cache_inv lo hi w live cached r p k i s :
  fixed_inv lo hi w live cached r → live !! p = Some k → list_index k = Some i →
  BLOCK_SIZES !! i = Some s → MIN_BLOCK <= s →
  ∃ w', dealloc w p k = Ok w' ∧
    fixed_inv lo hi w' (delete p live) (<[p := mkLayout s s]> cached)
      (mkRef (alter (cons p) i (r_classes r)) (r_free r)).
Proof.
  intros Hinv Hp Hi Hs Hbig. pose proof (live_owned live cached p k Hp) as Hpo.
  destruct (fi_class _ _ _ _ _ _ Hinv i s Hs) as (cs & Hri & Hcs). pose proof (co_head _ _ _ _ _ Hcs) as H1.
  unfold dealloc. rewrite Hi. unfold index. rewrite Hs. bstep. cbn [expect]. bstep.
  assert ((MIN_BLOCK <=? s) && (NODE_ALIGN <=? s) = true) as ->.
  { unfold MIN_BLOCK, NODE_ALIGN in *. apply andb_true_intro. split; apply Z.leb_le; lia. }
  cbn [set_mem f_self f_mem]. rewrite H1. cbn [expect]. bstep. cbn [set_list_head set_mem f_self f_mem].
  rewrite (load_node_ok _ _ _ (store_node_eq _ _ _)). bstep.
  eexists. split; [done|]. unfold set_mem, set_list_head.
  cbn [f_self list_heads fallback_allocator f_mem]. rewrite list_insert_insert_eq.
  rewrite store_store.
  change (fixed_inv lo hi (set_list_head (set_mem w (store_node p
    (mkNode s (hd_or (blocks s cs) None)) (f_mem w))) i (Some p))
    (delete p live) (<[p:=mkLayout s s]> cached) (mkRef (alter (cons p) i (r_classes r)) (r_free r))).
  split.
  - by apply (store_owned_fallback lo hi w live cached r Hinv p k).
  - simpl. rewrite length_insert. apply Hinv.
  - by apply (push_classes lo hi w live cached r Hinv i s Hs p k cs).
  - intros b j [[<- <-]|[_ Hb]]%lookup_insert_Some; [by eauto|].
    by apply (fi_big _ _ _ _ _ _ Hinv b).
  - apply map_disjoint_insert_r. split; [apply lookup_delete_eq|].
    apply map_disjoint_delete_l, Hinv.
  - rewrite map_union_comm.
    2:{ apply map_disjoint_insert_r. split; [apply lookup_delete_eq|].
        apply map_disjoint_delete_l, Hinv. }
    rewrite union_take, map_union_comm by (symmetry; apply Hinv).
    destruct (slab_same k i s Hi Hs).
    by apply owned_relabel with (j := k); [apply Hinv|done|by eapply class_request|..].
Qed.

(** ** The allocator computes the reference *)

(** The allocator is in reference state [r] with the blocks [live] out. *)
Definition implements (lo hi : Z) (w : fworld) (live : gmap Z Layout) (r : fref) : Prop :=
  ∃ cached, fixed_inv lo hi w live cached r.

Lemma alloc_implements lo hi w live r k :
  implements lo hi w live r → request_ok k →
  ∃ p w' r', alloc w k = Ok (p, w') ∧ ref_alloc r k = (p, r') ∧
    ((p = 0 ∧ r' = r ∧ implements lo hi w' live r) ∨
     (p ≠ 0 ∧ live !! p = None ∧ implements lo hi w' (<[p:=k]> live) r')).
Proof.
  intros (cached & Hinv) Hk. unfold implements.
  destruct (fallback_alloc_inv lo hi w live cached r k Hinv Hk) as (p & w' & r' & Hf & Hrf & Hor).
  assert (∃ q w'' r'', fallback_alloc w (slab_layout k) = Ok (q, w'') ∧ ref_fallback r k = (q, r'') ∧
    ((q = 0 ∧ r'' = r ∧ implements lo hi w'' live r) ∨
     (q ≠ 0 ∧ live !! q = None ∧ implements lo hi w'' (<[q:=k]> live) r''))) as Hmiss.
  { exists p, w', r'. split; [done|]. split; [done|]. unfold implements.
    destruct Hor as [(-> & -> & ->)|(? & ? & ?)]; eauto 10. }
  unfold ref_alloc. destruct (list_index k) as [i|] eqn:Hi.
  2:{ unfold alloc, slab_layout in *. by rewrite Hi in *. }
  destruct (list_index_Some k i Hi) as (s & Hs & _).
  destruct (fi_class _ _ _ _ _ _ Hinv i s Hs) as ([|a cs] & Hri & Hcs); rewrite Hri.
  - pose proof (co_head _ _ _ _ _ Hcs) as H1. unfold alloc. rewrite Hi.
    unfold index. rewrite H1. bstep. cbn [expect hd_or blocks fmap list_fmap]. bstep.
    rewrite (set_list_head_id w i None H1), Hs. cbn [expect]. bstep.
    destruct (class_facts i s Hs) as (_ & -> & _). cbn [expect]. bstep.
    unfold slab_layout in Hmiss. rewrite Hi, Hs in Hmiss. exact Hmiss.
  - destruct (alloc_hit_inv lo hi w live cached r k i s a cs Hinv Hk Hi Hs Hri Hcs)
      as (w'' & ? & ? & ? & ?). eexists _, _, _. split; [done|]. split; [done|]. right.
    unfold implements. eauto.
Qed.

Lemma dealloc_implements lo hi w live r p k :
  implements lo hi w live r → live !! p = Some k →
  ∃ w', dealloc w p k = Ok w' ∧ implements lo hi w' (delete p live) (ref_dealloc r p k).
Proof.
  intros (cached & Hinv) Hp. unfold ref_dealloc, implements.
  destruct (ow_block (fi_owned _ _ _ _ _ _ Hinv) p k (live_owned _ _ _ _ Hp)) as (Hk & _).
  assert (block_size k = footprint k → ∃ w', (fb ← LinkedList.dealloc (fallback w) p k;
    Ok (with_fallback w fb)) = Ok w' ∧ implements lo hi w' (delete p live)
      (mkRef (r_classes r) (add_region p (footprint k) (r_free r)))) as Hfb.
  { intros Hsz. destruct (fallback_dealloc_inv lo hi w live cached r p k Hinv Hp Hsz)
      as (fb & -> & ?). bstep. unfold implements. eauto. }
  destruct (list_index k) as [i|] eqn:Hi.
  2:{ unfold dealloc. rewrite Hi. apply Hfb. unfold footprint, slab_layout. by rewrite Hi. }
  destruct (list_index_Some k i Hi) as (s & Hs & _). rewrite Hs. cbn [from_option id].
  destruct (MIN_BLOCK <=? s) eqn:Hbig; zbool.
  - destruct (dealloc_cache_inv lo hi w live cached r p k i s Hinv Hp Hi Hs Hbig) as (w' & ? & ?). eauto.
  - unfold dealloc. rewrite Hi. unfold index. rewrite Hs. bstep. cbn [expect]. bstep.
    rewrite (proj2 (Z.leb_gt MIN_BLOCK s)) by lia. cbn [andb]. apply Hfb.
    apply (small_class_agrees k i s); [done..|lia].
Qed.

Lemma write_implements lo hi w live r p k a n :
  implements lo hi w live r → live !! p = Some k →
  p <= a → 0 <= n → a + n <= p + l_size k → implements lo hi (scribble w a n) live r.
Proof.
  intros (cached & Hinv) Hp Ha Hn Hhi. exists cached.
  pose proof (live_owned live cached p k Hp) as Hpo.
  destruct (ow_block (fi_owned _ _ _ _ _ _ Hinv) p k Hpo) as (Hk & _ & _ & _ & Hc).
  destruct (footprint_covers k Hk) as [Hsz _]. split; try apply Hinv.
  - apply (clobber_inv lo hi (fallback w) (r_free r) a n); [apply Hinv|done|].
    intros x Hx. apply Hc. lia.
  - intros i s Hi. destruct (fi_class _ _ _ _ _ _ Hinv i s Hi) as (cs & Hri & Hcs). exists cs. split; [done|].
    apply class_ok_mem; [done|]. intros b [j Hb].
    pose proof (cached_owned _ _ _ _ _ _ Hinv b j Hb) as Hbo.
    assert (b ≠ p) as Hne.
    { intros ->. pose proof (fi_disj _ _ _ _ _ _ Hinv p). rewrite Hp, Hb in *. done. }
    pose proof (ow_apart (fi_owned _ _ _ _ _ _ Hinv) b j p k Hbo Hpo Hne) as Hap.
    destruct (ow_block (fi_owned _ _ _ _ _ _ Hinv) b j Hbo) as (Hj & _).
    destruct (footprint_min j Hj). rewrite clobber_lookup, decide_True; [done|].
    unfold apart, MIN_BLOCK in *. lia.
Qed.

(** ** The allocator meets the contract *)

Definition fixed_contract (lo hi : Z) (w : fworld) (live : gmap Z Layout) : Prop :=
  ∃ r, implements lo hi w live r.

Lemma fixed_alloc lo hi w live k :
  fixed_contract lo hi w live → request_ok k →
  ∃ p w', alloc w k = Ok (p, w') ∧
    ((p = 0 ∧ fixed_contract lo hi w' live) ∨
     (p ≠ 0 ∧ live !! p = None ∧ fixed_contract lo hi w' (<[p:=k]> live))).
Proof.
  intros (r & Hr) Hk. unfold fixed_contract.
  destruct (alloc_implements lo hi w live r k Hr Hk) as (p & w' & r' & Ha & _ & [(-> & -> & ?)|(? & ? & ?)]);
    eexists _, _; (split; [done|]); eauto 10.
Qed.

Lemma fixed_dealloc lo hi w live p k :
  fixed_contract lo hi w live → live !! p = Some k →
  ∃ w', dealloc w p k = Ok w' ∧ fixed_contract lo hi w' (delete p live).
Proof.
  intros (r & Hr) Hp. destruct (dealloc_implements lo hi w live r p k Hr Hp) as (w' & ? & ?).
  unfold fixed_contract. eauto.
Qed.

Lemma fixed_write lo hi w live p k a n :
  fixed_contract lo hi w live → live !! p = Some k →
  p <= a → 0 <= n → a + n <= p + l_size k → fixed_contract lo hi (scribble w a n) live.
Proof. intros (r & Hr) Hp Ha Hn Hhi. exists r. by apply (write_implements lo hi w live r p k). Qed.

#[global] Instance fixed_spec : GlobalAllocSpec fworld alloc dealloc scribble.
Proof.
  refine {| ga_inv := fixed_contract; ga_alloc := fixed_alloc;
            ga_dealloc := fixed_dealloc; ga_write := fixed_write |}.
  intros lo hi w live (r & cached & Hinv).
  pose proof (owned_live _ _ _ _ _ _ footprint_covers (fi_owned _ _ _ _ _ _ Hinv)) as [H1 H2].
  split.
  - intros p k Hp. apply H1. by apply live_owned.
  - intros p k q j Hp Hq. apply H2; by apply live_owned.
Defined.

Lemma init_fixed_inv m start size :
  0 < start → 0 <= size → start + size <= addr_limit →
  ∃ w, init (mkFW empty m) start size = Ok w ∧
    fixed_inv start (start + size) w ∅ ∅ (ref_init start size).
Proof.
  intros H1 H2 H3. unfold init.
  destruct (init_inv (fallback (mkFW empty m)) start size H1 H2 H3) as (fb & -> & Hfb).
  bstep. eexists. split; [done|]. split.
  - by destruct fb.
  - done.
  - intros i s Hi. exists [].
    split; [apply lookup_replicate; split; [done|by apply lookup_lt_Some in Hi]|]. split.
    + change (replicate (length BLOCK_SIZES) (@None Z) !! i = Some None).
      apply lookup_replicate. split; [done|]. by apply lookup_lt_Some in Hi.
    + done.
    + constructor.
    + intros a. rewrite lookup_empty. split; [by intros ?%not_elem_of_nil|done].
  - intros a k. by rewrite lookup_empty.
  - apply map_disjoint_empty_l.
  - rewrite (left_id_L ∅ (∪)). apply owned_empty.
Qed.

(** ** [stats] *)

Lemma class_bytes_ok fuel m s cs c :
  chain_to m (blocks s cs) None → (length cs < fuel)%nat →
  0 <= c → 0 <= s → c + Z.of_nat (length cs) * s < u64_modulus →
  class_bytes fuel m s (hd_or (blocks s cs) None) c = Ok (c + Z.of_nat (length cs) * s).
Proof.
  revert fuel c. induction cs as [|a cs IH]; intros [|fuel] c Hc Hf H0 Hs Hb; simpl in *; try lia.
  - f_equal. lia.
  - destruct Hc as [Hn Hc]. rewrite add_u64_ok by lia. bstep.
    rewrite (load_node_ok _ _ _ Hn). bstep. simpl.
    rewrite IH; [f_equal; lia|done|lia..].
Qed.

Definition bytes_in (m : gmap Z Layout) : Z := owned_bytes footprint m.

Lemma bytes_in_delete m a k :
  m !! a = Some k → bytes_in m = footprint k + bytes_in (delete a m).
Proof.
  intros Ha. unfold bytes_in, owned_bytes. rewrite <- (insert_delete_id m a k Ha) at 1.
  rewrite map_fold_insert_L; [done|lia|apply lookup_delete_eq].
Qed.

Lemma bytes_in_union m1 m2 : m1 ##ₘ m2 → bytes_in (m1 ∪ m2) = bytes_in m1 + bytes_in m2.
Proof.
  unfold bytes_in, owned_bytes. induction m1 as [|a k m1 Ha IH] using map_ind; intros Hd.
  - rewrite (left_id_L ∅ (∪)), map_fold_empty. done.
  - apply map_disjoint_insert_l in Hd as [Ha2 Hd]. rewrite <- insert_union_l.
    rewrite !map_fold_insert_L; [rewrite IH by done; lia|lia|done|lia|].
    by apply lookup_union_None.
Qed.

(** Taking the blocks of one class out of the cached map. *)
Fixpoint without (m : gmap Z Layout) (cs : list Z) : gmap Z Layout :=
  match cs with [] => m | a :: cs => delete a (without m cs) end.

Lemma lookup_without m cs a k :
  without m cs !! a = Some k ↔ m !! a = Some k ∧ a ∉ cs.
Proof.
  induction cs as [|b cs IH]; simpl.
  - split; [|by intros [? _]]. intros ?. split; [done|]. apply not_elem_of_nil.
  - rewrite lookup_delete_Some, IH, not_elem_of_cons. naive_solver.
Qed.

Lemma bytes_in_without m cs s i :
  BLOCK_SIZES !! i = Some s → MIN_BLOCK <= s ∨ cs = [] → NoDup cs →
  (∀ a, a ∈ cs → m !! a = Some (mkLayout s s)) →
  bytes_in m = Z.of_nat (length cs) * s + bytes_in (without m cs).
Proof.
  intros Hs Hbig Hnd Hin. induction cs as [|a cs IH]; simpl; [done|].
  inversion_clear Hnd as [|? ? Hna Hnd'].
  rewrite IH; [|destruct Hbig; [by left|done]|done|intros; apply Hin; by right].
  assert (without m cs !! a = Some (mkLayout s s)) as Ha.
  { apply lookup_without. split; [apply Hin; left|done]. }
  rewrite (bytes_in_delete _ a _ Ha). unfold footprint. rewrite (slab_layout_class i s Hs).
  destruct (class_facts i s Hs) as (_ & _ & _ & ->). destruct Hbig; [|done].
  rewrite Z.max_l by done. lia.
Qed.

Lemma footprint_nonneg k : 0 <= footprint k.
Proof.
  unfold footprint, block_size.
  pose proof (round_up_bounds (Z.max (l_size (slab_layout k)) MIN_BLOCK) NODE_ALIGN ltac:(done)).
  unfold MIN_BLOCK in *. lia.
Qed.

Lemma bytes_in_nonneg m : 0 <= bytes_in m.
Proof.
  unfold bytes_in, owned_bytes. induction m as [|a k m Ha IH] using map_ind.
  - by rewrite map_fold_empty.
  - rewrite map_fold_insert_L by (done || lia). pose proof (footprint_nonneg k). lia.
Qed.

Lemma class_length m s cs :
  chain_to m (blocks s cs) None → NoDup cs → (length cs <= base.size m)%nat.
Proof.
  intros Hc Hnd. rewrite <- (size_list_to_set (C := gset Z)) by done.
  rewrite <- (size_dom (D := gset Z) m). apply subseteq_size. intros a Ha.
  apply elem_of_list_to_set in Ha. apply elem_of_dom.
  apply (chain_to_lookup _ _ _ a s Hc). by apply elem_blocks.
Qed.

(** One list per class, caching what [mp] gives the layout of the class. *)
Definition classes_ok (m : hmem) (mp : gmap Z Layout) (h : option Z) (s : Z) : Prop :=
  ∃ cs, h = hd_or (blocks s cs) None ∧ chain_to m (blocks s cs) None ∧ NoDup cs ∧
    (∀ a, a ∈ cs ↔ mp !! a = Some (mkLayout s s)).

Lemma cached_bytes_ok m heads sizes mp c :
  Forall2 (classes_ok m mp) heads sizes → NoDup sizes →
  (∀ s, s ∈ sizes → ∃ i, BLOCK_SIZES !! i = Some s) →
  (∀ a k, mp !! a = Some k → MIN_BLOCK <= l_size k) →
  0 <= c → c + bytes_in mp < u64_modulus →
  ∃ rest, cached_bytes m heads sizes c = Ok (c + (bytes_in mp - bytes_in rest)) ∧
    (∀ a k, rest !! a = Some k → mp !! a = Some k ∧ ∀ s, s ∈ sizes → k ≠ mkLayout s s).
Proof.
  intros Hall. revert mp c Hall. revert heads.
  induction sizes as [|s sizes IH]; intros heads mp c Hall Hnd Hcls Hbig H0 Hb;
    inversion Hall as [|h ? heads' ? Hh Hall']; subst; cbn [cached_bytes].
  { exists mp. split; [f_equal; lia|]. intros a k Ha. split; [done|]. by intros ? ?%not_elem_of_nil. }
  destruct Hh as (cs & -> & Hchain & Hcnd & Hmem).
  inversion_clear Hnd as [|? ? Hns Hnd']. destruct (Hcls s) as [i Hi]; [left|].
  destruct (class_facts i s Hi) as (Hs8 & _).
  assert (bytes_in mp = Z.of_nat (length cs) * s + bytes_in (without mp cs)) as Heq.
  { apply (bytes_in_without mp cs s i); [done| |done|intros; by apply Hmem].
    destruct cs as [|a cs]; [by right|left]. apply (Hbig a (mkLayout s s)), Hmem. left. }
  pose proof (bytes_in_nonneg (without mp cs)).
  rewrite class_bytes_ok; [|done|pose proof (class_length _ _ _ Hchain Hcnd); lia|lia..].
  bstep. destruct (IH heads' (without mp cs) (c + Z.of_nat (length cs) * s))
    as (rest & -> & Hrest); [|done|intros; apply Hcls; by right| |lia..|].
  - eapply Forall2_impl_r; [exact Hall'|]. intros h t Ht (ds & ? & ? & ? & Hds).
    exists ds. split_and!; try done. intros a. rewrite Hds, lookup_without. split; [|tauto].
    intros Ha. split; [done|]. intros Hin%Hmem. congruence.
  - intros a k [Ha _]%lookup_without. by apply (Hbig a).
  - exists rest. split; [f_equal; lia|]. intros a k Ha.
    destruct (Hrest a k Ha) as [[Hm Hn]%lookup_without Hk]. split; [done|].
    intros t [->|Ht]%elem_of_cons; [|by apply Hk]. intros ->. by apply Hn, Hmem.
Qed.

Lemma stats_ok lo hi w live cached r :
  fixed_inv lo hi w live cached r →
  stats w = Ok (mkStats (hi - lo) (total_bytes (r_free r) + bytes_in cached)) ∧
  bytes_in live + bytes_in cached + total_bytes (r_free r) <= hi - lo.
Proof.
  intros Hinv. pose proof (fi_fallback _ _ _ _ _ _ Hinv) as Hll.
  pose proof Hll as ((Hs & He & Hlo & Hhi) & _ & Hwf).
  assert (bytes_in live + bytes_in cached + total_bytes (r_free r) <= hi - lo) as Htot.
  { pose proof (owned_total footprint falign lo hi (live ∪ cached) (r_free r)) as H.
    rewrite <- bytes_in_union by apply Hinv. apply H; [apply footprint_min|done|apply Hinv]. }
  split; [|done]. pose proof (bytes_in_nonneg live).
  pose proof (bytes_in_nonneg cached).
  assert (0 <= total_bytes (r_free r)).
  { pose proof (ordered_total _ _ _ (proj1 Hwf)). unfold MIN_BLOCK in *. lia. }
  unfold stats, addr_limit in *.
  destruct (cached_bytes_ok (f_mem w) (list_heads (f_self w)) BLOCK_SIZES cached 0)
    as (rest & -> & Hrest).
  - apply Forall2_same_length_lookup_2; [apply Hinv|]. intros i h s Hh Hi.
    destruct (fi_class _ _ _ _ _ _ Hinv i s Hi) as (cs & _ & [Hhd ? ? ?]).
    exists cs. split_and!; try done. congruence.
  - apply NoDup_alt. apply class_inj.
  - intros s [i Hi]%list_elem_of_lookup. eauto.
  - intros a k Ha. by destruct (fi_big _ _ _ _ _ _ Hinv a k Ha).
  - done.
  - unfold u64_modulus. lia.
  - assert (rest = ∅) as ->.
    { apply map_eq. intros a. rewrite lookup_empty. destruct (rest !! a) as [k|] eqn:Ha; [|done].
      destruct (Hrest a k Ha) as [Hc Hk].
      destruct (fi_big _ _ _ _ _ _ Hinv a k Hc) as (_ & i & Hi & Heq).
      by destruct (Hk (l_size k) (list_elem_of_lookup_2 _ _ _ Hi)). }
    bstep. rewrite (free_bytes_ok lo hi _ _ Hll). bstep.
    replace (bytes_in ∅) with 0 by (unfold bytes_in, owned_bytes; by rewrite map_fold_empty).
    rewrite add_u64_ok by (unfold u64_modulus; lia). bstep. simpl in Hs, He.
    unfold LinkedList.heap_size. rewrite Hs, He. do 2 f_equal; unfold saturating_sub; lia.
Qed.

End Fixed.
