(* ===== verification/TestsAlloc.v ===== *)
(** * The allocators' unit tests

    The test functions of src/src/allocator: linkedlist.rs, bump.rs,
    fixed_size_block.rs and mod.rs, each a computation that panics where an
    assertion fails.  Messages of assertions are left out.  [start] stands for
    the address of the static buffer the free list is tested on. *)

From Stdlib Require Import ZArith Lia.
From stdpp Require Import base gmap list strings numbers.
From S2P Require Import Prelude AllocMod FreeList LinkedList BumpAlloc FixedSizeBlock.

Open Scope Z_scope.

(** [assert!], [assert_eq!] and [assert_ne!] *)
Definition assert (b : bool) : outcome unit := rust_assert b "assertion failed".
Definition assert_eq {A} `{EqDecision A} (x y : A) : outcome unit := assert (bool_decide (x = y)).
Definition assert_ne {A} `{EqDecision A} (x y : A) : outcome unit := assert (bool_decide (x ≠ y)).

Definition is_null (p : Z) : bool := p =? 0.

(** [Layout::from_size_align(size, align).unwrap()] *)
Definition layout (size align : Z) : outcome Layout :=
  expect (from_size_align size align) "called `Result::unwrap()` on an `Err` value".

(** ** linkedlist.rs *)

Module LinkedListTests.

Definition TEST_HEAP_SIZE : Z := 4096.

Section tests.
Context (start : Z).

Definition test_allocator : outcome (world * Z) :=
  w ← init (mkWorld empty ∅) start TEST_HEAP_SIZE;
  Ok (w, start).

(** [allocator.alloc(layout(size, align))] and [dealloc]. *)
Definition alloc_of (w : world) (size align : Z) : outcome (Z * world) :=
  l ← layout size align; alloc w l.

Definition dealloc_of (w : world) (p size align : Z) : outcome world :=
  l ← layout size align; dealloc w p l.

(** The node is at [start] too. *)
Definition test_list_node_layout : outcome unit :=
  let node := node_new 64 in
  _ ← assert_eq (n_size node) 64;
  e ← end_addr start node;
  d ← sub_u64 e (start_addr start);
  assert_eq d 64.

Definition test_init_creates_one_free_region : outcome unit :=
  '(w, start) ← test_allocator;
  n ← free_region_count w;
  _ ← assert_eq n 1;
  head ← expect (head (w_self w)) "called `Option::unwrap()` on a `None` value";
  node ← load_node head (w_mem w);
  _ ← assert_eq (start_addr head) start;
  e ← end_addr head node;
  limit ← add_u64 start TEST_HEAP_SIZE;
  assert_eq e limit.

Fixpoint check_alignments (aligns : list Z) (w : world) : outcome unit :=
  match aligns with
  | [] => Ok tt
  | align :: aligns =>
      l ← layout 8 align;
      '(ptr, w) ← alloc w l;
      _ ← assert (negb (is_null ptr));
      _ ← assert_eq (ptr mod align) 0;
      _ ← assert_eq (ptr mod NODE_ALIGN) 0;
      w ← dealloc w ptr l;
      check_alignments aligns w
  end.

Definition test_alloc_is_aligned : outcome unit :=
  '(w, _) ← test_allocator;
  check_alignments [1; 8; 16; 64; 256; 4096] w.

Definition test_allocations_do_not_overlap : outcome unit :=
  '(w, _) ← test_allocator;
  '(a, w) ← alloc_of w 64 8;
  '(b, w) ← alloc_of w 64 8;
  _ ← assert (negb (a =? 0) && negb (b =? 0));
  a_end ← add_u64 a 64;
  b_end ← add_u64 b 64;
  assert ((a_end <=? b) || (b_end <=? a)).

Definition test_dealloc_reuses_the_freed_region : outcome unit :=
  '(w, _) ← test_allocator;
  '(first, w) ← alloc_of w 128 8;
  _ ← assert (negb (is_null first));
  '(_, w) ← alloc_of w 128 8;
  w ← dealloc_of w first 128 8;
  '(reused, w) ← alloc_of w 128 8;
  assert_eq reused first.

Definition test_adjacent_regions_coalesce : outcome unit :=
  '(w, _) ← test_allocator;
  '(a, w) ← alloc_of w 256 8;
  '(b, w) ← alloc_of w 256 8;
  '(c, w) ← alloc_of w 256 8;
  _ ← assert (negb (is_null a) && negb (is_null b) && negb (is_null c));
  w ← dealloc_of w b 256 8;
  w ← dealloc_of w a 256 8;
  w ← dealloc_of w c 256 8;
  n ← free_region_count w;
  _ ← assert_eq n 1;
  '(large, w) ← alloc_of w 768 8;
  assert_eq large a.

Definition test_small_layouts_are_rounded_up_and_reusable : outcome unit :=
  '(w, _) ← test_allocator;
  '(ptr, w) ← alloc_of w 1 1;
  _ ← assert (negb (is_null ptr));
  w ← dealloc_of w ptr 1 1;
  '(reused, w) ← alloc_of w 1 1;
  assert_eq reused ptr.

Definition test_odd_sizes_keep_free_regions_aligned : outcome unit :=
  '(w, _) ← test_allocator;
  '(a, w) ← alloc_of w 17 16;
  _ ← assert (negb (is_null a));
  _ ← assert_eq (a mod 16) 0;
  '(b, w) ← alloc_of w 17 16;
  _ ← assert (negb (is_null b));
  _ ← assert_eq (b mod 16) 0;
  a_end ← add_u64 a 24;
  _ ← assert (a_end <=? b);
  w ← dealloc_of w a 17 16;
  w ← dealloc_of w b 17 16;
  n ← free_region_count w;
  _ ← assert (1 <=? n);
  '(p, w) ← alloc_of w 1024 8;
  assert (negb (is_null p)).

(** [while !allocator.alloc(layout(64, 8)).is_null() {}]; the heap has 64 such
    blocks. *)
Fixpoint exhaust (fuel : nat) (w : world) : outcome world :=
  match fuel with
  | O => Diverge
  | S fuel =>
      '(p, w) ← alloc_of w 64 8;
      if is_null p then Ok w else exhaust fuel w
  end.

Definition test_exhaustion_returns_null : outcome unit :=
  '(w, _) ← test_allocator;
  '(too_big, w) ← alloc_of w (TEST_HEAP_SIZE * 2) 8;
  _ ← assert (is_null too_big);
  w ← exhaust 65 w;
  '(p, w) ← alloc_of w 64 8;
  assert (is_null p).

Definition test_unlink_keeps_successor_regions : outcome unit :=
  '(w, _) ← test_allocator;
  '(a, w) ← alloc_of w 128 8;
  _ ← assert (negb (is_null a));
  n ← free_region_count w;
  _ ← assert_eq n 1;
  '(b, w) ← alloc_of w 128 8;
  _ ← assert (negb (is_null b));
  a_end ← add_u64 a 128;
  _ ← assert_eq b a_end;
  '(rest, w) ← alloc_of w (TEST_HEAP_SIZE - 256 - MIN_BLOCK) 8;
  _ ← assert (negb (is_null rest));
  b_end ← add_u64 b 128;
  assert_eq rest b_end.

Fixpoint alloc_blocks (n : nat) (w : world) : outcome (list Z * world) :=
  match n with
  | O => Ok ([], w)
  | S n =>
      '(block, w) ← alloc_of w 128 8;
      _ ← assert (negb (is_null block));
      '(blocks, w) ← alloc_blocks n w;
      Ok (block :: blocks, w)
  end.

Fixpoint dealloc_blocks (blocks : list Z) (w : world) : outcome world :=
  match blocks with
  | [] => Ok w
  | block :: blocks => w ← dealloc_of w block 128 8; dealloc_blocks blocks w
  end.

Definition test_free_list_keeps_full_heap_after_release : outcome unit :=
  '(w, start) ← test_allocator;
  '(blocks, w) ← alloc_blocks 16 w;
  w ← dealloc_blocks blocks w;
  n ← free_region_count w;
  _ ← assert_eq n 1;
  bytes ← free_bytes w;
  _ ← assert_eq bytes TEST_HEAP_SIZE;
  '(whole, w) ← alloc_of w (TEST_HEAP_SIZE - MIN_BLOCK) 8;
  assert_eq whole start.

Definition tests : list (string * outcome unit) :=
  [ ("test_list_node_layout", test_list_node_layout);
    ("test_init_creates_one_free_region", test_init_creates_one_free_region);
    ("test_alloc_is_aligned", test_alloc_is_aligned);
    ("test_allocations_do_not_overlap", test_allocations_do_not_overlap);
    ("test_dealloc_reuses_the_freed_region", test_dealloc_reuses_the_freed_region);
    ("test_adjacent_regions_coalesce", test_adjacent_regions_coalesce);
    ("test_small_layouts_are_rounded_up_and_reusable", test_small_layouts_are_rounded_up_and_reusable);
    ("test_odd_sizes_keep_free_regions_aligned", test_odd_sizes_keep_free_regions_aligned);
    ("test_exhaustion_returns_null", test_exhaustion_returns_null);
    ("test_unlink_keeps_successor_regions", test_unlink_keeps_successor_regions);
    ("test_free_list_keeps_full_heap_after_release", test_free_list_keeps_full_heap_after_release) ]%string.
End tests.
End LinkedListTests.

(** ** bump.rs *)

Module BumpTests.
Import Bump.

Definition test_bump_allocator_empty : outcome unit :=
  let allocator := empty in
  _ ← assert_eq (heap_start allocator) 0;
  _ ← assert_eq (heap_end allocator) 0;
  _ ← assert_eq (next allocator) 0;
  assert_eq (remaining allocator) 0.

Definition test_bump_allocator_init : outcome unit :=
  let allocator := init empty 0x1000 4096 in
  _ ← assert_eq (heap_start allocator) 0x1000;
  _ ← assert_eq (heap_end allocator) (0x1000 + 4096);
  _ ← assert_eq (cursor allocator) 0x1000;
  _ ← assert_eq (remaining allocator) 4096;
  assert_eq (heap_size allocator) 4096.

Definition aligns_to (addr align expected : Z) : outcome unit :=
  a ← align_up addr align; assert_eq a expected.

Definition test_align_up_function : outcome unit :=
  _ ← aligns_to 0 8 0;
  _ ← aligns_to 1 8 8;
  _ ← aligns_to 8 8 8;
  _ ← aligns_to 9 8 16;
  aligns_to 1000 4096 4096.

Definition test_bump_allocator_alignment : outcome unit :=
  let allocator := init empty 0x1000 4096 in
  l ← layout 8 16;
  '(ptr, _) ← alloc allocator l;
  _ ← assert (negb (is_null ptr));
  assert_eq (ptr mod 16) 0.

Definition test_bump_advances_monotonically : outcome unit :=
  let allocator := init empty 0x1000 4096 in
  l ← layout 8 8;
  '(a, allocator) ← alloc allocator l;
  '(b, allocator) ← alloc allocator l;
  _ ← assert (negb (is_null a) && negb (is_null b));
  a_end ← add_u64 a 8;
  _ ← assert (a_end <=? b);
  b_end ← add_u64 b 8;
  assert_eq (cursor allocator) b_end.

Definition test_bump_dealloc_is_a_noop : outcome unit :=
  let allocator := init empty 0x1000 4096 in
  l ← layout 32 8;
  '(a, allocator) ← alloc allocator l;
  let cursor_after_a := cursor allocator in
  '(b, allocator) ← alloc allocator l;
  allocator ← dealloc allocator a l;
  expected ← add_u64 cursor_after_a 32;
  _ ← assert_eq (cursor allocator) expected;
  assert_ne a b.

Definition test_bump_exhaustion_returns_null : outcome unit :=
  let allocator := init empty 0x1000 64 in
  l ← layout 64 8;
  '(p, allocator) ← alloc allocator l;
  _ ← assert (negb (is_null p));
  l ← layout 8 8;
  '(p, _) ← alloc allocator l;
  assert (is_null p).

Definition tests : list (string * outcome unit) :=
  [ ("test_bump_allocator_empty", test_bump_allocator_empty);
    ("test_bump_allocator_init", test_bump_allocator_init);
    ("test_align_up_function", test_align_up_function);
    ("test_bump_allocator_alignment", test_bump_allocator_alignment);
    ("test_bump_advances_monotonically", test_bump_advances_monotonically);
    ("test_bump_dealloc_is_a_noop", test_bump_dealloc_is_a_noop);
    ("test_bump_exhaustion_returns_null", test_bump_exhaustion_returns_null) ]%string.
End BumpTests.

(** ** fixed_size_block.rs *)

Module FixedTests.
Import Fixed.

(** [for x in l { assert!(p(x)) }] *)
Fixpoint assert_all {A} (p : A → bool) (l : list A) : outcome unit :=
  match l with
  | [] => Ok tt
  | x :: l => _ ← assert (p x); assert_all p l
  end.

Definition test_block_sizes_ascending_powers_of_two : outcome unit :=
  _ ← assert_all (λ w, w.1 <? w.2) (zip BLOCK_SIZES (tail BLOCK_SIZES));
  assert_all is_power_of_two BLOCK_SIZES.

Definition index_of (size align : Z) (expected : option nat) : outcome unit :=
  l ← layout size align; assert_eq (list_index l) expected.

Definition test_list_index_smallest_fit : outcome unit := index_of 1 1 (Some 0%nat).
Definition test_list_index_exact_match : outcome unit := index_of 64 1 (Some 3%nat).
Definition test_list_index_uses_alignment_when_larger : outcome unit :=
  index_of 8 64 (Some 3%nat).
Definition test_list_index_too_large_returns_none : outcome unit := index_of 8192 1 None.

Definition test_some_block_can_hold_list_node : outcome unit :=
  let fits := existsb (λ s, (MIN_BLOCK <=? s) && (NODE_ALIGN <=? s)) BLOCK_SIZES in
  assert fits.

Definition test_empty_starts_with_no_cached_blocks : outcome unit :=
  assert_all (λ head, bool_decide (head = None)) (list_heads empty).

Definition tests : list (string * outcome unit) :=
  [ ("test_block_sizes_ascending_powers_of_two", test_block_sizes_ascending_powers_of_two);
    ("test_list_index_smallest_fit", test_list_index_smallest_fit);
    ("test_list_index_exact_match", test_list_index_exact_match);
    ("test_list_index_uses_alignment_when_larger", test_list_index_uses_alignment_when_larger);
    ("test_list_index_too_large_returns_none", test_list_index_too_large_returns_none);
    ("test_some_block_can_hold_list_node", test_some_block_can_hold_list_node);
    ("test_empty_starts_with_no_cached_blocks", test_empty_starts_with_no_cached_blocks) ]%string.
End FixedTests.

(** ** mod.rs *)

Module AllocModTests.

Definition test_heap_start_aligned : outcome unit := assert_eq (HEAP_START mod 4096) 0.
Definition test_heap_size_multiple_of_page : outcome unit := assert_eq (HEAP_SIZE mod 4096) 0.
Definition test_heap_size_100_kib : outcome unit := assert_eq HEAP_SIZE (100 * 1024).
Definition test_heap_start_address_range : outcome unit := assert (0x10000 <? HEAP_START).

Definition tests : list (string * outcome unit) :=
  [ ("test_heap_start_aligned", test_heap_start_aligned);
    ("test_heap_size_multiple_of_page", test_heap_size_multiple_of_page);
    ("test_heap_size_100_kib", test_heap_size_100_kib);
    ("test_heap_start_address_range", test_heap_start_address_range) ]%string.
End AllocModTests.
