(* ===== verification/AllocThms.v ===== *)
(** * Theorems about the allocators

    The properties of src/src/allocator: the contract of the three allocators
    over arbitrary clients, the refinement of the pointer code of the
    linked-list allocator by functions on lists of regions, the round trip of
    [alloc] and [dealloc], and the accounting.  Each theorem with hypotheses
    is followed by a witness on a concrete heap. *)

From Stdlib Require Import ZArith Lia.
From stdpp Require Import base gmap list strings numbers.
From S2P Require Import Prelude AllocMod FreeList LinkedList BumpAlloc FixedSizeBlock.

Open Scope Z_scope.

(** ** A concrete heap for the witnesses: 4 KiB at 0x1000 *)

Definition demo_world : world :=
  match init (mkWorld empty ∅) 4096 4096 with Ok w => w | _ => mkWorld empty ∅ end.

Lemma demo_inv : ll_inv 4096 8192 demo_world [(4096, 4096)].
Proof.
  destruct (init_inv (mkWorld empty ∅) 4096 4096) as (w & Hw & Hinv); [done..|].
  unfold demo_world. by rewrite Hw.
Qed.

(** A request of [size] bytes aligned to 8. *)
Definition demo_layout (size : Z) : Layout := mkLayout size 8.

Lemma demo_layout_ok size : 0 < size <= 4096 → request_ok (demo_layout size).
Proof.
  intros. split; [|simpl; lia]. split_and!; simpl; [lia|apply (is_pow2_lit 3); lia|].
  unfold isize_max. lia.
Qed.

(** ** Clients *)

(** C2: the kernel's global allocator, initialised on the kernel heap, serves
    any sequence of requests, frees and writes of a client that follows the
    [GlobalAlloc] contract: no assertion, overflow check, [expect] or read of
    a destroyed header is reached, and at every point the client's blocks lie
    in the heap, are aligned as requested and do not overlap. *)
Theorem global_allocator_client_safe ops :
  Forall op_ok ops →
  ∃ w0 w live,
    Fixed.init (Fixed.mkFW Fixed.empty ∅) HEAP_START HEAP_SIZE = Ok w0 ∧
    client_run _ Fixed.alloc Fixed.dealloc Fixed.scribble (w0, ∅) ops = Ok (w, live) ∧
    live_ok HEAP_START (HEAP_START + HEAP_SIZE) live.
Proof.
  intros Hops. destruct (Fixed.init_fixed_inv ∅ HEAP_START HEAP_SIZE) as (w0 & Hw0 & Hinv); [done..|].
  destruct (client_run_safe _ Fixed.alloc Fixed.dealloc Fixed.scribble
    HEAP_START (HEAP_START + HEAP_SIZE) ops w0 ∅) as (w & live & Hrun & _ & Hlive);
    [by eexists _, _|done|].
  exists w0, w, live. auto.
Qed.

Lemma global_allocator_client_safe_witness :
  ∃ w0 w live,
    Fixed.init (Fixed.mkFW Fixed.empty ∅) HEAP_START HEAP_SIZE = Ok w0 ∧
    client_run _ Fixed.alloc Fixed.dealloc Fixed.scribble (w0, ∅)
      [CAlloc (demo_layout 24); CAlloc (demo_layout 5); CFree HEAP_START] = Ok (w, live) ∧
    live_ok HEAP_START (HEAP_START + HEAP_SIZE) live.
Proof.
  apply global_allocator_client_safe.
  repeat constructor; simpl; try (apply (is_pow2_lit 3); lia); unfold isize_max; lia.
Defined.

(** The reference of FixedSizeBlock.v as an allocator. *)
Abbreviation ref_run := (client_run Fixed.fref (λ r k, Ok (Fixed.ref_alloc r k))
  (λ r p k, Ok (Fixed.ref_dealloc r p k)) (λ r _ _, r)).

Lemma client_run_implements lo hi ops w live r :
  Fixed.implements lo hi w live r → Forall op_ok ops →
  ∃ w' live' r', client_run _ Fixed.alloc Fixed.dealloc Fixed.scribble (w, live) ops = Ok (w', live') ∧
    ref_run (r, live) ops = Ok (r', live') ∧ Fixed.implements lo hi w' live' r'.
Proof.
  revert w live r. induction ops as [|op ops IH]; intros w live r Hi Hops; cbn [client_run]; [eauto 10|].
  inversion_clear Hops as [|? ? Hop Hops']. destruct op as [k|p|p off n]; cbn [client_step op_ok] in *.
  - destruct (Fixed.alloc_implements lo hi w live r k Hi Hop)
      as (p & w' & r' & -> & Hr & [(-> & -> & Hi')|(Hne & _ & Hi')]); rewrite Hr; bstep.
    + by apply IH.
    + rewrite (proj2 (Z.eqb_neq p 0) Hne). by apply IH.
  - destruct (live !! p) as [k|] eqn:Hp; bstep; [|by apply IH].
    destruct (Fixed.dealloc_implements lo hi w live r p k Hi Hp) as (w' & -> & Hi'). bstep. by apply IH.
  - destruct (live !! p) as [k|] eqn:Hp; bstep; [|by apply IH].
    destruct ((0 <=? off) && (0 <=? n) && (off + n <=? l_size k)) eqn:E; bstep; [|by apply IH].
    apply IH; [|done]. zbool. apply (Fixed.write_implements lo hi w live r p k); [done..|lia|lia|lia].
Qed.

(** C3: the kernel's allocator is the reference.  Ten stacks of freed blocks
    over a first-fit list of regions, with no pointers and no memory, hand out
    the same address at every step of every client that follows the contract:
    whatever the clients write to their blocks, the headers threaded through
    the free ones compute these lists. *)
Theorem global_allocator_refines ops :
  Forall op_ok ops →
  ∃ w0 w live r,
    Fixed.init (Fixed.mkFW Fixed.empty ∅) HEAP_START HEAP_SIZE = Ok w0 ∧
    client_run _ Fixed.alloc Fixed.dealloc Fixed.scribble (w0, ∅) ops = Ok (w, live) ∧
    ref_run (Fixed.ref_init HEAP_START HEAP_SIZE, ∅) ops = Ok (r, live) ∧
    Fixed.implements HEAP_START (HEAP_START + HEAP_SIZE) w live r.
Proof.
  intros Hops. destruct (Fixed.init_fixed_inv ∅ HEAP_START HEAP_SIZE) as (w0 & Hw0 & Hinv); [done..|].
  destruct (client_run_implements HEAP_START (HEAP_START + HEAP_SIZE) ops w0 ∅
    (Fixed.ref_init HEAP_START HEAP_SIZE)) as (w & live & r & ?); [by eexists|done|].
  exists w0, w, live, r. auto.
Qed.

Lemma global_allocator_refines_witness :
  let ops := [CAlloc (demo_layout 24); CAlloc (demo_layout 5); CFree HEAP_START; CAlloc (demo_layout 30)] in
  ∃ w0 w live r,
    Fixed.init (Fixed.mkFW Fixed.empty ∅) HEAP_START HEAP_SIZE = Ok w0 ∧
    client_run _ Fixed.alloc Fixed.dealloc Fixed.scribble (w0, ∅) ops = Ok (w, live) ∧
    ref_run (Fixed.ref_init HEAP_START HEAP_SIZE, ∅) ops = Ok (r, live) ∧
    Fixed.implements HEAP_START (HEAP_START + HEAP_SIZE) w live r.
Proof.
  cbv zeta. apply global_allocator_refines. repeat constructor; apply demo_layout_ok; lia.
Defined.

(** the linked-list allocator on its own meets the same contract, on any
    heap in the lower half of the address space. *)
Theorem linked_list_client_safe start size ops :
  0 < start → 0 <= size → start + size <= addr_limit → Forall op_ok ops →
  ∃ w0 w live,
    init (mkWorld empty ∅) start size = Ok w0 ∧
    client_run _ alloc dealloc scribble (w0, ∅) ops = Ok (w, live) ∧
    live_ok start (start + size) live.
Proof.
  intros H1 H2 H3 Hops. destruct (init_inv (mkWorld empty ∅) start size H1 H2 H3) as (w0 & Hw0 & Hinv).
  destruct (client_run_safe _ alloc dealloc scribble start (start + size) ops w0 ∅)
    as (w & live & Hrun & _ & Hlive); [|done|exists w0, w, live; auto].
  exists (init_regions start size). split; [done|apply owned_empty].
Qed.

Lemma linked_list_client_safe_witness :
  ∃ w0 w live,
    init (mkWorld empty ∅) 4096 4096 = Ok w0 ∧
    client_run _ alloc dealloc scribble (w0, ∅)
      [CAlloc (demo_layout 17); CWrite 4096 0 17; CFree 4096] = Ok (w, live) ∧
    live_ok 4096 (4096 + 4096) live.
Proof.
  apply linked_list_client_safe; [done..|].
  repeat constructor; simpl; try (apply (is_pow2_lit 3); lia); unfold isize_max; lia.
Defined.

(** so does the bump allocator. *)
Theorem bump_client_safe start size ops :
  0 < start → 0 <= size → start + size <= addr_limit → Forall op_ok ops →
  ∃ b live,
    client_run _ Bump.alloc Bump.dealloc Bump.scribble (Bump.init Bump.empty start size, ∅) ops
      = Ok (b, live) ∧
    live_ok start (start + size) live.
Proof.
  intros H1 H2 H3 Hops.
  destruct (client_run_safe _ Bump.alloc Bump.dealloc Bump.scribble start (start + size) ops
    (Bump.init Bump.empty start size) ∅) as (b & live & Hrun & _ & Hlive);
    [by apply Bump.init_contract|done|exists b, live; auto].
Qed.

Lemma bump_client_safe_witness :
  ∃ b live,
    client_run _ Bump.alloc Bump.dealloc Bump.scribble (Bump.init Bump.empty 4096 64, ∅)
      [CAlloc (demo_layout 64); CAlloc (demo_layout 8)] = Ok (b, live) ∧
    live_ok 4096 (4096 + 64) live.
Proof.
  apply bump_client_safe; [done..|].
  repeat constructor; simpl; try (apply (is_pow2_lit 3); lia); unfold isize_max; lia.
Defined.

(** ** The linked-list allocator *)

(** C15: [alloc] on the heap's pointers computes first fit on the list of free
    regions: it returns the aligned start of the first region that can hold
    the block and puts the leftovers back, coalesced, or returns null and
    changes nothing when no region can.  The block is aligned, in the heap,
    was free, is free no more, and fewer than two headers' worth of bytes are
    lost beside it. *)
Theorem linked_list_alloc_refines lo hi w l k :
  ll_inv lo hi w l → layout_ok k →
  match alloc_region (block_size k) (allocation_align k) l with
  | None => alloc w k = Ok (0, w)
  | Some (p, l') => ∃ w', alloc w k = Ok (p, w') ∧ ll_inv lo hi w' l' ∧
      alloc_region_post lo hi (block_size k) (allocation_align k) l p l'
  end.
Proof.
  intros Hinv Hk. pose proof (alloc_refines lo hi w l k Hinv Hk) as H.
  destruct (alloc_region _ _ l) as [[p l']|]; [|done].
  destruct H as (w' & ? & ? & ? & _). eauto.
Qed.

Lemma linked_list_alloc_refines_witness :
  ∃ w', alloc demo_world (demo_layout 17) = Ok (4096, w') ∧ ll_inv 4096 8192 w' [(4120, 4072)] ∧
    alloc_region_post 4096 8192 24 8 [(4096, 4096)] 4096 [(4120, 4072)].
Proof.
  apply (linked_list_alloc_refines 4096 8192 demo_world [(4096, 4096)] (demo_layout 17) demo_inv).
  apply demo_layout_ok. lia.
Defined.

(** C16: [dealloc] of a block that is neither free nor outside the heap inserts
    it in the list of regions in address order and coalesces it with its
    neighbours; no check of [dealloc] or [add_free_region] fires. *)
Theorem linked_list_dealloc_refines lo hi w l p k :
  ll_inv lo hi w l → layout_ok k → lo <= p → p + block_size k <= hi →
  (NODE_ALIGN | p) → clear_of l p (block_size k) →
  ∃ w', dealloc w p k = Ok w' ∧ ll_inv lo hi w' (add_region p (block_size k) l) ∧
    (∀ x, covers (add_region p (block_size k) l) x ↔ p <= x < p + block_size k ∨ covers l x).
Proof.
  intros Hinv Hk Hlo Hhi Hp Hc.
  destruct (dealloc_refines lo hi w l p k Hinv Hk Hlo Hhi Hp Hc) as (w' & ? & ? & _).
  exists w'. split_and!; [done..|]. destruct (block_size_bounds k Hk) as (_ & ? & _).
  intros x. apply (add_region_covers lo hi); try done. apply Hinv.
Qed.

(** The heap after one block of 24 bytes was handed out. *)
Definition demo_world_taken : world :=
  match alloc demo_world (demo_layout 17) with Ok (_, w) => w | _ => demo_world end.

Lemma demo_taken_inv : ll_inv 4096 8192 demo_world_taken [(4120, 4072)].
Proof.
  pose proof (alloc_refines 4096 8192 demo_world _ (demo_layout 17) demo_inv
    (proj1 (demo_layout_ok 17 ltac:(lia)))) as H.
  destruct H as (w & Hw & Hinv & _). unfold demo_world_taken. by rewrite Hw.
Qed.

Lemma linked_list_dealloc_refines_witness :
  ∃ w', dealloc demo_world_taken 4096 (demo_layout 17) = Ok w' ∧
    ll_inv 4096 8192 w' (add_region 4096 (block_size (demo_layout 17)) [(4120, 4072)]) ∧
    (∀ x, covers (add_region 4096 (block_size (demo_layout 17)) [(4120, 4072)]) x ↔
       4096 <= x < 4096 + block_size (demo_layout 17) ∨ covers [(4120, 4072)] x).
Proof.
  apply (linked_list_dealloc_refines 4096 8192 demo_world_taken [(4120, 4072)] 4096 (demo_layout 17)).
  - apply demo_taken_inv.
  - apply demo_layout_ok. lia.
  - lia.
  - vm_compute. congruence.
  - by exists 512.
  - intros x Hx [Hx'|[]]. change (block_size (demo_layout 17)) with 24 in Hx. lia.
Defined.

(** A contiguous free range of at least one byte lies in one region. *)
Lemma covers_one_region lo hi l p n :
  free_wf lo hi l → 0 < n → (∀ x, p <= x < p + n → covers l x) →
  ∃ a s, (a, s) ∈ l ∧ a <= p ∧ p + n <= a + s.
Proof.
  revert lo. induction l as [|[a s] l IH]; intros lo Hl Hn Hx.
  { exfalso. apply (Hx p). lia. }
  pose proof (free_wf_tail _ _ _ _ _ Hl) as Htl. destruct Hl as [Ho Hs].
  destruct (Z.lt_ge_cases p (a + s)) as [Hp|Hp].
  - exists a, s. split; [left|]. split.
    + destruct (Hx p ltac:(lia)) as [?|Hc]; [lia|].
      pose proof (separated_gap _ _ _ _ _ _ Ho Hs Hc). lia.
    + destruct (Z.lt_ge_cases (a + s) (p + n)) as [Hlt|]; [|done].
      destruct (Hx (a + s) ltac:(lia)) as [?|Hc]; [lia|].
      pose proof (separated_gap _ _ _ _ _ _ Ho Hs Hc). lia.
  - destruct (IH (a + s) Htl Hn) as (b & t & Hin & ?).
    + intros x Hxr. destruct (Hx x Hxr) as [?|?]; [lia|done].
    + exists b, t. split; [by right|done].
Qed.

Lemma alloc_region_null lo hi size align l :
  free_wf lo hi l → 0 < align → 0 < size →
  alloc_region size align l = None ↔
  ¬ ∃ p, (align | p) ∧ ∀ x, p <= x < p + size → covers l x.
Proof.
  intros Hl Hal Hsz. unfold alloc_region. destruct (first_fit size align l) as [[[l1 [a s]] l2]|] eqn:Hf.
  - split; [done|]. intros Hno. exfalso. apply Hno. exists (round_up a align).
    apply first_fit_Some in Hf as (-> & Hfit & _). unfold fits in Hfit. zbool. simpl in Hfit.
    split; [by apply round_up_div|]. intros x Hx. pose proof (round_up_bounds a align Hal).
    eapply covers_in; [apply elem_middle|]. lia.
  - split; [|done]. intros _ (p & Hp & Hx).
    destruct (covers_one_region lo hi l p size Hl Hsz Hx) as (a & s & Hin & Ha & Hs).
    apply first_fit_None in Hf. rewrite Forall_forall in Hf.
    apply list_elem_of_In in Hin. specialize (Hf _ Hin).
    unfold fits in Hf. simpl in Hf. zbool. pose proof (round_up_min a align p Hal Hp Ha). lia.
Qed.

(** C22: first fit is complete: [alloc] returns null only when the free bytes
    contain no aligned range of the block's size.  Fragmentation by adjacent
    regions that were not merged cannot make a request fail. *)
Theorem linked_list_alloc_complete lo hi w l k :
  ll_inv lo hi w l → layout_ok k →
  alloc w k = Ok (0, w) ↔
  ¬ ∃ p, (allocation_align k | p) ∧ ∀ x, p <= x < p + block_size k → covers l x.
Proof.
  intros Hinv Hk. destruct (block_size_bounds k Hk) as (_ & Hb & _).
  destruct (allocation_align_ok k Hk) as (Hal & _). apply is_pow2_pos in Hal.
  rewrite <- (alloc_region_null lo hi) by (try apply Hinv; unfold MIN_BLOCK in *; lia).
  pose proof (alloc_refines lo hi w l k Hinv Hk) as H.
  destruct (alloc_region _ _ l) as [[p l']|]; [|done].
  destruct H as (w' & -> & _ & [_ Hlo _ _ _ _ _ _ _ _] & _). split; [|done].
  intros [= -> ->]. destruct Hinv as ((_ & _ & ? & _) & _). lia.
Qed.

Lemma linked_list_alloc_complete_witness :
  alloc demo_world (demo_layout 4097) = Ok (0, demo_world) ↔
  ¬ ∃ p, (allocation_align (demo_layout 4097) | p) ∧
      ∀ x, p <= x < p + block_size (demo_layout 4097) → covers [(4096, 4096)] x.
Proof.
  apply (linked_list_alloc_complete 4096 8192); [apply demo_inv|].
  split_and!; simpl; [lia|apply (is_pow2_lit 3); lia|unfold isize_max; lia].
Defined.

(** freeing a block just allocated restores the free list exactly, unless
    a leftover too small for a header was lost. *)
Theorem linked_list_alloc_dealloc lo hi w l k p w1 :
  ll_inv lo hi w l → layout_ok k → alloc w k = Ok (p, w1) → p ≠ 0 →
  ∃ l1 w2, ll_inv lo hi w1 l1 ∧ dealloc w1 p k = Ok w2 ∧
    ll_inv lo hi w2 (add_region p (block_size k) l1) ∧
    (total_bytes l1 + block_size k = total_bytes l →
     add_region p (block_size k) l1 = l).
Proof.
  intros Hinv Hk Ha Hp. pose proof (alloc_refines lo hi w l k Hinv Hk) as H.
  destruct (alloc_region _ _ l) as [[q l1]|]; [|congruence].
  destruct H as (w' & Hw & Hinv1 & Hpost & _). rewrite Hw in Ha. simplify_eq.
  destruct (block_size_bounds k Hk) as (_ & Hb & _).
  destruct (allocation_align_ok k Hk) as (_ & _ & _ & Hal).
  destruct Hpost as [H1 H2 H3 H4 H5 H6 H7 H8 H9 H10].
  assert (NODE_ALIGN | p) as Hp8 by (destruct (allocation_align_ok k Hk) as (? & ? & _);
    etransitivity; [apply (pow2_divide NODE_ALIGN); [by apply (is_pow2_lit 3)|done|done]|done]).
  destruct (dealloc_refines lo hi w1 l1 p k) as (w2 & Hw2 & Hinv2 & _); [done..|].
  exists l1, w2. split_and!; [done..|]. intros Heq. pose proof (H10 Heq) as Hcov.
  apply (free_wf_ext lo hi); [apply Hinv2|apply Hinv|]. intros x.
  rewrite (add_region_covers lo hi) by done.
  split; [intros [?|?]; auto|]. intros Hx. destruct (Hcov x Hx); auto.
Qed.

Lemma linked_list_alloc_dealloc_witness :
  ∃ l1 w2, ll_inv 4096 8192 demo_world_taken l1 ∧
    dealloc demo_world_taken 4096 (demo_layout 17) = Ok w2 ∧
    ll_inv 4096 8192 w2 (add_region 4096 (block_size (demo_layout 17)) l1) ∧
    (total_bytes l1 + block_size (demo_layout 17) = total_bytes [(4096, 4096)] →
     add_region 4096 (block_size (demo_layout 17)) l1 = [(4096, 4096)]).
Proof.
  apply (linked_list_alloc_dealloc 4096 8192 demo_world [(4096, 4096)] (demo_layout 17)
    4096 demo_world_taken).
  - apply demo_inv.
  - apply demo_layout_ok. lia.
  - vm_compute. reflexivity.
  - discriminate.
Defined.

(** the order in which two blocks are freed does not matter: both orders
    succeed and leave the same free list, fully coalesced. *)
Theorem linked_list_dealloc_commutes lo hi w l p k q j :
  ll_inv lo hi w l → layout_ok k → layout_ok j →
  lo <= p → p + block_size k <= hi → (NODE_ALIGN | p) → clear_of l p (block_size k) →
  lo <= q → q + block_size j <= hi → (NODE_ALIGN | q) → clear_of l q (block_size j) →
  apart p (block_size k) q (block_size j) →
  ∃ w1 w2 l', (w' ← dealloc w p k; dealloc w' q j) = Ok w1 ∧
    (w' ← dealloc w q j; dealloc w' p k) = Ok w2 ∧
    ll_inv lo hi w1 l' ∧ ll_inv lo hi w2 l'.
Proof.
  assert (∀ p k q j, ll_inv lo hi w l → layout_ok k → layout_ok j →
    lo <= p → p + block_size k <= hi → (NODE_ALIGN | p) → clear_of l p (block_size k) →
    lo <= q → q + block_size j <= hi → (NODE_ALIGN | q) → clear_of l q (block_size j) →
    apart p (block_size k) q (block_size j) →
    ∃ w1 l', (w' ← dealloc w p k; dealloc w' q j) = Ok w1 ∧ ll_inv lo hi w1 l' ∧
      ∀ x, covers l' x ↔ q <= x < q + block_size j ∨ p <= x < p + block_size k ∨ covers l x)
    as Hseq.
  { clear p k q j. intros p k q j Hinv Hk Hj Hp1 Hp2 Hp3 Hp4 Hq1 Hq2 Hq3 Hq4 Hd.
    destruct (block_size_bounds k Hk) as (_ & ? & _), (block_size_bounds j Hj) as (_ & ? & _).
    destruct (dealloc_refines lo hi w l p k) as (w' & -> & Hinv' & _); [done..|]. bstep.
    assert (∀ x, covers (add_region p (block_size k) l) x ↔
      p <= x < p + block_size k ∨ covers l x) as Hx
      by (intros; apply (add_region_covers lo hi); try done; apply Hinv).
    assert (clear_of (add_region p (block_size k) l) q (block_size j)) as Hc.
    { intros x Hxr [?|?]%Hx; [unfold apart in Hd; lia|]. by apply (Hq4 x). }
    destruct (dealloc_refines lo hi w' (add_region p (block_size k) l) q j)
      as (w1 & -> & Hinv1 & _); [done..|].
    eexists _, _. split_and!; [done..|]. intros x.
    rewrite (add_region_covers lo hi), Hx by (try done; apply Hinv'). tauto. }
  intros Hinv Hk Hj Hp1 Hp2 Hp3 Hp4 Hq1 Hq2 Hq3 Hq4 Hd.
  destruct (Hseq p k q j) as (w1 & l1 & H1 & Hi1 & Hx1); [done..|].
  destruct (Hseq q j p k) as (w2 & l2 & H2 & Hi2 & Hx2); [unfold apart in *; tauto || done..|].
  assert (l1 = l2) as ->.
  { apply (free_wf_ext lo hi); [apply Hi1|apply Hi2|]. intros x. rewrite Hx1, Hx2. tauto. }
  exists w1, w2, l2. auto.
Qed.

(** The heap after two blocks were handed out, at 4096 and 4120. *)
Definition demo_world_two : world :=
  match alloc demo_world_taken (demo_layout 24) with Ok (_, w) => w | _ => demo_world end.

Lemma demo_two_inv : ll_inv 4096 8192 demo_world_two [(4144, 4048)].
Proof.
  pose proof (alloc_refines 4096 8192 demo_world_taken _ (demo_layout 24) demo_taken_inv
    (proj1 (demo_layout_ok 24 ltac:(lia)))) as H.
  destruct H as (w & Hw & Hinv & _). unfold demo_world_two. by rewrite Hw.
Qed.

Lemma linked_list_dealloc_commutes_witness :
  ∃ w1 w2 l',
    (w' ← dealloc demo_world_two 4096 (demo_layout 17); dealloc w' 4120 (demo_layout 24)) = Ok w1 ∧
    (w' ← dealloc demo_world_two 4120 (demo_layout 24); dealloc w' 4096 (demo_layout 17)) = Ok w2 ∧
    ll_inv 4096 8192 w1 l' ∧ ll_inv 4096 8192 w2 l'.
Proof.
  apply (linked_list_dealloc_commutes 4096 8192 demo_world_two [(4144, 4048)]);
    change (block_size (demo_layout 17)) with 24; change (block_size (demo_layout 24)) with 24.
  - apply demo_two_inv.
  - apply demo_layout_ok. lia.
  - apply demo_layout_ok. lia.
  - lia.
  - lia.
  - by exists 512.
  - intros x Hx [Hx'|[]]. lia.
  - lia.
  - lia.
  - by exists 515.
  - intros x Hx [Hx'|[]]. lia.
  - left. lia.
Defined.

(** the introspection counters report the free list: [free_region_count]
    its length, [free_bytes] the sum of its sizes, which never exceeds
    [heap_size]; neither loop overflows or runs past the list. *)
Theorem linked_list_introspection lo hi w l :
  ll_inv lo hi w l →
  free_region_count w = Ok (Z.of_nat (length l)) ∧
  free_bytes w = Ok (total_bytes l) ∧
  0 <= total_bytes l <= heap_size (w_self w) ∧ heap_size (w_self w) = hi - lo.
Proof.
  intros Hinv. pose proof Hinv as ((Hs & He & ? & ?) & _ & [Ho _]).
  pose proof (ordered_total _ _ _ Ho). pose proof (ordered_le _ _ _ Ho).
  assert (heap_size (w_self w) = hi - lo) as ->
    by (unfold heap_size, saturating_sub; rewrite Hs, He; lia).
  split_and!; [by eapply free_region_count_ok|by eapply free_bytes_ok|..];
    unfold MIN_BLOCK in *; lia.
Qed.

Lemma linked_list_introspection_witness :
  free_region_count demo_world_taken = Ok 1 ∧ free_bytes demo_world_taken = Ok 4072 ∧
  0 <= 4072 <= heap_size (w_self demo_world_taken) ∧ heap_size (w_self demo_world_taken) = 8192 - 4096.
Proof. apply (linked_list_introspection 4096 8192 demo_world_taken _ demo_taken_inv). Defined.

(** ** [align_up], the bump allocator *)

(** [align_up] returns the least multiple of the alignment at or above
    the address, and does not overflow for any address and alignment whose
    sum is representable. *)
Theorem align_up_least addr align :
  is_pow2 align → 0 <= addr → addr + align < u64_modulus →
  ∃ r, align_up addr align = Ok r ∧ (align | r) ∧ addr <= r ∧
    (∀ y, (align | y) → addr <= y → r <= y).
Proof.
  intros Hp Ha Hb. pose proof (is_pow2_pos _ Hp) as Hpos. exists (round_up addr align).
  split_and!; [by apply align_up_ok|by apply round_up_div| |].
  - apply round_up_bounds. done.
  - intros y Hy Hle. by apply round_up_min.
Qed.

Lemma align_up_least_witness :
  ∃ r, align_up 4097 64 = Ok r ∧ (64 | r) ∧ 4097 <= r ∧ (∀ y, (64 | y) → 4097 <= y → r <= y).
Proof. apply align_up_least; [apply (is_pow2_lit 6); lia|lia|reflexivity]. Defined.

(** the bump allocator hands out the first aligned address at or past the
    cursor and moves the cursor to the block's end; when the block would pass
    the heap's end it returns null and keeps its cursor.  The cursor never
    moves back. *)
Theorem bump_alloc_advances lo hi self live l :
  Bump.bump_contract lo hi self live → request_ok l →
  ∃ p self', Bump.alloc self l = Ok (p, self') ∧
    Bump.next self <= Bump.next self' ∧
    (p = 0 ∧ self' = self ∧ hi < round_up (Bump.next self) (l_align l) + l_size l ∨
     p = round_up (Bump.next self) (l_align l) ∧ Bump.next self' = p + l_size l ∧
     Bump.next self' <= hi).
Proof.
  intros Hc Hl. rewrite (Bump.alloc_spec lo hi self live l Hc Hl).
  destruct Hl as [(_ & Hp & _) ?]. apply is_pow2_pos in Hp.
  pose proof (round_up_bounds (Bump.next self) (l_align l) Hp).
  zcase (hi <? round_up (Bump.next self) (l_align l) + l_size l).
  - exists 0, self. split_and!; [done|lia|left; done].
  - eexists _, _. split_and!; [done|simpl; lia|right]. simpl. split_and!; [done|done|lia].
Qed.

Lemma bump_alloc_advances_witness :
  ∃ p self', Bump.alloc (Bump.init Bump.empty 4097 64) (demo_layout 8) = Ok (p, self') ∧
    4097 <= Bump.next self' ∧
    (p = 0 ∧ self' = Bump.init Bump.empty 4097 64 ∧ 4097 + 64 < round_up 4097 8 + 8 ∨
     p = round_up 4097 8 ∧ Bump.next self' = p + 8 ∧ Bump.next self' <= 4097 + 64).
Proof.
  apply (bump_alloc_advances 4097 (4097 + 64) (Bump.init Bump.empty 4097 64) ∅ (demo_layout 8)).
  - by apply Bump.init_contract.
  - apply demo_layout_ok. lia.
Defined.

(** ** The fixed-size block allocator *)

(** [list_index] picks the smallest size class that holds both the size
    and the alignment of a layout, and no class only above 4096 bytes. *)
Theorem list_index_smallest k :
  match Fixed.list_index k with
  | Some i => ∃ s, Fixed.BLOCK_SIZES !! i = Some s ∧ l_size k <= s ∧ l_align k <= s ∧
      (∀ t, t ∈ Fixed.BLOCK_SIZES → l_size k <= t → l_align k <= t → s <= t)
  | None => ∀ t, t ∈ Fixed.BLOCK_SIZES → t < l_size k ∨ t < l_align k
  end.
Proof.
  destruct (Fixed.list_index k) as [i|] eqn:Hi.
  - destruct (Fixed.list_index_Some k i Hi) as (s & Hs & H1 & H2 & Hmin).
    exists s. split_and!; [done..|]. intros t [j Hj]%list_elem_of_lookup_1 Ht1 Ht2.
    destruct (decide (j < i)%nat) as [Hlt|Hge]; [specialize (Hmin j t Hlt Hj); lia|].
    clear -Hs Hj Hge.
    do 10 (destruct i as [|i]; [injection Hs as <-;
      do 10 (destruct j as [|j]; [injection Hj as <-; lia|]); done|]); done.
  - apply Fixed.list_index_None in Hi. intros t Ht.
    assert (t <= 4096); [|lia]. clear -Ht. apply list_elem_of_lookup_1 in Ht as [i Ht].
    apply (Forall_lookup_1 (λ t, t <= 4096) Fixed.BLOCK_SIZES i); [|done].
    repeat constructor; lia.
Qed.

(** a freed block of a cached class is the next block handed out for that
    class, whatever layout of the class asks for it: [alloc] after [dealloc]
    is served from the head of the class's list, without the fallback. *)
Theorem fixed_dealloc_alloc lo hi w live p k j i :
  Fixed.fixed_contract lo hi w live → live !! p = Some k →
  Fixed.list_index k = Some i → Fixed.list_index j = Some i → (1 <= i)%nat →
  ∃ w1 w2, Fixed.dealloc w p k = Ok w1 ∧ Fixed.alloc w1 j = Ok (p, w2) ∧
    Fixed.list_heads (Fixed.f_self w2) = Fixed.list_heads (Fixed.f_self w) ∧
    Fixed.fallback_allocator (Fixed.f_self w2) = Fixed.fallback_allocator (Fixed.f_self w).
Proof.
  intros (r & cached & Hinv) Hp Hk Hj Hi.
  destruct (Fixed.list_index_Some k i Hk) as (s & Hs & _).
  assert (16 <= s) as Hbig.
  { clear -Hs Hi. do 10 (destruct i as [|i]; [injection Hs as <-; lia|]). done. }
  destruct (Fixed.fi_class _ _ _ _ _ _ Hinv i s Hs) as (cs & _ & Hcs).
  pose proof (Fixed.co_head _ _ _ _ _ Hcs) as Hh.
  unfold Fixed.dealloc. rewrite Hk. unfold Fixed.index. rewrite Hs. cbn [expect]. bstep.
  assert ((MIN_BLOCK <=? s) && (NODE_ALIGN <=? s) = true) as ->.
  { unfold MIN_BLOCK, NODE_ALIGN. apply andb_true_intro. split; apply Z.leb_le; lia. }
  cbn [Fixed.set_mem Fixed.f_self Fixed.f_mem]. rewrite Hh.
  cbn [expect]. bstep. cbn [Fixed.set_list_head Fixed.f_mem Fixed.f_self].
  rewrite (load_node_ok p (node_new s)) by apply store_node_eq. bstep.
  eexists _, _. split; [done|]. unfold Fixed.alloc. rewrite Hj. unfold Fixed.index.
  assert (i < length (Fixed.list_heads (Fixed.f_self w)))%nat by (by eapply lookup_lt_Some).
  cbn [Fixed.set_list_head Fixed.set_mem Fixed.f_mem Fixed.f_self Fixed.list_heads
    Fixed.fallback_allocator].
  rewrite list_lookup_insert_eq by (by rewrite length_insert). cbn [expect]. bstep.
  rewrite load_node_ok with (n := mkNode s (hd_or (Fixed.blocks s cs) None))
    by apply store_node_eq.
  bstep. cbn [take_next]. split_and!; [done| |done]. simpl.
  rewrite !list_insert_insert_eq. by apply list_insert_id.
Qed.

(** The kernel heap with one block of 24 bytes live, at its start. *)
Definition demo_fixed : Fixed.fworld :=
  match Fixed.init (Fixed.mkFW Fixed.empty ∅) HEAP_START HEAP_SIZE with
  | Ok w => match Fixed.alloc w (demo_layout 24) with Ok (_, w) => w | _ => w end
  | _ => Fixed.mkFW Fixed.empty ∅
  end.

Lemma demo_fixed_contract :
  Fixed.fixed_contract HEAP_START (HEAP_START + HEAP_SIZE) demo_fixed
    {[ HEAP_START := demo_layout 24 ]}.
Proof.
  destruct (Fixed.init_fixed_inv ∅ HEAP_START HEAP_SIZE) as (w0 & Hw0 & Hinv); [done..|].
  destruct (Fixed.fixed_alloc HEAP_START (HEAP_START + HEAP_SIZE) w0 ∅ (demo_layout 24))
    as (p & w & Hw & Hor).
  { by eexists _, _. }
  { apply demo_layout_ok. lia. }
  assert (p = HEAP_START) as ->.
  { assert (match Fixed.init (Fixed.mkFW Fixed.empty ∅) HEAP_START HEAP_SIZE with
            | Ok w0 => match Fixed.alloc w0 (demo_layout 24) with Ok (p, _) => p | _ => 0 end
            | _ => 0 end = HEAP_START) as H by (vm_compute; reflexivity).
    by rewrite Hw0, Hw in H. }
  unfold demo_fixed. rewrite Hw0, Hw. destruct Hor as [(? & _)|(_ & _ & ?)]; [discriminate|done].
Qed.

Lemma fixed_dealloc_alloc_witness :
  ∃ w1 w2, Fixed.dealloc demo_fixed HEAP_START (demo_layout 24) = Ok w1 ∧
    Fixed.alloc w1 (demo_layout 17) = Ok (HEAP_START, w2) ∧
    Fixed.list_heads (Fixed.f_self w2) = Fixed.list_heads (Fixed.f_self demo_fixed) ∧
    Fixed.fallback_allocator (Fixed.f_self w2) = Fixed.fallback_allocator (Fixed.f_self demo_fixed).
Proof.
  apply (fixed_dealloc_alloc HEAP_START (HEAP_START + HEAP_SIZE) demo_fixed
    {[ HEAP_START := demo_layout 24 ]} HEAP_START (demo_layout 24) (demo_layout 17) 2).
  - apply demo_fixed_contract.
  - apply lookup_singleton_eq.
  - reflexivity.
  - reflexivity.
  - lia.
Defined.

(** [stats] accounts for every byte it can: the heap's size, and as free
    both the fallback's regions and the blocks parked in the class lists; the
    live blocks fit in what is not reported free. *)
Theorem fixed_stats lo hi w live :
  Fixed.fixed_contract lo hi w live →
  ∃ free, Fixed.stats w = Ok (Fixed.mkStats (hi - lo) free) ∧
    0 <= free ∧ Fixed.bytes_in live + free <= hi - lo.
Proof.
  intros (r & cached & Hinv). destruct (Fixed.stats_ok _ _ _ _ _ _ Hinv) as [H1 H2].
  eexists. split; [done|]. split; [|lia].
  pose proof (Fixed.bytes_in_nonneg cached).
  destruct (Fixed.fi_fallback _ _ _ _ _ _ Hinv) as (_ & _ & [Ho _]).
  pose proof (ordered_total _ _ _ Ho). unfold MIN_BLOCK in *. lia.
Qed.

Lemma fixed_stats_witness :
  ∃ free, Fixed.stats demo_fixed = Ok (Fixed.mkStats (HEAP_START + HEAP_SIZE - HEAP_START) free) ∧
    0 <= free ∧ Fixed.bytes_in {[ HEAP_START := demo_layout 24 ]} + free
      <= HEAP_START + HEAP_SIZE - HEAP_START.
Proof. apply fixed_stats. apply demo_fixed_contract. Defined.
