(* ===== verification/HeapProg.v ===== *)
(** * Programs that use the heap

    The collections of the standard library reach the allocator only through
    [GlobalAlloc].  [hprog] is a program as a tree of its calls: requests,
    frees and writes to blocks it owns.  [run] interprets it over any
    allocator.  [wp] is the precondition under which a program follows the
    contract of [GlobalAlloc] and ends in a given condition on its result and
    on the blocks it still owns; it is computed without running any allocator,
    and [run_wp] shows that it is sound for every allocator that meets the
    contract.  [run_implements] runs the program on the kernel's allocator and
    on its reference side by side. *)

From Stdlib Require Import ZArith Lia.
From stdpp Require Import base gmap list strings numbers.
From S2P Require Import Prelude AllocMod FreeList LinkedList FixedSizeBlock.

Open Scope Z_scope.

Inductive hprog (A : Type) : Type :=
| HRet (a : A)
| HPanic (msg : string)
| HAlloc (l : Layout) (k : Z → hprog A)
| HFree (p : Z) (l : Layout) (k : hprog A)
| HWrite (a n : Z) (k : hprog A).

Arguments HRet {A}.
Arguments HPanic {A}.
Arguments HAlloc {A}.
Arguments HFree {A}.
Arguments HWrite {A}.

#[global] Instance hprog_ret : MRet hprog := @HRet.

#[global] Instance hprog_bind : MBind hprog :=
  fix bind A B f m :=
    match m with
    | HRet a => f a
    | HPanic msg => HPanic msg
    | HAlloc l k => HAlloc l (λ p, bind A B f (k p))
    | HFree p l k => HFree p l (bind A B f k)
    | HWrite a n k => HWrite a n (bind A B f k)
    end.

(** [alloc_error_handler] of a kernel without one of its own. *)
Definition OOM : string := "memory allocation failed".

(** ** Running a program *)

Section run.
Context {H : Type}.
Context (alloc : H → Layout → outcome (Z * H)).
Context (dealloc : H → Z → Layout → outcome H).
Context (scribble : H → Z → Z → H).

Fixpoint run {A} (m : hprog A) (h : H) : outcome (A * H) :=
  match m with
  | HRet a => Ok (a, h)
  | HPanic msg => Panic msg
  | HAlloc l k => '(p, h) ← alloc h l; run (k p) h
  | HFree p l k => h ← dealloc h p l; run k h
  | HWrite a n k => run k (scribble h a n)
  end.

Lemma run_bind {A B} (m : hprog A) (f : A → hprog B) h :
  run (m ≫= f) h = ('(a, h) ← run m h; run (f a) h).
Proof.
  revert h. induction m as [a|msg|l k IH|p l k IH|a n k IH]; intros h; cbn; try done.
  - destruct (alloc h l) as [[p h']| | |]; cbn; [apply IH|done..].
  - destruct (dealloc h p l); cbn; [apply IH|done..].
Qed.
End run.

(** ** The contract as a precondition *)

Abbreviation blocks_out := (gmap Z Layout).

Fixpoint wp {A} (m : hprog A) (Q : A → blocks_out → Prop) (live : blocks_out) : Prop :=
  match m with
  | HRet a => Q a live
  | HPanic msg => msg = OOM
  | HAlloc l k => request_ok l ∧ wp (k 0) Q live ∧
      ∀ p, p ≠ 0 → live !! p = None → wp (k p) Q (<[p := l]> live)
  | HFree p l k => live !! p = Some l ∧ wp k Q (delete p live)
  | HWrite a n k => (∃ p l, live !! p = Some l ∧ p <= a ∧ 0 <= n ∧ a + n <= p + l_size l) ∧ wp k Q live
  end.

Lemma wp_bind {A B} (m : hprog A) (f : A → hprog B) Q live :
  wp m (λ a, wp (f a) Q) live → wp (m ≫= f) Q live.
Proof.
  revert live. induction m as [a|msg|l k IH|p l k IH|a n k IH]; intros live; cbn; try done.
  - intros (H1 & H2 & H3). auto.
  - intros [H1 H2]. auto.
  - intros [H1 H2]. auto.
Qed.

Lemma wp_mono {A} (m : hprog A) (Q R : A → blocks_out → Prop) live :
  (∀ a live', Q a live' → R a live') → wp m Q live → wp m R live.
Proof.
  intros HQ. revert live. induction m as [a|msg|l k IH|p l k IH|a n k IH]; intros live; cbn; auto.
  - intros (H1 & H2 & H3). auto.
  - intros [H1 H2]. auto.
  - intros [H1 H2]. auto.
Qed.

(** A program that follows the contract runs on every allocator that meets
    it: to its end, or out of memory. *)
Lemma run_wp {H} (alloc : H → Layout → outcome (Z * H)) dealloc scribble
    {spec : GlobalAllocSpec H alloc dealloc scribble} {A} lo hi (m : hprog A) Q h live :
  ga_inv lo hi h live → wp m Q live →
  run alloc dealloc scribble m h = Panic OOM ∨
  ∃ a h' live', run alloc dealloc scribble m h = Ok (a, h') ∧ ga_inv lo hi h' live' ∧ Q a live'.
Proof.
  revert h live. induction m as [a|msg|l k IH|p l k IH|a n k IH]; intros h live Hi; cbn.
  - eauto 10.
  - intros ->. by left.
  - intros (H1 & H2 & H3). destruct (ga_alloc lo hi h live l Hi H1) as (p & h' & -> & [[-> Hi']|(Hp & Hn & Hi')]);
      bstep; [by apply (IH 0 h' live)|by apply (IH p h' (<[p:=l]> live)), H3].
  - intros [H1 H2]. destruct (ga_dealloc lo hi h live p l Hi H1) as (h' & -> & Hi'). bstep. by apply (IH h' _ Hi').
  - intros [(p & l & H1 & H3 & H4 & H5) H2]. apply (IH _ live); [|done]. by apply (ga_write lo hi h live p l).
Qed.

(** ** On the kernel's allocator and its reference *)

Abbreviation ref_run_prog := (run (λ r k, Ok (Fixed.ref_alloc r k)) (λ r p k, Ok (Fixed.ref_dealloc r p k)) (λ r _ _, r)).
Abbreviation fixed_run_prog := (run Fixed.alloc Fixed.dealloc Fixed.scribble).

Lemma run_implements {A} lo hi (m : hprog A) Q w live r :
  Fixed.implements lo hi w live r → wp m Q live →
  match ref_run_prog m r with
  | Ok (a, r') => ∃ w' live', fixed_run_prog m w = Ok (a, w') ∧ Fixed.implements lo hi w' live' r' ∧ Q a live'
  | Panic msg => msg = OOM ∧ fixed_run_prog m w = Panic msg
  | _ => False
  end.
Proof.
  revert w live r. induction m as [a|msg|l k IH|p l k IH|a n k IH]; intros w live r Hi; cbn.
  - eauto 10.
  - by intros ->.
  - intros (H1 & H2 & H3). destruct (Fixed.alloc_implements lo hi w live r l Hi H1)
      as (p & w' & r' & -> & -> & [(-> & -> & Hi')|(Hp & Hn & Hi')]); bstep;
      [by apply (IH 0 w' live)|by apply (IH p w' (<[p:=l]> live)), H3].
  - intros [H1 H2]. destruct (Fixed.dealloc_implements lo hi w live r p l Hi H1) as (w' & -> & Hi').
    bstep. by apply (IH w' _ _ Hi').
  - intros [(p & l & H1 & H3 & H4 & H5) H2]. apply (IH _ live); [|done].
    by apply (Fixed.write_implements lo hi w live r p l).
Qed.
