(* ===== verification/HeapDemo.v ===== *)
(** * [Box], [Vec] and [Rc] on the kernel's heap

    [sample_heap_allocations] of src/src/demos.rs, the smoke test of the heap
    that [kernel_main] runs at boot, with what it uses of the standard library
    as programs of HeapProg.v: [Box::new], [Vec::push] with its amortised
    growth through the default [GlobalAlloc::realloc], and [Rc] with its
    reference counts. *)

From Stdlib Require Import ZArith Lia.
From stdpp Require Import base gmap list list_numbers strings numbers.
From S2P Require Import Prelude AllocMod FreeList LinkedList FixedSizeBlock HeapProg.

Open Scope Z_scope.

(** ** [Box<T>] *)

(** [Box::new]: a block of the layout of [T], into which the value is moved. *)
Definition Box_new (l : Layout) : hprog Z :=
  HAlloc l (λ p, if p =? 0 then HPanic OOM else HWrite p (l_size l) (HRet p)).

Definition i32_layout : Layout := mkLayout 4 4.

(** ** [Vec<i32>] *)

Record Vec := mkVec { v_ptr : Z; v_cap : Z; v_items : list Z }.

(** No block; the pointer dangles. *)
Definition Vec_new : Vec := mkVec 4 0 [].

Definition v_len (v : Vec) : Z := Z.of_nat (length (v_items v)).

Definition array_layout (cap : Z) : Layout := mkLayout (4 * cap) 4.

Definition MIN_NON_ZERO_CAP : Z := 4.

(** [GlobalAlloc::realloc], which the kernel's allocator inherits. *)
Definition realloc (ptr : Z) (l : Layout) (new_size : Z) : hprog Z :=
  HAlloc (mkLayout new_size (l_align l)) (λ new_ptr,
    if new_ptr =? 0 then HRet 0
    else HWrite new_ptr (Z.min (l_size l) new_size) (HFree ptr l (HRet new_ptr))).

(** [RawVec::grow_one] *)
Definition grow_one (v : Vec) : hprog Vec :=
  let cap := Z.max (v_cap v * 2) (v_cap v + 1) in
  let cap := Z.max MIN_NON_ZERO_CAP cap in
  match from_size_align (4 * cap) 4 with
  | None => HPanic "capacity overflow"
  | Some l =>
      p ← (if v_cap v =? 0 then HAlloc l HRet
           else realloc (v_ptr v) (array_layout (v_cap v)) (l_size l));
      if p =? 0 then HPanic OOM else HRet (mkVec p cap (v_items v))
  end.

Definition push (v : Vec) (x : Z) : hprog Vec :=
  v ← (if v_len v =? v_cap v then grow_one v else HRet v);
  HWrite (v_ptr v + 4 * v_len v) 4 (HRet (mkVec (v_ptr v) (v_cap v) (v_items v ++ [x]))).

(** [for x in xs { vec.push(x) }] *)
Fixpoint push_all (v : Vec) (xs : list Z) : hprog Vec :=
  match xs with
  | [] => HRet v
  | x :: xs => v ← push v x; push_all v xs
  end.

Definition Vec_drop (v : Vec) : hprog unit :=
  if v_cap v =? 0 then HRet tt else HFree (v_ptr v) (array_layout (v_cap v)) (HRet tt).

(** ** [Rc<T>]

    The counts of the block at each address; [l] is the layout of the two
    counters followed by a [T]. *)

Record RcCounts := mkCounts { rc_strong : Z; rc_weak : Z }.

(** For [Rc<[i32; 3]>]: twelve bytes, rounded up to the alignment. *)
Definition rc_layout : Layout := mkLayout 32 8.

Definition Rc_new (l : Layout) (rcs : gmap Z RcCounts) : hprog (Z * gmap Z RcCounts) :=
  p ← Box_new l;
  HRet (p, <[p := mkCounts 1 1]> rcs).

Definition strong_count (p : Z) (rcs : gmap Z RcCounts) : Z :=
  match rcs !! p with Some c => rc_strong c | None => 0 end.

Definition Rc_clone (p : Z) (rcs : gmap Z RcCounts) : hprog (gmap Z RcCounts) :=
  match rcs !! p with
  | None => HPanic "not an Rc"
  | Some c =>
      let strong := wrapping_add (rc_strong c) 1 in
      if strong =? 0 then HPanic "abort"
      else HWrite p 8 (HRet (<[p := mkCounts strong (rc_weak c)]> rcs))
  end.

Definition Rc_drop (l : Layout) (p : Z) (rcs : gmap Z RcCounts) : hprog (gmap Z RcCounts) :=
  match rcs !! p with
  | None => HPanic "not an Rc"
  | Some c =>
      let strong := rc_strong c - 1 in
      HWrite p 8
        (if strong =? 0 then
           let weak := rc_weak c - 1 in
           HWrite (p + 8) 8
             (if weak =? 0 then HFree p l (HRet (delete p rcs))
              else HRet (<[p := mkCounts strong weak]> rcs))
         else HRet (<[p := mkCounts strong (rc_weak c)]> rcs))
  end.

(** ** [sample_heap_allocations]

    What its log lines report: the addresses of the boxed value and of the
    vector's slice, and the strong counts before and after the drop; and what
    the vector holds.  The locals are dropped in reverse order. *)

Record sample := mkSample {
  s_box : Z;
  s_slice : Z;
  s_items : list Z;
  s_before : Z;
  s_after : Z;
}.

Definition sample_heap_allocations : hprog sample :=
  heap_value ← Box_new i32_layout;
  vec ← push_all Vec_new (seqZ 0 500);
  '(reference_counted, rcs) ← Rc_new rc_layout ∅;
  rcs ← Rc_clone reference_counted rcs;
  let cloned_reference := reference_counted in
  let before := strong_count cloned_reference rcs in
  rcs ← Rc_drop rc_layout reference_counted rcs;
  let after := strong_count cloned_reference rcs in
  _ ← Rc_drop rc_layout cloned_reference rcs;
  _ ← Vec_drop vec;
  HFree heap_value i32_layout (HRet (mkSample heap_value (v_ptr vec) (v_items vec) before after)).

(** ** Specifications *)

(** The blocks of a program with a vector, besides [base]. *)
Record vec_rep (v : Vec) (base live : gmap Z Layout) : Prop := {
  vr_live : live = if v_cap v =? 0 then base else <[v_ptr v := array_layout (v_cap v)]> base;
  vr_fresh : v_cap v ≠ 0 → base !! v_ptr v = None;
  vr_cap : 0 <= v_cap v <= 2 * v_len v + MIN_NON_ZERO_CAP;
  vr_len : v_len v <= v_cap v;
}.

Lemma Box_new_wp l base (Q : Z → gmap Z Layout → Prop) :
  request_ok l → (∀ p, p ≠ 0 → base !! p = None → Q p (<[p := l]> base)) → wp (Box_new l) Q base.
Proof.
  intros Hl HQ. cbn. split; [done|]. split; [done|]. intros p Hp Hn.
  rewrite (proj2 (Z.eqb_neq p 0) Hp). cbn. split; [|auto].
  exists p, l. rewrite lookup_insert_eq. destruct Hl as [[? _] ?]. split; [done|]. lia.
Qed.

Lemma array_request cap : 1 <= cap < 2 ^ 32 → request_ok (array_layout cap).
Proof.
  intros Hc. split; [|unfold array_layout; cbn; lia]. split; [cbn; lia|]. split.
  - by apply (is_pow2_lit 2).
  - unfold array_layout, isize_max. cbn [l_size l_align]. lia.
Qed.

Lemma vec_rep_block p cap items base :
  let n := Z.of_nat (length items) in
  base !! p = None → 1 <= cap → n <= cap <= 2 * n + MIN_NON_ZERO_CAP →
  vec_rep (mkVec p cap items) base (<[p := array_layout cap]> base).
Proof.
  intros n Hp Hc Hn. split; unfold v_len; cbn [v_ptr v_cap v_items]; [|done|lia|lia].
  by rewrite (proj2 (Z.eqb_neq cap 0)) by lia.
Qed.

Lemma grow_one_wp v base live (Q : Vec → gmap Z Layout → Prop) :
  vec_rep v base live → v_len v = v_cap v → v_cap v < 2 ^ 30 →
  (∀ v' live', vec_rep v' base live' → v_items v' = v_items v → v_len v' < v_cap v' → Q v' live') →
  wp (grow_one v) Q live.
Proof.
  intros [H1 H2 H3 H4] Hf Hb HQ. unfold grow_one, MIN_NON_ZERO_CAP in *. set (cap := Z.max 4 _).
  assert (v_len v < cap ∧ 4 <= cap < 2 ^ 32 ∧ cap <= 2 * v_len v + 4) as (C1 & C2 & C3) by (unfold cap; lia).
  destruct (array_request cap ltac:(lia)) as [Hlay Hpos].
  assert (from_size_align (4 * cap) 4 = Some (array_layout cap)) as ->.
  { unfold from_size_align. rewrite (proj2 (Z.ltb_ge _ _)); [done|]. unfold isize_max. lia. }
  assert (∀ p, base !! p = None → Q (mkVec p cap (v_items v)) (<[p := array_layout cap]> base)) as HQ'.
  { intros p Hp. apply HQ; [|done|done]. apply vec_rep_block; [done|lia|]. fold (v_len v).
    unfold MIN_NON_ZERO_CAP. lia. }
  apply wp_bind. destruct (v_cap v =? 0) eqn:Hz; zbool; subst live; cbn [wp realloc].
  - split; [done|]. split; [done|]. intros p Hp Hn. rewrite (proj2 (Z.eqb_neq p 0) Hp). by apply HQ'.
  - split; [done|]. split; [done|]. intros p Hp Hn. rewrite (proj2 (Z.eqb_neq p 0) Hp). cbn [wp].
    apply lookup_insert_None in Hn as [Hn Hne]. split; [|split].
    + eexists p, _. rewrite lookup_insert_eq. split; [done|]. cbn [array_layout l_size]. lia.
    + rewrite lookup_insert_ne by done. apply lookup_insert_eq.
    + rewrite delete_insert_ne, delete_insert_id by auto. rewrite (proj2 (Z.eqb_neq p 0) Hp). by apply HQ'.
Qed.

Lemma push_wp v x base live (Q : Vec → gmap Z Layout → Prop) :
  vec_rep v base live → v_cap v < 2 ^ 30 →
  (∀ v' live', vec_rep v' base live' → v_items v' = v_items v ++ [x] → Q v' live') →
  wp (push v x) Q live.
Proof.
  intros Hr Hb HQ. unfold push. apply wp_bind.
  assert (∀ v' live', vec_rep v' base live' → v_items v' = v_items v → v_len v' < v_cap v' →
    wp (HWrite (v_ptr v' + 4 * v_len v') 4 (HRet (mkVec (v_ptr v') (v_cap v') (v_items v' ++ [x])))) Q live') as Hw.
  { intros v' live' [H1 H2 H3 H4] Hi Hlt. assert (0 <= v_len v') by (unfold v_len; lia).
    rewrite (proj2 (Z.eqb_neq (v_cap v') 0)) in H1 by lia. cbn [wp]. split.
    - exists (v_ptr v'), (array_layout (v_cap v')). rewrite H1, lookup_insert_eq. split; [done|].
      cbn [array_layout l_size]. lia.
    - apply HQ; [|by rewrite <- Hi]. rewrite H1. apply vec_rep_block; [apply H2; lia|lia|].
      rewrite length_app. fold (v_len v'). unfold v_len in *. cbn [length]. lia. }
  destruct (v_len v =? v_cap v) eqn:E; zbool.
  - by apply (grow_one_wp v base).
  - cbn [wp]. apply Hw; [done|done|]. pose proof (vr_len _ _ _ Hr). lia.
Qed.

Lemma push_all_wp v xs base live (Q : Vec → gmap Z Layout → Prop) :
  vec_rep v base live → v_len v + Z.of_nat (length xs) < 2 ^ 28 →
  (∀ v' live', vec_rep v' base live' → v_items v' = v_items v ++ xs → Q v' live') →
  wp (push_all v xs) Q live.
Proof.
  revert v live. induction xs as [|x xs IH]; intros v live Hr Hb HQ; cbn [push_all].
  - apply HQ; [done|]. by rewrite app_nil_r.
  - cbn [length] in Hb. apply wp_bind. eapply push_wp; [exact Hr| |].
    { pose proof (vr_cap _ _ _ Hr). unfold MIN_NON_ZERO_CAP in *. lia. }
    intros v' live' Hr' Hi. apply IH; [done| |].
    + unfold v_len in *. rewrite Hi, length_app. cbn [length]. lia.
    + intros v2 live2 Hr2 Hi2. apply HQ; [done|]. by rewrite Hi2, Hi, <- app_assoc.
Qed.

Lemma Rc_clone_wp l p rcs c live (Q : gmap Z RcCounts → gmap Z Layout → Prop) :
  rcs !! p = Some c → live !! p = Some l → 16 <= l_size l → 0 <= rc_strong c < u64_modulus - 1 →
  Q (<[p := mkCounts (rc_strong c + 1) (rc_weak c)]> rcs) live → wp (Rc_clone p rcs) Q live.
Proof.
  intros Hc Hl Hz Hs HQ. unfold Rc_clone. rewrite Hc, wrapping_add_ok by lia.
  rewrite (proj2 (Z.eqb_neq _ 0)) by lia. cbn [wp]. split; [|done].
  exists p, l. split; [done|]. lia.
Qed.

Lemma Rc_drop_wp l p rcs c live (Q : gmap Z RcCounts → gmap Z Layout → Prop) :
  rcs !! p = Some c → live !! p = Some l → 16 <= l_size l →
  (if rc_strong c =? 1 then rc_weak c = 1 ∧ Q (delete p rcs) (delete p live)
   else Q (<[p := mkCounts (rc_strong c - 1) (rc_weak c)]> rcs) live) →
  wp (Rc_drop l p rcs) Q live.
Proof.
  intros Hc Hl Hz HQ. unfold Rc_drop. rewrite Hc. cbn [wp].
  split; [exists p, l; split; [done|lia]|].
  destruct (rc_strong c =? 1) eqn:E; zbool.
  - destruct HQ as [Hw HQ]. rewrite E, Hw. cbn [Z.sub Z.add Z.opp Z.pos_sub Z.eqb wp].
    split; [exists p, l; split; [done|lia]|done].
  - by rewrite (proj2 (Z.eqb_neq _ 0)) by lia.
Qed.

Lemma Vec_drop_wp v base live (Q : unit → gmap Z Layout → Prop) :
  vec_rep v base live → v_items v ≠ [] → Q tt base → wp (Vec_drop v) Q live.
Proof.
  intros [-> V2 V3 V4] Hi HQ. unfold Vec_drop.
  assert (v_cap v ≠ 0) as Hz by (unfold v_len in *; destruct (v_items v); [done|cbn [length] in *; lia]).
  rewrite (proj2 (Z.eqb_neq _ _) Hz). cbn [wp]. split; [apply lookup_insert_eq|].
  by rewrite delete_insert_id by auto.
Qed.

(** The smoke test follows the contract, sees the counts it should, and gives
    every block back. *)
Lemma sample_wp live :
  wp sample_heap_allocations (λ s live', live' = live ∧ s_items s = seqZ 0 500 ∧ s_before s = 2 ∧ s_after s = 1) live.
Proof.
  unfold sample_heap_allocations. apply wp_bind, Box_new_wp.
  { split; [|done]. split; [done|]. split; [by apply (is_pow2_lit 2)|done]. }
  intros a Ha Hna. apply wp_bind, (push_all_wp _ _ (<[a := i32_layout]> live)).
  { by split. }
  { by rewrite length_seqZ. }
  intros v live1 Hv Hi. apply wp_bind, wp_bind, Box_new_wp.
  { split; [|done]. split; [done|]. split; [by apply (is_pow2_lit 3)|done]. }
  intros p Hp Hnp. cbn [wp].
  apply wp_bind. eapply Rc_clone_wp; [apply lookup_insert_eq..|done|done|]. rewrite insert_insert_eq. cbn [rc_strong rc_weak Z.add Pos.add].
  unfold strong_count at 1. rewrite lookup_insert_eq. cbn [rc_strong].
  apply wp_bind. eapply Rc_drop_wp; [apply lookup_insert_eq..|done|].
  cbn [rc_strong rc_weak Z.eqb Pos.eqb Z.sub Z.add Z.opp Z.pos_sub Pos.pred_double]. rewrite insert_insert_eq.
  unfold strong_count. rewrite lookup_insert_eq. cbn [rc_strong].
  apply wp_bind. eapply Rc_drop_wp; [apply lookup_insert_eq..|done|]. cbn [rc_strong rc_weak Z.eqb Pos.eqb].
  split; [done|]. rewrite delete_insert_id by done.
  apply wp_bind. eapply Vec_drop_wp; [done|by rewrite Hi|]. cbn [wp].
  split; [apply lookup_insert_eq|]. by rewrite delete_insert_id.
Qed.

(** ** Theorem *)

(** On the heap as boot leaves it, the reference has room for everything the
    smoke test asks for; what it leaves behind. *)
Definition sample_ref : Fixed.fref :=
  match ref_run_prog sample_heap_allocations (Fixed.ref_init HEAP_START HEAP_SIZE) with
  | Ok (_, r) => r
  | _ => Fixed.ref_init HEAP_START HEAP_SIZE
  end.

Lemma sample_fits :
  ∃ s, ref_run_prog sample_heap_allocations (Fixed.ref_init HEAP_START HEAP_SIZE) = Ok (s, sample_ref) ∧
    s_box s = HEAP_START.
Proof. eexists. split; [vm_compute; reflexivity|reflexivity]. Qed.

Lemma sample_boot_ok w :
  Fixed.implements HEAP_START (HEAP_START + HEAP_SIZE) w ∅ (Fixed.ref_init HEAP_START HEAP_SIZE) →
  ∃ s w', fixed_run_prog sample_heap_allocations w = Ok (s, w') ∧
    Fixed.implements HEAP_START (HEAP_START + HEAP_SIZE) w' ∅ sample_ref ∧
    (s_items s = seqZ 0 500 ∧ s_before s = 2 ∧ s_after s = 1) ∧ s_box s = HEAP_START.
Proof.
  intros Hw. destruct sample_fits as (s & Hr & Hb).
  pose proof (run_implements _ _ _ _ _ _ _ Hw (sample_wp ∅)) as H. rewrite Hr in H.
  destruct H as (w' & live' & Hrun & Hi & -> & Hg). exists s, w'. split; [done|]. split; [exact Hi|].
  split; [exact Hg|exact Hb].
Qed.

(** C36: the heap smoke test.  Run on the kernel's allocator in any state, it
    ends or runs out of memory: it never panics otherwise and never writes
    outside its blocks; when it ends, the vector held the numbers it was
    given through seven reallocations, the strong count went from two to one,
    and every block is back.  On the heap as boot leaves it, it does end. *)
Theorem sample_heap_allocations_ok :
  let good s := s_items s = seqZ 0 500 ∧ s_before s = 2 ∧ s_after s = 1 in
  (∀ lo hi w live, Fixed.fixed_contract lo hi w live →
     fixed_run_prog sample_heap_allocations w = Panic OOM ∨
     ∃ s w', fixed_run_prog sample_heap_allocations w = Ok (s, w') ∧
       Fixed.fixed_contract lo hi w' live ∧ good s) ∧
  (∀ w, Fixed.implements HEAP_START (HEAP_START + HEAP_SIZE) w ∅ (Fixed.ref_init HEAP_START HEAP_SIZE) →
     ∃ s w', fixed_run_prog sample_heap_allocations w = Ok (s, w') ∧
       Fixed.fixed_contract HEAP_START (HEAP_START + HEAP_SIZE) w' ∅ ∧ good s ∧ s_box s = HEAP_START).
Proof.
  intros good. split.
  - intros lo hi w live Hw.
    destruct (run_wp Fixed.alloc Fixed.dealloc Fixed.scribble (spec := Fixed.fixed_spec) lo hi _ _ w live Hw (sample_wp live))
      as [?|(s & w' & live' & Hr & Hi & -> & Hg)]; [by left|right]. exists s, w'. split; [done|]. split; [done|]. exact Hg.
  - intros w Hw. destruct (sample_boot_ok w Hw) as (s & w' & Hr & Hi & Hg). exists s, w'. split; [done|].
    split; [by exists sample_ref|done].
Qed.
