(* ===== verification/HeapTests.v ===== *)
(** * The integration tests of the heap

    The test functions of src/tests/heap_allocation.rs as programs of
    HeapProg.v, over the collections of HeapDemo.v; locals are dropped in
    reverse order.  A block has no contents here, so the assertions that read
    a value back are left out; those on lengths and strong counts stay.  On
    the kernel's allocator in any state a test passes or runs out of memory,
    and gives back every block it took. *)

From Stdlib Require Import ZArith Lia.
From stdpp Require Import base gmap list list_numbers strings numbers.
From S2P Require Import Prelude AllocMod FreeList LinkedList FixedSizeBlock HeapProg HeapDemo.

Open Scope Z_scope.

Definition Box_drop (l : Layout) (p : Z) : hprog unit := HFree p l (HRet tt).

(** [vec![..]]: one block with room for the elements, and no more. *)
Definition vec_of (items : list Z) : hprog Vec :=
  let cap := Z.of_nat (length items) in
  p ← Box_new (array_layout cap); HRet (mkVec p cap items).

Definition check (b : bool) : hprog unit := if b then HRet tt else HPanic "assertion failed".
Definition check_eq {T} `{EqDecision T} (x y : T) : hprog unit := check (bool_decide (x = y)).

(** [Rc<i32>] and [Rc<&str>] *)
Definition rc_i32_layout : Layout := mkLayout 24 8.
Definition rc_str_layout : Layout := mkLayout 32 8.

(** [Vec<i32>] as a value, and three boxes in a row. *)
Definition vec_layout : Layout := mkLayout 24 8.
Definition boxes_layout : Layout := mkLayout 24 8.

Definition test_box_allocation : hprog unit :=
  boxed ← Box_new i32_layout;
  Box_drop i32_layout boxed.

Definition test_vec_allocation : hprog unit :=
  vec ← push_all Vec_new (seqZ 0 100);
  _ ← check_eq (v_len vec) 100;
  Vec_drop vec.

Definition test_rc_single : hprog unit :=
  '(rc, rcs) ← Rc_new rc_i32_layout ∅;
  _ ← check_eq (strong_count rc rcs) 1;
  _ ← Rc_drop rc_i32_layout rc rcs;
  HRet tt.

Definition test_rc_clone : hprog unit :=
  '(original, rcs) ← Rc_new rc_layout ∅;
  rcs ← Rc_clone original rcs;
  let clone1 := original in
  rcs ← Rc_clone original rcs;
  let clone2 := original in
  _ ← check_eq (strong_count original rcs) 3;
  rcs ← Rc_drop rc_layout original rcs;
  _ ← check_eq (strong_count clone1 rcs) 2;
  rcs ← Rc_drop rc_layout clone2 rcs;
  _ ← Rc_drop rc_layout clone1 rcs;
  HRet tt.

Definition test_rc_drop : hprog unit :=
  '(rc, rcs) ← Rc_new rc_str_layout ∅;
  rcs ← Rc_clone rc rcs;
  let clone := rc in
  _ ← check_eq (strong_count clone rcs) 2;
  rcs ← Rc_drop rc_str_layout rc rcs;
  _ ← check_eq (strong_count clone rcs) 1;
  _ ← Rc_drop rc_str_layout clone rcs;
  HRet tt.

Definition test_box_vec_combo : hprog unit :=
  vec ← vec_of [1; 2; 3; 4; 5];
  boxed ← Box_new vec_layout;
  _ ← check_eq (v_len vec) 5;
  _ ← Vec_drop vec;
  Box_drop vec_layout boxed.

Definition test_multiple_allocations : hprog unit :=
  b1 ← Box_new i32_layout;
  b2 ← Box_new i32_layout;
  b3 ← Box_new i32_layout;
  v1 ← Box_new boxes_layout;
  _ ← Box_drop i32_layout b1;
  _ ← Box_drop i32_layout b2;
  _ ← Box_drop i32_layout b3;
  Box_drop boxes_layout v1.

Definition heap_tests : list (string * hprog unit) :=
  [ ("test_box_allocation", test_box_allocation);
    ("test_vec_allocation", test_vec_allocation);
    ("test_rc_single", test_rc_single);
    ("test_rc_clone", test_rc_clone);
    ("test_rc_drop", test_rc_drop);
    ("test_box_vec_combo", test_box_vec_combo);
    ("test_multiple_allocations", test_multiple_allocations) ]%string.

(** ** Each keeps the contract and gives its blocks back *)

Definition gives_back (m : hprog unit) : Prop := ∀ live, wp m (λ _ live', live' = live) live.

Ltac request k := split; [|done]; split; [done|]; split; [by apply (is_pow2_lit k)|done].

Lemma Rc_new_wp l rcs base (Q : Z * gmap Z RcCounts → gmap Z Layout → Prop) :
  request_ok l →
  (∀ p, base !! p = None → Q (p, <[p := mkCounts 1 1]> rcs) (<[p := l]> base)) →
  wp (Rc_new l rcs) Q base.
Proof. intros Hl HQ. apply wp_bind, Box_new_wp; [done|]. intros p Hp Hn. by apply HQ. Qed.

Lemma check_eq_wp {T} `{EqDecision T} (x y : T) live (Q : unit → gmap Z Layout → Prop) :
  x = y → Q tt live → wp (check_eq x y) Q live.
Proof. intros -> HQ. unfold check_eq. by rewrite bool_decide_eq_true_2. Qed.

Lemma strong_count_only p c : strong_count p {[p := c]} = rc_strong c.
Proof. unfold strong_count. by rewrite lookup_singleton_eq. Qed.

(** The counts of the only [Rc]: one more, one less, none. *)
Lemma only_clone_wp l p n live (Q : gmap Z RcCounts → gmap Z Layout → Prop) :
  live !! p = Some l → 16 <= l_size l → 0 <= n < u64_modulus - 1 →
  Q {[p := mkCounts (n + 1) 1]} live → wp (Rc_clone p {[p := mkCounts n 1]}) Q live.
Proof.
  intros Hl Hz Hn HQ. eapply Rc_clone_wp; [apply lookup_insert_eq|done|done|done|].
  unfold singletonM, map_singleton. by rewrite insert_insert_eq.
Qed.

Lemma only_drop_wp l p n live (Q : gmap Z RcCounts → gmap Z Layout → Prop) :
  live !! p = Some l → 16 <= l_size l → n ≠ 1 →
  Q {[p := mkCounts (n - 1) 1]} live → wp (Rc_drop l p {[p := mkCounts n 1]}) Q live.
Proof.
  intros Hl Hz Hn HQ. eapply Rc_drop_wp; [apply lookup_insert_eq|done|done|]. cbn [rc_strong rc_weak].
  rewrite (proj2 (Z.eqb_neq n 1) Hn). unfold singletonM, map_singleton. by rewrite insert_insert_eq.
Qed.

Lemma last_drop_wp l p base (Q : gmap Z RcCounts → gmap Z Layout → Prop) :
  base !! p = None → 16 <= l_size l → Q ∅ base → wp (Rc_drop l p {[p := mkCounts 1 1]}) Q (<[p := l]> base).
Proof.
  intros Hl Hz HQ. eapply Rc_drop_wp; [apply lookup_insert_eq..|done|]. split; [done|].
  unfold singletonM, map_singleton. by rewrite !delete_insert_id.
Qed.

Ltac rc_auto := repeat first
  [ apply wp_bind, check_eq_wp; [first [done | by rewrite strong_count_only]|]
  | apply wp_bind; eapply only_clone_wp; [apply lookup_insert_eq|done|done|]
  | apply wp_bind; eapply only_drop_wp; [apply lookup_insert_eq|done|lia|]
  | apply wp_bind; eapply last_drop_wp; [done|done|done] ].

Lemma rc_tests_give_back : gives_back test_rc_single ∧ gives_back test_rc_clone ∧ gives_back test_rc_drop.
Proof.
  split_and!; intros live; apply wp_bind, Rc_new_wp; [request 3| |request 3| |request 3|]; intros p Hn;
    change (<[p := mkCounts 1 1]> ∅) with ({[p := mkCounts 1 1]} : gmap Z RcCounts); rc_auto.
Qed.

Lemma box_test_gives_back : gives_back test_box_allocation.
Proof.
  intros live. apply wp_bind, Box_new_wp; [request 2|]. intros p Hp Hn.
  cbn. split; [apply lookup_insert_eq|]. by apply delete_insert_id.
Qed.

Lemma vec_test_gives_back : gives_back test_vec_allocation.
Proof.
  intros live. apply wp_bind, (push_all_wp _ _ live); [by split|done|]. intros v live1 Hv Hi.
  apply wp_bind, check_eq_wp; [unfold v_len; by rewrite Hi|].
  eapply Vec_drop_wp; [done|by rewrite Hi|done].
Qed.

Lemma combo_test_gives_back : gives_back test_box_vec_combo.
Proof.
  intros live. apply wp_bind, wp_bind, Box_new_wp; [request 2|]. intros p Hp Hn. cbn [wp].
  apply wp_bind, Box_new_wp; [request 3|]. intros b Hb Hnb. apply lookup_insert_None in Hnb as [Hnb Hne].
  apply wp_bind, check_eq_wp; [done|]. apply wp_bind. cbn [Vec_drop v_cap v_ptr length Z.of_nat Z.eqb wp].
  rewrite insert_insert_ne by done. split; [apply lookup_insert_eq|]. rewrite delete_insert_id by (by rewrite lookup_insert_ne).
  cbn. split; [apply lookup_insert_eq|]. by apply delete_insert_id.
Qed.

Lemma multiple_test_gives_back : gives_back test_multiple_allocations.
Proof.
  intros live. apply wp_bind, Box_new_wp; [request 2|]. intros p1 _ N1.
  apply wp_bind, Box_new_wp; [request 2|]. intros p2 _ N2. apply wp_bind, Box_new_wp; [request 2|]. intros p3 _ N3.
  apply wp_bind, Box_new_wp; [request 3|]. intros p4 _ N4.
  repeat match goal with H : <[_ := _]> _ !! _ = None |- _ => apply lookup_insert_None in H as [H ?] end.
  cbn [wp mbind hprog_bind Box_drop].
  split; [by simplify_map_eq|]. split; [by simplify_map_eq|]. split; [by simplify_map_eq|]. split; [by simplify_map_eq|].
  apply map_eq. intros i. destruct (decide (i = p1)), (decide (i = p2)), (decide (i = p3)), (decide (i = p4));
    subst; by simplify_map_eq.
Qed.

Lemma heap_tests_give_back : Forall (λ t, gives_back t.2) heap_tests.
Proof.
  pose proof rc_tests_give_back as (? & ? & ?). unfold heap_tests.
  repeat apply List.Forall_cons; auto using List.Forall_nil, box_test_gives_back, vec_test_gives_back, combo_test_gives_back, multiple_test_gives_back.
Qed.

(** On the heap as boot leaves it, the reference has room for each of them. *)
Lemma heap_tests_fit :
  Forall (λ t, ∃ u r, ref_run_prog t.2 (Fixed.ref_init HEAP_START HEAP_SIZE) = Ok (u, r)) heap_tests.
Proof. repeat apply List.Forall_cons; [(eexists _, _; vm_compute; reflexivity)..|apply List.Forall_nil]. Qed.

(** And for all of them in a row. *)
Fixpoint ref_run_all (tests : list (string * hprog unit)) (r : Fixed.fref) : option Fixed.fref :=
  match tests with
  | [] => Some r
  | t :: tests => match ref_run_prog t.2 r with Ok (_, r) => ref_run_all tests r | _ => None end
  end.

Lemma heap_tests_fit_in_a_row : ∃ r, ref_run_all heap_tests (Fixed.ref_init HEAP_START HEAP_SIZE) = Some r.
Proof. eexists. vm_compute. reflexivity. Qed.

(** The heap's integration tests hold on any heap.  Run on the kernel's
    allocator in any state its contract allows, with whatever blocks are out,
    each test of heap_allocation.rs passes all its assertions or runs out of
    memory; it never panics otherwise and never writes outside its blocks,
    and when it passes every block it took is back.  On the heap as boot
    leaves it, each does pass. *)
Lemma heap_tests_hold name test :
  (name, test) ∈ heap_tests →
  (∀ lo hi w live, Fixed.fixed_contract lo hi w live →
     fixed_run_prog test w = Panic OOM ∨
     ∃ w', fixed_run_prog test w = Ok (tt, w') ∧ Fixed.fixed_contract lo hi w' live) ∧
  (∀ w, Fixed.implements HEAP_START (HEAP_START + HEAP_SIZE) w ∅ (Fixed.ref_init HEAP_START HEAP_SIZE) →
     ∃ w', fixed_run_prog test w = Ok (tt, w') ∧ Fixed.fixed_contract HEAP_START (HEAP_START + HEAP_SIZE) w' ∅).
Proof.
  rewrite list_elem_of_In. intros Ht. assert (gives_back test) as Hg.
  { pose proof heap_tests_give_back as H. rewrite Forall_forall in H. exact (H (name, test) Ht). }
  split.
  - intros lo hi w live Hw.
    destruct (run_wp Fixed.alloc Fixed.dealloc Fixed.scribble (spec := Fixed.fixed_spec) lo hi _ _ w live Hw (Hg live))
      as [?|([] & w' & live' & Hr & Hi & ->)]; [by left|right]. exists w'. split; [exact Hr|exact Hi].
  - intros w Hw. pose proof (run_implements _ _ _ _ _ _ _ Hw (Hg ∅)) as H.
    pose proof heap_tests_fit as Hr. rewrite Forall_forall in Hr. destruct (Hr _ Ht) as (u & r & Hu).
    cbn [snd] in Hu. rewrite Hu in H.
    destruct u, H as (w' & live' & Hrun & Hi & ->). exists w'. split; [exact Hrun|]. by exists r.
Qed.
