(* ===== verification/FrameAlloc.v ===== *)
(** * The physical frame allocator

    src/src/memory.rs: [MonotonicFrameAllocator], its cursor and [next_frame].
    The bootloader's memory map and the frame type of the x86_64 crate are
    parameters: the class [PhysApi] names what the code calls, [PhysLaws]
    what their documentation promises.  The theorems say that the cursor
    walks the flattened sequence of usable frames, each frame once. *)

From Stdlib Require Import ZArith Lia.
From stdpp Require Import base list strings numbers sorting.
From S2P Require Import Prelude.

Open Scope Z_scope.

(** ** What memory.rs calls

    [region.range.start_addr()], [region.range.end_addr()],
    [region.region_type == Usable]; [PhysAddr::new], which panics when the
    address has bits above 51 set; [PhysFrame::containing_address] and
    [start_address]. *)
Class PhysApi := {
  MemoryRegion : Type;
  range_start_addr : MemoryRegion → Z;
  range_end_addr : MemoryRegion → Z;
  is_usable : MemoryRegion → bool;
  PhysAddr : Type;
  PhysFrame : Type;
  phys_addr_new : Z → outcome PhysAddr;
  containing_address : PhysAddr → PhysFrame;
  start_address : PhysFrame → Z;
}.

Definition phys_limit : Z := 2 ^ 52.

Class PhysLaws (api : PhysApi) := {
  phys_new_ok : ∀ a, 0 <= a < phys_limit → ∃ p, phys_addr_new a = Ok p ∧
    start_address (containing_address p) = a - a mod 4096;
}.

Section frames.
Context {api : PhysApi}.

Record FrameCursor := mkCursor { region : nat; offset : Z }.

Definition cursor_new : FrameCursor := mkCursor 0 0.

Record MonotonicFrameAllocator := mkFrames {
  memory_map : list MemoryRegion;
  cursor : FrameCursor;
}.

Definition init (memory_map : list MemoryRegion) : MonotonicFrameAllocator :=
  mkFrames memory_map cursor_new.

(** The inner [for] loop: the usable region with ordinal [region]. *)
Fixpoint select_region (regions : list MemoryRegion) (region usable_ordinal : nat)
  : option MemoryRegion :=
  match regions with
  | [] => None
  | candidate :: regions' =>
      if negb (is_usable candidate) then select_region regions' region usable_ordinal
      else if (usable_ordinal =? region)%nat then Some candidate
      else select_region regions' region (S usable_ordinal)
  end.

(** The outer [loop]; it returns the frame and the cursor it stored. *)
Fixpoint next_frame_loop (fuel : nat) (regions : list MemoryRegion) (region : nat) (offset : Z)
  : outcome (option (PhysFrame * FrameCursor)) :=
  match fuel with
  | O => Diverge
  | S fuel =>
      match select_region regions region 0 with
      | None => Ok None
      | Some current =>
          let start := range_start_addr current in
          let end_ := range_end_addr current in
          bytes ← sub_u64 end_ start;
          let frame_count := bytes / 4096 in
          if offset <? frame_count then
            o ← mul_u64 offset 4096;
            a ← add_u64 start o;
            phys ← phys_addr_new a;
            offset' ← add_u64 offset 1;
            Ok (Some (containing_address phys, mkCursor region offset'))
          else next_frame_loop fuel regions (S region) 0
      end
  end.

(** Every turn of the loop moves to the next region, so one turn per region
    and one that finds none are enough. *)
Definition next_frame (self : MonotonicFrameAllocator)
  : outcome (option PhysFrame * MonotonicFrameAllocator) :=
  r ← next_frame_loop (S (length (memory_map self))) (memory_map self)
        (region (cursor self)) (offset (cursor self));
  match r with
  | None => Ok (None, self)
  | Some (frame, cursor) => Ok (Some frame, mkFrames (memory_map self) cursor)
  end.

Definition allocate_frame := next_frame.

(** [n] calls of [allocate_frame], with what they returned. *)
Fixpoint allocate_frames (n : nat) (self : MonotonicFrameAllocator)
  : outcome (list (option PhysFrame) * MonotonicFrameAllocator) :=
  match n with
  | O => Ok ([], self)
  | S n =>
      '(f, self) ← allocate_frame self;
      '(fs, self) ← allocate_frames n self;
      Ok (f :: fs, self)
  end.

(** ** The reference: the flattened sequence of usable frames *)

Definition frame_count (r : MemoryRegion) : Z := (range_end_addr r - range_start_addr r) / 4096.

Definition region_frames (r : MemoryRegion) : list Z :=
  (λ i, range_start_addr r + Z.of_nat i * 4096) <$> seq 0 (Z.to_nat (frame_count r)).

Definition usable (m : list MemoryRegion) : list MemoryRegion :=
  filter (λ r, is_usable r = true) m.

Definition usable_frames (m : list MemoryRegion) : list Z := usable m ≫= region_frames.

(** The frames a cursor has still to hand out. *)
Definition remaining (m : list MemoryRegion) (c : FrameCursor) : list Z :=
  match drop (region c) (usable m) with
  | [] => []
  | r :: rs => drop (Z.to_nat (offset c)) (region_frames r) ++ (rs ≫= region_frames)
  end.

(** A region the bootloader may pass: page-aligned, in the physical address
    space, not reversed. *)
Definition region_ok (r : MemoryRegion) : Prop :=
  (4096 | range_start_addr r) ∧ 0 <= range_start_addr r <= range_end_addr r ∧
  range_end_addr r <= phys_limit.

Definition map_ok (m : list MemoryRegion) : Prop := Forall region_ok m.

Definition cursor_ok (c : FrameCursor) : Prop := 0 <= offset c <= phys_limit.

(** ** Lemmas *)

Lemma select_region_usable m r k :
  (k <= r)%nat → select_region m r k = usable m !! (r - k)%nat.
Proof.
  revert k. induction m as [|c m IH]; intros k Hk; cbn [select_region]; [done|].
  unfold usable. rewrite filter_cons. fold (usable m). destruct (is_usable c) eqn:Hc; cbn [negb].
  - rewrite decide_True by done. destruct (Nat.eqb_spec k r) as [->|Hne].
    + by rewrite Nat.sub_diag.
    + rewrite IH by lia. by replace (r - k)%nat with (S (r - S k)) by lia.
  - rewrite decide_False by done. by apply IH.
Qed.

Lemma drop_usable m n r : usable m !! n = Some r → drop n (usable m) = r :: drop (S n) (usable m).
Proof. apply drop_S. Qed.

Lemma region_frames_length r : length (region_frames r) = Z.to_nat (frame_count r).
Proof. unfold region_frames. by rewrite length_fmap, length_seq. Qed.

Lemma region_frames_lookup r i :
  0 <= i < frame_count r → region_frames r !! Z.to_nat i = Some (range_start_addr r + i * 4096).
Proof.
  intros Hi. unfold region_frames. rewrite list_lookup_fmap, lookup_seq_lt by lia.
  simpl. do 2 f_equal. lia.
Qed.

Lemma map_ok_lookup m n r : map_ok m → usable m !! n = Some r → region_ok r ∧ is_usable r = true.
Proof.
  intros Hm Hr. assert (r ∈ usable m) as Hin by (by eapply list_elem_of_lookup_2).
  apply list_elem_of_filter in Hin as [Hu Hin]. split; [|done].
  unfold map_ok in Hm. rewrite Forall_elem in Hm. auto.
Qed.

Lemma remaining_exhausted m n o r :
  usable m !! n = Some r → frame_count r <= o →
  remaining m (mkCursor n o) = remaining m (mkCursor (S n) 0).
Proof.
  intros Hr Ho. unfold remaining. simpl. rewrite (drop_usable m n r Hr).
  rewrite (drop_ge (region_frames r)) by (rewrite region_frames_length; lia).
  destruct (drop (S n) (usable m)); [done|]. by rewrite drop_0.
Qed.

Context {laws : PhysLaws api}.

Lemma take_frame r o :
  region_ok r → 0 <= o < frame_count r →
  ∃ f, (o' ← mul_u64 o 4096; a ← add_u64 (range_start_addr r) o'; phys ← phys_addr_new a;
        Ok (containing_address phys)) = Ok f ∧
    start_address f = range_start_addr r + o * 4096 ∧ o * 4096 < phys_limit.
Proof.
  intros ([q Hq] & Hse & Hlim) Ho. unfold frame_count in Ho.
  assert (o * 4096 + 4096 <= range_end_addr r - range_start_addr r) as Hb.
  { pose proof (Z.div_mod (range_end_addr r - range_start_addr r) 4096 ltac:(lia)) as Hd.
    pose proof (Z.mod_pos_bound (range_end_addr r - range_start_addr r) 4096). lia. }
  unfold phys_limit in *. rewrite mul_u64_ok by (unfold u64_modulus; lia). bstep.
  rewrite add_u64_ok by (unfold u64_modulus; lia). bstep.
  destruct (phys_new_ok (range_start_addr r + o * 4096)) as (p & -> & Hp); [unfold phys_limit; lia|].
  bstep. eexists. split_and!; [done| |lia]. rewrite Hp, Hq.
  replace (q * 4096 + o * 4096) with ((q + o) * 4096) by lia. rewrite Z_mod_mult. lia.
Qed.

(** The loop takes the head of [remaining], skipping exhausted regions. *)
Lemma next_frame_loop_spec fuel m n o :
  map_ok m → cursor_ok (mkCursor n o) → (length (usable m) - n < fuel)%nat →
  match remaining m (mkCursor n o) with
  | [] => next_frame_loop fuel m n o = Ok None
  | a :: rest => ∃ f c, next_frame_loop fuel m n o = Ok (Some (f, c)) ∧
      start_address f = a ∧ cursor_ok c ∧ remaining m c = rest
  end.
Proof.
  intros Hm. revert n o. induction fuel as [|fuel IH]; intros n o Ho Hf; [lia|].
  cbn [next_frame_loop]. rewrite select_region_usable, Nat.sub_0_r by lia.
  destruct (usable m !! n) as [r|] eqn:Hr.
  2:{ apply lookup_ge_None in Hr. unfold remaining. simpl. by rewrite drop_ge. }
  destruct (map_ok_lookup m n r Hm Hr) as [Hok _]. pose proof Hok as (_ & Hse & Hlim).
  rewrite sub_u64_ok by lia. bstep. fold (frame_count r).
  zcase (o <? frame_count r).
  - destruct (take_frame r o Hok) as (f & Hf' & Hs & Hb); [unfold cursor_ok in Ho; simpl in Ho; lia|].
    assert (remaining m (mkCursor n o)
      = range_start_addr r + o * 4096 :: remaining m (mkCursor n (o + 1))) as ->.
    { unfold remaining. simpl. rewrite (drop_usable m n r Hr).
      unfold cursor_ok in Ho. simpl in Ho.
      rewrite (drop_S _ _ _ (region_frames_lookup r o ltac:(lia))).
      by replace (Z.to_nat (o + 1)) with (S (Z.to_nat o)) by lia. }
    exists f, (mkCursor n (o + 1)).
    apply bind_inv in Hf' as (o' & -> & Hf'). apply bind_inv in Hf' as (a & Ha & Hf').
    apply bind_inv in Hf' as (p & Hp & Hf'). bstep. rewrite Ha. bstep. rewrite Hp. bstep.
    injection Hf' as ->. unfold cursor_ok, phys_limit in *. simpl in *.
    rewrite add_u64_ok by (unfold u64_modulus; lia). bstep. split_and!; done || lia.
  - rewrite (remaining_exhausted m n o r Hr) by lia. apply IH.
    + unfold cursor_ok, phys_limit. simpl. lia.
    + apply lookup_lt_Some in Hr. lia.
Qed.

Lemma next_frame_spec m c :
  map_ok m → cursor_ok c →
  match remaining m c with
  | [] => next_frame (mkFrames m c) = Ok (None, mkFrames m c)
  | a :: rest => ∃ f c', next_frame (mkFrames m c) = Ok (Some f, mkFrames m c') ∧
      start_address f = a ∧ cursor_ok c' ∧ remaining m c' = rest
  end.
Proof.
  intros Hm Hc. destruct c as [n o]. unfold next_frame. cbn [memory_map cursor region offset].
  pose proof (next_frame_loop_spec (S (length m)) m n o Hm Hc) as H.
  assert (length (usable m) <= length m)%nat by apply length_filter.
  specialize (H ltac:(lia)). destruct (remaining m (mkCursor n o)).
  - by rewrite H.
  - destruct H as (f & c & -> & ?). bstep. eauto.
Qed.

Lemma remaining_new m : remaining m cursor_new = usable_frames m.
Proof.
  unfold remaining, usable_frames. simpl. rewrite drop_0. destruct (usable m); [done|].
  by rewrite drop_0.
Qed.

Lemma allocate_frames_spec n m c :
  map_ok m → cursor_ok c →
  ∃ fs c', allocate_frames n (mkFrames m c) = Ok (fs, mkFrames m c') ∧
    (option_map start_address) <$> fs
      = (Some <$> take n (remaining m c)) ++ replicate (n - length (remaining m c)) None ∧
    remaining m c' = drop n (remaining m c) ∧ cursor_ok c'.
Proof.
  intros Hm. revert c. induction n as [|n IH]; intros c Hc.
  { exists [], c. rewrite take_0, drop_0. done. }
  cbn [allocate_frames]. unfold allocate_frame. pose proof (next_frame_spec m c Hm Hc) as H.
  destruct (remaining m c) as [|a rest] eqn:Hr.
  - rewrite H. bstep. destruct (IH c Hc) as (fs & c' & -> & Hfs & Hr' & Hc').
    bstep. exists (None :: fs), c'. split_and!; [done| | |done].
    + rewrite Hr in Hfs. rewrite fmap_cons, Hfs, take_nil. simpl. by rewrite Nat.sub_0_r.
    + by rewrite Hr', Hr, !drop_nil.
  - destruct H as (f & c1 & -> & Ha & Hc1 & Hr1). bstep.
    destruct (IH c1 Hc1) as (fs & c' & -> & Hfs & Hr' & Hc'). bstep.
    exists (Some f :: fs), c'. rewrite Hr1 in *. split_and!; [done| |done|done].
    rewrite fmap_cons, Hfs. simpl. by rewrite Ha.
Qed.

End frames.

(** ** Theorems *)

(** The memory map is sorted: every region ends before the next starts. *)
Definition map_sorted {api : PhysApi} (m : list MemoryRegion) : Prop :=
  StronglySorted (λ r s, range_end_addr r <= range_start_addr s) m.

Lemma region_frames_bounds {api : PhysApi} r a :
  region_ok r → a ∈ region_frames r →
  range_start_addr r <= a ∧ a + 4096 <= range_end_addr r ∧ (4096 | a).
Proof.
  intros ([q Hq] & Hse & _) Ha. unfold region_frames in Ha.
  apply list_elem_of_fmap in Ha as (i & -> & Hi). apply elem_of_seq in Hi.
  unfold frame_count in Hi. split_and!; [lia| |].
  - pose proof (Z.div_mod (range_end_addr r - range_start_addr r) 4096 ltac:(lia)).
    pose proof (Z.mod_pos_bound (range_end_addr r - range_start_addr r) 4096). lia.
  - exists (q + Z.of_nat i). lia.
Qed.

Lemma StronglySorted_fmap_seq (f : nat → Z) n k :
  (∀ i j, (i < j)%nat → f i < f j) → StronglySorted Z.lt (f <$> seq n k).
Proof.
  intros Hf. revert n. induction k as [|k IH]; intros n; simpl; constructor; [apply IH|].
  apply Forall_elem. intros x Hx. apply list_elem_of_fmap in Hx as (i & -> & Hi). apply elem_of_seq in Hi. apply Hf. lia.
Qed.

Lemma usable_frames_cons {api : PhysApi} r m :
  usable_frames (r :: m)
    = (if is_usable r then region_frames r else []) ++ usable_frames m.
Proof.
  unfold usable_frames, usable. rewrite filter_cons.
  destruct (is_usable r); [by rewrite decide_True by done|by rewrite decide_False by done].
Qed.

Lemma usable_frames_in {api : PhysApi} m a :
  a ∈ usable_frames m → ∃ r, r ∈ m ∧ is_usable r = true ∧ a ∈ region_frames r.
Proof.
  unfold usable_frames, usable. intros (r & Ha & Hr)%list_elem_of_bind.
  apply list_elem_of_filter in Hr as [??]. eauto.
Qed.

Lemma usable_frames_sorted {api : PhysApi} m :
  map_ok m → map_sorted m → StronglySorted Z.lt (usable_frames m).
Proof.
  induction m as [|r m IH]; intros Hm Hs; [constructor|].
  apply Forall_cons in Hm as [Hr Hm]. inversion_clear Hs as [|? ? Hs' Hall].
  rewrite usable_frames_cons. destruct (is_usable r); simpl; [|by apply IH].
  apply StronglySorted_app_2; [|by apply StronglySorted_fmap_seq; intros; lia|by apply IH].
  intros a b Ha Hb. apply usable_frames_in in Hb as (s & Hin & _ & Hb).
  destruct (region_frames_bounds r a Hr Ha) as (_ & ? & _).
  rewrite Forall_elem in Hm, Hall. destruct (region_frames_bounds s b (Hm s Hin) Hb). specialize (Hall s Hin). simpl in Hall. lia.
Qed.

Lemma omap_replicate_None {A B} (f : A → B) (fs : list (option A)) l n :
  (option_map f) <$> fs = (Some <$> l) ++ replicate n None → f <$> omap id fs = l.
Proof.
  revert l n. induction fs as [|x fs IH]; intros l n H.
  - symmetry in H. apply app_eq_nil in H as [H _]. by destruct l.
  - destruct l as [|b l]; [destruct n as [|n]; [done|]|]; injection H as Hx H;
      destruct x; simplify_eq/=.
    + by apply (IH [] n).
    + f_equal. by apply (IH l n).
Qed.

(** C27: [n] allocations from a fresh allocator return the first [n] frames of
    the flattened sequence of usable frames, and [None] for every request past
    its end: the cursor neither skips nor repeats a frame, and an exhausted
    allocator stays exhausted. *)
Theorem frames_in_sequence {api : PhysApi} {laws : PhysLaws api} m n :
  map_ok m →
  ∃ fs self, allocate_frames n (init m) = Ok (fs, self) ∧
    (option_map start_address) <$> fs
      = (Some <$> take n (usable_frames m)) ++ replicate (n - length (usable_frames m)) None.
Proof.
  intros Hm. destruct (allocate_frames_spec n m cursor_new Hm) as (fs & c & H1 & H2 & _).
  { unfold cursor_ok, phys_limit. simpl. lia. }
  rewrite remaining_new in H2. eauto.
Qed.

(** C40: when the memory map is sorted, frames are handed out in strictly
    ascending address order, so none twice, and each is a page-aligned frame
    that lies entirely in a usable region. *)
Theorem frames_ascending {api : PhysApi} {laws : PhysLaws api} m n :
  map_ok m → map_sorted m →
  ∃ fs self, allocate_frames n (init m) = Ok (fs, self) ∧
    let addrs := start_address <$> omap id fs in
    StronglySorted Z.lt addrs ∧
    (∀ a, a ∈ addrs → ∃ r, r ∈ m ∧ is_usable r = true ∧
       range_start_addr r <= a ∧ a + 4096 <= range_end_addr r ∧ (4096 | a)).
Proof.
  intros Hm Hs. destruct (allocate_frames_spec n m cursor_new Hm) as (fs & c & H1 & H2 & _).
  { unfold cursor_ok, phys_limit. simpl. lia. }
  exists fs, (mkFrames m c). split; [done|]. cbv zeta.
  assert (start_address <$> omap id fs = take n (usable_frames m)) as ->.
  { rewrite remaining_new in H2. apply omap_replicate_None in H2. done. }
  split.
  - apply (StronglySorted_app_1_l _ _ (drop n (usable_frames m))).
    rewrite take_drop. by apply usable_frames_sorted.
  - intros a Ha. assert (a ∈ usable_frames m) as Ha'
      by (rewrite <- (take_drop n (usable_frames m)); apply elem_of_app; by left).
    apply usable_frames_in in Ha' as (r & Hr & Hu & Ha').
    exists r. split; [done|]. split; [done|]. apply region_frames_bounds; [|done].
    unfold map_ok in Hm. rewrite Forall_elem in Hm. auto.
Qed.

(** *** A concrete memory map: two usable regions around a reserved one *)

Definition demo_api : PhysApi := {|
  MemoryRegion := Z * Z * bool;
  range_start_addr := λ r, r.1.1;
  range_end_addr := λ r, r.1.2;
  is_usable := λ r, r.2;
  PhysAddr := Z;
  PhysFrame := Z;
  phys_addr_new := λ a, if a <? phys_limit then Ok a else Panic "physical addresses must not have any bits in the range 52 to 64 set";
  containing_address := λ a, a - a mod 4096;
  start_address := λ f, f;
|}.

Lemma demo_laws : PhysLaws demo_api.
Proof.
  split. intros a [H1 H2]. exists a. simpl. rewrite (proj2 (Z.ltb_lt _ _) H2). done.
Qed.

Definition demo_map : list (@MemoryRegion demo_api) :=
  [(4096, 12288, true); (12288, 16384, false); (16384, 20480, true)].

Lemma demo_map_ok : map_ok (api := demo_api) demo_map.
Proof.
  repeat constructor; simpl; unfold phys_limit; try lia; [by exists 1|by exists 3|by exists 4].
Qed.

Lemma frames_in_sequence_witness :
  ∃ fs self, allocate_frames (api := demo_api) 4 (init demo_map) = Ok (fs, self) ∧
    (option_map (@start_address demo_api)) <$> fs = [Some 4096; Some 8192; Some 16384; None].
Proof. apply (frames_in_sequence (api := demo_api) (laws := demo_laws) demo_map 4 demo_map_ok). Defined.

Lemma frames_ascending_witness :
  ∃ fs self, allocate_frames (api := demo_api) 4 (init demo_map) = Ok (fs, self) ∧
    let addrs := @start_address demo_api <$> omap id fs in
    StronglySorted Z.lt addrs ∧
    (∀ a, a ∈ addrs → ∃ r, r ∈ demo_map ∧ is_usable r = true ∧
       range_start_addr r <= a ∧ a + 4096 <= range_end_addr r ∧ (4096 | a)).
Proof.
  apply (frames_ascending (api := demo_api) (laws := demo_laws) demo_map 4 demo_map_ok).
  repeat constructor; simpl; lia.
Defined.
