(* ===== verification/Scheduler.v ===== *)
(** * Runtime counters

    src/src/scheduler.rs: the timer-tick counter and the live counts.  Every
    field is an atomic integer, so [fetch_add] and [fetch_sub] wrap around;
    the [+ 1] in [tick] is ordinary arithmetic and is overflow-checked. *)

From Stdlib Require Import ZArith Lia.
From stdpp Require Import base list strings numbers.
From S2P Require Import Prelude.

Open Scope Z_scope.

Definition TICK_LOG_INTERVAL : Z := 200.

Record Scheduler := mkSched {
  tick_count : Z;
  threads_alive : Z;
  threads_spawned : Z;
  tasks_alive : Z;
  tasks_spawned : Z;
  tasks_completed : Z;
  processes_alive : Z;
  processes_spawned : Z;
}.

Definition sched_new : Scheduler := mkSched 0 0 0 0 0 0 0 0.

(** The arguments of the heartbeat line of [tick]. *)
Record heartbeat := mkBeat { hb_ticks : Z; hb_threads : Z; hb_tasks : Z }.

Definition set_ticks (n : Z) (s : Scheduler) : Scheduler :=
  mkSched n (threads_alive s) (threads_spawned s) (tasks_alive s) (tasks_spawned s)
    (tasks_completed s) (processes_alive s) (processes_spawned s).

Definition tick (s : Scheduler) : outcome (option heartbeat * Scheduler) :=
  let old := tick_count s in
  let s := set_ticks (wrapping_add old 1) s in
  ticks ← add_u64 old 1;
  Ok (if ticks mod TICK_LOG_INTERVAL =? 0
      then Some (mkBeat ticks (threads_alive s) (tasks_alive s)) else None, s).

Definition ticks (s : Scheduler) : Z := tick_count s.

Definition note_thread_spawned (s : Scheduler) : Scheduler :=
  mkSched (tick_count s) (wrapping_add (threads_alive s) 1) (wrapping_add (threads_spawned s) 1)
    (tasks_alive s) (tasks_spawned s) (tasks_completed s) (processes_alive s) (processes_spawned s).

Definition note_thread_exited (s : Scheduler) : Scheduler :=
  mkSched (tick_count s) (wrapping_sub (threads_alive s) 1) (threads_spawned s)
    (tasks_alive s) (tasks_spawned s) (tasks_completed s) (processes_alive s) (processes_spawned s).

Definition note_task_spawned (s : Scheduler) : Scheduler :=
  mkSched (tick_count s) (threads_alive s) (threads_spawned s)
    (wrapping_add (tasks_alive s) 1) (wrapping_add (tasks_spawned s) 1) (tasks_completed s)
    (processes_alive s) (processes_spawned s).

Definition note_task_completed (s : Scheduler) : Scheduler :=
  mkSched (tick_count s) (threads_alive s) (threads_spawned s)
    (wrapping_sub (tasks_alive s) 1) (tasks_spawned s) (wrapping_add (tasks_completed s) 1)
    (processes_alive s) (processes_spawned s).

Definition note_process_spawned (s : Scheduler) : Scheduler :=
  mkSched (tick_count s) (threads_alive s) (threads_spawned s)
    (tasks_alive s) (tasks_spawned s) (tasks_completed s)
    (wrapping_add (processes_alive s) 1) (wrapping_add (processes_spawned s) 1).

Definition note_process_exited (s : Scheduler) : Scheduler :=
  mkSched (tick_count s) (threads_alive s) (threads_spawned s)
    (tasks_alive s) (tasks_spawned s) (tasks_completed s)
    (wrapping_sub (processes_alive s) 1) (processes_spawned s).

(** [n] timer interrupts, with the heartbeats they logged. *)
Fixpoint tick_n (n : nat) (s : Scheduler) : outcome (list heartbeat * Scheduler) :=
  match n with
  | O => Ok ([], s)
  | S n =>
      '(b, s) ← tick s;
      '(bs, s) ← tick_n n s;
      Ok (match b with Some b => b :: bs | None => bs end, s)
  end.

(** ** Lemmas *)

Lemma wrapping_succ_pred a : 0 <= a < u64_modulus → wrapping_sub (wrapping_add a 1) 1 = a.
Proof.
  intros Ha. unfold wrapping_sub, wrapping_add. rewrite Zminus_mod_idemp_l.
  replace (a + 1 - 1) with a by lia. by apply Z.mod_small.
Qed.

Lemma tick_n_spec n s :
  0 <= tick_count s → tick_count s + Z.of_nat n < u64_modulus →
  ∃ bs, tick_n n s = Ok (bs, set_ticks (tick_count s + Z.of_nat n) s) ∧
    Z.of_nat (length bs)
      = (tick_count s + Z.of_nat n) / TICK_LOG_INTERVAL - tick_count s / TICK_LOG_INTERVAL.
Proof.
  revert s. induction n as [|n IH]; intros s H1 H2.
  { exists []. rewrite Z.add_0_r, Z.sub_diag. destruct s. done. }
  cbn [tick_n]. unfold tick. rewrite add_u64_ok by lia. bstep.
  rewrite wrapping_add_ok by lia.
  destruct (IH (set_ticks (tick_count s + 1) s)) as (bs & -> & Hl); [cbn [set_ticks tick_count]; lia..|].
  bstep. cbn [set_ticks tick_count] in *.
  replace (tick_count s + 1 + Z.of_nat n) with (tick_count s + Z.of_nat (S n)) in * by lia.
  eexists. split; [done|].
  assert ((tick_count s + 1) / TICK_LOG_INTERVAL = tick_count s / TICK_LOG_INTERVAL +
    (if (tick_count s + 1) mod TICK_LOG_INTERVAL =? 0 then 1 else 0)) as Hdiv.
  { unfold TICK_LOG_INTERVAL. zcase ((tick_count s + 1) mod 200 =? 0);
      pose proof (Z.div_mod (tick_count s + 1) 200 ltac:(lia));
      pose proof (Z.div_mod (tick_count s) 200 ltac:(lia));
      pose proof (Z.mod_pos_bound (tick_count s) 200 ltac:(lia));
      pose proof (Z.mod_pos_bound (tick_count s + 1) 200 ltac:(lia)); lia. }
  destruct (_ =? 0); cbn [length]; lia.
Qed.

(** the timer counts every interrupt and logs a heartbeat exactly every
    200 ticks: after [n] ticks from boot the counter is [n], [n / 200]
    heartbeats were logged, and no other counter moved. *)
Theorem tick_counts n :
  Z.of_nat n < u64_modulus →
  ∃ bs, tick_n n sched_new = Ok (bs, set_ticks (Z.of_nat n) sched_new) ∧
    Z.of_nat (length bs) = Z.of_nat n / TICK_LOG_INTERVAL.
Proof.
  intros Hn. destruct (tick_n_spec n sched_new) as (bs & H1 & H2); [done|done|].
  exists bs. split; [done|]. rewrite H2. simpl tick_count.
  change (0 / TICK_LOG_INTERVAL) with 0. rewrite Z.add_0_l. lia.
Qed.

Lemma tick_counts_witness :
  ∃ bs, tick_n 450 sched_new = Ok (bs, set_ticks 450 sched_new) ∧
    Z.of_nat (length bs) = 450 / TICK_LOG_INTERVAL.
Proof. apply (tick_counts 450). reflexivity. Defined.
