(* ===== verification/Machine.v ===== *)
(** * The x86-64 instructions of the kernel's assembly

    The naked functions of the kernel use a handful of instructions: [push],
    [pop], [mov], [ret], [iretq].  This file gives them a semantics on
    registers and a memory of aligned 64-bit words, translates
    [switch_context] of src/src/thread.rs, [syscall_isr] of src/src/syscall.rs
    and the [iretq] block of [enter_userland] in src/src/userland.rs as lists
    of instructions, and proves what running them does. *)

From Stdlib Require Import ZArith Lia.
From stdpp Require Import base gmap list strings numbers functions.
From S2P Require Import Prelude.

Open Scope Z_scope.

Inductive reg :=
| RAX | RCX | RDX | RBX | RSP | RBP | RSI | RDI
| R8 | R9 | R10 | R11 | R12 | R13 | R14 | R15.

#[global] Instance reg_eq_dec : EqDecision reg.
Proof. solve_decision. Defined.

(** [rip] is the address control goes to after the last [ret] or [iretq]; the
    addresses of the straight-line instructions in between do not matter. *)
Record machine := mkMachine {
  regs : reg → Z;
  rip : Z;
  cs : Z;
  rflags : Z;
  ss : Z;
  mem : gmap Z Z;
}.

Inductive instr :=
| Push (r : reg)            (* push r *)
| PushImm (v : Z)           (* push imm *)
| Pop (r : reg)             (* pop r *)
| Mov (d s : reg)           (* mov d, s *)
| Store (b s : reg)         (* mov [b], s *)
| Load (d b : reg)          (* mov d, [b] *)
| Ret
| Iretq.

#[global] Instance instr_eq_dec : EqDecision instr.
Proof. solve_decision. Defined.

Definition set_reg (r : reg) (v : Z) (m : machine) : machine :=
  mkMachine (<[r := v]> (regs m)) (rip m) (cs m) (rflags m) (ss m) (mem m).

Definition set_mem (w : gmap Z Z) (m : machine) : machine :=
  mkMachine (regs m) (rip m) (cs m) (rflags m) (ss m) w.

Definition set_rip (a : Z) (m : machine) : machine :=
  mkMachine (regs m) a (cs m) (rflags m) (ss m) (mem m).

(** Only aligned words are modelled; everything else is [Undef]. *)
Definition load (a : Z) (m : machine) : outcome Z :=
  if a mod 8 =? 0 then
    match mem m !! a with Some v => Ok v | None => Undef end
  else Undef.

Definition store (a v : Z) (m : machine) : outcome machine :=
  if a mod 8 =? 0 then Ok (set_mem (<[a := v]> (mem m)) m) else Undef.

Definition push (v : Z) (m : machine) : outcome machine :=
  let sp := wrapping_sub (regs m RSP) 8 in
  store sp v (set_reg RSP sp m).

Definition pop (m : machine) : outcome (Z * machine) :=
  let sp := regs m RSP in
  v ← load sp m;
  Ok (v, set_reg RSP (wrapping_add sp 8) m).

Definition exec (i : instr) (m : machine) : outcome machine :=
  match i with
  | Push r => push (regs m r) m
  | PushImm v => push v m
  | Pop r => '(v, m) ← pop m; Ok (set_reg r v m)
  | Mov d s => Ok (set_reg d (regs m s) m)
  | Store b s => store (regs m b) (regs m s) m
  | Load d b => v ← load (regs m b) m; Ok (set_reg d v m)
  | Ret => '(v, m) ← pop m; Ok (set_rip v m)
  | Iretq =>
      '(a, m) ← pop m;
      '(c, m) ← pop m;
      '(f, m) ← pop m;
      '(sp, m) ← pop m;
      '(s, m) ← pop m;
      Ok (mkMachine (<[RSP := sp]> (regs m)) a c f s (mem m))
  end.

Fixpoint run (code : list instr) (m : machine) : outcome machine :=
  match code with
  | [] => Ok m
  | i :: code => m ← exec i m; run code m
  end.

Lemma run_app c1 c2 m : run (c1 ++ c2) m = (m ← run c1 m; run c2 m).
Proof.
  revert m. induction c1 as [|i c1 IH]; intros m; [done|].
  cbn [run app]. destruct (exec i m); bstep; [apply IH|done..].
Qed.

(** ** The naked functions *)

Definition switch_context : list instr :=
  [ Push RBP; Push RBX; Push R12; Push R13; Push R14; Push R15;
    Store RDI RSP;
    Load RSP RSI;
    Pop R15; Pop R14; Pop R13; Pop R12; Pop RBX; Pop RBP;
    Ret ].

Definition isr_saved : list reg :=
  [RAX; RCX; RDX; RBX; RBP; RSI; RDI; R8; R9; R10; R11; R12; R13; R14; R15].

Definition isr_entry : list instr :=
  [ Push RAX; Push RCX; Push RDX; Push RBX; Push RBP; Push RSI; Push RDI;
    Push R8; Push R9; Push R10; Push R11; Push R12; Push R13; Push R14; Push R15;
    Mov RDI RSP ].

Definition isr_exit : list instr :=
  [ Pop R15; Pop R14; Pop R13; Pop R12; Pop R11; Pop R10; Pop R9; Pop R8;
    Pop RDI; Pop RSI; Pop RBP; Pop RBX; Pop RDX; Pop RCX; Pop RAX;
    Iretq ].

(** [call f]: the return address is pushed, the callee runs, and its [ret]
    has popped the address again when it comes back. *)
Definition call (ret_addr : Z) (f : machine → outcome machine) (m : machine) : outcome machine :=
  m ← push ret_addr m;
  f m.

Definition syscall_isr (ret_addr : Z) (dispatch : machine → outcome machine) (m : machine)
  : outcome machine :=
  m ← run isr_entry m;
  m ← call ret_addr dispatch m;
  run isr_exit m.

(** The [asm!] block of [enter_userland]; the operands are in registers the
    compiler chose. *)
Definition enter_userland (r_ss r_rsp r_cs r_rip : reg) : list instr :=
  [ Push r_ss; Push r_rsp; PushImm 0x202; Push r_cs; Push r_rip; Iretq ].

(** ** Words and aligned addresses *)

Lemma aligned_mod a : (8 | a) → (a mod 8 =? 0) = true.
Proof. intros H. apply Z.eqb_eq. by apply Z.mod_divide. Qed.

Lemma push_ok v m :
  (8 | regs m RSP) → 8 <= regs m RSP < u64_modulus →
  push v m = Ok (set_mem (<[regs m RSP - 8 := v]> (mem m)) (set_reg RSP (regs m RSP - 8) m)).
Proof.
  intros Ha Hb. unfold push, store. rewrite wrapping_sub_ok by (unfold u64_modulus in *; lia).
  rewrite aligned_mod; [done|]. apply Z.divide_sub_r; [done|]. by exists 1.
Qed.

Lemma pop_ok v m :
  (8 | regs m RSP) → 0 <= regs m RSP → regs m RSP + 8 < u64_modulus →
  mem m !! regs m RSP = Some v →
  pop m = Ok (v, set_reg RSP (regs m RSP + 8) m).
Proof.
  intros Ha Hb Hc Hv. unfold pop, load. rewrite aligned_mod by done. rewrite Hv. bstep.
  by rewrite wrapping_add_ok by lia.
Qed.

(** ** Runs of pushes and pops *)

Fixpoint push_words (sp : Z) (vs : list Z) (w : gmap Z Z) : gmap Z Z :=
  match vs with
  | [] => w
  | v :: vs => push_words (sp - 8) vs (<[sp - 8 := v]> w)
  end.

Fixpoint words_at (w : gmap Z Z) (a : Z) (vs : list Z) : Prop :=
  match vs with
  | [] => True
  | v :: vs => w !! a = Some v ∧ words_at w (a + 8) vs
  end.

Definition len8 {A} (l : list A) : Z := 8 * Z.of_nat (length l).

Lemma push_words_other sp vs w a :
  a < sp - len8 vs ∨ sp <= a → push_words sp vs w !! a = w !! a.
Proof.
  revert sp w. unfold len8. induction vs as [|v vs IH]; intros sp w Ha; [done|].
  cbn [push_words length] in *. rewrite IH by lia. apply lookup_insert_ne. lia.
Qed.

Lemma words_at_app w a vs vs' :
  words_at w a (vs ++ vs') ↔ words_at w a vs ∧ words_at w (a + len8 vs) vs'.
Proof.
  revert a. unfold len8. induction vs as [|v vs IH]; intros a.
  - cbn [words_at app length]. rewrite Z.add_0_r. tauto.
  - cbn [words_at app length]. rewrite IH.
    replace (a + 8 + 8 * Z.of_nat (length vs)) with (a + 8 * Z.of_nat (S (length vs))) by lia. tauto.
Qed.

Lemma words_at_same w w' a vs :
  (∀ k, a <= k < a + len8 vs → w' !! k = w !! k) → words_at w a vs → words_at w' a vs.
Proof.
  revert a. unfold len8. induction vs as [|v vs IH]; intros a Hw; [done|].
  cbn [words_at length] in *. intros [H1 H2]. split; [rewrite Hw by lia; done|].
  apply IH; [intros; apply Hw; lia|done].
Qed.

(** The last value pushed is at the lowest address. *)
Lemma push_words_at sp vs w : words_at (push_words sp vs w) (sp - len8 vs) (reverse vs).
Proof.
  revert sp w. induction vs as [|v vs IH]; intros sp w; [done|].
  cbn [push_words]. rewrite reverse_cons, words_at_app. split.
  - replace (sp - len8 (v :: vs)) with (sp - 8 - len8 vs) by (unfold len8; simpl; lia). apply IH.
  - cbn [words_at]. split; [|done].
    replace (sp - len8 (v :: vs) + len8 (reverse vs)) with (sp - 8)
      by (unfold len8; rewrite length_reverse; simpl; lia).
    rewrite push_words_other by lia. apply lookup_insert_eq.
Qed.

(** The parts of the machine that pushes and pops leave alone. *)
Definition same_control (m m' : machine) : Prop :=
  rip m' = rip m ∧ cs m' = cs m ∧ rflags m' = rflags m ∧ ss m' = ss m.

Lemma run_pushes rs m :
  RSP ∉ rs → (8 | regs m RSP) → len8 rs <= regs m RSP < u64_modulus →
  ∃ m', run (Push <$> rs) m = Ok m' ∧
    mem m' = push_words (regs m RSP) (regs m <$> rs) (mem m) ∧
    regs m' RSP = regs m RSP - len8 rs ∧ (∀ r, r ≠ RSP → regs m' r = regs m r) ∧
    same_control m m'.
Proof.
  revert m. unfold len8. induction rs as [|r rs IH]; intros m Hrs Ha Hb.
  { exists m. cbn [fmap list_fmap run length]. repeat split; try done. lia. }
  apply not_elem_of_cons in Hrs as [Hr Hrs]. cbn [length] in Hb.
  cbn [fmap list_fmap run exec]. rewrite push_ok by (done || lia). bstep.
  set (m1 := set_mem _ _).
  assert (regs m1 RSP = regs m RSP - 8) as H1 by apply fn_lookup_insert.
  assert (∀ r, r ≠ RSP → regs m1 r = regs m r) as H2
    by (intros; by apply fn_lookup_insert_ne).
  destruct (IH m1) as (m' & Hrun & Hm & Hsp & Hreg & Hc); [done| |lia|].
  { rewrite H1. apply Z.divide_sub_r; [done|]. by exists 1. }
  exists m'. split_and!; [done| | | |done].
  - rewrite Hm, H1. cbn [push_words length]. f_equal. apply list_fmap_ext. intros i q Hq.
    apply H2. intros ->. apply Hrs. by eapply list_elem_of_lookup_2.
  - cbn [length]. lia.
  - intros q Hq. by rewrite Hreg, H2.
Qed.

Lemma run_pops rs vs m :
  RSP ∉ rs → NoDup rs → length vs = length rs → words_at (mem m) (regs m RSP) vs →
  (8 | regs m RSP) → 0 <= regs m RSP → regs m RSP + len8 rs < u64_modulus →
  ∃ m', run (Pop <$> rs) m = Ok m' ∧
    mem m' = mem m ∧ regs m' RSP = regs m RSP + len8 rs ∧
    regs m' <$> rs = vs ∧ (∀ r, r ≠ RSP → r ∉ rs → regs m' r = regs m r) ∧
    same_control m m'.
Proof.
  revert vs m. unfold len8. induction rs as [|r rs IH]; intros vs m Hrs Hnd Hl Hw Ha Hb Hc.
  { destruct vs; [|done]. exists m. cbn [fmap list_fmap run length]. repeat split; try done. lia. }
  destruct vs as [|v vs]; [done|]. apply not_elem_of_cons in Hrs as [Hr Hrs].
  inversion_clear Hnd as [|? ? Hnin Hnd']. cbn [length] in *. destruct Hw as [Hv Hw].
  cbn [fmap list_fmap run exec]. rewrite (pop_ok v) by (done || lia). bstep.
  set (m1 := set_reg r v _).
  assert (regs m1 RSP = regs m RSP + 8) as H1.
  { unfold m1. simpl. rewrite fn_lookup_insert_ne by done. apply fn_lookup_insert. }
  assert (regs m1 r = v) as H2 by apply fn_lookup_insert.
  assert (∀ q, q ≠ RSP → q ≠ r → regs m1 q = regs m q) as H3.
  { intros. unfold m1. simpl. by rewrite !fn_lookup_insert_ne. }
  destruct (IH vs m1) as (m' & Hrun & Hm & Hsp & Hvs & Hreg & Hcc); [done|done|lia| | |lia|lia|].
  { by rewrite H1. }
  { rewrite H1. apply Z.divide_add_r; [done|]. by exists 1. }
  exists m'. split_and!; [done|done|lia| | |done].
  - cbn [fmap list_fmap]. f_equal; [|done]. by rewrite Hreg.
  - intros q Hq Hqs. apply not_elem_of_cons in Hqs as [Hqr Hqs]. rewrite Hreg by done. auto.
Qed.

(** ** [switch_context] *)

(** The callee-saved registers, in the order they are popped. *)
Definition callee_regs : list reg := [R15; R14; R13; R12; RBX; RBP].

Definition callee (m : machine) : list Z := regs m <$> callee_regs.

(** A context saved by [switch_context], or set up by [KernelThread::new]: the
    word at [ctx] is the stack pointer, which points at the six registers and
    the return address. *)
Record saved (w : gmap Z Z) (ctx sp : Z) (vs : list Z) (ra : Z) : Prop := {
  sv_ctx : w !! ctx = Some sp;
  sv_words : words_at w sp (vs ++ [ra]);
  sv_len : length vs = 6%nat;
  sv_align : (8 | sp);
  sv_range : 0 <= sp ∧ sp + 56 < u64_modulus;
}.

(** The memory [switch_context] leaves behind for the outgoing thread. *)
Definition save_mem (ctx sp : Z) (vs : list Z) (w : gmap Z Z) : gmap Z Z :=
  <[ctx := sp - 48]> (push_words sp (reverse vs) w).

Lemma save_mem_other ctx sp vs w k :
  length vs = 6%nat → k ≠ ctx → k < sp - 48 ∨ sp <= k → save_mem ctx sp vs w !! k = w !! k.
Proof.
  intros Hl Hk Hr. unfold save_mem. rewrite lookup_insert_ne by done.
  apply push_words_other. unfold len8. rewrite length_reverse, Hl. lia.
Qed.

Lemma saved_mono w w' ctx sp vs ra :
  (∀ k, k = ctx ∨ sp <= k < sp + 56 → w' !! k = w !! k) →
  saved w ctx sp vs ra → saved w' ctx sp vs ra.
Proof.
  intros Hw [H1 H2 H3 H4 H5]. split; try done.
  - rewrite Hw; [done|by left].
  - eapply words_at_same; [|done]. intros k Hk. apply Hw. right.
    unfold len8 in Hk. rewrite length_app, H3 in Hk. simpl in Hk. lia.
Qed.

Lemma save_mem_saved ctx sp vs w ra :
  length vs = 6%nat → (8 | sp) → 48 <= sp → sp + 8 < u64_modulus → w !! sp = Some ra →
  ctx < sp - 48 ∨ sp + 8 <= ctx → saved (save_mem ctx sp vs w) ctx (sp - 48) vs ra.
Proof.
  intros Hl Ha Hb Hc Hra Hx. split; try done.
  - unfold save_mem. apply lookup_insert_eq.
  - apply words_at_app. split.
    + apply words_at_same with (push_words sp (reverse vs) w).
      * intros k Hk. unfold save_mem. apply lookup_insert_ne. unfold len8 in Hk. lia.
      * pose proof (push_words_at sp (reverse vs) w) as H.
        rewrite reverse_involutive in H. unfold len8 in H. by rewrite length_reverse, Hl in H.
    + cbn [words_at]. split; [|done]. unfold len8. rewrite Hl.
      replace (sp - 48 + 8 * Z.of_nat 6) with sp by lia.
      rewrite save_mem_other by (done || lia). done.
  - apply Z.divide_sub_r; [done|]. by exists 6.
  - lia.
Qed.

Lemma run_one i m : run [i] m = exec i m.
Proof. cbn [run]. by destruct (exec i m). Qed.

Lemma run_save m ctx :
  regs m RDI = ctx → (8 | regs m RSP) → 48 <= regs m RSP < u64_modulus → (8 | ctx) →
  ∃ m', run ((Push <$> reverse callee_regs) ++ [Store RDI RSP]) m = Ok m' ∧
    mem m' = save_mem ctx (regs m RSP) (callee m) (mem m) ∧
    (∀ r, r ≠ RSP → regs m' r = regs m r) ∧ same_control m m'.
Proof.
  intros Hprev Ha Hb Hap.
  destruct (run_pushes (reverse callee_regs) m) as (m1 & Hr1 & Hm1 & Hs1 & Hg1 & Hc1);
    [by_decide|done|unfold len8; simpl; lia|].
  rewrite run_app, Hr1. bstep. rewrite run_one. cbn [exec]. unfold store.
  rewrite Hg1, Hprev, aligned_mod by done. eexists. split; [done|].
  split_and!; [|done|done..]. simpl. rewrite Hm1, Hs1. done.
Qed.

Lemma run_restore m next sp vs ra :
  regs m RSI = next → (8 | next) → saved (mem m) next sp vs ra →
  ∃ m', run ([Load RSP RSI] ++ (Pop <$> callee_regs) ++ [Ret]) m = Ok m' ∧
    mem m' = mem m ∧ callee m' = vs ∧ rip m' = ra ∧ regs m' RSP = sp + 56 ∧
    (∀ r, r ≠ RSP → r ∉ callee_regs → regs m' r = regs m r) ∧
    cs m' = cs m ∧ rflags m' = rflags m ∧ ss m' = ss m.
Proof.
  intros Hnext Han [Hx Hw Hl Hal Hrng]. rewrite run_app, run_one. cbn [exec]. unfold load.
  rewrite Hnext, aligned_mod, Hx by done. bstep. set (m1 := set_reg RSP sp m).
  assert (regs m1 RSP = sp) as Hsp by apply fn_lookup_insert.
  apply words_at_app in Hw as [Hw [Hret _]].
  destruct (run_pops callee_regs vs m1) as (m2 & Hr2 & Hm2 & Hs2 & Hv2 & Hg2 & Hc2);
    rewrite ?Hsp; [by_decide|by_decide|done|done|done|lia|unfold len8; simpl; lia|].
  change (len8 callee_regs) with 48 in Hs2. rewrite Hsp in Hs2.
  rewrite run_app, Hr2. bstep. rewrite run_one. cbn [exec].
  rewrite (pop_ok ra); rewrite ?Hs2; [|apply Z.divide_add_r; [done|by exists 6]|lia|lia|].
  2:{ rewrite Hm2. unfold len8 in Hret. by rewrite Hl in Hret. }
  destruct Hc2 as (_ & ? & ? & ?). bstep. eexists. split; [done|]. simpl.
  split_and!; try done.
  - rewrite fn_lookup_insert. lia.
  - intros r Hr Hnin. rewrite fn_lookup_insert_ne, Hg2 by done. by apply fn_lookup_insert_ne.
Qed.

(** [switch_context] saves the caller's registers under [*rdi] and resumes
    the context saved under [*rsi]. *)
Lemma switch_context_spec m ctx next sp' vs ra :
  let sp := regs m RSP in
  regs m RDI = ctx → regs m RSI = next →
  (8 | sp) → 48 <= sp < u64_modulus → (8 | ctx) → (8 | next) →
  saved (mem m) next sp' vs ra →
  next ≠ ctx → next < sp - 48 ∨ sp <= next →
  sp' + 56 <= sp - 48 ∨ sp <= sp' → ctx < sp' ∨ sp' + 56 <= ctx →
  ∃ m', run switch_context m = Ok m' ∧
    mem m' = save_mem ctx sp (callee m) (mem m) ∧
    callee m' = vs ∧ rip m' = ra ∧ regs m' RSP = sp' + 56 ∧
    (∀ r, r ≠ RSP → r ∉ callee_regs → regs m' r = regs m r) ∧
    cs m' = cs m ∧ rflags m' = rflags m ∧ ss m' = ss m.
Proof.
  intros sp Hprev Hnext Ha Hb Hap Han Hs Hd1 Hd2 Hd3 Hd4.
  change switch_context with (((Push <$> reverse callee_regs) ++ [Store RDI RSP]) ++
    [Load RSP RSI] ++ (Pop <$> callee_regs) ++ [Ret]).
  destruct (run_save m ctx) as (m1 & Hr1 & Hm1 & Hg1 & Hc1); [done..|].
  rewrite run_app, Hr1. bstep.
  destruct (run_restore m1 next sp' vs ra) as (m2 & Hr2 & Hm2 & Hv & Hrip & Hsp & Hg & Hcs).
  - by rewrite Hg1.
  - done.
  - rewrite Hm1. eapply saved_mono; [|done]. intros k Hk.
    apply save_mem_other; [done|fold sp; lia|fold sp; lia].
  - destruct Hc1 as (_ & ? & ? & ?), Hcs as (? & ? & ?).
    exists m2. rewrite Hm2, Hm1. split_and!; try done; try congruence.
    intros r Hr1' Hr2'. rewrite Hg by done. by apply Hg1.
Qed.

(** ** [syscall_isr] *)

(** The words the CPU pushed on entry, lowest address first. *)
Record iframe := mkIframe { i_rip : Z; i_cs : Z; i_rflags : Z; i_rsp : Z; i_ss : Z }.

Definition iframe_words (f : iframe) : list Z := [i_rip f; i_cs f; i_rflags f; i_rsp f; i_ss f].

Lemma run_iretq m f :
  words_at (mem m) (regs m RSP) (iframe_words f) → (8 | regs m RSP) → 0 <= regs m RSP →
  regs m RSP + 40 < u64_modulus →
  ∃ m', exec Iretq m = Ok m' ∧ mem m' = mem m ∧
    rip m' = i_rip f ∧ cs m' = i_cs f ∧ rflags m' = i_rflags f ∧ ss m' = i_ss f ∧
    regs m' RSP = i_rsp f ∧ (∀ r, r ≠ RSP → regs m' r = regs m r).
Proof.
  intros (H1 & H2 & H3 & H4 & H5 & _) Ha Hb Hc. cbn [exec].
  assert (∀ k, (8 | regs m RSP + 8 * k)) as Hal
    by (intros k; apply Z.divide_add_r; [done|exists k; lia]).
  rewrite (pop_ok (i_rip f)) by (done || lia). bstep.
  set (m1 := set_reg RSP _ m). assert (regs m1 RSP = regs m RSP + 8) as E1 by apply fn_lookup_insert.
  rewrite (pop_ok (i_cs f)); rewrite ?E1; [|apply (Hal 1)|lia|lia|done]. bstep.
  set (m2 := set_reg RSP _ m1). assert (regs m2 RSP = regs m RSP + 8 + 8) as E2 by apply fn_lookup_insert.
  rewrite (pop_ok (i_rflags f)); rewrite ?E2;
    [|rewrite <- Z.add_assoc; apply (Hal 2)|lia|lia|done]. bstep.
  set (m3 := set_reg RSP _ m2).
  assert (regs m3 RSP = regs m RSP + 8 + 8 + 8) as E3 by apply fn_lookup_insert.
  rewrite (pop_ok (i_rsp f)); rewrite ?E3;
    [|rewrite <- !Z.add_assoc; apply (Hal 3)|lia|lia|done]. bstep.
  set (m4 := set_reg RSP _ m3).
  assert (regs m4 RSP = regs m RSP + 8 + 8 + 8 + 8) as E4 by apply fn_lookup_insert.
  rewrite (pop_ok (i_ss f)); rewrite ?E4;
    [|rewrite <- !Z.add_assoc; apply (Hal 4)|lia|lia|done]. bstep.
  eexists. split; [done|]. cbn [mem rip cs rflags ss regs]. split_and!; try done.
  intros r Hr. rewrite fn_lookup_insert_ne by done. unfold m4, m3, m2, m1. cbn [set_reg regs].
  by rewrite !fn_lookup_insert_ne.
Qed.

(** What [syscall_isr] needs of the function it calls: it returns with the
    stack pointer back, and of the words of the frame it is given it changes
    only the saved [rax], to [v]. *)
Definition dispatch_returns (dispatch : machine → outcome machine) (m : machine) (v : Z) : Prop :=
  ∃ m', dispatch m = Ok m' ∧ regs m' RSP = regs m RSP + 8 ∧
    (∀ k, regs m RDI <= k < regs m RDI + 160 →
       mem m' !! k = if k =? regs m RDI + 112 then Some v else mem m !! k).

(** The machine at the [call] in [syscall_isr]. *)
Definition isr_at_call (ret_addr : Z) (m : machine) : outcome machine :=
  m ← run isr_entry m; push ret_addr m.

Lemma isr_entry_spec m :
  (8 | regs m RSP) → 128 <= regs m RSP < u64_modulus →
  ∃ m', run isr_entry m = Ok m' ∧
    mem m' = push_words (regs m RSP) (regs m <$> isr_saved) (mem m) ∧
    regs m' RSP = regs m RSP - 120 ∧ regs m' RDI = regs m RSP - 120.
Proof.
  intros Ha Hb. change isr_entry with ((Push <$> isr_saved) ++ [Mov RDI RSP]).
  destruct (run_pushes isr_saved m) as (m1 & Hr1 & Hm1 & Hs1 & Hg1 & Hc1);
    [by_decide|done|unfold len8; simpl; lia|].
  rewrite run_app, Hr1. bstep. rewrite run_one. cbn [exec]. eexists. split; [done|].
  change (len8 isr_saved) with 120 in Hs1. cbn [set_reg mem regs]. split_and!; [done| |].
  - by rewrite fn_lookup_insert_ne.
  - by rewrite fn_lookup_insert.
Qed.

Lemma isr_exit_spec m vs f :
  length vs = 15%nat → words_at (mem m) (regs m RSP) (vs ++ iframe_words f) →
  (8 | regs m RSP) → 0 <= regs m RSP → regs m RSP + 160 < u64_modulus →
  ∃ m', run isr_exit m = Ok m' ∧ mem m' = mem m ∧ regs m' <$> reverse isr_saved = vs ∧
    rip m' = i_rip f ∧ cs m' = i_cs f ∧ rflags m' = i_rflags f ∧ ss m' = i_ss f ∧
    regs m' RSP = i_rsp f.
Proof.
  intros Hl Hw Ha Hb Hc. apply words_at_app in Hw as [Hw Hi]. unfold len8 in Hi. rewrite Hl in Hi.
  change isr_exit with ((Pop <$> reverse isr_saved) ++ [Iretq]).
  destruct (run_pops (reverse isr_saved) vs m) as (m1 & Hr1 & Hm1 & Hs1 & Hv1 & Hg1 & Hc1);
    [by_decide|by_decide|done|done|done|done|unfold len8; simpl; lia|].
  change (len8 (reverse isr_saved)) with 120 in Hs1.
  rewrite run_app, Hr1. bstep. rewrite run_one.
  destruct (run_iretq m1 f) as (m2 & -> & Hm2 & ? & ? & ? & ? & ? & Hg2);
    rewrite ?Hs1, ?Hm1; [done|apply Z.divide_add_r; [done|by exists 15]|lia|lia|].
  exists m2. split_and!; try done; [congruence|].
  rewrite <- Hv1. apply list_fmap_ext. intros i r Hr. apply Hg2. intros ->.
  assert (RSP ∈ reverse isr_saved) as Hin by (by eapply list_elem_of_lookup_2).
  revert Hin. by_decide.
Qed.

(** Replacing the saved [rax] of the frame. *)
Lemma words_at_rax w w' a vs old v rest :
  length vs = 14%nat →
  words_at w a (vs ++ old :: rest) →
  (∀ k, a <= k < a + 120 + len8 rest → w' !! k = if k =? a + 112 then Some v else w !! k) →
  words_at w' a (vs ++ v :: rest).
Proof.
  intros Hl Hw Hk. apply words_at_app in Hw as [H1 [_ H2]].
  unfold len8 in *. rewrite Hl in *.
  apply words_at_app. unfold len8. rewrite Hl. split; [|split].
  - eapply words_at_same; [|done]. intros k Hr. unfold len8 in Hr. rewrite Hk by lia.
    by rewrite (proj2 (Z.eqb_neq k (a + 112))) by lia.
  - rewrite Hk by lia. by rewrite (proj2 (Z.eqb_eq _ _)) by lia.
  - eapply words_at_same; [|done]. intros k Hr. unfold len8 in Hr. rewrite Hk by lia.
    by rewrite (proj2 (Z.eqb_neq k (a + 112))) by lia.
Qed.

(** The registers [syscall_isr] saves below [rax], in memory order. *)
Definition isr_rest : list reg := [R15; R14; R13; R12; R11; R10; R9; R8; RDI; RSI; RBP; RBX; RDX; RCX].

(** At the call, [rdi] points at the saved registers and the CPU's frame. *)
Lemma isr_at_call_spec ret_addr m f :
  (8 | regs m RSP) → 128 <= regs m RSP → regs m RSP + 40 < u64_modulus →
  words_at (mem m) (regs m RSP) (iframe_words f) →
  ∃ m0 m1, run isr_entry m = Ok m0 ∧ push ret_addr m0 = Ok m1 ∧
    regs m1 RSP = regs m RSP - 128 ∧ regs m1 RDI = regs m RSP - 120 ∧
    words_at (mem m1) (regs m RSP - 120)
      ((regs m <$> isr_rest) ++ regs m RAX :: iframe_words f) ∧
    (∀ k, k < regs m RSP - 128 ∨ regs m RSP <= k → mem m1 !! k = mem m !! k).
Proof.
  intros Ha Hb Hc Hf.
  destruct (isr_entry_spec m) as (m0 & Hr0 & Hm0 & Hsp0 & Hdi0); [done|lia|].
  exists m0. rewrite push_ok; rewrite ?Hsp0; [|apply Z.divide_sub_r; [done|by exists 15]|lia].
  eexists. split; [done|]. split; [done|]. cbn [regs set_mem set_reg mem].
  rewrite fn_lookup_insert, fn_lookup_insert_ne, Hdi0 by done. split_and!; [lia|done| |].
  2:{ intros k Hk. rewrite lookup_insert_ne, Hm0 by lia. apply push_words_other.
      unfold len8. simpl. lia. }
  change ((regs m <$> isr_rest) ++ regs m RAX :: iframe_words f)
    with ((regs m <$> reverse isr_saved) ++ iframe_words f).
  eapply words_at_same with (mem m0).
  { intros k Hk. apply lookup_insert_ne. lia. }
  rewrite Hm0. apply words_at_app. split.
  - pose proof (push_words_at (regs m RSP) (regs m <$> isr_saved) (mem m)) as H.
    rewrite <- fmap_reverse in H. exact H.
  - eapply words_at_same with (mem m).
    + intros k Hk. apply push_words_other. right. unfold len8 in Hk. simpl in Hk. lia.
    + unfold len8. simpl length. by replace (regs m RSP - 120 + 8 * Z.of_nat 15)
        with (regs m RSP) by lia.
Qed.

(** The whole ISR: the interrupted context comes back as it was, but for the
    result in [rax]. *)
Lemma syscall_isr_spec ret_addr dispatch m f v m1 :
  (8 | regs m RSP) → 128 <= regs m RSP → regs m RSP + 40 < u64_modulus →
  words_at (mem m) (regs m RSP) (iframe_words f) →
  isr_at_call ret_addr m = Ok m1 → dispatch_returns dispatch m1 v →
  ∃ m', syscall_isr ret_addr dispatch m = Ok m' ∧
    regs m' RAX = v ∧ (regs m' <$> isr_rest) = (regs m <$> isr_rest) ∧
    rip m' = i_rip f ∧ cs m' = i_cs f ∧ rflags m' = i_rflags f ∧ ss m' = i_ss f ∧
    regs m' RSP = i_rsp f.
Proof.
  intros Ha Hb Hc Hf H1 (m2 & Hd & Hsp2 & Hmem2).
  destruct (isr_at_call_spec ret_addr m f Ha Hb Hc Hf) as (m0 & m1' & Hr0 & Hp & Hsp & Hdi & Hw & _).
  unfold isr_at_call in H1. rewrite Hr0 in H1. cbn [mbind outcome_bind] in H1.
  rewrite Hp in H1. injection H1 as <-. unfold syscall_isr, call. rewrite Hr0. bstep.
  rewrite Hp. bstep. rewrite Hd. bstep. rewrite Hsp in Hsp2. rewrite Hdi in Hmem2.
  apply (words_at_rax _ (mem m2) _ _ _ v) in Hw; [|done|].
  2:{ intros k Hk. unfold len8 in Hk. simpl in Hk. apply Hmem2. lia. }
  destruct (isr_exit_spec m2 ((regs m <$> isr_rest) ++ [v]) f)
    as (m3 & Hr3 & _ & Hv & ? & ? & ? & ? & ?); rewrite ?Hsp2.
  - done.
  - rewrite <- app_assoc. by replace (regs m RSP - 128 + 8) with (regs m RSP - 120) by lia.
  - replace (regs m RSP - 128 + 8) with (regs m RSP - 120) by lia.
    apply Z.divide_sub_r; [done|by exists 15].
  - lia.
  - lia.
  - exists m3. change (regs m3 <$> reverse isr_saved) with ((regs m3 <$> isr_rest) ++ [regs m3 RAX]) in Hv.
    apply app_inj_2 in Hv as [? [= ?]]; [|done]. auto 10.
Qed.

(** The five pushes of [enter_userland] build the frame [iretq] takes. *)
Lemma enter_userland_pushes m r_ss r_rsp r_cs r_rip :
  RSP ∉ [r_ss; r_rsp; r_cs; r_rip] →
  (8 | regs m RSP) → 40 <= regs m RSP < u64_modulus →
  ∃ m', run (enter_userland r_ss r_rsp r_cs r_rip) m = exec Iretq m' ∧
    regs m' RSP = regs m RSP - 40 ∧
    mem m' = push_words (regs m RSP)
      [regs m r_ss; regs m r_rsp; 0x202; regs m r_cs; regs m r_rip] (mem m).
Proof.
  intros Hne Ha Hb. rewrite !not_elem_of_cons in Hne. destruct Hne as (N1 & N2 & N3 & N4 & _).
  destruct (run_pushes [r_ss; r_rsp] m) as (m1 & Hr1 & Hm1 & Hs1 & Hg1 & _);
    [rewrite !not_elem_of_cons; auto using not_elem_of_nil|done|unfold len8; simpl; lia|].
  change (len8 [r_ss; r_rsp]) with 16 in Hs1.
  change (enter_userland r_ss r_rsp r_cs r_rip)
    with ((Push <$> [r_ss; r_rsp]) ++ [PushImm 0x202] ++ (Push <$> [r_cs; r_rip]) ++ [Iretq]).
  rewrite run_app, Hr1. bstep. rewrite run_app, run_one. cbn [exec].
  rewrite push_ok; rewrite ?Hs1; [|apply Z.divide_sub_r; [done|by exists 2]|lia]. bstep.
  set (m2 := set_mem _ _). assert (regs m2 RSP = regs m RSP - 16 - 8) as Hs2
    by apply fn_lookup_insert.
  assert (∀ r, RSP ≠ r → regs m2 r = regs m r) as Hg2.
  { intros r Hr. unfold m2. cbn [set_mem set_reg regs]. rewrite fn_lookup_insert_ne by done. auto. }
  destruct (run_pushes [r_cs; r_rip] m2) as (m3 & Hr3 & Hm3 & Hs3 & _);
    [rewrite !not_elem_of_cons; auto using not_elem_of_nil|rewrite Hs2
    |rewrite Hs2; unfold len8; simpl; lia|].
  { replace (regs m RSP - 16 - 8) with (regs m RSP - 24) by lia.
    apply Z.divide_sub_r; [done|by exists 3]. }
  change (len8 [r_cs; r_rip]) with 16 in Hs3. rewrite Hs2 in Hs3.
  rewrite run_app, Hr3. bstep. rewrite run_one. exists m3. split_and!; [done|lia|].
  rewrite Hm3, Hs2. cbn [fmap list_fmap]. rewrite !Hg2 by done.
  unfold m2. cbn [set_mem mem]. rewrite Hm1. cbn [fmap list_fmap push_words].
  by replace (regs m RSP - 8 - 8) with (regs m RSP - 16) by lia.
Qed.

Lemma enter_userland_spec m r_ss r_rsp r_cs r_rip :
  RSP ∉ [r_ss; r_rsp; r_cs; r_rip] →
  (8 | regs m RSP) → 40 <= regs m RSP < u64_modulus →
  ∃ m', run (enter_userland r_ss r_rsp r_cs r_rip) m = Ok m' ∧
    rip m' = regs m r_rip ∧ cs m' = regs m r_cs ∧ rflags m' = 0x202 ∧
    regs m' RSP = regs m r_rsp ∧ ss m' = regs m r_ss ∧
    (∀ k, k < regs m RSP - 40 ∨ regs m RSP <= k → mem m' !! k = mem m !! k).
Proof.
  intros Hne Ha Hb.
  destruct (enter_userland_pushes m r_ss r_rsp r_cs r_rip Hne Ha Hb) as (m1 & -> & Hs & Hm).
  destruct (run_iretq m1 (mkIframe (regs m r_rip) (regs m r_cs) 0x202 (regs m r_rsp) (regs m r_ss)))
    as (m2 & -> & Hm2 & ? & ? & ? & ? & ? & _); rewrite ?Hs, ?Hm.
  - apply (push_words_at (regs m RSP)).
  - apply Z.divide_sub_r; [done|by exists 5].
  - lia.
  - lia.
  - exists m2. split_and!; try done. intros k Hk. rewrite Hm2, Hm. apply push_words_other.
    unfold len8. simpl. lia.
Qed.
