(* ===== verification/Thread.v ===== *)
(** * Kernel threads

    src/src/thread.rs: thread creation, the round-robin ready queue, yield,
    exit and the reaper.  A thread's stack and its [Box<KernelThread>] are
    blocks of the global allocator, used through the allocator's interface;
    the saved stack pointers and the stacks are words of the machine's memory,
    and a switch runs the instructions of [switch_context]. *)

From Stdlib Require Import ZArith Lia.
From stdpp Require Import base gmap list strings numbers functions.
From S2P Require Import Prelude AllocMod Scheduler Machine.

Open Scope Z_scope.

Definition STACK_SIZE : Z := 16 * 1024.

(** [ThreadId] and [ProcessId] are newtypes of [u64]. *)
Definition BOOTSTRAP_ID : Z := 0.
Definition KERNEL_PID : Z := 0.

(** [Box<[u8; STACK_SIZE]>]; [Box<KernelThread>]: two ids, the saved stack
    pointer and the box of the stack, eight bytes each. *)
Definition stack_layout : Layout := mkLayout STACK_SIZE 1.
Definition box_layout : Layout := mkLayout 32 8.

(** A tracked thread, with the addresses of its box and of its stack; its
    [Context] is a word inside the box. *)
Record KernelThread := mkThread {
  kt_id : Z;
  kt_process : Z;
  kt_box : Z;
  kt_stack : Z;
}.

Record ThreadScheduler := mkTS {
  threads : gmap Z KernelThread;
  ready : list Z;
  current : Z;
  reaper : option KernelThread;
}.

Definition ts_new : ThreadScheduler := mkTS ∅ [] BOOTSTRAP_ID None.

Definition thread_count (s : ThreadScheduler) : Z := Z.of_nat (size (threads s)).
Definition ready_count (s : ThreadScheduler) : Z := Z.of_nat (length (ready s)).

(** Everything the thread code touches: the scheduler behind its lock, the
    global counters, the id counter, the heap and the CPU. *)
Record tworld (H : Type) := mkTW {
  tw_sched : ThreadScheduler;
  tw_stats : Scheduler;
  tw_next_id : Z;
  tw_heap : H;
  tw_mach : machine;
}.

Arguments mkTW {H}.
Arguments tw_sched {H}.
Arguments tw_stats {H}.
Arguments tw_next_id {H}.
Arguments tw_heap {H}.
Arguments tw_mach {H}.

(** [Box::new([0; STACK_SIZE])] zeroes the buffer: the whole words of the [n]
    bytes at [a]. *)
Fixpoint zero_words (n : nat) (a : Z) (w : gmap Z Z) : gmap Z Z :=
  match n with
  | O => w
  | S n => zero_words n (a + 8) (<[a := 0]> w)
  end.

Definition zero_block (a n : Z) (w : gmap Z Z) : gmap Z Z :=
  let first := (a + 7) / 8 in
  zero_words (Z.to_nat ((a + n) / 8 - first)) (8 * first) w.

Section threads.
Context {H : Type}.
Context (alloc : H → Layout → outcome (Z * H)).
Context (dealloc : H → Z → Layout → outcome H).
Context (scribble : H → Z → Z → H).
(** Where the compiler puts the [context] field of [KernelThread], the static
    [bootstrap_context], and the two calls of [switch_context]. *)
Context (ctx_offset bootstrap_context yield_ret exit_ret : Z).

Definition with_sched (s : ThreadScheduler) (w : tworld H) : tworld H :=
  mkTW s (tw_stats w) (tw_next_id w) (tw_heap w) (tw_mach w).

Definition with_mach (m : machine) (w : tworld H) : tworld H :=
  mkTW (tw_sched w) (tw_stats w) (tw_next_id w) (tw_heap w) m.

Definition with_heap (h : H) (w : tworld H) : tworld H :=
  mkTW (tw_sched w) (tw_stats w) (tw_next_id w) h (tw_mach w).

Definition with_stats (c : Scheduler) (w : tworld H) : tworld H :=
  mkTW (tw_sched w) c (tw_next_id w) (tw_heap w) (tw_mach w).

(** [Box::new] allocates, aborts when there is no memory, and moves the value
    into the block. *)
Definition box_new (l : Layout) (w : tworld H) : outcome (Z * tworld H) :=
  '(p, h) ← alloc (tw_heap w) l;
  if p =? 0 then Panic "memory allocation failed"
  else Ok (p, with_heap (scribble h p (l_size l)) w).

Definition ThreadId_new (w : tworld H) : Z * tworld H :=
  (tw_next_id w,
   mkTW (tw_sched w) (tw_stats w) (wrapping_add (tw_next_id w) 1) (tw_heap w) (tw_mach w)).

(** The six zero slots for the callee-saved registers. *)
Fixpoint reserve_slots (n : nat) (sp : Z) (m : machine) : outcome (Z * machine) :=
  match n with
  | O => Ok (sp, m)
  | S n =>
      sp ← sub_u64 sp 8;
      m ← store sp 0 m;
      reserve_slots n sp m
  end.

(** [KernelThread::new]: the stack, the id and the saved stack pointer. *)
Definition KernelThread_new (entry : Z) (w : tworld H) : outcome (Z * Z * Z * tworld H) :=
  '(stack, w) ← box_new stack_layout w;
  let m := tw_mach w in
  let m := set_mem (zero_block stack STACK_SIZE (mem m)) m in
  stack_top ← add_u64 stack STACK_SIZE;
  let sp := Z.land stack_top (not_u64 0xF) in
  sp ← sub_u64 sp 8;
  m ← store sp entry m;
  '(sp, m) ← reserve_slots 6 sp m;
  let '(id, w) := ThreadId_new (with_mach m w) in
  Ok (id, sp, stack, w).

(** [ThreadScheduler::spawn] *)
Definition spawn (entry process : Z) (w : tworld H) : outcome (Z * tworld H) :=
  '(id, sp, stack, w) ← KernelThread_new entry w;
  '(box, w) ← box_new box_layout w;
  m ← store (box + ctx_offset) sp (tw_mach w);
  let thread := mkThread id process box stack in
  let s := tw_sched w in
  _ ← rust_assert (bool_decide (threads s !! id = None)) "spawned thread id is already tracked";
  let s := mkTS (<[id := thread]> (threads s)) (ready s ++ [id]) (current s) (reaper s) in
  Ok (id, with_stats (note_thread_spawned (tw_stats w)) (with_mach m (with_sched s w))).

Definition spawn_kernel (entry : Z) (w : tworld H) : outcome (Z * tworld H) :=
  spawn entry KERNEL_PID w.

(** Dropping a [Box<KernelThread>] frees the stack it owns, then the box. *)
Definition drop_thread (t : KernelThread) (w : tworld H) : outcome (tworld H) :=
  h ← dealloc (tw_heap w) (kt_stack t) stack_layout;
  h ← dealloc h (kt_box t) box_layout;
  Ok (with_heap h w).

Definition drain_reaper (w : tworld H) : outcome (tworld H) :=
  let s := tw_sched w in
  let to_drop := reaper s in
  let w := with_sched (mkTS (threads s) (ready s) (current s) None) w in
  match to_drop with
  | Some t => drop_thread t (with_stats (note_thread_exited (tw_stats w)) w)
  | None => Ok w
  end.

Definition context_ptr (s : ThreadScheduler) (id : Z) (msg : string) : outcome Z :=
  if id =? BOOTSTRAP_ID then Ok bootstrap_context
  else t ← expect (threads s !! id) msg; Ok (kt_box t + ctx_offset).

(** [unsafe { switch_context(prev, next) }]: the arguments go to [rdi] and
    [rsi], the call pushes its return address, the naked function runs. *)
Definition call_switch (ret_addr prev next : Z) (m : machine) : outcome machine :=
  m ← push ret_addr (set_reg RSI next (set_reg RDI prev m));
  run switch_context m.

(** The closure of [yield_now] that runs under the scheduler's lock. *)
Definition yield_pick (s : ThreadScheduler)
  : outcome (option (Z * Z * ThreadScheduler)) :=
  match ready s with
  | [] => Ok None
  | next_id :: rest =>
      let prev_id := current s in
      let s := mkTS (threads s) rest next_id (reaper s) in
      prev_ctx ← context_ptr s prev_id "yield_now: current thread missing from map";
      let s := mkTS (threads s) (ready s ++ [prev_id]) (current s) (reaper s) in
      next_ctx ← context_ptr s next_id "yield_now: next ready thread missing from map";
      Ok (Some (prev_ctx, next_ctx, s))
  end.

Definition yield_now (w : tworld H) : outcome (tworld H) :=
  w ← drain_reaper w;
  result ← yield_pick (tw_sched w);
  match result with
  | None => Ok w
  | Some (prev_ctx, next_ctx, s) =>
      m ← call_switch yield_ret prev_ctx next_ctx (tw_mach w);
      Ok (with_mach m (with_sched s w))
  end.

(** The closure of [exit_thread]. *)
Definition exit_pick (s : ThreadScheduler) : outcome (Z * ThreadScheduler) :=
  let prev_id := current s in
  s ← (if prev_id =? BOOTSTRAP_ID then Ok s
       else match threads s !! prev_id with
            | None => Ok s
            | Some boxed =>
                _ ← rust_assert (bool_decide (reaper s = None)) "reaper slot should have been drained";
                Ok (mkTS (delete prev_id (threads s)) (ready s) (current s) (Some boxed))
            end);
  match ready s with
  | [] => Panic "exit_thread: no other thread to switch into"
  | next_id :: rest =>
      let s := mkTS (threads s) rest next_id (reaper s) in
      next_ctx ← context_ptr s next_id "exit_thread: next ready thread missing from map";
      Ok (next_ctx, s)
  end.

(** [scratch] is the throwaway [Context] in the frame of [exit_thread]. *)
Definition exit_thread (scratch : Z) (w : tworld H) : outcome (tworld H) :=
  w ← drain_reaper w;
  '(next_ctx, s) ← exit_pick (tw_sched w);
  m ← store scratch 0 (tw_mach w);
  m ← call_switch exit_ret scratch next_ctx m;
  Ok (with_mach m (with_sched s w)).

Definition current_process (s : ThreadScheduler) : Z :=
  if current s =? BOOTSTRAP_ID then KERNEL_PID
  else match threads s !! current s with
       | Some t => kt_process t
       | None => KERNEL_PID
       end.

Definition current_id (s : ThreadScheduler) : Z := current s.
End threads.
