(* ===== verification/ThreadInv.v ===== *)
(** * The invariant of the kernel threads

    What thread.rs relies on between two scheduler operations: which ids are
    queued, which blocks of the heap the threads own, and that the memory of
    every suspended thread still holds the context it was suspended with.
    Every operation of Thread.v preserves it. *)

From Stdlib Require Import ZArith Lia.
From stdpp Require Import base gmap list strings numbers functions.
From S2P Require Import Prelude AllocMod Scheduler Machine Thread.

Open Scope Z_scope.

(** A suspended context: where its frame is, its callee-saved registers, where
    it resumes, the top of its stack, and the memory when it was suspended. *)
Record sctx := mkSctx {
  sc_sp : Z;
  sc_regs : list Z;
  sc_ra : Z;
  sc_top : Z;
  sc_mem : gmap Z Z;
}.

(** ** One switch on the machine *)

Section call_switch.
Context (ret_addr prev next sp' : Z) (vs : list Z) (ra : Z) (m : machine).
Context (Ha : (8 | regs m RSP)) (Hb : 56 <= regs m RSP < u64_modulus - 8).
Context (Hap : (8 | prev)) (Han : (8 | next)).
Context (Hs : saved (mem m) next sp' vs ra).
Context (Hd1 : next ≠ prev) (Hd2 : next < regs m RSP - 56 ∨ regs m RSP <= next).
Context (Hd3 : sp' + 56 <= regs m RSP - 56 ∨ regs m RSP <= sp').
Context (Hd4 : prev < sp' ∨ sp' + 56 <= prev).

Lemma call_switch_spec :
  ∃ m', call_switch ret_addr prev next m = Ok m' ∧
    callee m' = vs ∧ rip m' = ra ∧ regs m' RSP = sp' + 56 ∧
    (∀ k, k ≠ prev → k < regs m RSP - 56 ∨ regs m RSP <= k → mem m' !! k = mem m !! k) ∧
    (prev < regs m RSP - 56 ∨ regs m RSP <= prev →
       saved (mem m') prev (regs m RSP - 56) (callee m) ret_addr).
Proof.
  unfold call_switch. set (m0 := set_reg RSI next (set_reg RDI prev m)).
  change (regs m RSP) with (regs m0 RSP) in *. change (mem m) with (mem m0) in *.
  rewrite push_ok by (done || lia). bstep.
  set (sp := regs m0 RSP) in *. set (m1 := set_mem _ _).
  assert (regs m1 RSP = sp - 8) as Hsp1 by apply fn_lookup_insert.
  assert (mem m1 = <[sp - 8 := ret_addr]> (mem m0)) as Hm1 by done.
  destruct (switch_context_spec m1 prev next sp' vs ra) as (m' & Hr & Hm & Hv & Hrip & Hsp & _);
    rewrite ?Hsp1; try done; try lia.
  { apply Z.divide_sub_r; [done|by exists 1]. }
  { eapply saved_mono; [|done]. intros k Hk. rewrite Hm1. apply lookup_insert_ne. lia. }
  rewrite Hsp1 in Hm. change (callee m1) with (callee m) in Hm.
  exists m'. split_and!; try done.
  - intros k Hk1 Hk2. rewrite Hm, save_mem_other, Hm1 by (done || lia).
    apply lookup_insert_ne. lia.
  - intros Hp. rewrite Hm. replace (sp - 56) with (sp - 8 - 48) by lia.
    apply save_mem_saved; [done| |lia|lia| |lia].
    + apply Z.divide_sub_r; [done|by exists 1].
    + rewrite Hm1. apply lookup_insert_eq.
Qed.
End call_switch.

(** ** Setting up a stack *)

Lemma zero_words_other n a w k : k < a ∨ a + 8 * Z.of_nat n <= k → zero_words n a w !! k = w !! k.
Proof.
  revert a w. induction n as [|n IH]; intros a w Hk; [done|]. cbn [zero_words].
  rewrite IH by lia. apply lookup_insert_ne. lia.
Qed.

Lemma zero_block_other a n w k :
  0 <= n → k < a ∨ a + n <= k → zero_block a n w !! k = w !! k.
Proof.
  intros Hn Hk. unfold zero_block. apply zero_words_other.
  pose proof (Z.div_mod (a + 7) 8 ltac:(lia)). pose proof (Z.mod_pos_bound (a + 7) 8 ltac:(lia)).
  pose proof (Z.div_mod (a + n) 8 ltac:(lia)). pose proof (Z.mod_pos_bound (a + n) 8 ltac:(lia)).
  lia.
Qed.

Lemma reserve_slots_ok n sp m :
  (8 | sp) → 8 * Z.of_nat n <= sp →
  reserve_slots n sp m
    = Ok (sp - 8 * Z.of_nat n, set_mem (push_words sp (replicate n 0) (mem m)) m).
Proof.
  revert sp m. induction n as [|n IH]; intros sp m Ha Hb; cbn [reserve_slots].
  { rewrite Z.sub_0_r. by destruct m. }
  assert (8 | sp - 8) by (apply Z.divide_sub_r; [done|by exists 1]).
  rewrite sub_u64_ok by lia. bstep. unfold store. rewrite aligned_mod by done. bstep.
  rewrite IH by (done || lia). cbn [replicate push_words]. do 2 f_equal. lia.
Qed.

(** The stack pointer [KernelThread::new] saves: seven words below the top of
    the stack rounded down to 16. *)
Definition initial_sp (stack : Z) : Z :=
  (stack + STACK_SIZE) - (stack + STACK_SIZE) mod 16 - 56.

Lemma initial_sp_bounds stack :
  0 <= stack → (16 | initial_sp stack + 56) ∧ (8 | initial_sp stack) ∧
    stack < initial_sp stack ∧ initial_sp stack + 56 <= stack + STACK_SIZE.
Proof.
  intros Hs. unfold initial_sp, STACK_SIZE.
  pose proof (Z.div_mod (stack + 16 * 1024) 16 ltac:(lia)) as Hd.
  pose proof (Z.mod_pos_bound (stack + 16 * 1024) 16 ltac:(lia)).
  split_and!; [exists ((stack + 16 * 1024) / 16); lia|
    exists (2 * ((stack + 16 * 1024) / 16) - 7); lia|lia|lia].
Qed.

Lemma stack_top_mask stack :
  0 <= stack → stack + STACK_SIZE < u64_modulus →
  Z.land (stack + STACK_SIZE) (not_u64 0xF) = initial_sp stack + 56.
Proof.
  intros H1 H2. unfold STACK_SIZE in *. change 0xF with (2 ^ 4 - 1).
  rewrite land_not_mask by (unfold is_u64; lia). unfold initial_sp, STACK_SIZE. change (2 ^ 4) with 16. lia.
Qed.

(** The memory of a fresh stack: the entry point above six zeroes. *)
Definition fresh_stack (stack entry : Z) (w : gmap Z Z) : gmap Z Z :=
  push_words (initial_sp stack + 56) (entry :: replicate 6 0) (zero_block stack STACK_SIZE w).

Lemma fresh_stack_words stack entry w :
  words_at (fresh_stack stack entry w) (initial_sp stack) (replicate 6 0 ++ [entry]).
Proof.
  pose proof (push_words_at (initial_sp stack + 56) (entry :: replicate 6 0)
    (zero_block stack STACK_SIZE w)) as Hw.
  change (len8 (entry :: replicate 6 0)) with 56 in Hw.
  by replace (initial_sp stack + 56 - 56) with (initial_sp stack) in Hw by lia.
Qed.

Lemma fresh_stack_other stack entry w k :
  0 <= stack → k < stack ∨ stack + STACK_SIZE <= k → fresh_stack stack entry w !! k = w !! k.
Proof.
  intros Hs Hk. destruct (initial_sp_bounds stack Hs) as (_ & _ & ? & ?). unfold fresh_stack.
  rewrite push_words_other by (change (len8 (entry :: replicate 6 0)) with 56; lia).
  apply zero_block_other; [unfold STACK_SIZE; lia|done].
Qed.

Section inv.
Context {H : Type}.
Context (alloc : H → Layout → outcome (Z * H)).
Context (dealloc : H → Z → Layout → outcome H).
Context (scribble : H → Z → Z → H).
Context {spec : GlobalAllocSpec H alloc dealloc scribble}.
Context (ctx_offset bootstrap_context yield_ret exit_ret : Z).
(** The heap and the boot stack. *)
Context (lo hi boot_lo boot_hi : Z).

(** What the compiler, the linker and the bootloader provide. *)
Record placement : Prop := {
  pl_off : (8 | ctx_offset) ∧ 0 <= ctx_offset <= 24;
  pl_boot : (8 | bootstrap_context);
  pl_boot_heap : apart bootstrap_context 8 lo (hi - lo);
  pl_boot_stack : apart bootstrap_context 8 boot_lo (boot_hi - boot_lo);
  pl_stacks : apart boot_lo (boot_hi - boot_lo) lo (hi - lo);
  pl_heap : 0 < lo ∧ hi <= addr_limit;
  pl_bounds : 0 <= boot_lo <= boot_hi ∧ boot_hi < u64_modulus - 64;
}.

Context (Hpl : placement).

Definition ctx_addr (s : ThreadScheduler) (i : Z) : Z :=
  if i =? BOOTSTRAP_ID then bootstrap_context
  else match threads s !! i with Some t => kt_box t + ctx_offset | None => 0 end.

Definition stack_lo (s : ThreadScheduler) (i : Z) : Z :=
  if i =? BOOTSTRAP_ID then boot_lo
  else match threads s !! i with Some t => kt_stack t | None => 0 end.

Definition stack_hi (s : ThreadScheduler) (i : Z) : Z :=
  if i =? BOOTSTRAP_ID then boot_hi
  else match threads s !! i with Some t => kt_stack t + STACK_SIZE | None => 0 end.

Definition valid (s : ThreadScheduler) (i : Z) : Prop := i = BOOTSTRAP_ID ∨ is_Some (threads s !! i).

Definition tracked (s : ThreadScheduler) (t : KernelThread) : Prop :=
  threads s !! kt_id t = Some t ∨ reaper s = Some t.

Definition parked (s : ThreadScheduler) : Z := match reaper s with Some _ => 1 | None => 0 end.

(** The blocks of the tracked threads. *)
Record owns (s : ThreadScheduler) (live : gmap Z Layout) : Prop := {
  ow_blocks : ∀ t, tracked s t →
    live !! kt_stack t = Some stack_layout ∧ live !! kt_box t = Some box_layout;
  ow_distinct : ∀ t u, tracked s t → tracked s u → kt_id t ≠ kt_id u →
    kt_stack t ≠ kt_stack u ∧ kt_box t ≠ kt_box u;
}.

(** The bookkeeping of the ready queue and the ids. *)
Record queue_ok (s : ThreadScheduler) (next : Z) : Prop := {
  qk_ids : ∀ i t, threads s !! i = Some t → kt_id t = i ∧ 1 <= i < next;
  qk_nodup : NoDup (ready s);
  qk_ready : ∀ i, i ∈ ready s → i ≠ current s ∧ valid s i;
  qk_all : ∀ i, is_Some (threads s !! i) → i = current s ∨ i ∈ ready s;
  qk_current : valid s (current s);
  qk_reaper : ∀ t, reaper s = Some t →
    threads s !! kt_id t = None ∧ 1 <= kt_id t < next;
}.

(** Thread [i] is suspended with context [c]. *)
Record holds (s : ThreadScheduler) (w : gmap Z Z) (i : Z) (c : sctx) : Prop := {
  hd_saved : saved w (ctx_addr s i) (sc_sp c) (sc_regs c) (sc_ra c);
  hd_lo : stack_lo s i <= sc_sp c;
  hd_hi : sc_sp c + 56 <= stack_hi s i;
  hd_top : stack_hi s i = sc_top c;
  hd_mem : ∀ k, sc_sp c + 56 <= k < stack_hi s i → w !! k = sc_mem c !! k;
}.

Record tinv (w : tworld H) (live : gmap Z Layout) (sv : gmap Z sctx) : Prop := {
  ti_heap : ga_inv lo hi (tw_heap w) live;
  ti_owns : owns (tw_sched w) live;
  ti_queue : queue_ok (tw_sched w) (tw_next_id w);
  ti_alive : threads_alive (tw_stats w) =
    (Z.of_nat (size (threads (tw_sched w))) + parked (tw_sched w)) mod u64_modulus;
  ti_saved : ∀ i, i ∈ ready (tw_sched w) → ∃ c, sv !! i = Some c ∧
    holds (tw_sched w) (mem (tw_mach w)) i c;
  ti_next : 1 <= tw_next_id w;
}.

(** The running thread is on its own stack, with room for a switch. *)
Record running (w : tworld H) : Prop := {
  rn_align : (8 | regs (tw_mach w) RSP);
  rn_lo : stack_lo (tw_sched w) (current (tw_sched w)) + 56 <= regs (tw_mach w) RSP;
  rn_hi : regs (tw_mach w) RSP <= stack_hi (tw_sched w) (current (tw_sched w));
}.

(** ** Geometry of the blocks *)

Section geometry.
Context (s : ThreadScheduler) (live : gmap Z Layout).
Context (Hlive : live_ok lo hi live) (Ho : owns s live).

Lemma tracked_stack t : tracked s t → lo <= kt_stack t ∧ kt_stack t + STACK_SIZE <= hi.
Proof.
  intros Ht. destruct (ow_blocks _ _ Ho t Ht) as [Hk _].
  destruct (proj1 Hlive _ _ Hk) as (? & ? & _). done.
Qed.

Lemma tracked_box t : tracked s t → lo <= kt_box t ∧ kt_box t + 32 <= hi ∧ (8 | kt_box t).
Proof.
  intros Ht. destruct (ow_blocks _ _ Ho t Ht) as [_ Hk]. apply (proj1 Hlive _ _ Hk).
Qed.

Lemma stack_box_apart t u :
  tracked s t → tracked s u → apart (kt_stack t) STACK_SIZE (kt_box u) 32.
Proof.
  intros Ht Hu. destruct (ow_blocks _ _ Ho t Ht) as [Ht1 _], (ow_blocks _ _ Ho u Hu) as [_ Hu2].
  apply (proj2 Hlive _ _ _ _ Ht1 Hu2). intros Heq. rewrite Heq, Hu2 in Ht1.
  discriminate Ht1.
Qed.

Lemma stack_stack_apart t u :
  tracked s t → tracked s u → kt_id t ≠ kt_id u →
  apart (kt_stack t) STACK_SIZE (kt_stack u) STACK_SIZE ∧ apart (kt_box t) 32 (kt_box u) 32.
Proof.
  intros Ht Hu Hne. destruct (ow_distinct _ _ Ho t u Ht Hu Hne) as [N1 N2].
  destruct (ow_blocks _ _ Ho t Ht) as [Ht1 Ht2], (ow_blocks _ _ Ho u Hu) as [Hu1 Hu2].
  split; [apply (proj2 Hlive _ _ _ _ Ht1 Hu1 N1)|apply (proj2 Hlive _ _ _ _ Ht2 Hu2 N2)].
Qed.

Context (next : Z) (Hq : queue_ok s next).

(** Case analysis on a valid id: the bootstrap thread or a tracked one. *)
Lemma valid_cases i :
  valid s i →
  (i = BOOTSTRAP_ID ∧ ctx_addr s i = bootstrap_context ∧ stack_lo s i = boot_lo ∧
     stack_hi s i = boot_hi) ∨
  (∃ t, threads s !! i = Some t ∧ i ≠ BOOTSTRAP_ID ∧ kt_id t = i ∧ tracked s t ∧
     ctx_addr s i = kt_box t + ctx_offset ∧ stack_lo s i = kt_stack t ∧
     stack_hi s i = kt_stack t + STACK_SIZE).
Proof.
  unfold ctx_addr, stack_lo, stack_hi. intros [->|[t Ht]].
  - left. done.
  - right. exists t. destruct (qk_ids _ _ Hq i t Ht) as [Hid Hr].
    assert (i ≠ BOOTSTRAP_ID) as Hne by (unfold BOOTSTRAP_ID; lia).
    rewrite (proj2 (Z.eqb_neq _ _) Hne), Ht. split_and!; try done. left. by rewrite Hid.
Qed.

(** A context word lies outside every stack. *)
Lemma ctx_off_stack i j :
  valid s i → valid s j → ctx_addr s i + 8 <= stack_lo s j ∨ stack_hi s j <= ctx_addr s i.
Proof.
  intros Hi Hj. destruct Hpl as [[_ Hoff] _ P1 P2 P3 _ P4]. unfold apart in *.
  destruct (valid_cases i Hi) as [(_ & -> & _)|(t & _ & _ & _ & Ht & -> & _)];
    destruct (valid_cases j Hj) as [(_ & _ & -> & ->)|(u & _ & _ & _ & Hu & _ & -> & ->)].
  - lia.
  - pose proof (tracked_stack u Hu). lia.
  - pose proof (tracked_box t Ht). lia.
  - pose proof (stack_box_apart u t Hu Ht). unfold apart in *. lia.
Qed.

(** Two threads' stacks do not overlap, and their contexts differ. *)
Lemma stacks_apart i j :
  valid s i → valid s j → i ≠ j →
  (stack_hi s i <= stack_lo s j ∨ stack_hi s j <= stack_lo s i) ∧ ctx_addr s i ≠ ctx_addr s j.
Proof.
  intros Hi Hj Hne. destruct Hpl as [[_ Hoff] _ P1 P2 P3 _ P4]. unfold apart in *.
  destruct (valid_cases i Hi) as [(? & -> & -> & ->)|(t & _ & _ & Hti & Ht & -> & -> & ->)];
    destruct (valid_cases j Hj) as [(? & -> & -> & ->)|(u & _ & _ & Huj & Hu & -> & -> & ->)].
  - congruence.
  - pose proof (tracked_stack u Hu). pose proof (tracked_box u Hu). lia.
  - pose proof (tracked_stack t Ht). pose proof (tracked_box t Ht). lia.
  - destruct (stack_stack_apart t u Ht Hu ltac:(congruence)). unfold apart in *. lia.
Qed.

Lemma ctx_aligned i : valid s i → (8 | ctx_addr s i).
Proof.
  intros Hi. destruct Hpl as [[Hoff _] P _ _ _ _ _].
  destruct (valid_cases i Hi) as [(? & -> & _)|(t & _ & _ & _ & Ht & -> & _)]; [done|].
  apply Z.divide_add_r; [apply (tracked_box t Ht)|done].
Qed.

Lemma stack_bounds i :
  valid s i → 0 <= stack_lo s i ∧ stack_hi s i < u64_modulus - 64.
Proof.
  intros Hi. destruct Hpl as [_ _ _ _ _ P P']. unfold addr_limit, u64_modulus in *.
  destruct (valid_cases i Hi) as [(? & _ & -> & ->)|(t & _ & _ & _ & Ht & _ & -> & ->)]; [lia|].
  pose proof (tracked_stack t Ht). lia.
Qed.
End geometry.

(** What [ctx_addr] and the stacks depend on. *)
Lemma same_place s s' i :
  threads s' !! i = threads s !! i →
  ctx_addr s' i = ctx_addr s i ∧ stack_lo s' i = stack_lo s i ∧ stack_hi s' i = stack_hi s i.
Proof. unfold ctx_addr, stack_lo, stack_hi. by intros ->. Qed.

Lemma holds_mono s s' w w' i c :
  threads s' !! i = threads s !! i →
  (∀ k, k = ctx_addr s i ∨ sc_sp c <= k < stack_hi s i → w' !! k = w !! k) →
  holds s w i c → holds s' w' i c.
Proof.
  intros Ht Hw [H1 H2 H3 Ht' H4]. destruct (same_place s s' i Ht) as (E1 & E2 & E3).
  split; rewrite ?E1, ?E2, ?E3; try done.
  - eapply saved_mono; [|done]. intros k Hk. apply Hw. lia.
  - intros k Hk. rewrite Hw by lia. by apply H4.
Qed.

Lemma context_ptr_ok s i msg :
  valid s i → context_ptr ctx_offset bootstrap_context s i msg = Ok (ctx_addr s i).
Proof.
  unfold context_ptr, ctx_addr. intros [->|[t Ht]]; [done|].
  destruct (i =? BOOTSTRAP_ID); [done|]. by rewrite Ht.
Qed.

(** ** [drain_reaper] *)

Definition drained (s : ThreadScheduler) : ThreadScheduler :=
  mkTS (threads s) (ready s) (current s) None.

(** The blocks left after the parked thread was dropped. *)
Definition freed (s : ThreadScheduler) (live : gmap Z Layout) : gmap Z Layout :=
  match reaper s with
  | Some t => delete (kt_box t) (delete (kt_stack t) live)
  | None => live
  end.

Lemma queue_ok_drained s n : queue_ok s n → queue_ok (drained s) n.
Proof. intros [Q1 Q2 Q3 Q4 Q5 Q6]. split; try done. Qed.

Lemma owns_freed s live n : queue_ok s n → owns s live → owns (drained s) (freed s live).
Proof.
  intros Hq [O1 O2]. assert (∀ t, tracked (drained s) t → tracked s t) as Htr.
  { intros t [Ht|Ht]; [by left|done]. }
  split; [|intros t u Ht Hu; apply O2; auto]. intros t Ht. destruct (O1 t (Htr t Ht)) as [B1 B2].
  unfold freed. destruct (reaper s) as [r|] eqn:Hr; [|done].
  assert (tracked s r) as Hrt by (by right). destruct (O1 r Hrt) as [R1 R2].
  assert (kt_id t ≠ kt_id r) as Hne.
  { intros Heq. destruct Ht as [Ht|Ht]; [|done]. simpl in Ht.
    destruct (qk_reaper _ _ Hq r Hr) as [Hnone _]. rewrite Heq in Ht. congruence. }
  destruct (O2 t r (Htr t Ht) Hrt Hne) as [N1 N2].
  assert (kt_stack t ≠ kt_box r) by (intros E; rewrite E, R2 in B1; discriminate B1).
  assert (kt_box t ≠ kt_stack r) by (intros E; rewrite E, R1 in B2; discriminate B2).
  by rewrite !lookup_delete_ne.
Qed.

Lemma saved_drained s m (sv : gmap Z sctx) :
  (∀ i, i ∈ ready s → ∃ c, sv !! i = Some c ∧ holds s m i c) →
  ∀ i, i ∈ ready s → ∃ c, sv !! i = Some c ∧ holds (drained s) m i c.
Proof.
  intros Hs i Hi. destruct (Hs i Hi) as (c & Hc & Hh). exists c. split; [done|].
  by apply (holds_mono s (drained s) m m).
Qed.

Lemma drain_reaper_spec w live sv :
  tinv w live sv →
  ∃ w', drain_reaper dealloc w = Ok w' ∧ tinv w' (freed (tw_sched w) live) sv ∧
    tw_mach w' = tw_mach w ∧ tw_next_id w' = tw_next_id w ∧ tw_sched w' = drained (tw_sched w).
Proof.
  intros [I1 I2 I3 I4 I5 I6]. pose proof (owns_freed _ _ _ I3 I2) as Ho.
  unfold drain_reaper, freed, parked in *.
  destruct (reaper (tw_sched w)) as [r|] eqn:Hr.
  - destruct (ow_blocks _ _ I2 r (or_intror Hr)) as [R1 R2]. unfold drop_thread.
    cbn [tw_heap with_stats with_sched].
    destruct (ga_dealloc lo hi (tw_heap w) live _ _ I1 R1) as (h1 & -> & Hh1). bstep.
    destruct (ga_dealloc lo hi h1 _ (kt_box r) box_layout Hh1) as (h2 & -> & Hh2).
    { rewrite lookup_delete_ne; [done|]. intros E. rewrite E, R2 in R1. discriminate R1. }
    bstep. eexists. split; [done|]. split; [|done]. split; try done.
    + by apply queue_ok_drained.
    + cbn [with_heap with_stats tw_stats note_thread_exited threads_alive with_sched tw_sched].
      unfold wrapping_sub, parked. rewrite I4, Zminus_mod_idemp_l. f_equal. simpl. lia.
    + exact (saved_drained _ _ _ I5).
  - eexists. split; [done|]. split; [|done]. split; try done.
    + by apply queue_ok_drained.
    + exact (saved_drained _ _ _ I5).
Qed.

(** ** Switching *)

(** The machine continues with context [c]. *)
Record resumed (m : machine) (c : sctx) : Prop := {
  rs_regs : callee m = sc_regs c;
  rs_rip : rip m = sc_ra c;
  rs_sp : regs m RSP = sc_sp c + 56;
}.

Section resume.
Context (s : ThreadScheduler) (live : gmap Z Layout) (n : Z) (m : machine).
Context (Hlive : live_ok lo hi live) (Ho : owns s live) (Hq : queue_ok s n).
Context (Ha : (8 | regs m RSP)).
Context (Hlo : stack_lo s (current s) + 56 <= regs m RSP) (Hhi : regs m RSP <= stack_hi s (current s)).

(** Where the outgoing stack pointer is stored: in the thread's context, or in
    its own stack above the stack pointer. *)
Definition save_slot (p : Z) : Prop :=
  p = ctx_addr s (current s) ∨ (regs m RSP <= p ∧ p + 8 <= stack_hi s (current s)).

Lemma save_slot_apart p i :
  save_slot p → valid s i → i ≠ (current s) →
  p ≠ ctx_addr s i ∧ (p + 8 <= stack_lo s i ∨ stack_hi s i <= p).
Proof.
  intros Hp Hi Hne. pose proof (qk_current _ _ Hq) as Hc.
  destruct (stacks_apart s live Hlive Ho n Hq i (current s) Hi Hc Hne) as [Hs Hx].
  pose proof (ctx_off_stack s live Hlive Ho n Hq i (current s) Hi Hc).
  pose proof (ctx_off_stack s live Hlive Ho n Hq (current s) i Hc Hi).
  pose proof (stack_bounds s live Hlive Ho n Hq (current s) Hc).
  destruct Hp as [->|Hp]; [split; [congruence|lia]|]. split; lia.
Qed.

Lemma resume_spec ret_addr p next c :
  save_slot p → (8 | p) → valid s next → next ≠ (current s) → holds s (mem m) next c →
  ∃ m', call_switch ret_addr p (ctx_addr s next) m = Ok m' ∧ resumed m' c ∧
    (∀ i d, valid s i → i ≠ (current s) → holds s (mem m) i d → holds s (mem m') i d) ∧
    (p = ctx_addr s (current s) →
       holds s (mem m') (current s) (mkSctx (regs m RSP - 56) (callee m) ret_addr (stack_hi s (current s)) (mem m))).
Proof.
  intros Hp Hp8 Hn Hne [Hs Hl Hh _ _]. pose proof (qk_current _ _ Hq) as Hc.
  pose proof (stack_bounds s live Hlive Ho n Hq (current s) Hc) as Hb.
  destruct (save_slot_apart p next Hp Hn Hne) as [Hp1 Hp2].
  destruct (stacks_apart s live Hlive Ho n Hq next (current s) Hn Hc Hne) as [Hsa _].
  pose proof (ctx_off_stack s live Hlive Ho n Hq next (current s) Hn Hc) as Hx.
  destruct (call_switch_spec ret_addr p (ctx_addr s next) (sc_sp c) (sc_regs c) (sc_ra c) m)
    as (m' & Hr & Hv & Hrip & Hsp & Hmem & Hsv); try done; try lia.
  { by apply (ctx_aligned s live Hlive Ho n Hq). }
  exists m'. split; [done|]. split; [done|]. split.
  - intros i d Hi Hic Hd. apply (holds_mono s s (mem m)); [done| |done].
    destruct Hd as [_ Hd1 Hd2 _ _]. destruct (save_slot_apart p i Hp Hi Hic).
    destruct (stacks_apart s live Hlive Ho n Hq i (current s) Hi Hc Hic) as [? _].
    pose proof (ctx_off_stack s live Hlive Ho n Hq i (current s) Hi Hc).
    intros k Hk. apply Hmem; lia.
  - intros ->. pose proof (ctx_off_stack s live Hlive Ho n Hq (current s) (current s) Hc Hc).
    split; simpl; [apply Hsv; lia|lia|lia|done|]. intros k Hk. apply Hmem; lia.
Qed.
End resume.

(** ** [yield_now] *)

Definition rotated (s : ThreadScheduler) (next : Z) (rest : list Z) : ThreadScheduler :=
  mkTS (threads s) (rest ++ [current s]) next (reaper s).

Lemma queue_ok_rotated s n next rest :
  queue_ok s n → ready s = next :: rest → queue_ok (rotated s next rest) n.
Proof.
  intros [Q1 Q2 Q3 Q4 Q5 Q6] Hr. rewrite Hr in *. inversion_clear Q2 as [|? ? Hnin Hnd].
  split; simpl; try done.
  - apply list.NoDup_app. split_and!; [done| |apply NoDup_singleton].
    intros i Hi Hi'. apply list_elem_of_singleton in Hi' as ->. destruct (Q3 (current s)); [by right|done].
  - intros i [Hi|Hi]%elem_of_app.
    + split; [|apply Q3; by right]. intros ->. done.
    + apply list_elem_of_singleton in Hi as ->. split; [|done]. intros E. destruct (Q3 next); [left|congruence].
  - intros i Hi. destruct (Q4 i Hi) as [->|Hin].
    + right. apply elem_of_app. right. by apply list_elem_of_singleton.
    + apply elem_of_cons in Hin as [->|Hin]; [by left|right]. apply elem_of_app. by left.
  - apply Q3. left.
Qed.

Lemma yield_pick_spec s n next rest :
  queue_ok s n → ready s = next :: rest →
  yield_pick ctx_offset bootstrap_context s =
    Ok (Some (ctx_addr s (current s), ctx_addr s next, rotated s next rest)).
Proof.
  intros Hq Hr. unfold yield_pick. rewrite Hr.
  rewrite (context_ptr_ok _ next) by (apply (qk_ready _ _ Hq next); rewrite Hr; left).
  rewrite (context_ptr_ok _ (current s)) by apply (qk_current _ _ Hq). done.
Qed.

Lemma owns_same s s' live :
  threads s' = threads s → reaper s' = reaper s → owns s live → owns s' live.
Proof. intros Ht Hr [O1 O2]. unfold tracked in *. split; unfold tracked; by rewrite Ht, Hr. Qed.

(** A resumed thread is on its own stack again, with room for a switch. *)
Lemma resumed_running w live n c :
  live_ok lo hi live → owns (tw_sched w) live → queue_ok (tw_sched w) n →
  holds (tw_sched w) (mem (tw_mach w)) (current (tw_sched w)) c →
  resumed (tw_mach w) c → running w.
Proof.
  intros Hlive Ho Hq [[_ _ _ Hal _] Hl Hh _ _] [_ _ Hsp]. split; rewrite Hsp.
  - apply Z.divide_add_r; [done|by exists 7].
  - lia.
  - lia.
Qed.

Lemma yield_switch w live sv next rest :
  tinv w live sv → running w → ready (tw_sched w) = next :: rest →
  ∃ m c, call_switch yield_ret (ctx_addr (tw_sched w) (current (tw_sched w)))
      (ctx_addr (tw_sched w) next) (tw_mach w) = Ok m ∧
    sv !! next = Some c ∧ resumed m c ∧ holds (tw_sched w) (mem m) next c ∧
    let w' := with_mach m (with_sched (rotated (tw_sched w) next rest) w) in
    tinv w' live (<[current (tw_sched w) :=
      mkSctx (regs (tw_mach w) RSP - 56) (callee (tw_mach w)) yield_ret
        (stack_hi (tw_sched w) (current (tw_sched w))) (mem (tw_mach w))]> sv) ∧ running w'.
Proof.
  intros [I1 I2 I3 I4 I5 I6] [R1 R2 R3] Hr. set (s := tw_sched w) in *.
  pose proof (ga_live _ _ _ _ I1) as Hlive. pose proof (qk_current _ _ I3) as Hcur.
  destruct (qk_ready _ _ I3 next) as [Hne Hv]; [rewrite Hr; left|].
  destruct (I5 next) as (c & Hc & Hh); [rewrite Hr; left|].
  destruct (resume_spec s live _ (tw_mach w) Hlive I2 I3 R1 R2 R3 yield_ret
    (ctx_addr s (current s)) next c) as (m & Hsw & Hres & Hkeep & Hnew); try done.
  { by left. }
  { by apply (ctx_aligned s live Hlive I2 _ I3). }
  pose proof (queue_ok_rotated s _ next rest I3 Hr) as Hq'.
  assert (holds s (mem m) next c) as Hn' by (by apply Hkeep).
  exists m, c. do 4 (split; [done|]).
  assert (owns (rotated s next rest) live) as Ho' by (by apply (owns_same s)).
  cbv zeta. split.
  - split; try done. simpl. intros i Hi. destruct (decide (i = current s)) as [->|Hic].
    + eexists. rewrite lookup_insert_eq. split; [done|].
      by apply (holds_mono s _ (mem m)); [| |apply Hnew].
    + apply elem_of_app in Hi as [Hi|Hi]; [|by apply list_elem_of_singleton in Hi].
      assert (i ∈ ready s) as Hir by (rewrite Hr; by right).
      destruct (I5 i Hir) as (d & Hd & Hh'). exists d. rewrite lookup_insert_ne by done.
      split; [done|]. apply (holds_mono s _ (mem m)); [done|done|].
      apply Hkeep; [apply (qk_ready _ _ I3 i Hir)|done|done].
  - apply (resumed_running _ live (tw_next_id w) c); try done.
    by apply (holds_mono s _ (mem m)).
Qed.

Lemma yield_now_spec w live sv :
  tinv w live sv → running w →
  ∃ w', yield_now dealloc ctx_offset bootstrap_context yield_ret w = Ok w' ∧ running w' ∧
  match ready (tw_sched w) with
  | [] => tinv w' (freed (tw_sched w) live) sv ∧ tw_mach w' = tw_mach w ∧
      tw_sched w' = drained (tw_sched w)
  | next :: rest =>
      let c0 := mkSctx (regs (tw_mach w) RSP - 56) (callee (tw_mach w)) yield_ret
        (stack_hi (tw_sched w) (current (tw_sched w))) (mem (tw_mach w)) in
      tinv w' (freed (tw_sched w) live) (<[current (tw_sched w) := c0]> sv) ∧
      tw_sched w' = rotated (drained (tw_sched w)) next rest ∧
      ∃ c, sv !! next = Some c ∧ resumed (tw_mach w') c ∧
        holds (tw_sched w') (mem (tw_mach w')) next c
  end.
Proof.
  intros Hinv Hrun. destruct (drain_reaper_spec w live sv Hinv) as (w1 & Hd & Hinv1 & Hm & Hn & Hs).
  assert (running w1) as Hrun1.
  { destruct Hrun as [R1 R2 R3]. split; rewrite ?Hm, ?Hs; done. }
  unfold yield_now. rewrite Hd. bstep. rewrite Hs.
  destruct (ready (tw_sched w)) as [|next rest] eqn:Hr.
  - unfold yield_pick. cbn [drained ready]. rewrite Hr. bstep. exists w1. done.
  - assert (ready (tw_sched w1) = next :: rest) as Hr1 by (by rewrite Hs).
    rewrite (yield_pick_spec _ _ next rest) by (rewrite <- Hs; try done; apply Hinv1). bstep.
    destruct (yield_switch w1 _ _ next rest Hinv1 Hrun1 Hr1)
      as (m & c & Hsw & Hc & Hres & Hhold & Hinv2 & Hrun2).
    rewrite Hs in Hsw. rewrite Hsw. bstep. rewrite Hs, Hm in *.
    eexists. split; [done|]. split; [done|]. cbv zeta. split; [done|]. split; [done|].
    exists c. split_and!; [done..|]. by apply (holds_mono (drained (tw_sched w)) _ (mem m)).
Qed.

(** ** [exit_thread] *)

(** The scheduler after the running thread left: its box is parked, unless it
    was the bootstrap thread, which has none. *)
Definition exited (s : ThreadScheduler) (next : Z) (rest : list Z) : ThreadScheduler :=
  if current s =? BOOTSTRAP_ID then mkTS (threads s) rest next None
  else mkTS (delete (current s) (threads s)) rest next (threads s !! current s).

Lemma bootstrap_untracked s n : queue_ok s n → threads s !! BOOTSTRAP_ID = None.
Proof.
  intros Hq. destruct (threads s !! BOOTSTRAP_ID) as [t|] eqn:Ht; [|done].
  destruct (qk_ids _ _ Hq _ _ Ht) as [_ ?]. unfold BOOTSTRAP_ID in *. lia.
Qed.

(** The threads left are the others. *)
Lemma exited_threads s n next rest i :
  queue_ok s n → threads (exited s next rest) !! i = if decide (i = current s) then None else threads s !! i.
Proof.
  intros Hq. unfold exited. destruct (Z.eqb_spec (current s) BOOTSTRAP_ID) as [E|E]; simpl.
  - destruct (decide (i = current s)) as [->|]; [|done]. rewrite E. by eapply bootstrap_untracked.
  - destruct (decide (i = current s)) as [->|Hne]; [apply lookup_delete_eq|by apply lookup_delete_ne].
Qed.

Lemma exited_shape s next rest :
  ready (exited s next rest) = rest ∧ current (exited s next rest) = next.
Proof. unfold exited. by destruct (_ =? _). Qed.

Lemma exited_reaper s n next rest t :
  queue_ok s n → reaper (exited s next rest) = Some t →
  threads s !! current s = Some t ∧ kt_id t = current s.
Proof.
  intros Hq. unfold exited. destruct (_ =? _); simpl; [done|]. intros Ht. split; [done|].
  apply (qk_ids _ _ Hq _ _ Ht).
Qed.

Lemma queue_ok_exited s n next rest :
  queue_ok s n → ready s = next :: rest → queue_ok (exited s next rest) n.
Proof.
  intros Hq Hr. pose proof Hq as [Q1 Q2 Q3 Q4 Q5 Q6].
  destruct (exited_shape s next rest) as [E1 E2]. rewrite Hr in *.
  inversion_clear Q2 as [|? ? Hnin Hnd].
  assert (∀ i, i ∈ next :: rest → valid (exited s next rest) i) as Hval.
  { intros i Hi. destruct (Q3 i Hi) as [Hne [->|Hs]]; [by left|right].
    rewrite (exited_threads s n) by done. by rewrite decide_False. }
  split; rewrite ?E1, ?E2; try done.
  - intros i t. rewrite (exited_threads s n) by done. case_decide; [done|]. apply Q1.
  - intros i Hi. split; [|apply Hval; by right]. intros ->. done.
  - intros i. rewrite (exited_threads s n) by done. case_decide; [by intros [? ?]|].
    intros Hs. destruct (Q4 i Hs) as [|Hin]; [done|]. by apply elem_of_cons in Hin.
  - apply Hval. left.
  - intros t Ht. destruct (exited_reaper s n next rest t Hq Ht) as [Hc Hid].
    rewrite (exited_threads s n), Hid, decide_True by done. split; [done|].
    destruct (Q1 _ _ Hc). lia.
Qed.

Lemma owns_exited s n live next rest :
  queue_ok s n → owns s live → owns (exited s next rest) live.
Proof.
  intros Hq [O1 O2]. assert (∀ t, tracked (exited s next rest) t → tracked s t) as Htr.
  { intros t [Ht|Ht].
    - rewrite (exited_threads s n) in Ht by done. case_decide; [done|]. by left.
    - destruct (exited_reaper s n next rest t Hq Ht) as [Hc Hid]. left. by rewrite Hid. }
  split; [auto|]. intros t u Ht Hu. apply O2; auto.
Qed.

Lemma exited_alive s n next rest :
  queue_ok s n → reaper s = None →
  Z.of_nat (size (threads (exited s next rest))) + parked (exited s next rest)
    = Z.of_nat (size (threads s)) + parked s.
Proof.
  intros Hq Hr. unfold exited, parked. rewrite Hr.
  destruct (Z.eqb_spec (current s) BOOTSTRAP_ID) as [E|E]; [done|]. simpl.
  destruct (qk_current _ _ Hq) as [|[t Ht]]; [done|]. rewrite Ht.
  rewrite map_size_delete_Some by eauto.
  assert (size (threads s) ≠ 0%nat); [|lia].
  intros E0. apply map_size_empty_inv in E0. rewrite E0 in Ht. done.
Qed.

Lemma exit_pick_spec s n next rest :
  queue_ok s n → reaper s = None → ready s = next :: rest →
  exit_pick ctx_offset bootstrap_context s = Ok (ctx_addr s next, exited s next rest).
Proof.
  intros Hq Hrp Hr. unfold exit_pick, exited.
  destruct (qk_ready _ _ Hq next) as [Hne Hv]; [rewrite Hr; left|].
  destruct (Z.eqb_spec (current s) BOOTSTRAP_ID) as [E|E]; bstep.
  - rewrite Hr. rewrite context_ptr_ok by done. bstep. by rewrite Hrp.
  - destruct (qk_current _ _ Hq) as [|[t Ht]]; [done|]. rewrite Ht, Hrp.
    rewrite (bool_decide_eq_true_2 (None = None)) by done. cbn [rust_assert]. bstep.
    cbn [ready threads reaper current]. rewrite Hr. unfold context_ptr, ctx_addr. cbn [threads].
    destruct (Z.eqb_spec next BOOTSTRAP_ID); [done|]. rewrite lookup_delete_ne by done.
    destruct Hv as [|[u Hu]]; [done|]. by rewrite Hu.
Qed.

(** Writing the throwaway context in the running thread's own frame. *)
Lemma scratch_holds w live sv scratch i c :
  tinv w live sv → save_slot (tw_sched w) (tw_mach w) scratch →
  stack_lo (tw_sched w) (current (tw_sched w)) + 56 <= regs (tw_mach w) RSP →
  valid (tw_sched w) i → i ≠ current (tw_sched w) →
  holds (tw_sched w) (mem (tw_mach w)) i c →
  holds (tw_sched w) (<[scratch := 0]> (mem (tw_mach w))) i c.
Proof.
  intros [I1 I2 I3 _ _ _] Hs Hlo Hv Hne Hh. pose proof (ga_live _ _ _ _ I1) as Hlive.
  destruct (save_slot_apart _ live _ (tw_mach w) Hlive I2 I3 Hlo scratch i Hs Hv Hne) as [? ?].
  pose proof Hh as [_ Hl1 Hl2 _ _]. apply (holds_mono (tw_sched w) _ (mem (tw_mach w))); [done| |done].
  intros k Hk. apply lookup_insert_ne. lia.
Qed.

Lemma exit_switch w live sv next rest scratch :
  tinv w live sv → running w → reaper (tw_sched w) = None →
  ready (tw_sched w) = next :: rest →
  (8 | scratch) → regs (tw_mach w) RSP <= scratch →
  scratch + 8 <= stack_hi (tw_sched w) (current (tw_sched w)) →
  ∃ m c, (m ← store scratch 0 (tw_mach w);
          call_switch exit_ret scratch (ctx_addr (tw_sched w) next) m) = Ok m ∧
    sv !! next = Some c ∧ resumed m c ∧ holds (exited (tw_sched w) next rest) (mem m) next c ∧
    let w' := with_mach m (with_sched (exited (tw_sched w) next rest) w) in
    tinv w' live sv ∧ running w'.
Proof.
  intros Hinv [R1 R2 R3] Hrp Hr Hs8 Hs1 Hs2. pose proof Hinv as [I1 I2 I3 I4 I5 I6].
  pose proof (ga_live _ _ _ _ I1) as Hlive.
  assert (save_slot (tw_sched w) (tw_mach w) scratch) as Hslot by (right; done).
  destruct (qk_ready _ _ I3 next) as [Hne Hv]; [rewrite Hr; left|].
  destruct (I5 next) as (c & Hc & Hh); [rewrite Hr; left|].
  assert (∀ i d, valid (tw_sched w) i → i ≠ current (tw_sched w) →
    holds (tw_sched w) (mem (tw_mach w)) i d →
    holds (tw_sched w) (<[scratch := 0]> (mem (tw_mach w))) i d) as Hsc
    by (intros; by eapply scratch_holds).
  unfold store. rewrite aligned_mod by done. bstep. set (m1 := set_mem _ _).
  destruct (resume_spec (tw_sched w) live _ m1 Hlive I2 I3 R1 R2 R3 exit_ret
    scratch next c Hslot) as (m & Hsw & Hres & Hkeep & _); [done..|by apply Hsc|].
  pose proof (queue_ok_exited _ _ next rest I3 Hr) as Hq'.
  pose proof (owns_exited _ _ live next rest I3 I2) as Ho'.
  destruct (exited_shape (tw_sched w) next rest) as [E1 E2].
  assert (∀ i d, i ∈ next :: rest → holds (tw_sched w) (mem (tw_mach w)) i d →
    holds (exited (tw_sched w) next rest) (mem m) i d) as Hall.
  { rewrite <- Hr. intros i d Hi Hd. destruct (qk_ready _ _ I3 i Hi) as [Hni Hvi].
    apply (holds_mono (tw_sched w) _ (mem m)); [|done|by apply Hkeep; [| |apply Hsc]].
    rewrite (exited_threads _ (tw_next_id w)) by done. by rewrite decide_False. }
  exists m, c. do 3 (split; [done|]). split; [apply Hall; [left|done]|]. cbv zeta. split.
  - split; try done.
    + simpl. rewrite I4. f_equal. symmetry. by eapply exited_alive.
    + simpl. rewrite E1. intros i Hi. destruct (I5 i) as (d & Hd & Hhd); [rewrite Hr; by right|].
      exists d. split; [done|]. apply Hall; [by right|done].
  - apply (resumed_running _ live (tw_next_id w) c); try done.
    simpl. rewrite E2. apply Hall; [left|done].
Qed.

Lemma exit_thread_spec w live sv next rest scratch :
  tinv w live sv → running w → ready (tw_sched w) = next :: rest →
  (8 | scratch) → regs (tw_mach w) RSP <= scratch →
  scratch + 8 <= stack_hi (tw_sched w) (current (tw_sched w)) →
  ∃ w', exit_thread dealloc ctx_offset bootstrap_context exit_ret scratch w = Ok w' ∧
    running w' ∧ tinv w' (freed (tw_sched w) live) sv ∧
    tw_sched w' = exited (drained (tw_sched w)) next rest ∧
    ∃ c, sv !! next = Some c ∧ resumed (tw_mach w') c ∧
      holds (tw_sched w') (mem (tw_mach w')) next c.
Proof.
  intros Hinv Hrun Hr Hs8 Hs1 Hs2.
  destruct (drain_reaper_spec w live sv Hinv) as (w1 & Hd & Hinv1 & Hm & Hn & Hs).
  assert (running w1) as Hrun1.
  { destruct Hrun as [R1 R2 R3]. split; rewrite ?Hm, ?Hs; done. }
  assert (ready (tw_sched w1) = next :: rest) as Hr1 by (by rewrite Hs).
  destruct (exit_switch w1 _ _ next rest scratch Hinv1 Hrun1) as (m & c & Hsw & Hc & Hres & Hhold & Hinv2 & Hrun2);
    rewrite ?Hm, ?Hs; try done.
  unfold exit_thread. rewrite Hd. bstep.
  rewrite (exit_pick_spec _ (tw_next_id w1) next rest) by (try apply Hinv1; by rewrite Hs). bstep.
  apply bind_inv in Hsw as (m1 & Hst & Hsw). rewrite Hm in Hst |- *. rewrite Hst. bstep.
  rewrite Hsw. bstep. rewrite Hs in *. eexists. split; [done|]. split_and!; [done..|]. eauto.
Qed.

(** ** [spawn] *)

Lemma box_new_spec w live l :
  ga_inv lo hi (tw_heap w) live → request_ok l →
  box_new alloc scribble l w = Panic "memory allocation failed" ∨
  ∃ p h, box_new alloc scribble l w = Ok (p, with_heap h w) ∧ live !! p = None ∧
    ga_inv lo hi h (<[p := l]> live).
Proof.
  intros Hi Hl. unfold box_new.
  destruct (ga_alloc lo hi (tw_heap w) live l Hi Hl) as (p & h & -> & [[-> _]|(Hp & Hn & Hi')]);
    bstep; [by left|right]. rewrite (proj2 (Z.eqb_neq _ _) Hp).
  eexists p, _. split; [done|]. split; [done|].
  apply (ga_write lo hi h _ p l); [done|apply lookup_insert_eq|lia| |lia].
  destruct Hl as [_ ?]. lia.
Qed.

Lemma stack_request : request_ok stack_layout.
Proof.
  split; [|done]. split_and!; [done|apply (is_pow2_lit 0); lia|].
  unfold stack_layout, STACK_SIZE, isize_max. simpl. lia.
Qed.

Lemma box_request : request_ok box_layout.
Proof. split; [|done]. split_and!; [done|apply (is_pow2_lit 3); lia|done]. Qed.

Lemma KernelThread_new_spec entry w live :
  ga_inv lo hi (tw_heap w) live → tw_next_id w + 1 < u64_modulus → 0 <= tw_next_id w →
  KernelThread_new alloc scribble entry w = Panic "memory allocation failed" ∨
  ∃ stack h, KernelThread_new alloc scribble entry w =
      Ok (tw_next_id w, initial_sp stack, stack,
          mkTW (tw_sched w) (tw_stats w) (tw_next_id w + 1) h
            (set_mem (fresh_stack stack entry (mem (tw_mach w))) (tw_mach w))) ∧
    live !! stack = None ∧ ga_inv lo hi h (<[stack := stack_layout]> live).
Proof.
  intros Hi Hn Hn0. unfold KernelThread_new.
  destruct (box_new_spec w live stack_layout Hi stack_request) as [->|(p & h & -> & Hp & Hi')];
    [by left|right]. bstep. exists p, h. split; [|done].
  destruct (proj1 (ga_live _ _ _ _ Hi') p stack_layout) as (H1 & H2 & _); [apply lookup_insert_eq|].
  change (l_size stack_layout) with STACK_SIZE in H2. destruct Hpl as [_ _ _ _ _ [P1 P2] _].
  unfold addr_limit in *. assert (p + STACK_SIZE < u64_modulus) by (unfold u64_modulus; lia).
  rewrite add_u64_ok by done. bstep. rewrite stack_top_mask by lia.
  destruct (initial_sp_bounds p ltac:(lia)) as (_ & Hal & Hb1 & Hb2).
  rewrite sub_u64_ok by lia. bstep. unfold store.
  assert (8 | initial_sp p + 56 - 8).
  { replace (initial_sp p + 56 - 8) with (initial_sp p + 48) by lia.
    apply Z.divide_add_r; [done|by exists 6]. }
  rewrite aligned_mod by done. bstep. rewrite reserve_slots_ok by (done || lia). bstep.
  unfold ThreadId_new. cbn [tw_next_id with_mach with_heap]. rewrite wrapping_add_ok by lia.
  by replace (initial_sp p + 56 - 8 - 8 * Z.of_nat 6) with (initial_sp p) by lia.
Qed.

Definition spawned (s : ThreadScheduler) (t : KernelThread) : ThreadScheduler :=
  mkTS (<[kt_id t := t]> (threads s)) (ready s ++ [kt_id t]) (current s) (reaper s).

Lemma fresh_id s n : queue_ok s n → 1 <= n →
  threads s !! n = None ∧ n ∉ ready s ∧ current s ≠ n.
Proof.
  intros Hq Hn. assert (threads s !! n = None) as Hnone.
  { destruct (threads s !! n) eqn:E; [|done]. destruct (qk_ids _ _ Hq _ _ E). lia. }
  assert (¬ valid s n) as Hnv.
  { intros [->|[t Ht]]; [unfold BOOTSTRAP_ID in *; lia|congruence]. }
  split_and!; [done| |].
  - intros Hin. by destruct (qk_ready _ _ Hq n Hin).
  - intros <-. by apply Hnv, (qk_current _ _ Hq).
Qed.

Lemma queue_ok_spawned s n t :
  queue_ok s n → 1 <= n → kt_id t = n → queue_ok (spawned s t) (n + 1).
Proof.
  intros Hq Hn Hid. destruct (fresh_id s n Hq Hn) as (F1 & F2 & F3).
  destruct Hq as [Q1 Q2 Q3 Q4 Q5 Q6]. unfold spawned. rewrite Hid.
  assert (∀ i, valid s i → valid (mkTS (<[n := t]> (threads s)) (ready s ++ [n]) (current s) (reaper s)) i)
    as Hval.
  { intros i [->|[u Hu]]; [by left|right]. simpl.
    rewrite lookup_insert_ne by congruence. by rewrite Hu. }
  split; simpl.
  - intros i u Hu. apply lookup_insert_Some in Hu as [[<- <-]|[_ Hu]]; [lia|].
    destruct (Q1 i u Hu). lia.
  - apply list.NoDup_app. split_and!; [done| |apply NoDup_singleton].
    intros i Hi Hi'. apply list_elem_of_singleton in Hi' as ->. done.
  - intros i [Hi|Hi]%elem_of_app.
    + destruct (Q3 i Hi). auto.
    + apply list_elem_of_singleton in Hi as ->. split; [done|]. right. simpl.
      rewrite lookup_insert_eq. done.
  - intros i Hi. destruct (decide (i = n)) as [->|Hne].
    + right. apply elem_of_app. right. by apply list_elem_of_singleton.
    + rewrite lookup_insert_ne in Hi by done. destruct (Q4 i Hi); [by left|right].
      apply elem_of_app. by left.
  - auto.
  - intros u Hu. destruct (Q6 u Hu). rewrite lookup_insert_ne by lia. split; [done|lia].
Qed.

Lemma owns_spawned s n live t :
  queue_ok s n → 1 <= n → kt_id t = n → owns s live →
  live !! kt_stack t = None → <[kt_stack t := stack_layout]> live !! kt_box t = None →
  owns (spawned s t) (<[kt_box t := box_layout]> (<[kt_stack t := stack_layout]> live)).
Proof.
  intros Hq Hn Hid [O1 O2] Hs Hb. apply lookup_insert_None in Hb as [Hb Hsb].
  assert (∀ u, tracked (spawned s t) u → u = t ∨ (tracked s u ∧ kt_id u ≠ n)) as Hcase.
  { unfold spawned. rewrite Hid. intros u [Hu|Hu]; simpl in Hu.
    - apply lookup_insert_Some in Hu as [[_ ?]|[Hne Hu]]; [by left|right].
      split; [by left|congruence].
    - right. split; [by right|]. destruct (qk_reaper _ _ Hq u Hu). lia. }
  assert (∀ u, tracked s u → kt_stack u ≠ kt_stack t ∧ kt_stack u ≠ kt_box t ∧
    kt_box u ≠ kt_stack t ∧ kt_box u ≠ kt_box t) as Hnew.
  { intros u Hu. destruct (O1 u Hu). split_and!; congruence. }
  split.
  - intros u Hu. destruct (Hcase u Hu) as [->|[Hu' _]].
    + rewrite lookup_insert_eq. split; [|done]. rewrite lookup_insert_ne by congruence.
      apply lookup_insert_eq.
    + destruct (Hnew u Hu') as (? & ? & ? & ?). rewrite !lookup_insert_ne by congruence. auto.
  - intros u v Hu Hv Huv. destruct (Hcase u Hu) as [->|[Hu' _]], (Hcase v Hv) as [->|[Hv' _]].
    + done.
    + destruct (Hnew v Hv') as (? & ? & ? & ?). split; congruence.
    + destruct (Hnew u Hu') as (? & ? & ? & ?). split; congruence.
    + auto.
Qed.

(** The memory after [spawn] still holds every suspended context, and the new
    thread's. *)
Section spawn_mem.
Context (s : ThreadScheduler) (live : gmap Z Layout) (n : Z) (t : KernelThread) (entry : Z).
Context (Hq : queue_ok s n) (Hn : 1 <= n) (Hid : kt_id t = n).
Context (Hlive : live_ok lo hi live) (Ho : owns (spawned s t) live).

Definition spawn_mem (w : gmap Z Z) : gmap Z Z :=
  <[kt_box t + ctx_offset := initial_sp (kt_stack t)]> (fresh_stack (kt_stack t) entry w).

Lemma spawned_place :
  valid (spawned s t) n ∧ ctx_addr (spawned s t) n = kt_box t + ctx_offset ∧
  stack_lo (spawned s t) n = kt_stack t ∧ stack_hi (spawned s t) n = kt_stack t + STACK_SIZE.
Proof.
  assert (threads (spawned s t) !! n = Some t) as Ht
    by (unfold spawned; rewrite Hid; apply lookup_insert_eq).
  unfold valid, ctx_addr, stack_lo, stack_hi.
  rewrite (proj2 (Z.eqb_neq n BOOTSTRAP_ID)) by (unfold BOOTSTRAP_ID; lia). rewrite Ht.
  split; [right; eauto|done].
Qed.

Lemma spawn_holds_new w :
  holds (spawned s t) (spawn_mem w) n
    (mkSctx (initial_sp (kt_stack t)) (replicate 6 0) entry (kt_stack t + STACK_SIZE) (spawn_mem w)).
Proof.
  destruct spawned_place as (Hv & E1 & E2 & E3).
  pose proof (queue_ok_spawned s n t Hq Hn Hid) as Hq'.
  pose proof (stack_bounds _ live Hlive Ho _ Hq' n Hv) as Hb.
  pose proof (ctx_off_stack _ live Hlive Ho _ Hq' n n Hv Hv) as Hx.
  rewrite E2, E3 in Hb. rewrite E1, E2, E3 in Hx.
  destruct (initial_sp_bounds (kt_stack t)) as (_ & Hal & Hb1 & Hb2); [lia|].
  split; rewrite ?E1, ?E2, ?E3; cbn [sc_sp sc_regs sc_ra sc_top sc_mem]; [|lia|lia|done|done]. split; try done; [| |lia].
  - apply lookup_insert_eq.
  - apply (words_at_same (fresh_stack (kt_stack t) entry w)); [|apply fresh_stack_words].
    intros k Hk. apply lookup_insert_ne. unfold len8 in Hk. simpl in Hk. lia.
Qed.

Lemma spawn_holds_old w i c :
  valid s i → holds s w i c → holds (spawned s t) (spawn_mem w) i c.
Proof.
  intros Hi Hh. destruct spawned_place as (Hv & E1 & E2 & E3).
  pose proof (queue_ok_spawned s n t Hq Hn Hid) as Hq'.
  destruct (fresh_id s n Hq Hn) as (F1 & F2 & F3).
  assert (i ≠ n) as Hne.
  { intros ->. destruct Hi as [->|[? ?]]; [unfold BOOTSTRAP_ID in *; lia|congruence]. }
  assert (threads (spawned s t) !! i = threads s !! i) as Ht
    by (unfold spawned; rewrite Hid; by apply lookup_insert_ne).
  assert (valid (spawned s t) i) as Hi' by (unfold valid; by rewrite Ht).
  destruct (same_place s (spawned s t) i Ht) as (G1 & G2 & G3).
  destruct (stacks_apart _ live Hlive Ho _ Hq' i n Hi' Hv Hne) as [A1 A2].
  pose proof (ctx_off_stack _ live Hlive Ho _ Hq' i n Hi' Hv) as A3.
  pose proof (ctx_off_stack _ live Hlive Ho _ Hq' n i Hv Hi') as A4.
  pose proof (stack_bounds _ live Hlive Ho _ Hq' n Hv) as A5.
  rewrite ?E1, ?E2, ?E3, ?G1, ?G2, ?G3 in *.
  pose proof Hh as [_ B1 B2 _ _]. apply (holds_mono s _ w); [done| |done].
  intros k Hk. unfold spawn_mem. rewrite lookup_insert_ne by lia. apply fresh_stack_other; lia.
Qed.
End spawn_mem.

Lemma spawn_spec entry process w live sv :
  tinv w live sv → tw_next_id w + 1 < u64_modulus →
  spawn alloc scribble ctx_offset entry process w = Panic "memory allocation failed" ∨
  ∃ w' t, let c := mkSctx (initial_sp (kt_stack t)) (replicate 6 0) entry
      (kt_stack t + STACK_SIZE) (mem (tw_mach w')) in
    let live' := <[kt_box t := box_layout]> (<[kt_stack t := stack_layout]> live) in
    spawn alloc scribble ctx_offset entry process w = Ok (tw_next_id w, w') ∧
    kt_id t = tw_next_id w ∧ kt_process t = process ∧ 0 <= kt_stack t ∧
    tw_sched w' = spawned (tw_sched w) t ∧
    regs (tw_mach w') = regs (tw_mach w) ∧ rip (tw_mach w') = rip (tw_mach w) ∧
    (tw_next_id w' = tw_next_id w + 1 ∧ live !! kt_stack t = None ∧ live !! kt_box t = None) ∧
    tinv w' live' (<[tw_next_id w := c]> sv).
Proof.
  intros [I1 I2 I3 I4 I5 I6] Hn. unfold spawn.
  destruct (KernelThread_new_spec entry w live I1 Hn ltac:(lia)) as [->|(stack & h & -> & Hs & Hh)];
    [by left|]. bstep. set (w1 := mkTW _ _ _ _ _).
  destruct (box_new_spec w1 (<[stack := stack_layout]> live) box_layout Hh box_request)
    as [->|(box & h2 & -> & Hb & Hh2)]; [by left|right]. bstep.
  set (n := tw_next_id w) in *. set (t := mkThread n process box stack).
  set (live' := <[box := box_layout]> (<[stack := stack_layout]> live)) in *.
  pose proof (ga_live _ _ _ _ Hh2) as Hlive.
  pose proof (owns_spawned (tw_sched w) n live t I3 I6 eq_refl I2 Hs Hb) as Ho.
  destruct (fresh_id (tw_sched w) n I3 I6) as (F1 & F2 & F3).
  destruct (proj1 Hlive box box_layout) as (_ & _ & Hb8); [apply lookup_insert_eq|].
  destruct (proj1 Hlive stack stack_layout) as (Hs0 & _).
  { unfold live'. apply lookup_insert_None in Hb as [_ ?].
    rewrite lookup_insert_ne by congruence. apply lookup_insert_eq. }
  unfold store. rewrite aligned_mod by (apply Z.divide_add_r; [done|apply Hpl]). bstep.
  rewrite (bool_decide_eq_true_2 _ F1). cbn [rust_assert]. bstep.
  eexists _, t. cbv zeta. split; [done|]. split; [done|]. split; [done|].
  split; [destruct Hpl as [_ _ _ _ _ P _]; simpl; lia|]. split; [done|]. split; [done|]. split; [done|].
  split; [by apply lookup_insert_None in Hb as [? _]|].
  split; try done; cbn -[Z.add size].
  - by apply queue_ok_spawned.
  - unfold wrapping_add. rewrite I4, Zplus_mod_idemp_l. f_equal.
    rewrite map_size_insert_None by done. unfold parked. simpl. lia.
  - intros i [Hi|Hi]%elem_of_app.
    + destruct (I5 i Hi) as (c & Hc & Hhd). exists c.
      rewrite lookup_insert_ne by congruence. split; [done|].
      by apply (spawn_holds_old (tw_sched w) live' n t entry); try done; apply I3.
    + apply list_elem_of_singleton in Hi as ->. eexists. rewrite lookup_insert_eq.
      split; [done|]. by apply (spawn_holds_new (tw_sched w) live' n t entry).
  - lia.
Qed.
End inv.
