(* ===== verification/ThreadHeap.v ===== *)
(** * Threads on the kernel's heap, block by block

    [spawn] takes a stack and a box from the heap, the reaper gives them back.
    Here the heap is followed exactly, through the reference allocator that
    FixedSizeBlock.v proves equivalent: which addresses a thread gets, and
    that a [spawn] for which the reference has room cannot run out of
    memory. *)

From Stdlib Require Import ZArith Lia.
From stdpp Require Import base gmap list strings numbers.
From S2P Require Import Prelude AllocMod FixedSizeBlock Scheduler Machine Thread ThreadInv.

Open Scope Z_scope.

Lemma bind_panic {X Y} (m : outcome X) (f : X → outcome Y) msg :
  (x ← m; f x) = Panic msg → m = Panic msg ∨ ∃ x, m = Ok x ∧ f x = Panic msg.
Proof. destruct m as [x|s| |]; cbn; eauto; intros [= ->]; by left. Qed.

Section thread_heap.
Context (ctx_offset bootstrap_context yield_ret exit_ret : Z).

Abbreviation Implements := (Fixed.implements HEAP_START (HEAP_START + HEAP_SIZE)).
Abbreviation world := (tworld Fixed.fworld).
Abbreviation Spawn := (spawn Fixed.alloc Fixed.scribble ctx_offset).

(** The addresses of the stack and of the box of the next thread, and the
    reference after its [spawn]; the reference after its end. *)
Definition spawn_ref (r : Fixed.fref) : Z * Z * Fixed.fref :=
  let '(stack, r) := Fixed.ref_alloc r stack_layout in
  let '(box, r) := Fixed.ref_alloc r box_layout in
  (stack, box, r).

Definition has_room (r : Fixed.fref) : bool :=
  let '(stack, box, _) := spawn_ref r in negb (stack =? 0) && negb (box =? 0).

Definition drop_ref (t : KernelThread) (r : Fixed.fref) : Fixed.fref :=
  Fixed.ref_dealloc (Fixed.ref_dealloc r (kt_stack t) stack_layout) (kt_box t) box_layout.

(** The blocks out, with a thread's, and without. *)
Definition with_thread (t : KernelThread) (live : gmap Z Layout) : gmap Z Layout :=
  <[kt_box t := box_layout]> (<[kt_stack t := stack_layout]> live).

Definition without_thread (t : KernelThread) (live : gmap Z Layout) : gmap Z Layout :=
  delete (kt_box t) (delete (kt_stack t) live).

Lemma box_new_ref (w : world) live r l p r' :
  Implements (tw_heap w) live r → request_ok l → Fixed.ref_alloc r l = (p, r') → p ≠ 0 →
  ∃ h, box_new Fixed.alloc Fixed.scribble l w = Ok (p, with_heap h w) ∧ Implements h (<[p := l]> live) r'.
Proof.
  intros Hi Hl Hr Hp. unfold box_new.
  destruct (Fixed.alloc_implements _ _ _ _ _ l Hi Hl) as (p' & w' & r'' & -> & Er & Hc). rewrite Hr in Er.
  injection Er as <- <-. destruct Hc as [(-> & _)|(_ & Hn & Hi')]; [done|]. bstep.
  rewrite (proj2 (Z.eqb_neq _ _) Hp). exists (Fixed.scribble w' p (l_size l)). split; [done|].
  apply (Fixed.write_implements _ _ _ _ _ p l); [done|apply lookup_insert_eq|lia|destruct Hl as [_ ?]; lia|lia].
Qed.

Lemma reserve_slots_oom n sp m : reserve_slots n sp m ≠ Panic "memory allocation failed".
Proof.
  revert sp m. induction n as [|n IH]; intros sp m; [done|]. cbn [reserve_slots]. unfold sub_u64, store.
  destruct (8 <=? sp); [|done]. bstep. destruct (_ =? 0); [|done]. bstep. apply IH.
Qed.

(** After its allocation, [KernelThread::new] leaves the heap alone. *)
Lemma KernelThread_new_ref entry (w : world) stack h :
  box_new Fixed.alloc Fixed.scribble stack_layout w = Ok (stack, with_heap h w) →
  KernelThread_new Fixed.alloc Fixed.scribble entry w ≠ Panic "memory allocation failed" ∧
  ∀ id sp stack' w1, KernelThread_new Fixed.alloc Fixed.scribble entry w = Ok (id, sp, stack', w1) →
    stack' = stack ∧ ∃ n m, w1 = mkTW (tw_sched w) (tw_stats w) n h m.
Proof.
  intros Eb. unfold KernelThread_new. rewrite Eb. bstep. split.
  - intros Hk. unfold add_u64, sub_u64, store in Hk.
    apply bind_panic in Hk as [Hk|(? & _ & Hk)]; [by destruct (_ <? _)|].
    apply bind_panic in Hk as [Hk|(? & _ & Hk)]; [by destruct (_ <=? _)|].
    apply bind_panic in Hk as [Hk|(? & _ & Hk)]; [by destruct (_ =? _)|].
    apply bind_panic in Hk as [Hk|([] & _ & Hk)]; [by apply reserve_slots_oom in Hk|done].
  - intros id sp stack' w1 Hk. apply bind_inv in Hk as (? & _ & Hk). apply bind_inv in Hk as (? & _ & Hk).
    apply bind_inv in Hk as (? & _ & Hk). apply bind_inv in Hk as ([sp2 m2] & _ & [= _ _ <- <-]).
    split; [done|]. by eexists _, m2.
Qed.

(** The two allocations of a [spawn], and the rest of it. *)
Lemma spawn_ref_ok entry process (w : world) live r stack box r' :
  Implements (tw_heap w) live r → spawn_ref r = (stack, box, r') → stack ≠ 0 → box ≠ 0 →
  Spawn entry process w ≠ Panic "memory allocation failed" ∧
  ∀ id w', Spawn entry process w = Ok (id, w') →
    tw_sched w' = spawned (tw_sched w) (mkThread id process box stack) ∧
    Implements (tw_heap w') (with_thread (mkThread id process box stack) live) r'.
Proof.
  intros Hi Hr Hs Hb. unfold spawn_ref in Hr. destruct (Fixed.ref_alloc r stack_layout) as [stack' r1] eqn:R1.
  destruct (Fixed.ref_alloc r1 box_layout) as [box' r2] eqn:R2. injection Hr as -> -> ->.
  destruct (box_new_ref w live r _ _ _ Hi stack_request R1 Hs) as (h1 & E1 & I1).
  destruct (KernelThread_new_ref entry w stack h1 E1) as [K1 K2]. unfold spawn. split.
  - intros Hp. apply bind_panic in Hp as [Hk|([[[id sp] stk] w1] & Hk & Hp)]; [done|].
    destruct (K2 _ _ _ _ Hk) as (-> & n & m & ->).
    destruct (box_new_ref (mkTW (tw_sched w) (tw_stats w) n h1 m) _ r1 _ _ _ I1 box_request R2 Hb) as (h2 & E2 & _).
    rewrite E2 in Hp. cbn [mbind outcome_bind] in Hp. unfold store, rust_assert in Hp.
    apply bind_panic in Hp as [Hp|(? & _ & Hp)]; [by destruct (_ =? _)|].
    by apply bind_panic in Hp as [Hp|(? & _ & Hp)]; [case_match|].
  - intros id w' Hk. apply bind_inv in Hk as ([[[id' sp] stk] w1] & Hk & Hp).
    destruct (K2 _ _ _ _ Hk) as (-> & n & m & ->).
    destruct (box_new_ref (mkTW (tw_sched w) (tw_stats w) n h1 m) _ r1 _ _ _ I1 box_request R2 Hb) as (h2 & E2 & I2).
    rewrite E2 in Hp. cbn [mbind outcome_bind] in Hp.
    apply bind_inv in Hp as (m' & _ & Hp). by apply bind_inv in Hp as (? & _ & [= <- <-]).
Qed.

Lemma has_room_fits entry process (w : world) live r :
  Implements (tw_heap w) live r → has_room r = true → Spawn entry process w ≠ Panic "memory allocation failed".
Proof.
  unfold has_room. destruct (spawn_ref r) as [[stack box] r'] eqn:Hr. intros Hi Hroom.
  apply andb_prop in Hroom as [R1%negb_true_iff%Z.eqb_neq R2%negb_true_iff%Z.eqb_neq].
  by apply (spawn_ref_ok entry process w live r stack box r' Hi Hr).
Qed.

(** ** The reaper *)

Lemma drain_ref (w w' : world) live r :
  Implements (tw_heap w) live r → drain_reaper Fixed.dealloc w = Ok w' →
  match reaper (tw_sched w) with
  | None => tw_heap w' = tw_heap w
  | Some t => live !! kt_stack t = Some stack_layout → delete (kt_stack t) live !! kt_box t = Some box_layout →
      Implements (tw_heap w') (without_thread t live) (drop_ref t r)
  end.
Proof.
  intros Hi Hd. unfold drain_reaper in Hd. destruct (reaper (tw_sched w)) as [t|]; [|by injection Hd as <-].
  intros L1 L2. unfold drop_thread in Hd. cbn [with_stats with_sched tw_heap] in Hd.
  destruct (Fixed.dealloc_implements _ _ _ _ _ _ _ Hi L1) as (h1 & E1 & I1). rewrite E1 in Hd.
  cbn [mbind outcome_bind] in Hd.
  destruct (Fixed.dealloc_implements _ _ _ _ _ _ _ I1 L2) as (h2 & E2 & I2). rewrite E2 in Hd. by injection Hd as <-.
Qed.

Lemma yield_drains (w w' : world) :
  yield_now Fixed.dealloc ctx_offset bootstrap_context yield_ret w = Ok w' →
  ∃ w1, drain_reaper Fixed.dealloc w = Ok w1 ∧ tw_heap w' = tw_heap w1.
Proof.
  intros Hy. apply bind_inv in Hy as (w1 & Hd & Hy). exists w1. split; [done|].
  apply bind_inv in Hy as ([[[p q] s]|] & _ & Hy); [|by injection Hy as <-]. by apply bind_inv in Hy as (m & _ & [= <-]).
Qed.

Lemma exit_drains scratch (w w' : world) :
  exit_thread Fixed.dealloc ctx_offset bootstrap_context exit_ret scratch w = Ok w' →
  ∃ w1, drain_reaper Fixed.dealloc w = Ok w1 ∧ tw_heap w' = tw_heap w1.
Proof.
  intros Hy. apply bind_inv in Hy as (w1 & Hd & Hy). exists w1. split; [done|].
  apply bind_inv in Hy as ([q s] & _ & Hy). apply bind_inv in Hy as (m & _ & Hy). by apply bind_inv in Hy as (m' & _ & [= <-]).
Qed.
End thread_heap.
