(* ===== verification/ThreadThms.v ===== *)
(** * Theorems about the kernel threads

    The threads as a transition system: the running thread computes on its
    own stack, yields, exits or spawns.  The theorems hold of every state
    reachable from boot, for any allocator that meets the contract of
    AllocMod.v; the witnesses run them on the kernel's own allocator. *)

From Stdlib Require Import ZArith Lia.
From stdpp Require Import base gmap list strings numbers functions relations.
From S2P Require Import Prelude AllocMod FreeList LinkedList FixedSizeBlock Scheduler Machine.
From S2P Require Import Thread ThreadInv.

Open Scope Z_scope.

Section system.
Context {H : Type}.
Context (alloc : H → Layout → outcome (Z * H)).
Context (dealloc : H → Z → Layout → outcome H).
Context (scribble : H → Z → Z → H).
Context {spec : GlobalAllocSpec H alloc dealloc scribble}.
Context (ctx_offset bootstrap_context yield_ret exit_ret lo hi boot_lo boot_hi : Z).

Abbreviation Tinv := (tinv alloc dealloc scribble ctx_offset bootstrap_context lo hi boot_lo boot_hi).
Abbreviation Running := (running boot_lo boot_hi).
Abbreviation Holds := (holds ctx_offset bootstrap_context boot_lo boot_hi).
Abbreviation Yield := (yield_now dealloc ctx_offset bootstrap_context yield_ret).
Abbreviation Exit := (exit_thread dealloc ctx_offset bootstrap_context exit_ret).
Abbreviation Spawn := (spawn alloc scribble ctx_offset).

(** What the running thread does between two scheduler calls: anything that
    leaves the other threads' stacks and contexts alone and ends on its own
    stack, using the heap through its contract. *)
Record computes (w w' : tworld H) : Prop := {
  cp_sched : tw_sched w' = tw_sched w;
  cp_stats : threads_alive (tw_stats w') = threads_alive (tw_stats w);
  cp_next : tw_next_id w' = tw_next_id w;
  cp_mem : ∀ i k, i ∈ ready (tw_sched w) →
    k = ctx_addr ctx_offset bootstrap_context (tw_sched w) i ∨
    stack_lo boot_lo (tw_sched w) i <= k < stack_hi boot_hi (tw_sched w) i →
    mem (tw_mach w') !! k = mem (tw_mach w) !! k;
  cp_run : Running w';
  cp_heap : ∀ live, ga_inv lo hi (tw_heap w) live → owns (tw_sched w) live →
    ∃ live', ga_inv lo hi (tw_heap w') live' ∧ owns (tw_sched w) live';
}.

(** The steps that keep the running thread, and the calls that give it up. *)
Inductive quiet (w w' : tworld H) : Prop :=
| quiet_compute : computes w w' → quiet w w'
| quiet_spawn entry process id :
    tw_next_id w + 1 < u64_modulus → Spawn entry process w = Ok (id, w') → quiet w w'.

Inductive switch (w w' : tworld H) : Prop :=
| switch_yield : Yield w = Ok w' → switch w w'
| switch_exit scratch :
    (8 | scratch) → regs (tw_mach w) RSP <= scratch →
    scratch + 8 <= stack_hi boot_hi (tw_sched w) (current (tw_sched w)) →
    Exit scratch w = Ok w' → switch w w'.

Definition tstep (w w' : tworld H) : Prop := quiet w w' ∨ switch w w'.

(** Runs, counting the switches. *)
Inductive tsteps (w : tworld H) : nat → tworld H → Prop :=
| tsteps_refl : tsteps w 0 w
| tsteps_quiet n w1 w2 : tsteps w n w1 → quiet w1 w2 → tsteps w n w2
| tsteps_switch n w1 w2 : tsteps w n w1 → switch w1 w2 → tsteps w (S n) w2.

(** The state the thread module starts in. *)
Record booted (w : tworld H) : Prop := {
  bt_sched : tw_sched w = ts_new;
  bt_stats : threads_alive (tw_stats w) = 0;
  bt_next : tw_next_id w = 1;
  bt_heap : ∃ live, ga_inv lo hi (tw_heap w) live;
  bt_run : Running w;
}.

Definition good (w : tworld H) : Prop := (∃ live sv, Tinv w live sv) ∧ Running w.

Context (Hpl : placement ctx_offset bootstrap_context lo hi boot_lo boot_hi).

Lemma booted_good w : booted w → good w.
Proof.
  intros [B1 B2 B3 (live & B4) B5]. split; [|done]. exists live, ∅. split.
  - done.
  - rewrite B1. split; intros t; [intros [Ht|Ht]; done|intros u [Ht|Ht]; done].
  - rewrite B1. split; simpl; try done; [apply NoDup_nil_2|intros i Hi; by apply elem_of_nil in Hi
      |intros i [? ?]; done|by left].
  - by rewrite B1, B2.
  - rewrite B1. intros i Hi. by apply elem_of_nil in Hi.
  - by rewrite B3.
Qed.

(** ** One step *)

Lemma computes_inv w w' live sv :
  Tinv w live sv → computes w w' → ∃ live', Tinv w' live' sv.
Proof.
  intros [I1 I2 I3 I4 I5 I6] [C1 C2 C3 C4 C5 C6].
  destruct (C6 live I1 I2) as (live' & Hi & Ho). exists live'.
  split; rewrite ?C1, ?C2, ?C3; try done. intros i Hir. destruct (I5 i Hir) as (c & Hc & Hh).
  exists c. split; [done|]. pose proof Hh as [_ Hl _ _ _].
  apply (holds_mono _ _ _ _ (tw_sched w) _ (mem (tw_mach w))); [done| |done].
  intros k Hk. apply (C4 i); [done|]. lia.
Qed.

(** Thread [i] waits in the queue with context [c]. *)
Definition suspended (i : Z) (c : sctx) (w : tworld H) : Prop :=
  (∃ live sv, Tinv w live sv ∧ sv !! i = Some c) ∧ Running w ∧ i ∈ ready (tw_sched w).

(** Thread [i] has just been switched to, with context [c]. *)
Definition back (i : Z) (c : sctx) (w : tworld H) : Prop :=
  good w ∧ current (tw_sched w) = i ∧ resumed (tw_mach w) c ∧
  Holds (tw_sched w) (mem (tw_mach w)) i c.

Lemma suspended_good i c w : suspended i c w → good w.
Proof. intros ((live & sv & ? & _) & ? & _). split; eauto. Qed.

Lemma yield_step w w' i c :
  suspended i c w → Yield w = Ok w' → suspended i c w' ∨ back i c w'.
Proof.
  intros ((live & sv & Hinv & Hc) & Hrun & Hi) Hy.
  destruct (yield_now_spec _ _ _ _ _ yield_ret _ _ _ _ Hpl w live sv Hinv Hrun)
    as (w1 & Hy1 & Hrun1 & Hm).
  rewrite Hy in Hy1. injection Hy1 as <-.
  pose proof (qk_ready _ _ (ti_queue _ _ _ _ _ _ _ _ _ _ _ _ Hinv) i Hi) as [Hic _].
  destruct (ready (tw_sched w)) as [|next rest] eqn:Hr; [by apply elem_of_nil in Hi|].
  destruct Hm as (Hinv1 & Hs1 & d & Hd & Hres & Hh).
  apply elem_of_cons in Hi as [->|Hi].
  - right. assert (d = c) as -> by congruence. split; [split; eauto|].
    split; [by rewrite Hs1|done].
  - left. split; [|split; [done|rewrite Hs1; simpl; apply elem_of_app; by left]].
    eexists _, _. split; [done|]. by rewrite lookup_insert_ne.
Qed.

Lemma exit_step w w' i c scratch :
  suspended i c w → (8 | scratch) → regs (tw_mach w) RSP <= scratch →
  scratch + 8 <= stack_hi boot_hi (tw_sched w) (current (tw_sched w)) →
  Exit scratch w = Ok w' → suspended i c w' ∨ back i c w'.
Proof.
  intros ((live & sv & Hinv & Hc) & Hrun & Hi) S1 S2 S3 Hy.
  destruct (ready (tw_sched w)) as [|next rest] eqn:Hr; [by apply elem_of_nil in Hi|].
  destruct (exit_thread_spec _ _ _ _ _ exit_ret _ _ _ _ Hpl w live sv next rest scratch
    Hinv Hrun Hr S1 S2 S3) as (w1 & Hy1 & Hrun1 & Hinv1 & Hs1 & d & Hd & Hres & Hh).
  rewrite Hy in Hy1. injection Hy1 as <-.
  destruct (exited_shape (drained (tw_sched w)) next rest) as [E1 E2].
  apply elem_of_cons in Hi as [->|Hi].
  - right. assert (d = c) as -> by congruence. split; [split; eauto|].
    split; [by rewrite Hs1, E2|done].
  - left. split; [eauto|]. split; [done|]. by rewrite Hs1, E1.
Qed.

Lemma spawn_running (w w' : tworld H) t :
  tw_sched w' = spawned (tw_sched w) t → regs (tw_mach w') = regs (tw_mach w) →
  kt_id t ≠ current (tw_sched w) → Running w → Running w'.
Proof.
  intros Hs Hr Hne [R1 R2 R3].
  assert (threads (tw_sched w') !! current (tw_sched w) = threads (tw_sched w) !! current (tw_sched w))
    as Ht by (rewrite Hs; by apply lookup_insert_ne).
  destruct (same_place 0 0 boot_lo boot_hi _ _ _ Ht) as (_ & E2 & E3).
  assert (current (tw_sched w') = current (tw_sched w)) as Ec by (by rewrite Hs).
  split; rewrite ?Hr, ?Ec, ?E2, ?E3; done.
Qed.

Lemma spawn_step w w' i c entry process id :
  suspended i c w → tw_next_id w + 1 < u64_modulus → Spawn entry process w = Ok (id, w') →
  suspended i c w'.
Proof.
  intros ((live & sv & Hinv & Hc) & Hrun & Hi) Hn Hy.
  destruct (spawn_spec _ _ _ _ _ _ _ _ _ Hpl entry process w live sv Hinv Hn)
    as [He|(w1 & t & He & Hid & _ & _ & Hs & Hreg & _ & _ & Hinv1)]; [congruence|].
  rewrite Hy in He. injection He as -> <-.
  destruct (fresh_id _ _ (ti_queue _ _ _ _ _ _ _ _ _ _ _ _ Hinv) (ti_next _ _ _ _ _ _ _ _ _ _ _ _ Hinv))
    as (_ & F2 & F3).
  split; [|split].
  - eexists _, _. split; [done|]. rewrite lookup_insert_ne; [done|]. congruence.
  - apply (spawn_running w w' t); try done. congruence.
  - rewrite Hs. apply elem_of_app. by left.
Qed.

Lemma step_suspended w w' i c :
  suspended i c w → tstep w w' → suspended i c w' ∨ back i c w'.
Proof.
  intros Hsus [[Hcp|entry process id Hn Hy]|[Hy|scratch S1 S2 S3 Hy]].
  - left. destruct Hsus as ((live & sv & Hinv & Hc) & Hrun & Hi).
    destruct (computes_inv w w' live sv Hinv Hcp) as (live' & Hinv').
    split; [eauto|]. split; [apply Hcp|]. by rewrite (cp_sched _ _ Hcp).
  - left. by eapply spawn_step.
  - by eapply yield_step.
  - by eapply exit_step.
Qed.

(** ** Reachable states *)

Lemma exit_empty w scratch :
  good w → ready (tw_sched w) = [] →
  Exit scratch w = Panic "exit_thread: no other thread to switch into".
Proof.
  intros [(live & sv & Hinv) _] Hr.
  destruct (drain_reaper_spec _ _ _ _ _ _ _ _ _ w live sv Hinv) as (w1 & Hd & Hinv1 & _ & _ & Hs).
  unfold exit_thread. rewrite Hd. bstep. rewrite Hs. unfold exit_pick, drained.
  cbn [current threads reaper ready].
  destruct (current (tw_sched w) =? BOOTSTRAP_ID); bstep; [by cbn [ready]; rewrite Hr|].
  destruct (threads (tw_sched w) !! current (tw_sched w)); bstep; cbn [ready]; by rewrite Hr.
Qed.

Lemma step_good w w' : good w → tstep w w' → good w'.
Proof.
  intros Hg [[Hcp|entry process id Hn Hy]|[Hy|scratch S1 S2 S3 Hy]];
    pose proof Hg as [(live & sv & Hinv) Hrun].
  - destruct (computes_inv w w' live sv Hinv Hcp) as (live' & Hinv').
    split; [eauto|apply Hcp].
  - destruct (spawn_spec _ _ _ _ _ _ _ _ _ Hpl entry process w live sv Hinv Hn)
      as [He|(w1 & t & He & Hid & _ & _ & Hs & Hreg & _ & _ & Hinv1)]; [congruence|].
    rewrite Hy in He. injection He as -> <-. split; [eauto|].
    apply (spawn_running w w' t); try done. rewrite Hid. apply not_eq_sym.
    apply (fresh_id _ _ (ti_queue _ _ _ _ _ _ _ _ _ _ _ _ Hinv) (ti_next _ _ _ _ _ _ _ _ _ _ _ _ Hinv)).
  - destruct (yield_now_spec _ _ _ _ _ yield_ret _ _ _ _ Hpl w live sv Hinv Hrun)
      as (w1 & Hy1 & Hrun1 & Hm).
    rewrite Hy in Hy1. injection Hy1 as <-. split; [|done].
    destruct (ready (tw_sched w)); destruct Hm as (? & _); eauto.
  - destruct (ready (tw_sched w)) as [|next rest] eqn:Hr.
    { rewrite exit_empty in Hy by done. done. }
    destruct (exit_thread_spec _ _ _ _ _ exit_ret _ _ _ _ Hpl w live sv next rest scratch
      Hinv Hrun Hr S1 S2 S3) as (w1 & Hy1 & Hrun1 & Hinv1 & _).
    rewrite Hy in Hy1. injection Hy1 as <-. split; eauto.
Qed.

Lemma reachable_good w w' : good w → rtc tstep w w' → good w'.
Proof. intros Hg Hr. induction Hr; [done|]. eauto using step_good. Qed.

(** Where a queued thread is after one step. *)
Lemma step_position w w' i k :
  good w → ready (tw_sched w) !! k = Some i →
  (quiet w w' → ready (tw_sched w') !! k = Some i) ∧
  (switch w w' → match k with
                 | O => current (tw_sched w') = i
                 | S k => ready (tw_sched w') !! k = Some i
                 end).
Proof.
  intros Hg Hk. pose proof Hg as [(live & sv & Hinv) Hrun]. split.
  - intros [Hcp|entry process id Hn Hy]; [by rewrite (cp_sched _ _ Hcp)|].
    destruct (spawn_spec _ _ _ _ _ _ _ _ _ Hpl entry process w live sv Hinv Hn)
      as [He|(w1 & t & He & _ & _ & _ & Hs & _)]; [congruence|].
    rewrite Hy in He. injection He as -> <-. rewrite Hs. by apply lookup_app_l_Some.
  - destruct (ready (tw_sched w)) as [|next rest] eqn:Hr; [done|].
    intros [Hy|scratch S1 S2 S3 Hy].
    + destruct (yield_now_spec _ _ _ _ _ yield_ret _ _ _ _ Hpl w live sv Hinv Hrun)
        as (w1 & Hy1 & _ & Hm).
      rewrite Hy in Hy1. injection Hy1 as <-. rewrite Hr in Hm. destruct Hm as (_ & Hs & _).
      rewrite Hs. destruct k as [|k]; simpl in *; [congruence|by apply lookup_app_l_Some].
    + destruct (exit_thread_spec _ _ _ _ _ exit_ret _ _ _ _ Hpl w live sv next rest scratch
        Hinv Hrun Hr S1 S2 S3) as (w1 & Hy1 & _ & _ & Hs & _).
      rewrite Hy in Hy1. injection Hy1 as <-. rewrite Hs.
      destruct (exited_shape (drained (tw_sched w)) next rest) as [E1 E2]. rewrite E1, E2.
      destruct k as [|k]; simpl in *; congruence.
Qed.

(** ** The theorems *)

(** C4: in every state reachable from boot the scheduler's calls do what
    they promise: [yield_now] returns; [exit_thread] switches away when
    another thread is ready, and panics exactly when none is; [spawn] returns
    or runs out of memory.  No other [expect], assertion or read of unmapped
    memory is reached.  The ready
    queue never holds a thread twice nor the running one, every tracked
    thread runs or is queued, and [threads_alive] counts the threads whose
    memory is not yet freed. *)
Theorem threads_reachable_safe w0 w :
  booted w0 → rtc tstep w0 w →
  let s := tw_sched w in
  (∃ w', Yield w = Ok w') ∧
  (∀ scratch, (8 | scratch) → regs (tw_mach w) RSP <= scratch →
     scratch + 8 <= stack_hi boot_hi s (current s) →
     match ready s with
     | [] => Exit scratch w = Panic "exit_thread: no other thread to switch into"
     | _ => ∃ w', Exit scratch w = Ok w'
     end) ∧
  (∀ entry process, tw_next_id w + 1 < u64_modulus →
     Spawn entry process w = Panic "memory allocation failed" ∨
     ∃ w', Spawn entry process w = Ok (tw_next_id w, w')) ∧
  NoDup (current s :: ready s) ∧
  (∀ i, is_Some (threads s !! i) → i = current s ∨ i ∈ ready s) ∧
  threads_alive (tw_stats w) = (thread_count s + parked s) mod u64_modulus.
Proof.
  intros Hb Hr s. pose proof (reachable_good _ _ (booted_good _ Hb) Hr) as Hg.
  pose proof Hg as [(live & sv & Hinv) Hrun]. pose proof Hinv as [_ _ Hq Ha _ _].
  split_and!; [| | | |apply Hq|done].
  - destruct (yield_now_spec _ _ _ _ _ yield_ret _ _ _ _ Hpl w live sv Hinv Hrun) as (w' & ? & _). eauto.
  - intros scratch S1 S2 S3. destruct (ready s) as [|next rest] eqn:Hrd; [by apply exit_empty|].
    destruct (exit_thread_spec _ _ _ _ _ exit_ret _ _ _ _ Hpl w live sv next rest scratch
      Hinv Hrun Hrd S1 S2 S3) as (w' & ? & _). eauto.
  - intros entry process Hn. destruct (spawn_spec _ _ _ _ _ _ _ _ _ Hpl entry process w live sv Hinv Hn)
      as [?|(w' & t & ? & _)]; eauto.
  - apply NoDup_cons_2; [|apply Hq]. intros Hin. by destruct (qk_ready _ _ Hq _ Hin).
Qed.

(** A stretch of execution in which thread [i] does not run. *)
Definition away (i : Z) (w w' : tworld H) : Prop :=
  rtc (λ a b, current (tw_sched a) ≠ i ∧ tstep a b) w w'.

Lemma away_suspended i c w w' :
  suspended i c w → away i w w' → suspended i c w' ∨ back i c w'.
Proof.
  intros Hs Ha. revert Hs. induction Ha as [|w w1 w2 [Hne Hst] Ha IH]; intros Hs; [by left|].
  destruct (step_suspended w w1 i c Hs Hst) as [?|Hb]; [auto|].
  inversion Ha as [|? ? ? [Hne' _]]; subst; [by right|].
  destruct Hb as (_ & ? & _). done.
Qed.

Lemma away_back i c w w' :
  suspended i c w → away i w w' → current (tw_sched w') = i → back i c w'.
Proof.
  intros Hs Ha Hc. destruct (away_suspended i c w w' Hs Ha) as [Hsus|]; [|done].
  destruct Hsus as ((live & sv & Hinv & _) & _ & Hi).
  by destruct (qk_ready _ _ (ti_queue _ _ _ _ _ _ _ _ _ _ _ _ Hinv) i Hi).
Qed.

(** C5: to the thread that calls it, [yield_now] is an ordinary function call.
    Whatever the other threads do meanwhile (compute, yield, spawn, exit),
    when the thread runs again it is behind its own call of [switch_context]
    with its callee-saved registers, its stack pointer and the contents of
    its stack as they were. *)
Theorem yield_returns_intact w0 w w1 w2 :
  booted w0 → rtc tstep w0 w →
  Yield w = Ok w1 → let i := current (tw_sched w) in
  current (tw_sched w1) ≠ i → away i w1 w2 → current (tw_sched w2) = i →
  callee (tw_mach w2) = callee (tw_mach w) ∧ regs (tw_mach w2) RSP = regs (tw_mach w) RSP ∧
  rip (tw_mach w2) = yield_ret ∧
  (∀ k, regs (tw_mach w) RSP <= k < stack_hi boot_hi (tw_sched w) i →
     mem (tw_mach w2) !! k = mem (tw_mach w) !! k).
Proof.
  intros Hb Hr Hy i Hne Ha Hc.
  destruct (reachable_good _ _ (booted_good _ Hb) Hr) as [(live & sv & Hinv) Hrun].
  destruct (yield_now_spec _ _ _ _ _ yield_ret _ _ _ _ Hpl w live sv Hinv Hrun)
    as (w' & Hy' & Hrun1 & Hm).
  rewrite Hy in Hy'. injection Hy' as <-.
  destruct (ready (tw_sched w)) as [|next rest].
  { destruct Hm as (_ & _ & Hs). rewrite Hs in Hne. done. }
  destruct Hm as (Hinv1 & Hs & _). cbv zeta in Hinv1.
  set (c := mkSctx _ _ _ _ _) in Hinv1.
  destruct (away_back i c w1 w2) as (_ & _ & [V1 V2 V3] & [_ _ _ Ht Hmem]); [|done|done|].
  - split; [eexists _, _; split; [done|apply lookup_insert_eq]|]. split; [done|].
    rewrite Hs. simpl. apply elem_of_app. right. by apply list_elem_of_singleton.
  - cbn [c sc_sp sc_regs sc_ra sc_top sc_mem] in *. split_and!; [done|lia|done|].
    intros k Hk. apply Hmem. rewrite Ht. unfold i in Hk. lia.
Qed.

(** C38: a spawned thread starts at its entry point, on an empty stack of its
    own aligned to 16 bytes, with zeroed callee-saved registers, whenever it
    is first scheduled. *)
Theorem spawn_first_run w0 w w1 w2 entry process id :
  booted w0 → rtc tstep w0 w → tw_next_id w + 1 < u64_modulus →
  Spawn entry process w = Ok (id, w1) → away id w1 w2 → current (tw_sched w2) = id →
  rip (tw_mach w2) = entry ∧ callee (tw_mach w2) = replicate 6 0 ∧
  (16 | regs (tw_mach w2) RSP) ∧
  stack_hi boot_hi (tw_sched w2) id - 16 < regs (tw_mach w2) RSP <= stack_hi boot_hi (tw_sched w2) id ∧
  stack_hi boot_hi (tw_sched w2) id = stack_lo boot_lo (tw_sched w2) id + STACK_SIZE.
Proof.
  intros Hb Hr Hn Hy Ha Hc. pose proof (reachable_good _ _ (booted_good _ Hb) Hr) as Hg.
  pose proof Hg as [(live & sv & Hinv) Hrun].
  destruct (spawn_spec _ _ _ _ _ _ _ _ _ Hpl entry process w live sv Hinv Hn)
    as [He|(w' & t & He & Hid & _ & Hpos & Hs & Hreg & _ & _ & Hinv1)]; [congruence|].
  rewrite Hy in He. injection He as -> <-. cbv zeta in Hinv1. set (c := mkSctx _ _ _ _ _) in Hinv1.
  destruct (step_good w w1 Hg) as [_ Hrun1]; [left; by eapply quiet_spawn|].
  destruct (initial_sp_bounds (kt_stack t) Hpos) as (B1 & _ & _ & B2).
  destruct (away_back (tw_next_id w) c w1 w2) as (Hg2 & _ & [V1 V2 V3] & [_ _ _ Ht _]); [|done|done|].
  - split; [eexists _, _; split; [done|apply lookup_insert_eq]|]. split; [done|].
    rewrite Hs. simpl. rewrite Hid. apply elem_of_app. right. by apply list_elem_of_singleton.
  - cbn [c sc_sp sc_regs sc_ra sc_top sc_mem] in *. rewrite V3, Ht.
    split_and!; try done; [unfold initial_sp; pose proof (Z.mod_pos_bound
      (kt_stack t + STACK_SIZE) 16); lia|].
    destruct Hg2 as [(live2 & sv2 & Hinv2) _].
    destruct (valid_cases 0 0 boot_lo boot_hi _ _ (ti_queue _ _ _ _ _ _ _ _ _ _ _ _ Hinv2) (tw_next_id w))
      as [(E & _)|(u & _ & _ & _ & _ & _ & E1 & E2)].
    + rewrite <- Hc. apply (qk_current _ _ (ti_queue _ _ _ _ _ _ _ _ _ _ _ _ Hinv2)).
    + pose proof (ti_next _ _ _ _ _ _ _ _ _ _ _ _ Hinv). unfold BOOTSTRAP_ID in E. lia.
    + rewrite E1. rewrite E2 in Ht. lia.
Qed.

Lemma tsteps_position w w' i k n :
  good w → ready (tw_sched w) !! k = Some i → tsteps w n w' →
  good w' ∧ rtc tstep w w' ∧
  ((n <= k)%nat → ready (tw_sched w') !! (k - n)%nat = Some i) ∧
  (n = S k → ∃ w1, rtc tstep w w1 ∧ current (tw_sched w1) = i ∧ rtc tstep w1 w').
Proof.
  intros Hg Hk Hst.
  induction Hst as [|n w1 w2 _ (Hg1 & Hr1 & IH1 & IH2) Hq|n w1 w2 _ (Hg1 & Hr1 & IH1 & IH2) Hsw].
  - rewrite Nat.sub_0_r. split_and!; done.
  - assert (tstep w1 w2) as Hst by (by left). split; [by eapply step_good|].
    split; [by eapply rtc_r|]. split.
    + intros Hn. by apply (step_position w1 w2 i (k - n) Hg1 (IH1 Hn)).
    + intros Hn. destruct (IH2 Hn) as (v & ? & ? & ?). exists v. split_and!; [done..|].
      by eapply rtc_r.
  - assert (tstep w1 w2) as Hst by (by right). split; [by eapply step_good|].
    split; [by eapply rtc_r|]. split.
    + intros Hn. assert (n <= k)%nat as Hn' by lia.
      destruct (step_position w1 w2 i (k - n) Hg1 (IH1 Hn')) as [_ Hp]. specialize (Hp Hsw).
      by replace (k - n)%nat with (S (k - S n)) in Hp by lia.
    + intros [= ->]. exists w2. split; [by eapply rtc_r|]. split; [|done].
      destruct (step_position w1 w2 i (k - k) Hg1 (IH1 ltac:(lia))) as [_ Hp]. specialize (Hp Hsw).
      by rewrite Nat.sub_diag in Hp.
Qed.

(** C37: round robin.  A thread at position [k] of the ready queue moves one
    place forward with every switch, whoever yields, exits or spawns, and runs
    at the [k + 1]-th: no ready thread is starved or overtaken. *)
Theorem round_robin w0 w w' i k n :
  booted w0 → rtc tstep w0 w → ready (tw_sched w) !! k = Some i → tsteps w n w' →
  (n <= k → ready (tw_sched w') !! (k - n)%nat = Some i)%nat ∧
  (n = S k → ∃ w1, rtc tstep w w1 ∧ current (tw_sched w1) = i ∧ rtc tstep w1 w')%nat.
Proof.
  intros Hb Hr Hk Hst. pose proof (reachable_good _ _ (booted_good _ Hb) Hr) as Hg.
  destruct (tsteps_position w w' i k n Hg Hk Hst) as (_ & _ & ? & ?). auto.
Qed.
End system.

(** ** A concrete run on the kernel's allocator

    The bootstrap thread spawns a thread, yields to it, and the thread yields
    back. *)

Definition demo_heap : Fixed.fworld :=
  value (Fixed.mkFW Fixed.empty ∅) (Fixed.init (Fixed.mkFW Fixed.empty ∅) HEAP_START HEAP_SIZE).

Definition demo_machine : machine :=
  mkMachine (λ r, if decide (r = RSP) then 0x3000 else 7) 0 0 0 0 ∅.

Abbreviation demo_spawn := (spawn Fixed.alloc Fixed.scribble 16).
Abbreviation demo_yield := (yield_now Fixed.dealloc 16 0x1000 0x100).
Abbreviation demo_tstep := (tstep Fixed.alloc Fixed.dealloc Fixed.scribble 16 0x1000 0x100 0x200
  HEAP_START (HEAP_START + HEAP_SIZE) 0x2000 0x4000).

Definition demo_boot : tworld Fixed.fworld := mkTW ts_new sched_new 1 demo_heap demo_machine.
Definition demo_spawned : tworld Fixed.fworld :=
  (value (0, demo_boot) (demo_spawn 0x5000 3 demo_boot)).2.
Definition demo_switched : tworld Fixed.fworld := value demo_boot (demo_yield demo_spawned).
Definition demo_returned : tworld Fixed.fworld := value demo_boot (demo_yield demo_switched).

Lemma demo_placement : placement 16 0x1000 HEAP_START (HEAP_START + HEAP_SIZE) 0x2000 0x4000.
Proof.
  split; unfold apart, HEAP_START, HEAP_SIZE, addr_limit, u64_modulus; try lia.
  - split; [by exists 2|lia].
  - by exists 512.
Qed.

Lemma demo_booted :
  booted Fixed.alloc Fixed.dealloc Fixed.scribble HEAP_START (HEAP_START + HEAP_SIZE) 0x2000 0x4000 demo_boot.
Proof.
  split; [done..| |].
  - exists ∅. destruct (Fixed.init_fixed_inv ∅ HEAP_START HEAP_SIZE) as (w & Hw & Hinv); [done..|].
    eexists _, _. unfold demo_boot, demo_heap. cbn [tw_heap]. rewrite Hw. exact Hinv.
  - split; [by exists 1536| |]; vm_compute; congruence.
Qed.

Lemma demo_spawn_ok : demo_spawn 0x5000 3 demo_boot = Ok (1, demo_spawned).
Proof.
  rewrite (value_ok (0, demo_boot) (demo_spawn 0x5000 3 demo_boot)) by (vm_compute; reflexivity).
  unfold demo_spawned. destruct (value _ _) as [id w] eqn:E. simpl. do 2 f_equal.
  change id with ((id, w).1). rewrite <- E. vm_compute. reflexivity.
Qed.

Lemma demo_switch_ok : demo_yield demo_spawned = Ok demo_switched.
Proof. apply value_ok. vm_compute. reflexivity. Qed.

Lemma demo_return_ok : demo_yield demo_switched = Ok demo_returned.
Proof. apply value_ok. vm_compute. reflexivity. Qed.

Lemma demo_spawned_reachable : rtc demo_tstep demo_boot demo_spawned.
Proof. apply rtc_once. left. eapply quiet_spawn; [done|apply demo_spawn_ok]. Qed.

Lemma threads_reachable_safe_witness :
  let s := tw_sched demo_spawned in
  (∃ w', demo_yield demo_spawned = Ok w') ∧
  (∀ scratch, (8 | scratch) → regs (tw_mach demo_spawned) RSP <= scratch →
     scratch + 8 <= stack_hi 0x4000 s (current s) →
     match ready s with
     | [] => exit_thread Fixed.dealloc 16 0x1000 0x200 scratch demo_spawned
               = Panic "exit_thread: no other thread to switch into"
     | _ => ∃ w', exit_thread Fixed.dealloc 16 0x1000 0x200 scratch demo_spawned = Ok w'
     end) ∧
  (∀ entry process, tw_next_id demo_spawned + 1 < u64_modulus →
     demo_spawn entry process demo_spawned = Panic "memory allocation failed" ∨
     ∃ w', demo_spawn entry process demo_spawned = Ok (tw_next_id demo_spawned, w')) ∧
  NoDup (current s :: ready s) ∧
  (∀ i, is_Some (threads s !! i) → i = current s ∨ i ∈ ready s) ∧
  threads_alive (tw_stats demo_spawned) = (thread_count s + parked s) mod u64_modulus.
Proof.
  apply (threads_reachable_safe Fixed.alloc Fixed.dealloc Fixed.scribble 16 0x1000 0x100 0x200
    HEAP_START (HEAP_START + HEAP_SIZE) 0x2000 0x4000 demo_placement demo_boot demo_spawned
    demo_booted demo_spawned_reachable).
Defined.

Lemma demo_away :
  away Fixed.alloc Fixed.dealloc Fixed.scribble 16 0x1000 0x100 0x200
    HEAP_START (HEAP_START + HEAP_SIZE) 0x2000 0x4000 0 demo_switched demo_returned.
Proof.
  apply rtc_once. split; [vm_compute; discriminate|]. right. apply switch_yield, demo_return_ok.
Qed.

Lemma yield_returns_intact_witness :
  callee (tw_mach demo_returned) = callee (tw_mach demo_spawned) ∧
  regs (tw_mach demo_returned) RSP = regs (tw_mach demo_spawned) RSP ∧
  rip (tw_mach demo_returned) = 0x100 ∧
  (∀ k, regs (tw_mach demo_spawned) RSP <= k
       < stack_hi 0x4000 (tw_sched demo_spawned) (current (tw_sched demo_spawned)) →
     mem (tw_mach demo_returned) !! k = mem (tw_mach demo_spawned) !! k).
Proof.
  apply (yield_returns_intact Fixed.alloc Fixed.dealloc Fixed.scribble 16 0x1000 0x100 0x200
    HEAP_START (HEAP_START + HEAP_SIZE) 0x2000 0x4000 demo_placement demo_boot demo_spawned
    demo_switched demo_returned demo_booted demo_spawned_reachable demo_switch_ok).
  - vm_compute. discriminate.
  - apply demo_away.
  - vm_compute. reflexivity.
Defined.

Lemma demo_away_first :
  away Fixed.alloc Fixed.dealloc Fixed.scribble 16 0x1000 0x100 0x200
    HEAP_START (HEAP_START + HEAP_SIZE) 0x2000 0x4000 1 demo_spawned demo_switched.
Proof.
  apply rtc_once. split; [vm_compute; discriminate|]. right. apply switch_yield, demo_switch_ok.
Qed.

Lemma spawn_first_run_witness :
  rip (tw_mach demo_switched) = 0x5000 ∧ callee (tw_mach demo_switched) = replicate 6 0 ∧
  (16 | regs (tw_mach demo_switched) RSP) ∧
  stack_hi 0x4000 (tw_sched demo_switched) 1 - 16 < regs (tw_mach demo_switched) RSP
    <= stack_hi 0x4000 (tw_sched demo_switched) 1 ∧
  stack_hi 0x4000 (tw_sched demo_switched) 1 = stack_lo 0x2000 (tw_sched demo_switched) 1 + STACK_SIZE.
Proof.
  apply (spawn_first_run Fixed.alloc Fixed.dealloc Fixed.scribble 16 0x1000 0x100 0x200
    HEAP_START (HEAP_START + HEAP_SIZE) 0x2000 0x4000 demo_placement demo_boot demo_boot
    demo_spawned demo_switched 0x5000 3 1 demo_booted).
  - apply rtc_refl.
  - reflexivity.
  - apply demo_spawn_ok.
  - apply demo_away_first.
  - vm_compute. reflexivity.
Defined.

Lemma round_robin_witness :
  ((1 <= 0)%nat → ready (tw_sched demo_switched) !! (0 - 1)%nat = Some 1) ∧
  (1%nat = 1%nat → ∃ w1, rtc demo_tstep demo_spawned w1 ∧ current (tw_sched w1) = 1 ∧
     rtc demo_tstep w1 demo_switched).
Proof.
  apply (round_robin Fixed.alloc Fixed.dealloc Fixed.scribble 16 0x1000 0x100 0x200
    HEAP_START (HEAP_START + HEAP_SIZE) 0x2000 0x4000 demo_placement demo_boot demo_spawned
    demo_switched 1 0 1 demo_booted demo_spawned_reachable).
  - vm_compute. reflexivity.
  - eapply tsteps_switch; [apply tsteps_refl|]. apply switch_yield, demo_switch_ok.
Defined.
