(* ===== verification/ThreadTrap.v ===== *)
(** * Exiting a thread from a trap

    A trap from ring 3 runs on the privilege stack of the task state segment
    (src/src/gdt.rs), not on the stack of the host thread.  [exit_thread]
    called there, by [sys_exit] or by a fault handler, still hands the CPU to
    the next ready thread and keeps the invariant of ThreadInv.v. *)

From Stdlib Require Import ZArith Lia.
From stdpp Require Import base gmap list strings numbers functions.
From S2P Require Import Prelude AllocMod Scheduler Machine Thread ThreadInv.

Open Scope Z_scope.

Section trap.
Context {H : Type}.
Context (alloc : H → Layout → outcome (Z * H)).
Context (dealloc : H → Z → Layout → outcome H).
Context (scribble : H → Z → Z → H).
Context {spec : GlobalAllocSpec H alloc dealloc scribble}.
Context (ctx_offset bootstrap_context exit_ret lo hi boot_lo boot_hi : Z).
Context (Hpl : placement ctx_offset bootstrap_context lo hi boot_lo boot_hi).
(** The privilege stack. *)
Context (plo phi : Z).

Record priv_placement : Prop := {
  pp_heap : apart plo (phi - plo) lo (hi - lo);
  pp_boot : apart plo (phi - plo) boot_lo (boot_hi - boot_lo);
  pp_ctx : apart bootstrap_context 8 plo (phi - plo);
  pp_bounds : 0 <= plo ∧ plo <= phi ∧ phi < u64_modulus - 64;
}.

Context (Hpp : priv_placement).

Abbreviation Tinv := (tinv alloc dealloc scribble ctx_offset bootstrap_context lo hi boot_lo boot_hi).
Abbreviation Holds := (holds ctx_offset bootstrap_context boot_lo boot_hi).
Abbreviation Ctx := (ctx_addr ctx_offset bootstrap_context).

(** The CPU is on the privilege stack, with room for a switch above which the
    frame of [exit_thread] holds [scratch]. *)
Record trapped (m : machine) (scratch : Z) : Prop := {
  tr_align : (8 | regs m RSP);
  tr_lo : plo + 56 <= regs m RSP;
  tr_slot : regs m RSP <= scratch ∧ scratch + 8 <= phi;
  tr_scratch : (8 | scratch);
}.

(** No thread's stack or context meets the privilege stack. *)
Lemma priv_apart w live sv i :
  Tinv w live sv → valid (tw_sched w) i →
  (stack_hi boot_hi (tw_sched w) i <= plo ∨ phi <= stack_lo boot_lo (tw_sched w) i) ∧
  (Ctx (tw_sched w) i + 8 <= plo ∨ phi <= Ctx (tw_sched w) i).
Proof.
  intros [I1 I2 I3 _ _ _] Hi. pose proof (ga_live _ _ _ _ I1) as Hlive.
  destruct Hpl as [[_ Hoff] _ _ _ _ _ _], Hpp as [P1 P2 P3 P4]. unfold apart in *.
  destruct (valid_cases ctx_offset bootstrap_context boot_lo boot_hi (tw_sched w) _ I3 i Hi)
    as [(_ & -> & -> & ->)|(t & _ & _ & _ & Ht & -> & -> & ->)]; [lia|].
  pose proof (tracked_stack _ _ _ _ Hlive I2 t Ht). pose proof (tracked_box _ _ _ _ Hlive I2 t Ht). lia.
Qed.

(** Memory outside the privilege stack keeps every suspended thread. *)
Lemma trap_holds w live sv i c mem' :
  Tinv w live sv → valid (tw_sched w) i →
  (∀ k, k < plo ∨ phi <= k → mem' !! k = mem (tw_mach w) !! k) →
  Holds (tw_sched w) (mem (tw_mach w)) i c → Holds (tw_sched w) mem' i c.
Proof.
  intros Hinv Hi Hm Hh. destruct (priv_apart w live sv i Hinv Hi) as [A1 A2].
  pose proof Hh as [_ Hl _ _ _]. destruct Hpp as [_ _ _ P4].
  eapply holds_mono; [done| |exact Hh]. intros k Hk. apply Hm. lia.
Qed.

Lemma trap_switch w live sv scratch next c :
  Tinv w live sv → trapped (tw_mach w) scratch → valid (tw_sched w) next →
  Holds (tw_sched w) (mem (tw_mach w)) next c →
  ∃ m, (m ← store scratch 0 (tw_mach w);
        call_switch exit_ret scratch (Ctx (tw_sched w) next) m) = Ok m ∧ resumed m c ∧
    ∀ k, k < plo ∨ phi <= k → mem m !! k = mem (tw_mach w) !! k.
Proof.
  intros Hinv [T1 T2 T3 T4] Hv Hh. destruct (priv_apart w live sv next Hinv Hv) as [A1 A2].
  unfold store. rewrite aligned_mod by done. bstep. set (m1 := set_mem _ _).
  destruct Hpp as [_ _ _ P4]. assert (Holds (tw_sched w) (mem m1) next c) as [Hs Hl Hhi _ _].
  { eapply trap_holds; [done|done| |done]. intros k Hk. apply lookup_insert_ne. lia. }
  change (regs (tw_mach w) RSP) with (regs m1 RSP) in *.
  pose proof Hinv as [I1 I2 I3 _ _ _]. pose proof (ga_live _ _ _ _ I1) as Hlive.
  destruct (call_switch_spec exit_ret scratch (Ctx (tw_sched w) next) (sc_sp c) (sc_regs c) (sc_ra c) m1)
    as (m & Hr & Hregs & Hrip & Hsp & Hmem & _); try done; try lia.
  { by eapply ctx_aligned. }
  exists m. split; [done|]. split; [done|]. intros k Hk. rewrite Hmem by lia.
  apply lookup_insert_ne. lia.
Qed.

(** The whole of [exit_thread] on the privilege stack. *)
Lemma exit_thread_trap w live sv scratch next rest :
  Tinv w live sv → trapped (tw_mach w) scratch → ready (tw_sched w) = next :: rest →
  ∃ w' c, exit_thread dealloc ctx_offset bootstrap_context exit_ret scratch w = Ok w' ∧
    Tinv w' (freed (tw_sched w) live) sv ∧ running boot_lo boot_hi w' ∧
    tw_sched w' = exited (drained (tw_sched w)) next rest ∧
    sv !! next = Some c ∧ resumed (tw_mach w') c.
Proof.
  intros Hinv0 Htr Hr0.
  destruct (drain_reaper_spec _ _ _ _ _ _ _ _ _ w live sv Hinv0) as (w1 & Hd & Hinv & Hm & Hn & Hs).
  unfold exit_thread. rewrite Hd. bstep. rewrite <- Hm in Htr.
  assert (ready (tw_sched w1) = next :: rest) as Hr by (by rewrite Hs).
  assert (reaper (tw_sched w1) = None) as Hrp by (by rewrite Hs).
  rewrite <- Hs. clear Hd Hinv0 Hs Hm. pose proof Hinv as [I1 I2 I3 I4 I5 I6].
  rewrite (exit_pick_spec _ _ _ _ next rest I3 Hrp Hr). bstep.
  destruct (qk_ready _ _ I3 next) as [Hne Hv]; [rewrite Hr; left|].
  destruct (I5 next) as (c & Hc & Hh); [rewrite Hr; left|].
  destruct (trap_switch w1 _ sv scratch next c Hinv Htr Hv Hh) as (m & Hsw & Hres & Hmem).
  apply bind_inv in Hsw as (m1 & -> & Hsw). bstep. rewrite Hsw. bstep.
  destruct (exited_shape (tw_sched w1) next rest) as [E1 E2].
  assert (∀ i d, i ∈ next :: rest → Holds (tw_sched w1) (mem (tw_mach w1)) i d →
    Holds (exited (tw_sched w1) next rest) (mem m) i d) as Hall.
  { rewrite <- Hr. intros i d Hi Hd'. destruct (qk_ready _ _ I3 i Hi) as [Hni Hvi].
    eapply (holds_mono _ _ _ _ (tw_sched w1) _ (mem m)); [|done|by eapply trap_holds].
    rewrite (exited_threads _ (tw_next_id w1)) by done. by rewrite decide_False. }
  pose proof (queue_ok_exited _ _ next rest I3 Hr) as Hq'.
  pose proof (owns_exited _ _ _ next rest I3 I2) as Ho'.
  eexists _, c. split; [done|]. split; [|split; [|done]].
  - split; try done.
    + simpl. rewrite I4. f_equal. symmetry. by eapply exited_alive.
    + simpl. rewrite E1. intros i Hi. destruct (I5 i) as (d & Hd' & Hhd); [rewrite Hr; by right|].
      exists d. split; [done|]. apply Hall; [by right|done].
  - eapply resumed_running; try done.
    + by apply (ga_live _ _ _ _ I1).
    + simpl. rewrite E2. apply Hall; [left|done].
Qed.
End trap.
