(* ===== verification/Vga.v ===== *)
(** * The VGA text console

    src/src/vga_buffer.rs: the 25x80 text buffer, the [Writer] and its
    scrolling.  A cell is a [Volatile<ScreenChar>]; the volatile crate is a
    parameter whose documented behaviour is that [read] returns what was last
    written.  The writer refines a terminal with an unbounded history whose
    last rows are on the screen. *)

From Stdlib Require Import ZArith Lia.
From stdpp Require Import base list strings numbers.
From S2P Require Import Prelude.

Open Scope Z_scope.

Definition BUFFER_HEIGHT : nat := 25.
Definition BUFFER_WIDTH : nat := 80.

Inductive Color :=
| Black | Blue | Green | Cyan | Red | Magenta | Brown | LightGray
| DarkGray | LightBlue | LightGreen | LightCyan | LightRed | Pink | Yellow | White.

Definition color_u8 (c : Color) : Z :=
  match c with
  | Black => 0 | Blue => 1 | Green => 2 | Cyan => 3
  | Red => 4 | Magenta => 5 | Brown => 6 | LightGray => 7
  | DarkGray => 8 | LightBlue => 9 | LightGreen => 10 | LightCyan => 11
  | LightRed => 12 | Pink => 13 | Yellow => 14 | White => 15
  end.

Definition DEFAULT_FOREGROUND : Color := LightGray.
Definition DEFAULT_BACKGROUND : Color := Black.

(** [(background as u8) << 4 | (foreground as u8)]; the shift of a [u8] keeps
    eight bits. *)
Definition color_code_new (foreground background : Color) : Z :=
  Z.lor (Z.land (Z.shiftl (color_u8 background) 4) 0xFF) (color_u8 foreground).

Record ScreenChar := mkChar { ascii_character : Z; char_color : Z }.

(** [Volatile<ScreenChar>] of the volatile crate. *)
Class Volatile := {
  vcell : Type;
  vread : vcell → ScreenChar;
  vwrite : vcell → ScreenChar → vcell;
}.

Class VolatileLaws (V : Volatile) := {
  vread_vwrite : ∀ v c, vread (vwrite v c) = c;
}.

Section vga.
Context {V : Volatile}.

Definition Buffer : Type := list (list vcell).

Record Writer := mkWriter {
  column_position : nat;
  color_code : Z;
  buffer : Buffer;
}.

(** The writer of the lazily initialised [WRITER]. *)
Definition writer_new (b : Buffer) : Writer :=
  mkWriter 0 (color_code_new DEFAULT_FOREGROUND DEFAULT_BACKGROUND) b.

Definition set_color (foreground background : Color) (self : Writer) : Writer :=
  mkWriter (column_position self) (color_code_new foreground background) (buffer self).

(** [buffer.chars[row][col].read()] and [.write(c)], bounds-checked. *)
Definition read_cell (b : Buffer) (row col : nat) : outcome ScreenChar :=
  r ← expect (b !! row) "index out of bounds";
  v ← expect (r !! col) "index out of bounds";
  Ok (vread v).

Definition write_cell (b : Buffer) (row col : nat) (c : ScreenChar) : outcome Buffer :=
  r ← expect (b !! row) "index out of bounds";
  v ← expect (r !! col) "index out of bounds";
  Ok (<[row := <[col := vwrite v c]> r]> b).

(** [for col in 0..BUFFER_WIDTH], over the columns left. *)
Fixpoint clear_cols (cols : list nat) (row : nat) (blank : ScreenChar) (b : Buffer)
  : outcome Buffer :=
  match cols with
  | [] => Ok b
  | col :: cols => b ← write_cell b row col blank; clear_cols cols row blank b
  end.

Definition clear_row (row : nat) (self : Writer) : outcome Writer :=
  let blank := mkChar 32 (color_code self) in
  b ← clear_cols (seq 0 BUFFER_WIDTH) row blank (buffer self);
  Ok (mkWriter (column_position self) (color_code self) b).

Fixpoint copy_cols (cols : list nat) (row : nat) (b : Buffer) : outcome Buffer :=
  match cols with
  | [] => Ok b
  | col :: cols =>
      character ← read_cell b row col;
      b ← write_cell b (row - 1) col character;
      copy_cols cols row b
  end.

Fixpoint copy_rows (rows : list nat) (b : Buffer) : outcome Buffer :=
  match rows with
  | [] => Ok b
  | row :: rows => b ← copy_cols (seq 0 BUFFER_WIDTH) row b; copy_rows rows b
  end.

Definition new_line (self : Writer) : outcome Writer :=
  b ← copy_rows (seq 1 (BUFFER_HEIGHT - 1)) (buffer self);
  self ← clear_row (BUFFER_HEIGHT - 1) (mkWriter (column_position self) (color_code self) b);
  Ok (mkWriter 0 (color_code self) (buffer self)).

Definition write_byte (byte : Z) (self : Writer) : outcome Writer :=
  if byte =? 10 then new_line self
  else
    self ← (if (BUFFER_WIDTH <=? column_position self)%nat then new_line self else Ok self);
    let row := (BUFFER_HEIGHT - 1)%nat in
    let col := column_position self in
    b ← write_cell (buffer self) row col (mkChar byte (color_code self));
    Ok (mkWriter (S col) (color_code self) b).

(** What [write_string] prints for one byte. *)
Definition printable (byte : Z) : Z :=
  if ((0x20 <=? byte) && (byte <=? 0x7e)) || (byte =? 10) then byte else 0xfe.

Fixpoint write_string (s : list Z) (self : Writer) : outcome Writer :=
  match s with
  | [] => Ok self
  | byte :: s => self ← write_byte (printable byte) self; write_string s self
  end.

(** [write_str], called by [write_fmt] for each piece; [_print] unwraps the
    result, which is never an error. *)
Definition write_str := write_string.

(** [_print], the end of [print!]: the pieces of the formatted message, one
    after the other. *)
Fixpoint print (pieces : list (list Z)) (self : Writer) : outcome Writer :=
  match pieces with
  | [] => Ok self
  | s :: pieces => self ← write_str s self; print pieces self
  end.

(** The module's [reset_color]. *)
Definition reset_color (self : Writer) : Writer :=
  set_color DEFAULT_FOREGROUND DEFAULT_BACKGROUND self.

(** What the rest of the kernel does with the console. *)
Inductive console_op :=
| OPrint (pieces : list (list Z))
| OSetColor (foreground background : Color)
| OResetColor.

Definition console_do (op : console_op) (self : Writer) : outcome Writer :=
  match op with
  | OPrint pieces => print pieces self
  | OSetColor foreground background => Ok (set_color foreground background self)
  | OResetColor => Ok (reset_color self)
  end.

Fixpoint console_run (ops : list console_op) (self : Writer) : outcome Writer :=
  match ops with
  | [] => Ok self
  | op :: ops => self ← console_do op self; console_run ops self
  end.

(** ** The terminal it refines

    [history] are the rows that have left the bottom line, oldest first,
    [bottom] is the line being written. *)
Record terminal := mkTerm {
  history : list (list ScreenChar);
  bottom : list ScreenChar;
  t_col : nat;
  t_color : Z;
}.

Definition blank_row (color : Z) : list ScreenChar := replicate BUFFER_WIDTH (mkChar 32 color).

Definition t_new_line (t : terminal) : terminal :=
  mkTerm (history t ++ [bottom t]) (blank_row (t_color t)) 0 (t_color t).

Definition t_write_byte (byte : Z) (t : terminal) : terminal :=
  if byte =? 10 then t_new_line t
  else
    let t := if (BUFFER_WIDTH <=? t_col t)%nat then t_new_line t else t in
    mkTerm (history t) (<[t_col t := mkChar byte (t_color t)]> (bottom t)) (S (t_col t)) (t_color t).

Definition t_write_string (s : list Z) (t : terminal) : terminal :=
  foldl (λ t byte, t_write_byte (printable byte) t) t s.

Definition t_set_color (color : Z) (t : terminal) : terminal :=
  mkTerm (history t) (bottom t) (t_col t) color.

Definition t_do (op : console_op) (t : terminal) : terminal :=
  match op with
  | OPrint pieces => t_write_string (mjoin pieces) t
  | OSetColor foreground background => t_set_color (color_code_new foreground background) t
  | OResetColor => t_set_color 0x07 t
  end.

Definition view (b : Buffer) : list (list ScreenChar) :=
  (λ r : list vcell, vread <$> r) <$> (b : list (list vcell)).

Definition screen (self : Writer) : list (list ScreenChar) := view (buffer self).

(** The writer shows the last 24 rows of the history above the bottom line. *)
Record shows (self : Writer) (t : terminal) : Prop := {
  sh_screen : screen self = drop (length (history t) - 24) (history t) ++ [bottom t];
  sh_height : (24 <= length (history t))%nat;
  sh_rows : Forall (λ r, length r = BUFFER_WIDTH) (history t ++ [bottom t]);
  sh_col : column_position self = t_col t;
  sh_width : (t_col t <= BUFFER_WIDTH)%nat;
  sh_color : color_code self = t_color t;
}.

(** ** Cells *)

Context {laws : VolatileLaws V}.

Lemma view_lookup b row : view b !! row = (λ r : list vcell, vread <$> r) <$> (b !! row).
Proof. apply list_lookup_fmap. Qed.

Lemma read_cell_ok b row col r c :
  view b !! row = Some r → r !! col = Some c → read_cell b row col = Ok c.
Proof.
  rewrite view_lookup. unfold read_cell. destruct (b !! row) as [q|]; [|done].
  intros [= <-] Hc. cbn [expect]. bstep. rewrite list_lookup_fmap in Hc. destruct (q !! col); [|done]. cbn [expect]. bstep.
  by injection Hc as ->.
Qed.

Lemma write_cell_ok b row col r c :
  view b !! row = Some r → (col < length r)%nat →
  ∃ b', write_cell b row col c = Ok b' ∧ view b' = <[row := <[col := c]> r]> (view b).
Proof.
  rewrite view_lookup. unfold write_cell. destruct (b !! row) as [q|] eqn:Hq; [|done].
  intros [= <-] Hc. cbn [expect]. bstep. rewrite length_fmap in Hc.
  destruct (lookup_lt_is_Some_2 q col Hc) as [v Hv]. rewrite Hv. cbn [expect]. bstep.
  eexists. split; [done|]. unfold view, Buffer. rewrite list_fmap_insert. f_equal.
  by rewrite list_fmap_insert, vread_vwrite.
Qed.

(** ** The loops of [clear_row] and [new_line] *)

Lemma insert_prefix {A} (l : list A) j x rest :
  (j < length l)%nat → <[j := x]> (take j l ++ rest) = match rest with
                                                      | [] => take j l
                                                      | _ :: rest => take j l ++ x :: rest
                                                      end.
Proof.
  intros Hj. rewrite insert_app_r_alt by (rewrite length_take; lia).
  rewrite length_take, Nat.min_l, Nat.sub_diag by lia. destruct rest; simpl; [by rewrite app_nil_r|done].
Qed.

Lemma clear_cols_ok n j row blank b old :
  (j + n = BUFFER_WIDTH)%nat → length old = BUFFER_WIDTH →
  view b !! row = Some (replicate j blank ++ drop j old) →
  ∃ b', clear_cols (seq j n) row blank b = Ok b' ∧
    view b' = <[row := replicate BUFFER_WIDTH blank]> (view b).
Proof.
  revert j b. induction n as [|n IH]; intros j b Hj Hl Hr; cbn [seq clear_cols].
  - exists b. split; [done|]. rewrite list_insert_id; [done|]. rewrite Hr.
    replace j with BUFFER_WIDTH by lia. rewrite drop_ge, app_nil_r by lia. done.
  - destruct (write_cell_ok b row j _ blank Hr) as (b1 & -> & Hb1).
    { rewrite length_app, length_replicate, length_drop. lia. }
    bstep. destruct (lookup_lt_is_Some_2 old j) as [x Hx]; [lia|].
    assert (<[j := blank]> (replicate j blank ++ drop j old) = replicate (S j) blank ++ drop (S j) old) as E.
    { rewrite insert_app_r_alt by (rewrite length_replicate; lia).
      rewrite length_replicate, Nat.sub_diag, (drop_S _ _ _ Hx), replicate_S_end.
      by rewrite <- app_assoc. }
    destruct (IH (S j) b1) as (b2 & -> & Hb2); [lia|done| |].
    + rewrite Hb1, list_lookup_insert_eq by (by eapply lookup_lt_Some). by rewrite E.
    + exists b2. split; [done|]. by rewrite Hb2, Hb1, list_insert_insert_eq.
Qed.

Lemma copy_cols_ok n j row b src dst :
  (j + n = BUFFER_WIDTH)%nat → (1 <= row)%nat → length src = BUFFER_WIDTH → length dst = BUFFER_WIDTH →
  view b !! row = Some src → view b !! (row - 1)%nat = Some (take j src ++ drop j dst) →
  ∃ b', copy_cols (seq j n) row b = Ok b' ∧ view b' = <[(row - 1)%nat := src]> (view b).
Proof.
  revert j b. induction n as [|n IH]; intros j b Hj Hrow Hls Hld Hs Hd; cbn [seq copy_cols].
  - exists b. split; [done|]. rewrite list_insert_id; [done|]. rewrite Hd.
    rewrite take_ge, drop_ge, app_nil_r by lia. done.
  - destruct (lookup_lt_is_Some_2 src j) as [x Hx]; [lia|].
    destruct (lookup_lt_is_Some_2 dst j) as [y Hy]; [lia|].
    rewrite (read_cell_ok b row j src x) by done. bstep.
    destruct (write_cell_ok b (row - 1) j _ x Hd) as (b1 & -> & Hb1).
    { rewrite length_app, length_take, length_drop. lia. }
    bstep. rewrite insert_prefix, (drop_S _ _ _ Hy) in Hb1 by lia.
    destruct (IH (S j) b1) as (b2 & -> & Hb2); [lia|done..| | |].
    + by rewrite Hb1, list_lookup_insert_ne by lia.
    + rewrite Hb1, list_lookup_insert_eq by (by eapply lookup_lt_Some).
      by rewrite (take_S_r _ _ _ Hx), <- app_assoc.
    + exists b2. split; [done|]. by rewrite Hb2, Hb1, list_insert_insert_eq.
Qed.

Lemma drop_insert_before {A} (l : list A) n i x : (i < n)%nat → drop n (<[i := x]> l) = drop n l.
Proof. intros. apply list_eq. intros j. by rewrite !lookup_drop, list_lookup_insert_ne by lia. Qed.

Lemma copy_rows_ok n r b bot :
  (r + n = BUFFER_HEIGHT)%nat → (1 <= r)%nat → length (view b) = BUFFER_HEIGHT →
  Forall (λ q, length q = BUFFER_WIDTH) (view b) → view b !! 24%nat = Some bot →
  ∃ b', copy_rows (seq r n) b = Ok b' ∧ view b' = take (r - 1) (view b) ++ drop r (view b) ++ [bot].
Proof.
  unfold BUFFER_HEIGHT. revert r b. induction n as [|n IH]; intros r b Hr H1 Hl Hw Hb; cbn [seq copy_rows].
  - exists b. split; [done|]. rewrite (drop_ge (view b)) by lia. replace (r - 1)%nat with 24%nat by lia.
    rewrite <- (take_drop_middle (view b) 24 bot) at 1 by done. by rewrite (drop_ge (view b)) by lia.
  - destruct (lookup_lt_is_Some_2 (view b) r) as [src Hs]; [lia|].
    destruct (lookup_lt_is_Some_2 (view b) (r - 1)) as [dst Hd]; [lia|].
    pose proof (Forall_lookup_1 _ _ _ _ Hw Hs) as Hls. pose proof (Forall_lookup_1 _ _ _ _ Hw Hd) as Hld.
    destruct (copy_cols_ok BUFFER_WIDTH 0 r b src dst) as (b1 & -> & Hb1); [done..|].
    bstep. destruct (IH (S r) b1) as (b2 & -> & Hb2); rewrite ?Hb1.
    + lia.
    + lia.
    + by rewrite length_insert.
    + by apply Forall_insert.
    + destruct (decide (r - 1 = 24)%nat); [lia|]. by rewrite list_lookup_insert_ne.
    + exists b2. split; [done|]. rewrite Hb2, Hb1. simpl. rewrite Nat.sub_0_r.
      rewrite drop_insert_before by lia. rewrite (drop_S _ _ _ Hs).
      replace r with (S (r - 1)) at 1 by lia.
      rewrite (take_S_r _ _ src) by (apply list_lookup_insert_eq; lia).
      rewrite take_insert_ge by lia. by rewrite <- app_assoc.
Qed.

Lemma new_line_ok self :
  length (screen self) = BUFFER_HEIGHT → Forall (λ q, length q = BUFFER_WIDTH) (screen self) →
  ∃ self', new_line self = Ok self' ∧ column_position self' = 0%nat ∧
    color_code self' = color_code self ∧
    screen self' = drop 1 (screen self) ++ [blank_row (color_code self)].
Proof.
  intros Hl Hw. unfold screen in *. destruct (lookup_lt_is_Some_2 (view (buffer self)) 24) as [bot Hb].
  { rewrite Hl. unfold BUFFER_HEIGHT. lia. }
  unfold new_line. destruct (copy_rows_ok 24 1 (buffer self) bot) as (b1 & Hc & Hb1); [done..|].
  change (BUFFER_HEIGHT - 1)%nat with 24%nat. rewrite Hc. bstep. unfold clear_row.
  cbn [color_code buffer]. rewrite take_0 in Hb1. cbn [app] in Hb1.
  assert (length (drop 1 (view (buffer self))) = 24%nat) as Hld by (rewrite length_drop, Hl; done).
  destruct (clear_cols_ok BUFFER_WIDTH 0 24 (mkChar 32 (color_code self)) b1 bot) as (b2 & -> & Hb2).
  - done.
  - by eapply (Forall_lookup_1 _ _ _ _ Hw Hb).
  - rewrite Hb1, lookup_app_r, Hld by lia. done.
  - bstep. eexists. split; [done|]. cbn [column_position color_code buffer]. split_and!; [done..|].
    rewrite Hb2, Hb1. rewrite insert_app_r_alt, Hld by lia. done.
Qed.

(** ** Refinement *)

Lemma shows_dims self t :
  shows self t → length (screen self) = BUFFER_HEIGHT ∧
    Forall (λ q, length q = BUFFER_WIDTH) (screen self).
Proof.
  intros [H1 H2 H3 _ _ _]. rewrite H1. apply Forall_app in H3 as [H3 H4]. split.
  - rewrite length_app, length_drop. unfold BUFFER_HEIGHT. simpl. lia.
  - apply Forall_app. split; [by apply Forall_drop|done].
Qed.

Lemma blank_row_length c : length (blank_row c) = BUFFER_WIDTH.
Proof. apply length_replicate. Qed.

Lemma new_line_refines self t :
  shows self t → ∃ self', new_line self = Ok self' ∧ shows self' (t_new_line t).
Proof.
  intros Ht. destruct (shows_dims self t Ht) as [Hl Hw]. destruct Ht as [H1 H2 H3 H4 H5 H6].
  destruct (new_line_ok self Hl Hw) as (self' & -> & Hc & Hcol & Hs). exists self'. split; [done|].
  split; cbn [t_new_line history bottom t_col t_color]; try done; [| | |lia|congruence].
  - rewrite Hs, H1, H6, length_app. simpl.
    replace (length (history t) + 1 - 24)%nat with (S (length (history t) - 24)) by lia.
    rewrite drop_app_le by (rewrite length_drop; lia). rewrite drop_drop.
    rewrite (drop_app_le (history t)) by lia. by rewrite Nat.add_1_r, <- app_assoc.
  - rewrite length_app. simpl. lia.
  - rewrite <- app_assoc. rewrite Forall_app in H3 |- *. destruct H3 as [H3 H3']. split; [done|].
    inversion_clear H3'. constructor; [done|]. constructor; [apply blank_row_length|constructor].
Qed.

Lemma write_byte_refines byte self t :
  shows self t → ∃ self', write_byte byte self = Ok self' ∧ shows self' (t_write_byte byte t).
Proof.
  intros Ht. unfold write_byte, t_write_byte. destruct (byte =? 10); [by apply new_line_refines|].
  assert (∃ self1, (if (BUFFER_WIDTH <=? column_position self)%nat then new_line self else Ok self) = Ok self1 ∧
    shows self1 (if (BUFFER_WIDTH <=? t_col t)%nat then t_new_line t else t) ∧
    (t_col (if (BUFFER_WIDTH <=? t_col t)%nat then t_new_line t else t) < BUFFER_WIDTH)%nat)
    as (self1 & -> & Ht1 & Hlt).
  { rewrite (sh_col _ _ Ht). destruct (Nat.leb_spec BUFFER_WIDTH (t_col t)) as [Hle|Hlt].
    - destruct (new_line_refines self t Ht) as (self1 & ? & ?). exists self1.
      split_and!; [done..|]. simpl. unfold BUFFER_WIDTH. lia.
    - eauto. }
  bstep. set (t1 := if (BUFFER_WIDTH <=? t_col t)%nat then _ else _) in *.
  destruct (shows_dims self1 t1 Ht1) as [Hl Hw]. destruct Ht1 as [H1 H2 H3 H4 H5 H6].
  apply Forall_app in H3 as [H3 H3']. inversion H3' as [|? ? Hbl]; subst.
  assert (screen self1 !! 24%nat = Some (bottom t1)) as Hb.
  { rewrite H1, lookup_app_r by (rewrite length_drop; lia). rewrite length_drop.
    by replace (24 - (length (history t1) - (length (history t1) - 24)))%nat with 0%nat by lia. }
  destruct (write_cell_ok (buffer self1) 24 (column_position self1) (bottom t1)
    (mkChar byte (color_code self1)) Hb) as (b & Hb' & Hv); [rewrite H4, Hbl; done|].
  change (BUFFER_HEIGHT - 1)%nat with 24%nat. rewrite Hb'. bstep. eexists. split; [done|].
  split; cbn [history bottom t_col t_color column_position color_code]; try done; try lia.
  - unfold screen in *. cbn [buffer]. rewrite Hv, H1, H4, H6.
    rewrite insert_app_r_alt by (rewrite length_drop; lia). rewrite length_drop.
    by replace (24 - (length (history t1) - (length (history t1) - 24)))%nat with 0%nat by lia.
  - apply Forall_app. split; [done|]. constructor; [by rewrite length_insert|done].
Qed.

Lemma write_string_refines s self t :
  shows self t → ∃ self', write_string s self = Ok self' ∧ shows self' (t_write_string s t).
Proof.
  revert self t. induction s as [|byte s IH]; intros self t Ht; cbn [write_string]; [eauto|].
  destruct (write_byte_refines (printable byte) self t Ht) as (self1 & -> & Ht1). bstep.
  by apply IH.
Qed.

Lemma print_refines pieces self t :
  shows self t → ∃ self', print pieces self = Ok self' ∧ shows self' (t_write_string (mjoin pieces) t).
Proof.
  revert self t. induction pieces as [|s pieces IH]; intros self t Ht; [by exists self|].
  cbn [print]. destruct (write_string_refines s self t Ht) as (self1 & H1 & Hs1).
  unfold write_str. rewrite H1. bstep. destruct (IH self1 _ Hs1) as (self' & -> & Hs').
  exists self'. split; [done|]. unfold t_write_string in *. cbn [mjoin list_join]. by rewrite foldl_app.
Qed.

Lemma console_do_refines op self t :
  shows self t → ∃ self', console_do op self = Ok self' ∧ shows self' (t_do op t).
Proof.
  intros Ht. destruct op as [pieces|fg bg|]; [by apply print_refines|..];
    destruct Ht; eexists; (split; [reflexivity|]); by split.
Qed.


(** Every writer on a 25x80 buffer shows some terminal. *)
Lemma shows_some self :
  length (screen self) = BUFFER_HEIGHT → Forall (λ q, length q = BUFFER_WIDTH) (screen self) →
  (column_position self <= BUFFER_WIDTH)%nat → ∃ t, shows self t ∧ t_col t = column_position self.
Proof.
  intros Hl Hw Hc. destruct (lookup_lt_is_Some_2 (screen self) 24) as [bot Hb].
  { rewrite Hl. unfold BUFFER_HEIGHT. lia. }
  exists (mkTerm (take 24 (screen self)) bot (column_position self) (color_code self)).
  assert (take 24 (screen self) ++ [bot] = screen self) as E.
  { rewrite <- (take_S_r _ _ _ Hb). apply take_ge. rewrite Hl. done. }
  assert (length (take 24 (screen self)) = 24%nat) as Ht by (rewrite length_take, Hl; done).
  split; [|done]. split; cbn [history bottom t_col t_color]; try done; rewrite ?E; try done.
  - by rewrite Ht, drop_0, E.
  - lia.
Qed.

(** Text that fits on the line is written in place. *)
Lemma t_write_string_line s t :
  (t_col t + length s <= BUFFER_WIDTH)%nat → length (bottom t) = BUFFER_WIDTH →
  Forall (λ b, printable b ≠ 10) s →
  t_write_string s t = mkTerm (history t)
    (take (t_col t) (bottom t) ++ ((λ b, mkChar (printable b) (t_color t)) <$> s)
       ++ drop (t_col t + length s) (bottom t))
    (t_col t + length s) (t_color t).
Proof.
  unfold t_write_string. revert t. induction s as [|b s IH]; intros t Hc Hl Hs; cbn [foldl length fmap list_fmap].
  - rewrite !Nat.add_0_r. cbn [app]. rewrite take_drop. by destruct t.
  - inversion_clear Hs as [|? ? Hb Hs']. cbn [length] in Hc.
    unfold t_write_byte at 2. rewrite (proj2 (Z.eqb_neq _ _) Hb).
    rewrite (proj2 (Nat.leb_gt _ _)) by lia.
    destruct (lookup_lt_is_Some_2 (bottom t) (t_col t)) as [x Hx]; [lia|].
    rewrite IH; cbn [history bottom t_col t_color]; [|lia|by rewrite length_insert|done].
    rewrite Nat.add_succ_r. f_equal.
    rewrite (take_S_r _ _ (mkChar (printable b) (t_color t))) by (apply list_lookup_insert_eq; lia).
    rewrite take_insert_ge by lia. rewrite drop_insert_before by lia. by rewrite <- app_assoc.
Qed.
End vga.

(** ** Theorems *)

(** C19: the text console refines a terminal with unbounded history: on any
    25x80 buffer, any sequence of prints and colour changes never indexes
    outside the buffer, wraps at column 80, scrolls by dropping the oldest
    row, and leaves the last 24 rows of the history above the line being
    written, each character in the colour set when it was printed. *)
Theorem console_refines_terminal {V : Volatile} {VL : VolatileLaws V} self :
  length (screen self) = BUFFER_HEIGHT → Forall (λ q, length q = BUFFER_WIDTH) (screen self) →
  (column_position self <= BUFFER_WIDTH)%nat →
  ∃ t, shows self t ∧
    ∀ ops, ∃ self', console_run ops self = Ok self' ∧ shows self' (foldl (flip t_do) t ops).
Proof.
  intros H1 H2 H3. destruct (shows_some self H1 H2 H3) as (t & Ht & _). exists t. split; [done|].
  intros ops. clear H1 H2 H3. revert self t Ht. induction ops as [|op ops IH]; intros self t Ht; [by exists self|].
  cbn [console_run]. destruct (console_do_refines op self t Ht) as (self1 & -> & Ht1). bstep. by apply IH.
Qed.

(** a printable line that fits is shown as written: after [write_string]
    of text without newlines that fits right of the cursor, the bottom row
    holds that text in the current colour from the old cursor on, the other
    rows and the rest of the bottom row are unchanged, and the cursor stands
    behind the text. *)
Theorem console_shows_line {V : Volatile} {VL : VolatileLaws V} self s bot :
  length (screen self) = BUFFER_HEIGHT → Forall (λ q, length q = BUFFER_WIDTH) (screen self) →
  (column_position self + length s <= BUFFER_WIDTH)%nat →
  screen self !! 24%nat = Some bot → Forall (λ b, 0x20 <= b <= 0x7e) s →
  ∃ self', write_string s self = Ok self' ∧
    column_position self' = (column_position self + length s)%nat ∧
    screen self' = take 24 (screen self) ++
      [take (column_position self) bot ++ ((λ b, mkChar b (color_code self)) <$> s)
         ++ drop (column_position self + length s) bot].
Proof.
  intros H1 H2 H3 Hb Hs. destruct (shows_some self H1 H2 ltac:(lia)) as (t & Ht & Hc).
  destruct (write_string_refines s self t Ht) as (self' & Hw & Ht'). exists self'. split; [done|].
  assert (Forall (λ b, printable b = b ∧ b ≠ 10) s) as Hp.
  { eapply Forall_impl; [|exact Hs]. intros b [Hr1 Hr2]. unfold printable.
    rewrite (proj2 (Z.leb_le 32 b)), (proj2 (Z.leb_le b 126)) by lia. split; [done|lia]. }
  pose proof Ht as [E1 E2 E3 E4 E5 E6]. pose proof Ht' as [F1 F2 F3 F4 F5 F6].
  apply Forall_app in E3 as [_ E3]. inversion_clear E3 as [|? ? Hbl _].
  assert (bottom t = bot) as <-.
  { rewrite E1, lookup_app_r in Hb by (rewrite length_drop; lia). rewrite length_drop in Hb.
    replace (24 - (length (history t) - (length (history t) - 24)))%nat with 0%nat in Hb by lia. by injection Hb. }
  assert (Forall (λ b, printable b ≠ 10) s) as Hn.
  { eapply Forall_impl; [|exact Hp]. simpl. intros b [-> ?]. done. }
  rewrite t_write_string_line in F1, F4 by (done || lia).
  cbn [history bottom t_col] in F1, F4. rewrite <- Hc. split; [done|].
  rewrite F1, E1, take_app_length' by (rewrite length_drop; lia). do 2 f_equal. f_equal.
  rewrite <- E6. f_equal. apply list_fmap_ext. intros i b Hi.
  destruct (Forall_lookup_1 _ _ _ _ Hp Hi) as [-> _]. done.
Qed.

(** *** A concrete console: a cell is the character itself *)

Definition demo_volatile : Volatile := {| vcell := ScreenChar; vread := λ v, v; vwrite := λ _ c, c |}.

Lemma demo_volatile_laws : VolatileLaws demo_volatile.
Proof. by split. Qed.

Definition demo_writer : Writer (V := demo_volatile) :=
  writer_new (V := demo_volatile) (replicate 25 (blank_row 7) : list (list ScreenChar)).

Lemma console_refines_terminal_witness :
  ∃ t, shows demo_writer t ∧
    ∀ ops, ∃ self', console_run ops demo_writer = Ok self' ∧ shows self' (foldl (flip t_do) t ops).
Proof.
  apply (console_refines_terminal (VL := demo_volatile_laws)).
  - reflexivity.
  - refine (bool_decide_unpack _ _). vm_compute. exact I.
  - cbn. lia.
Defined.

Lemma console_shows_line_witness :
  ∃ self', write_string [104; 105] demo_writer = Ok self' ∧
    column_position self' = 2%nat ∧
    screen self' = take 24 (screen demo_writer) ++
      [take 0 (blank_row 7) ++ ((λ b, mkChar b 7) <$> [104; 105]) ++ drop 2 (blank_row 7)].
Proof.
  apply (console_shows_line (VL := demo_volatile_laws) demo_writer [104; 105] (blank_row 7)).
  - reflexivity.
  - refine (bool_decide_unpack _ _). vm_compute. exact I.
  - vm_compute. lia.
  - reflexivity.
  - repeat constructor; lia.
Defined.
