(* ===== verification/Libs.v ===== *)
(** * Third-party data structures

    The concurrency crates the kernel uses, as parameters: for each the
    operations the kernel calls, and the documented behaviour the theorems
    rely on.  Their operations are atomic with respect to interrupts. *)

From Stdlib Require Import ZArith Lia.
From stdpp Require Import base list strings numbers.
From S2P Require Import Prelude.

Open Scope Z_scope.

(** ** [crossbeam_queue::ArrayQueue]: a bounded FIFO *)

Class ArrayQueue := {
  aq : Type;
  aq_new : nat → aq;
  aq_push : aq → Z → option aq;          (* [None]: the queue is full *)
  aq_pop : aq → option (Z * aq);
  aq_is_empty : aq → bool;
}.

Class ArrayQueueLaws (Q : ArrayQueue) := {
  aq_list : aq → list Z;
  aq_cap : aq → nat;
  aq_new_ok : ∀ n, (0 < n)%nat → aq_list (aq_new n) = [] ∧ aq_cap (aq_new n) = n;
  aq_push_ok : ∀ q x,
    if bool_decide (length (aq_list q) < aq_cap q)%nat
    then ∃ q', aq_push q x = Some q' ∧ aq_list q' = aq_list q ++ [x] ∧ aq_cap q' = aq_cap q
    else aq_push q x = None;
  aq_pop_ok : ∀ q,
    match aq_list q with
    | [] => aq_pop q = None
    | x :: l => ∃ q', aq_pop q = Some (x, q') ∧ aq_list q' = l ∧ aq_cap q' = aq_cap q
    end;
  aq_empty_ok : ∀ q, aq_is_empty q = bool_decide (aq_list q = []);
}.

(** ** [conquer_once::spin::OnceCell]: initialised at most once

    [set_inner] is the effect of mutating the value through the shared
    reference [try_get] returns. *)

Class OnceCell (A : Type) := {
  cell : Type;
  cell_uninit : cell;
  try_get : cell → option A;
  try_init_once : cell → A → option cell;
  set_inner : cell → A → cell;
}.

Class OnceCellLaws (A : Type) (C : OnceCell A) := {
  uninit_get : try_get cell_uninit = None;
  init_fresh : ∀ c a, try_get c = None → ∃ c', try_init_once c a = Some c' ∧ try_get c' = Some a;
  init_again : ∀ c a, is_Some (try_get c) → try_init_once c a = None;
  set_get : ∀ c a b, try_get c = Some a → try_get (set_inner c b) = Some b;
}.

(** ** [futures_util::task::AtomicWaker]: the last waker registered

    [wake] calls the waker registered last, if any, and forgets it; [take]
    forgets it without calling it. *)

Class AtomicWaker (W : Type) := {
  aw : Type;
  aw_new : aw;
  aw_register : aw → W → aw;
  aw_take : aw → option W * aw;
}.

Class AtomicWakerLaws (W : Type) (A : AtomicWaker W) := {
  aw_get : aw → option W;
  aw_new_ok : aw_get aw_new = None;
  aw_register_ok : ∀ a w, aw_get (aw_register a w) = Some w;
  aw_take_ok : ∀ a, (aw_take a).1 = aw_get a ∧ aw_get (aw_take a).2 = None;
}.

(** ** [pc_keyboard]: the scancode decoder *)

Inductive DecodedKey :=
| Unicode (character : Z)
| RawKey (key : Z).

Class KeyDecoder := {
  keyboard : Type;
  keyboard_new : keyboard;
  KeyEvent : Type;
  add_byte : keyboard → Z → option (option KeyEvent) * keyboard;   (* [None]: an error *)
  process_keyevent : keyboard → KeyEvent → option DecodedKey * keyboard;
}.

(** ** [x86_64::instructions::port::Port]: the [in] and [out] instructions

    [inb] reads a byte from a port, [outl] writes 32 bits to one.  What a port
    does is up to the device behind it. *)

Class PortIo := {
  io : Type;
  inb : Z → io → Z * io;
  outl : Z → Z → io → io;
}.

(** ** [pic8259::ChainedPics]: the two interrupt controllers

    An interrupt the controllers have handed to the CPU stays in service, and
    blocks others, until the end of interrupt.  The end-of-interrupt command
    names no interrupt: its effect is the documented one when only the
    interrupt being ended is in service.  [accept] is the hardware's side: the
    CPU takes an interrupt. *)

Class ChainedPics := {
  pics : Type;
  pics_new : Z → Z → pics;
  pics_initialize : pics → pics;
  notify_end_of_interrupt : Z → pics → pics;
  accept : Z → pics → pics;
}.

Class ChainedPicsLaws (PIC : ChainedPics) := {
  in_service : pics → list Z;
  pics_initialize_ok : ∀ a b, in_service (pics_initialize (pics_new a b)) = [];
  accept_ok : ∀ id p, in_service (accept id p) = id :: in_service p;
  notify_ok : ∀ id p, in_service p = [id] → in_service (notify_end_of_interrupt id p) = [];
}.

(** ** Instances: lists and options *)

Record list_queue := mkLQ { lq_cap : nat; lq_list : list Z }.

Definition list_array_queue : ArrayQueue := {|
  aq := list_queue;
  aq_new n := mkLQ n [];
  aq_push q x := if bool_decide (length (lq_list q) < lq_cap q)%nat
                 then Some (mkLQ (lq_cap q) (lq_list q ++ [x])) else None;
  aq_pop q := match lq_list q with [] => None | x :: l => Some (x, mkLQ (lq_cap q) l) end;
  aq_is_empty q := match lq_list q with [] => true | _ => false end;
|}.

Definition list_array_queue_laws : ArrayQueueLaws list_array_queue.
Proof.
  refine {| aq_list := lq_list : @aq list_array_queue → _;
            aq_cap := lq_cap : @aq list_array_queue → _ |}.
  - done.
  - intros q x. cbn. case_bool_decide; eauto.
  - intros [n [|x l]]; cbn; eauto.
  - intros [n [|x l]]; done.
Defined.

Definition option_cell A : OnceCell A := {|
  cell := option A;
  cell_uninit := None;
  try_get c := c;
  try_init_once c a := match c with None => Some (Some a) | Some _ => None end;
  set_inner c a := match c with Some _ => Some a | None => None end;
|}.

Lemma option_cell_laws A : OnceCellLaws A (option_cell A).
Proof.
  split; cbn.
  - done.
  - intros c a ->. eauto.
  - by intros c a [b ->].
  - by intros c a b ->.
Qed.

Definition option_waker W : AtomicWaker W := {|
  aw := option W;
  aw_new := None;
  aw_register _ w := Some w;
  aw_take a := (a, None);
|}.

Definition option_waker_laws W : AtomicWakerLaws W (option_waker W).
Proof. refine {| aw_get := (λ a, a) : @aw W (option_waker W) → _ |}; done. Defined.

(** Ports that deliver a fixed list of bytes and record what is written. *)
Record demo_ports := mkPorts { in_bytes : list Z; out_words : list (Z * Z) }.

Definition demo_port_io : PortIo := {|
  io := demo_ports;
  inb _ p := match in_bytes p with
             | [] => (0xff, p)
             | b :: bs => (b, mkPorts bs (out_words p))
             end;
  outl a v p := mkPorts (in_bytes p) (out_words p ++ [(a, v)]);
|}.

(** Controllers as the list of interrupts in service. *)
Definition demo_pics : ChainedPics := {|
  pics := list Z;
  pics_new _ _ := [];
  pics_initialize _ := [];
  notify_end_of_interrupt _ p := tail p;
  accept id p := id :: p;
|}.

Definition demo_pics_laws : ChainedPicsLaws demo_pics.
Proof.
  refine {| in_service := (λ p, p) : @pics demo_pics → _ |}; [done|done|]. by intros id p ->.
Defined.
