(* ===== verification/Keyboard.v ===== *)
(** * Keyboard input

    src/src/task/keyboard.rs: the scancode queue filled by the keyboard
    interrupt, the stream the keyboard task polls, and the decoded bytes read
    by [sys_read].  The interrupt can fire between any two atomic operations
    of [poll_next], so the poll is also given as a state machine whose steps
    interleave with [add_scancode]. *)

From Stdlib Require Import ZArith Lia.
From stdpp Require Import base list strings numbers relations.
From S2P Require Import Prelude Libs.

Open Scope Z_scope.

Definition SCANCODE_QUEUE_CAPACITY : nat := 100.
Definition KEY_QUEUE_CAPACITY : nat := 100.

(** [core::task::Poll] *)
Inductive Poll (T : Type) := Ready (t : T) | Pending.
Arguments Ready {T}.
Arguments Pending {T}.

Section keyboard.
(** [W] is the waker type, [E] what waking acts on. *)
Context {W E : Type} (wake : W → E → outcome E).
Context {Q : ArrayQueue} {C : OnceCell aq} {A : AtomicWaker W}.

(** The statics of the module. *)
Record kstate := mkK {
  SCANCODE_QUEUE : cell;
  KEY_QUEUE : cell;
  WAKER : aw;
  k_env : E;
}.

Definition set_scancodes (st : kstate) (q : aq) : kstate :=
  mkK (set_inner (SCANCODE_QUEUE st) q) (KEY_QUEUE st) (WAKER st) (k_env st).

Definition set_keys (st : kstate) (q : aq) : kstate :=
  mkK (SCANCODE_QUEUE st) (set_inner (KEY_QUEUE st) q) (WAKER st) (k_env st).

(** [WAKER.wake()] *)
Definition waker_wake (st : kstate) : outcome kstate :=
  let '(w, a) := aw_take (WAKER st) in
  match w with
  | None => Ok (mkK (SCANCODE_QUEUE st) (KEY_QUEUE st) a (k_env st))
  | Some w => e ← wake w (k_env st); Ok (mkK (SCANCODE_QUEUE st) (KEY_QUEUE st) a e)
  end.

(** The warning logged, if any, and the new state. *)
Definition add_scancode (scancode : Z) (st : kstate) : outcome (option string * kstate) :=
  match try_get (SCANCODE_QUEUE st) with
  | Some queue =>
      match aq_push queue scancode with
      | None => Ok (Some "scancode queue full; dropping keyboard input"%string, st)
      | Some queue =>
          st ← waker_wake (set_scancodes st queue);
          Ok (None, st)
      end
  | None => Ok (Some "scancode queue uninitialized"%string, st)
  end.

(** [ScancodeStream::new] *)
Definition ScancodeStream_new (st : kstate) : outcome kstate :=
  s ← expect (try_init_once (SCANCODE_QUEUE st) (aq_new SCANCODE_QUEUE_CAPACITY))
        "ScancodeStream::new should only be called once";
  k ← expect (try_init_once (KEY_QUEUE st) (aq_new KEY_QUEUE_CAPACITY))
        "key queue should only be initialised once";
  Ok (mkK s k (WAKER st) (k_env st)).

(** [read_byte] *)
Definition read_byte (st : kstate) : option Z * kstate :=
  match try_get (KEY_QUEUE st) with
  | None => (None, st)
  | Some q =>
      match aq_pop q with
      | None => (None, st)
      | Some (b, q) => (Some b, set_keys st q)
      end
  end.

(** ** [poll_next], one atomic operation at a time *)

Inductive pc :=
| PStart                (* before the first [pop] *)
| PRegister             (* before [WAKER.register] *)
| PRecheck              (* before the second [pop] *)
| PTake (scancode : Z)  (* before [WAKER.take] *)
| PDone (r : Poll Z).

Definition pop_scancode (st : kstate) : outcome (option Z * kstate) :=
  queue ← expect (try_get (SCANCODE_QUEUE st)) "scancode queue not initialized";
  match aq_pop queue with
  | None => Ok (None, st)
  | Some (b, q) => Ok (Some b, set_scancodes st q)
  end.

Definition poll_step (w : W) (p : pc) (st : kstate) : outcome (pc * kstate) :=
  match p with
  | PStart =>
      '(b, st) ← pop_scancode st;
      Ok (match b with Some b => PDone (Ready b) | None => PRegister end, st)
  | PRegister =>
      Ok (PRecheck, mkK (SCANCODE_QUEUE st) (KEY_QUEUE st) (aw_register (WAKER st) w) (k_env st))
  | PRecheck =>
      '(b, st) ← pop_scancode st;
      Ok (match b with Some b => PTake b | None => PDone Pending end, st)
  | PTake b =>
      Ok (PDone (Ready b), mkK (SCANCODE_QUEUE st) (KEY_QUEUE st) (aw_take (WAKER st)).2 (k_env st))
  | PDone r => Ok (PDone r, st)
  end.

(** The whole poll when no interrupt arrives during it. *)
Definition poll_next (w : W) (st : kstate) : outcome (Poll Z * kstate) :=
  '(p, st) ← poll_step w PStart st;
  '(p, st) ← poll_step w p st;
  '(p, st) ← poll_step w p st;
  '(p, st) ← poll_step w p st;
  match p with PDone r => Ok (r, st) | _ => Diverge end.

(** ** Interleavings

    An event is a scancode the interrupt queued or dropped, or one the poll
    delivered. *)
Inductive event := EQueued (b : Z) | EDropped (b : Z) | EDelivered (b : Z) | ETau.

Inductive kstep (w : W) : pc * kstate → event → pc * kstate → Prop :=
| kstep_poll p st p' st' :
    (∀ r, p ≠ PDone r) → poll_step w p st = Ok (p', st') →
    kstep w (p, st) (match p, p' with
                     | PStart, PDone (Ready b) | PRecheck, PTake b => EDelivered b
                     | _, _ => ETau
                     end) (p', st')
| kstep_irq p st b warning st' :
    add_scancode b st = Ok (warning, st') →
    kstep w (p, st) (match warning with None => EQueued b | Some _ => EDropped b end) (p, st').

Inductive ksteps (w : W) : pc * kstate → list event → pc * kstate → Prop :=
| ksteps_refl c : ksteps w c [] c
| ksteps_snoc c es c1 e c2 : ksteps w c es c1 → kstep w c1 e c2 → ksteps w c (es ++ [e]) c2.

(** ** [print_keypresses] *)

Context {K : KeyDecoder}.

(** The body of the loop for one scancode: the decoder, the queue of decoded
    bytes, and the character printed. *)
Definition handle_scancode (scancode : Z) (kb : keyboard) (st : kstate)
  : list Z * keyboard * kstate :=
  let '(r, kb) := add_byte kb scancode in
  match r with
  | Some (Some key_event) =>
      let '(key, kb) := process_keyevent kb key_event in
      match key with
      | Some (Unicode character) =>
          let st :=
            match try_get (KEY_QUEUE st) with
            | Some queue =>
                if character <=? 0x7f then
                  match aq_push queue character with
                  | Some queue => set_keys st queue
                  | None => st
                  end
                else st
            | None => st
            end in
          ([character], kb, st)
      | _ => ([], kb, st)
      end
  | _ => ([], kb, st)
  end.

(** One poll of the task: scancodes are handled until the stream is pending.
    It returns the characters printed. *)
Fixpoint poll_keypresses (fuel : nat) (w : W) (kb : keyboard) (st : kstate)
  : outcome (list Z * keyboard * kstate) :=
  match fuel with
  | O => Diverge
  | S fuel =>
      '(r, st) ← poll_next w st;
      match r with
      | Pending => Ok ([], kb, st)
      | Ready b =>
          let '(out, kb, st) := handle_scancode b kb st in
          '(out', kb, st) ← poll_keypresses fuel w kb st;
          Ok (out ++ out', kb, st)
      end
  end.

(** The first poll also creates the stream and the decoder. *)
Definition start_keypresses (fuel : nat) (w : W) (st : kstate)
  : outcome (list Z * keyboard * kstate) :=
  st ← ScancodeStream_new st;
  poll_keypresses fuel w keyboard_new st.

(** ** Lemmas *)

Context {QL : ArrayQueueLaws Q} {CL : OnceCellLaws aq C} {AL : AtomicWakerLaws W A}.

Definition scancodes (st : kstate) : list Z :=
  match try_get (SCANCODE_QUEUE st) with Some q => aq_list q | None => [] end.

Definition keys (st : kstate) : list Z :=
  match try_get (KEY_QUEUE st) with Some q => aq_list q | None => [] end.

Definition scancodes_ready (st : kstate) : Prop := is_Some (try_get (SCANCODE_QUEUE st)).

Lemma set_scancodes_get st q q' :
  try_get (SCANCODE_QUEUE st) = Some q → try_get (SCANCODE_QUEUE (set_scancodes st q')) = Some q'.
Proof. intros H. by eapply set_get. Qed.

Lemma waker_wake_spec st st' :
  waker_wake st = Ok st' →
  SCANCODE_QUEUE st' = SCANCODE_QUEUE st ∧ KEY_QUEUE st' = KEY_QUEUE st ∧
  aw_get (WAKER st') = None ∧
  match aw_get (WAKER st) with
  | Some w => wake w (k_env st) = Ok (k_env st')
  | None => k_env st' = k_env st
  end.
Proof.
  unfold waker_wake. destruct (aw_take_ok (WAKER st)) as [H1 H2]. destruct (aw_take (WAKER st)) as [w a].
  simpl in *. subst w. destruct (aw_get (WAKER st)) as [w|].
  - intros He. binds. by simplify_eq/=.
  - by intros [= <-].
Qed.

(** The interrupt either changes nothing, or appends the scancode and then
    wakes the registered waker. *)
Lemma add_scancode_spec b st r st' :
  add_scancode b st = Ok (r, st') →
  match r with
  | Some _ => st' = st
  | None => scancodes_ready st' ∧ scancodes st' = scancodes st ++ [b] ∧
      aw_get (WAKER st') = None ∧
      match aw_get (WAKER st) with
      | Some w => wake w (k_env st) = Ok (k_env st')
      | None => k_env st' = k_env st
      end
  end.
Proof.
  unfold add_scancode, scancodes, scancodes_ready.
  destruct (try_get (SCANCODE_QUEUE st)) as [q|] eqn:Hq; [|by intros [= <- <-]].
  pose proof (aq_push_ok q b) as Hp. case_bool_decide.
  - destruct Hp as (q' & -> & Hl & _). intros He. binds. simplify_eq.
    destruct (waker_wake_spec _ _ Ha) as (E1 & _ & E2 & E3).
    rewrite E1, (set_scancodes_get _ q) by done. by rewrite Hl.
  - rewrite Hp. by intros [= <- <-].
Qed.

Lemma pop_scancode_spec st :
  scancodes_ready st →
  match scancodes st with
  | [] => pop_scancode st = Ok (None, st)
  | b :: l => ∃ st', pop_scancode st = Ok (Some b, st') ∧ scancodes_ready st' ∧
      scancodes st' = l ∧ WAKER st' = WAKER st ∧ k_env st' = k_env st ∧ KEY_QUEUE st' = KEY_QUEUE st
  end.
Proof.
  unfold scancodes, scancodes_ready, pop_scancode. intros [q Hq]. rewrite Hq. cbn [expect]. bstep.
  pose proof (aq_pop_ok q) as Hp. destruct (aq_list q) as [|b l]; [by rewrite Hp|].
  destruct Hp as (q' & -> & Hl & _). eexists. split; [done|].
  rewrite (set_scancodes_get _ q) by done. by rewrite Hl.
Qed.

(** *** No scancode is lost or reordered *)

Definition queued (es : list event) : list Z :=
  omap (λ e, match e with EQueued b => Some b | _ => None end) es.

Definition delivered (es : list event) : list Z :=
  omap (λ e, match e with EDelivered b => Some b | _ => None end) es.

Lemma kstep_fifo w c e c' :
  scancodes_ready c.2 → kstep w c e c' →
  scancodes_ready c'.2 ∧ scancodes c.2 ++ queued [e] = delivered [e] ++ scancodes c'.2.
Proof.
  intros Hr Hst. inversion Hst as [p st p' st' Hnd Hp|p st b r st' Ha]; subst; cbn [snd] in *.
  - pose proof (pop_scancode_spec st Hr) as Hpop. unfold queued, delivered.
    destruct p; cbn [poll_step] in Hp; [| | | |by destruct (Hnd r)].
    + destruct (scancodes st) as [|b l] eqn:Hs.
      * rewrite Hpop in Hp. simplify_eq/=. by rewrite Hs.
      * destruct Hpop as (st1 & Hp1 & ? & Hl & _). rewrite Hp1 in Hp. simplify_eq/=.
        by rewrite app_nil_r.
    + simplify_eq/=. split; [done|]. by rewrite app_nil_r.
    + destruct (scancodes st) as [|b l] eqn:Hs.
      * rewrite Hpop in Hp. simplify_eq/=. by rewrite Hs.
      * destruct Hpop as (st1 & Hp1 & ? & Hl & _). rewrite Hp1 in Hp. simplify_eq/=.
        by rewrite app_nil_r.
    + simplify_eq/=. split; [done|]. by rewrite app_nil_r.
  - apply add_scancode_spec in Ha. destruct r as [msg|].
    + subst st'. split; [done|]. by rewrite app_nil_r.
    + destruct Ha as (? & -> & _). done.
Qed.

Lemma ksteps_fifo w c es c' :
  scancodes_ready c.2 → ksteps w c es c' →
  scancodes_ready c'.2 ∧ scancodes c.2 ++ queued es = delivered es ++ scancodes c'.2.
Proof.
  intros Hr Hst. induction Hst as [c|c es c1 e c2 _ IH Hst].
  - split; [done|]. by rewrite app_nil_r.
  - destruct (IH Hr) as [Hr1 E1]. destruct (kstep_fifo w c1 e c2 Hr1 Hst) as [Hr2 E2].
    split; [done|]. unfold queued, delivered in *. rewrite !omap_app, app_assoc, E1.
    by rewrite <- !app_assoc, E2.
Qed.

(** *** No wake-up is lost *)

Section wakeups.
(** [woken w e]: the wake-up of [w] is pending in [e]. *)
Context (woken : W → E → Prop).
Context (wake_sets : ∀ w e e', wake w e = Ok e' → woken w e').
Context (wake_keeps : ∀ w v e e', wake v e = Ok e' → woken w e → woken w e').

Definition kinv (w : W) (c : pc * kstate) : Prop :=
  scancodes_ready c.2 ∧
  match c.1 with
  | PRecheck => aw_get (WAKER c.2) = Some w ∨ woken w (k_env c.2)
  | PDone Pending => (aw_get (WAKER c.2) = Some w ∧ scancodes c.2 = []) ∨ woken w (k_env c.2)
  | _ => True
  end.

Lemma irq_wakes w b r st st' :
  add_scancode b st = Ok (r, st') → aw_get (WAKER st) = Some w ∨ woken w (k_env st) →
  st' = st ∨ woken w (k_env st').
Proof.
  intros Ha. apply add_scancode_spec in Ha. destruct r as [msg|]; [by left|].
  destruct Ha as (_ & _ & _ & Hw). intros [E1|E1]; right.
  - rewrite E1 in Hw. by eapply wake_sets.
  - destruct (aw_get (WAKER st)); [by eapply wake_keeps|by rewrite Hw].
Qed.

Lemma kstep_kinv w c e c' : kinv w c → kstep w c e c' → kinv w c'.
Proof.
  intros [Hr Hk] Hst. destruct (kstep_fifo w c e c' Hr Hst) as [Hr' _]. split; [done|].
  inversion Hst as [p st p' st' Hnd Hp|p st b r st' Ha]; subst; cbn [fst snd] in *.
  - pose proof (pop_scancode_spec st Hr) as Hpop.
    destruct p; cbn [poll_step] in Hp; [| | | |by destruct (Hnd r)].
    + destruct (scancodes st) as [|b l]; [by simplify_eq/=; rewrite Hpop in Hp; simplify_eq/=|].
      destruct Hpop as (st1 & Hp1 & _). rewrite Hp1 in Hp. by simplify_eq/=.
    + simplify_eq/=. left. apply aw_register_ok.
    + destruct (scancodes st) as [|b l] eqn:Hs.
      * rewrite Hpop in Hp. simplify_eq/=. destruct Hk; auto.
      * destruct Hpop as (st1 & Hp1 & _). rewrite Hp1 in Hp. by simplify_eq/=.
    + by simplify_eq/=.
  - destruct p as [| | | |[|]]; try done.
    + destruct (irq_wakes w b r st st' Ha Hk) as [->|?]; auto.
    + destruct Hk as [[Hk1 Hk2]|Hk]; [destruct (irq_wakes w b r st st' Ha (or_introl Hk1)) as [->|?]; auto|].
      destruct (irq_wakes w b r st st' Ha (or_intror Hk)) as [->|?]; auto.
Qed.

Lemma ksteps_kinv w c es c' : kinv w c → ksteps w c es c' → kinv w c'.
Proof. intros Hk Hst. induction Hst; eauto using kstep_kinv. Qed.
End wakeups.

(** *** The poll without interrupts *)

Lemma poll_next_spec w st :
  scancodes_ready st →
  match scancodes st with
  | [] => ∃ st', poll_next w st = Ok (Pending, st') ∧ scancodes_ready st' ∧ scancodes st' = [] ∧
      aw_get (WAKER st') = Some w ∧ k_env st' = k_env st ∧ KEY_QUEUE st' = KEY_QUEUE st
  | b :: l => ∃ st', poll_next w st = Ok (Ready b, st') ∧ scancodes_ready st' ∧ scancodes st' = l ∧
      WAKER st' = WAKER st ∧ k_env st' = k_env st ∧ KEY_QUEUE st' = KEY_QUEUE st
  end.
Proof.
  intros Hr. unfold poll_next. cbn [poll_step]. pose proof (pop_scancode_spec st Hr) as Hp.
  destruct (scancodes st) as [|b l] eqn:Hs.
  - rewrite Hp. bstep. cbn [poll_step]. bstep.
    set (st1 := mkK _ _ _ _). assert (scancodes_ready st1) as Hr1 by done.
    pose proof (pop_scancode_spec st1 Hr1) as Hp1. change (scancodes st1) with (scancodes st) in Hp1.
    rewrite Hs in Hp1. cbn [poll_step]. rewrite Hp1. bstep. cbn [poll_step]. bstep.
    exists st1. split_and!; try done. apply aw_register_ok.
  - destruct Hp as (st1 & -> & Hst1). bstep. cbn [poll_step]. bstep. exists st1. done.
Qed.

Definition ascii (cs : list Z) : list Z := filter (λ c, c <= 0x7f) cs.

(** One decoded character: queued for [sys_read] if it is ASCII and there is
    room. *)
Lemma handle_scancode_spec b kb st out kb' st' q :
  handle_scancode b kb st = (out, kb', st') → try_get (KEY_QUEUE st) = Some q →
  SCANCODE_QUEUE st' = SCANCODE_QUEUE st ∧ WAKER st' = WAKER st ∧ k_env st' = k_env st ∧
  ∃ q', try_get (KEY_QUEUE st') = Some q' ∧ aq_cap q' = aq_cap q ∧
    ((length (aq_list q) <= aq_cap q)%nat → aq_list q' = take (aq_cap q) (aq_list q ++ ascii out)).
Proof.
  assert ((length (aq_list q) <= aq_cap q)%nat →
    aq_list q = take (aq_cap q) (aq_list q ++ [])) as Hid by (intros; rewrite app_nil_r, take_ge; done).
  intros Hh Hq.
  assert ((out, kb', st') = ([], kb', st) ∨ ∃ c, out = [c] ∧ st' =
    (if c <=? 0x7f then match aq_push q c with Some q => set_keys st q | None => st end else st)) as Hc.
  { unfold handle_scancode in Hh. rewrite Hq in Hh. destruct (add_byte kb b) as [[[ev|]|] kb1].
    - destruct (process_keyevent kb1 ev) as [[[c|k]|] kb2]; simplify_eq; [right|left; done..].
      exists c. done.
    - simplify_eq. by left.
    - simplify_eq. by left. }
  destruct Hc as [[= -> ->]|(c & -> & ->)]; [unfold ascii; rewrite list.filter_nil; eauto 10|].
  unfold ascii. rewrite filter_cons, list.filter_nil. destruct (Z.leb_spec c 0x7f).
  - rewrite decide_True by done. pose proof (aq_push_ok q c) as Hp. case_bool_decide.
    + destruct Hp as (q' & -> & Hl & Hcap). split_and!; try done. exists q'.
      split; [by eapply set_get|]. split; [done|]. intros _. rewrite Hl, take_ge; [done|].
      rewrite length_app. simpl. lia.
    + rewrite Hp. split_and!; try done. exists q. split_and!; try done. intros Hle.
      by rewrite take_app_le, take_ge by lia.
  - rewrite decide_False by lia. eauto 10.
Qed.

Lemma poll_keypresses_spec fuel w kb st q :
  scancodes_ready st → try_get (KEY_QUEUE st) = Some q →
  (length (aq_list q) <= aq_cap q)%nat → (length (scancodes st) < fuel)%nat →
  ∃ out kb' st' q', poll_keypresses fuel w kb st = Ok (out, kb', st') ∧
    scancodes_ready st' ∧ scancodes st' = [] ∧ aw_get (WAKER st') = Some w ∧ k_env st' = k_env st ∧
    try_get (KEY_QUEUE st') = Some q' ∧ aq_cap q' = aq_cap q ∧
    aq_list q' = take (aq_cap q) (aq_list q ++ ascii out).
Proof.
  revert kb st q. induction fuel as [|fuel IH]; intros kb st q Hr Hq Hle Hf; [lia|].
  cbn [poll_keypresses]. pose proof (poll_next_spec w st Hr) as Hp.
  destruct (scancodes st) as [|b l].
  - destruct Hp as (st1 & -> & Hr1 & Hs1 & Hw1 & He1 & Hk1). bstep. exists [], kb, st1, q.
    split_and!; try done; [by rewrite Hk1|]. unfold ascii. by rewrite list.filter_nil, app_nil_r, take_ge.
  - destruct Hp as (st1 & -> & Hr1 & Hs1 & Hw1 & He1 & Hk1). bstep.
    destruct (handle_scancode b kb st1) as [[out kb1] st2] eqn:Hh.
    destruct (handle_scancode_spec _ _ _ _ _ _ q Hh) as (S1 & S2 & S3 & q1 & Hq1 & Hc1 & Hl1); [by rewrite Hk1|].
    specialize (Hl1 Hle). unfold scancodes, scancodes_ready in *. cbn [length] in Hf.
    destruct (IH kb1 st2 q1) as (out' & kb2 & st3 & q2 & -> & ? & ? & ? & ? & ? & ? & Hl2);
      rewrite ?S1; try done.
    { rewrite Hl1, Hc1, length_take. lia. }
    { rewrite Hs1. lia. }
    bstep. exists (out ++ out'), kb2, st3, q2. split_and!; try done; try congruence.
    rewrite Hl2, Hl1, Hc1. unfold ascii. rewrite list.filter_app, app_assoc.
    apply take_take_app.
Qed.

(** ** Theorems *)

(** scancodes are neither lost, duplicated nor reordered: however the
    keyboard interrupt interleaves with the atomic steps of a poll, what was
    queued before and during it is, in order, what the poll delivered
    followed by what is still queued. *)
Theorem scancodes_fifo w p st es p' st' :
  scancodes_ready st → ksteps w (p, st) es (p', st') →
  scancodes st ++ queued es = delivered es ++ scancodes st'.
Proof. intros Hr Hst. by destruct (ksteps_fifo w (p, st) es (p', st') Hr Hst). Qed.

(** C18: no wake-up is lost: when a poll has returned [Pending] and the queue is
    not empty, because an interrupt arrived during the poll or after it, the
    task's wake-up is pending.  This is what the second [pop] after
    [WAKER.register] is for. *)
Theorem no_lost_wakeup (woken : W → E → Prop) w st es st' :
  (∀ v e e', wake v e = Ok e' → woken v e') →
  (∀ u v e e', wake v e = Ok e' → woken u e → woken u e') →
  scancodes_ready st → ksteps w (PStart, st) es (PDone Pending, st') →
  scancodes st' ≠ [] → woken w (k_env st').
Proof.
  intros Hs Hk Hr Hst Hne.
  destruct (ksteps_kinv woken Hs Hk w (PStart, st) es (PDone Pending, st')) as [_ [[_ ?]|?]]; done.
Qed.

(** one poll of the keyboard task, with a turn of the loop for each queued
    scancode and one more, returns with the scancode queue drained and its
    waker registered; of the characters it printed the ASCII ones were queued
    for [sys_read], in order, as far as the queue has room. *)
Theorem keypress_poll_drains fuel w kb st q :
  scancodes_ready st → try_get (KEY_QUEUE st) = Some q →
  (length (aq_list q) <= aq_cap q)%nat → (length (scancodes st) < fuel)%nat →
  ∃ out kb' st', poll_keypresses fuel w kb st = Ok (out, kb', st') ∧
    scancodes st' = [] ∧ aw_get (WAKER st') = Some w ∧
    keys st' = take (aq_cap q) (aq_list q ++ ascii out).
Proof.
  intros Hr Hq Hle Hf.
  destruct (poll_keypresses_spec fuel w kb st q Hr Hq Hle Hf)
    as (out & kb' & st' & q' & ? & ? & ? & ? & ? & Hq' & ? & ?).
  exists out, kb', st'. split_and!; try done. unfold keys. by rewrite Hq'.
Qed.
End keyboard.

(** *** A concrete keyboard: list queues; a wake-up queues the task's id *)

Definition demo_wake (id : Z) (e : list_queue) : outcome list_queue :=
  expect (@aq_push list_array_queue e id) "task_queue full".

Definition demo_decoder : KeyDecoder := {|
  keyboard := unit;
  keyboard_new := tt;
  KeyEvent := Z;
  add_byte := λ k b, (Some (Some b), k);
  process_keyevent := λ k e, (Some (Unicode e), k);
|}.

Abbreviation demo_kstate := (@kstate Z list_queue list_array_queue (option_cell list_queue) (option_waker Z)).

Definition demo_keyboard : demo_kstate :=
  @mkK Z list_queue list_array_queue (option_cell list_queue) (option_waker Z)
    (Some (mkLQ 100 [])) (Some (mkLQ 100 [])) None (mkLQ 100 []).

Definition demo_registered : demo_kstate :=
  @mkK Z list_queue list_array_queue (option_cell list_queue) (option_waker Z)
    (Some (mkLQ 100 [])) (Some (mkLQ 100 [])) (Some 7) (mkLQ 100 []).

(** Scancode 30 arrives just after the poll of task 7 found the queue empty. *)
Definition demo_interrupted : demo_kstate :=
  @mkK Z list_queue list_array_queue (option_cell list_queue) (option_waker Z)
    (Some (mkLQ 100 [30])) (Some (mkLQ 100 [])) None (mkLQ 100 [7]).

Abbreviation demo_ksteps := (@ksteps Z list_queue demo_wake list_array_queue (option_cell list_queue)
  (option_waker Z)).

Lemma demo_run :
  demo_ksteps 7 (PStart, demo_keyboard) [ETau; ETau; ETau; EQueued 30]
    (PDone Pending, demo_interrupted).
Proof.
  apply (ksteps_snoc demo_wake 7 _ [ETau; ETau; ETau] (PDone Pending, demo_registered) (EQueued 30)).
  2:{ exact (kstep_irq demo_wake 7 (PDone Pending) demo_registered 30 None demo_interrupted eq_refl). }
  apply (ksteps_snoc demo_wake 7 _ [ETau; ETau] (PRecheck, demo_registered) ETau).
  2:{ by apply (kstep_poll demo_wake 7 PRecheck demo_registered (PDone Pending) demo_registered). }
  apply (ksteps_snoc demo_wake 7 _ [ETau] (PRegister, demo_keyboard) ETau).
  2:{ by apply (kstep_poll demo_wake 7 PRegister demo_keyboard PRecheck demo_registered). }
  apply (ksteps_snoc demo_wake 7 _ [] (PStart, demo_keyboard) ETau).
  2:{ by apply (kstep_poll demo_wake 7 PStart demo_keyboard PRegister demo_keyboard). }
  constructor.
Qed.

Lemma scancodes_fifo_witness :
  [] ++ queued [ETau; ETau; ETau; EQueued 30] = delivered [ETau; ETau; ETau; EQueued 30] ++ [30].
Proof.
  apply (@scancodes_fifo Z list_queue demo_wake list_array_queue (option_cell list_queue)
    (option_waker Z) list_array_queue_laws (option_cell_laws _) (option_waker_laws _)
    7 PStart demo_keyboard [ETau; ETau; ETau; EQueued 30] (PDone Pending) demo_interrupted).
  - by eexists.
  - apply demo_run.
Defined.

Lemma no_lost_wakeup_witness : 7 ∈ lq_list (k_env demo_interrupted).
Proof.
  apply (@no_lost_wakeup Z list_queue demo_wake list_array_queue (option_cell list_queue)
    (option_waker Z) list_array_queue_laws (option_cell_laws _) (option_waker_laws _)
    (λ w e, w ∈ lq_list e) 7 demo_keyboard [ETau; ETau; ETau; EQueued 30] demo_interrupted).
  - intros v e e' He. unfold demo_wake in He. cbn in He. case_bool_decide; [|done].
    injection He as <-. apply elem_of_app. right. by apply list_elem_of_singleton.
  - intros u v e e' He. unfold demo_wake in He. cbn in He. case_bool_decide; [|done].
    injection He as <-. intros Hu. apply elem_of_app. by left.
  - by eexists.
  - apply demo_run.
  - discriminate.
Defined.

Lemma keypress_poll_drains_witness :
  ∃ out kb' st', @poll_keypresses Z list_queue list_array_queue (option_cell list_queue)
      (option_waker Z) demo_decoder 2 7 tt demo_interrupted = Ok (out, kb', st') ∧
    scancodes (QL := list_array_queue_laws) st' = [] ∧
    aw_get (AtomicWakerLaws := option_waker_laws Z) (WAKER st') = Some 7 ∧
    keys (QL := list_array_queue_laws) st' = take 100 ([] ++ ascii out).
Proof.
  apply (@keypress_poll_drains Z list_queue list_array_queue (option_cell list_queue)
    (option_waker Z) demo_decoder list_array_queue_laws (option_cell_laws _) (option_waker_laws _)
    2 7 tt demo_interrupted (mkLQ 100 [])).
  - by eexists.
  - reflexivity.
  - simpl. lia.
  - simpl. lia.
Defined.
