(* ===== verification/Executor.v ===== *)
(** * The async executor

    src/src/task/mod.rs and src/src/task/executor.rs: task ids, spawning, the
    wakers and the loop that polls the ready tasks.  A future is a parameter:
    polling it with a waker, in the state [Env] the futures share with the rest
    of the kernel, tells whether it is ready, what it became, which tasks'
    wakers were called meanwhile (by the future, or by an interrupt during the
    poll), and the new state; or it panics. *)

From Stdlib Require Import ZArith Lia.
From stdpp Require Import base gmap list strings numbers.
From S2P Require Import Prelude Libs Scheduler.

Open Scope Z_scope.

Definition TASK_QUEUE_CAPACITY : nat := 100.

(** A [Waker] made from a [TaskWaker]; the queue it refers to is the
    executor's. *)
Record TaskWaker := mkTaskWaker { tw_task_id : Z }.

(** What the executor logs. *)
Inductive xlog :=
| LQueued (id : Z) (tasks : nat)
| LStarted (id : Z) (total : nat)
| LCompleted (id : Z) (remaining : nat).

(** The state the futures share with the kernel has the global counters
    [SCHEDULER] in it. *)
Class HasStats (Env : Type) := {
  stats : Env → Scheduler;
  set_stats : Scheduler → Env → Env;
  stats_set : ∀ s e, stats (set_stats s e) = s;
}.

Section executor.
Context {Q : ArrayQueue} {F Env : Type} {HS : HasStats Env}.
Context (poll_future : TaskWaker → F → Env → outcome (bool * F * list Z * Env)).

Record Task := mkTask { task_id : Z; task_future : F }.

Record CoopExecutor := mkExec {
  tasks : gmap Z Task;
  task_queue : aq;
  waker_cache : gmap Z TaskWaker;
  started_tasks : gset Z;
}.

(** The executor, the id counter, the log, and the shared state. *)
Record xworld := mkX {
  x_exec : CoopExecutor;
  x_next_id : Z;
  x_log : list xlog;
  x_env : Env;
}.

Definition exec_new : CoopExecutor := mkExec ∅ (aq_new TASK_QUEUE_CAPACITY) ∅ ∅.

Definition TaskId_new (w : xworld) : Z * xworld :=
  (x_next_id w, mkX (x_exec w) (wrapping_add (x_next_id w) 1) (x_log w) (x_env w)).

Definition Task_new (future : F) (w : xworld) : Task * xworld :=
  let '(id, w) := TaskId_new w in (mkTask id future, w).

Definition spawn (task : Task) (w : xworld) : outcome xworld :=
  let ex := x_exec w in
  let id := task_id task in
  _ ← rust_assert (bool_decide (tasks ex !! id = None)) "task with same ID already in tasks";
  let old := tasks ex !! id in
  let ts := <[id := task]> (tasks ex) in
  _ ← rust_assert (bool_decide (old = None)) "task with same ID already in tasks";
  q ← expect (aq_push (task_queue ex) id) "queue full";
  Ok (mkX (mkExec ts q (waker_cache ex) (started_tasks ex)) (x_next_id w)
        (x_log w ++ [LQueued id (size ts)])
        (set_stats (note_task_spawned (stats (x_env w))) (x_env w))).

Definition task_count (ex : CoopExecutor) : nat := size (tasks ex).

(** [TaskWaker::new], and [wake_task] of the wakers called during a poll. *)
Definition TaskWaker_new (id : Z) : TaskWaker := mkTaskWaker id.

Definition wake_task (waker : TaskWaker) (q : aq) : outcome aq :=
  expect (aq_push q (tw_task_id waker)) "task_queue full".

(** The two methods of [Wake]. *)
Definition wake (self : TaskWaker) : aq → outcome aq := wake_task self.
Definition wake_by_ref (self : TaskWaker) : aq → outcome aq := wake_task self.

Fixpoint wake_all (ids : list Z) (q : aq) : outcome aq :=
  match ids with
  | [] => Ok q
  | id :: ids => q ← wake (TaskWaker_new id) q; wake_all ids q
  end.

(** [Task::poll] *)
Definition poll (waker : TaskWaker) (task : Task) (s : Env) : outcome (bool * Task * list Z * Env) :=
  '(r, f, ids, s) ← poll_future waker (task_future task) s;
  Ok (r, mkTask (task_id task) f, ids, s).

(** One turn of the [while let] loop, for the id just popped. *)
Definition run_task (id : Z) (w : xworld) : outcome xworld :=
  let ex := x_exec w in
  let total_tasks := size (tasks ex) in
  match tasks ex !! id with
  | None => Ok w
  | Some task =>
      let waker := match waker_cache ex !! id with
                   | Some waker => waker
                   | None => TaskWaker_new id
                   end in
      let cache := <[id := waker]> (waker_cache ex) in
      let log := if bool_decide (id ∈ started_tasks ex) then x_log w
                 else x_log w ++ [LStarted id total_tasks] in
      let started := {[ id ]} ∪ started_tasks ex in
      '(ready, task, ids, s) ← poll waker task (x_env w);
      q ← wake_all ids (task_queue ex);
      if (ready : bool) then
        let ts := delete id (tasks ex) in
        Ok (mkX (mkExec ts q (delete id cache) (started ∖ {[ id ]}))
              (x_next_id w) (log ++ [LCompleted id (size ts)])
              (set_stats (note_task_completed (stats s)) s))
      else
        Ok (mkX (mkExec (<[id := task]> (tasks ex)) q cache started) (x_next_id w) log s)
  end.

Definition set_queue (q : aq) (w : xworld) : xworld :=
  let ex := x_exec w in
  mkX (mkExec (tasks ex) q (waker_cache ex) (started_tasks ex)) (x_next_id w) (x_log w) (x_env w).

Fixpoint run_ready_tasks (fuel : nat) (w : xworld) : outcome xworld :=
  match fuel with
  | O => Diverge
  | S fuel =>
      match aq_pop (task_queue (x_exec w)) with
      | None => Ok w
      | Some (id, q) => w ← run_task id (set_queue q w); run_ready_tasks fuel w
      end
  end.

Definition run_ready_tasks_for_test := run_ready_tasks.

(** [sleep_if_idle] halts, with interrupts off until the [hlt], exactly when
    the queue is empty. *)
Definition sleep_if_idle (w : xworld) : bool := aq_is_empty (task_queue (x_exec w)).

(** ** The invariant *)

Context {QL : ArrayQueueLaws Q}.
(** Polling a future leaves the count of the tasks alone. *)
Context (poll_alive : ∀ k f s r f' l s', poll_future k f s = Ok (r, f', l, s') →
  tasks_alive (stats s') = tasks_alive (stats s)).

Definition is_start (i : Z) (e : xlog) : bool :=
  match e with LStarted j _ => j =? i | _ => false end.

(** How often the start of task [i] was logged. *)
Definition starts (i : Z) (log : list xlog) : nat :=
  length (filter (λ e, is_start i e = true) log).

Definition ids (w : xworld) : list Z := aq_list (task_queue (x_exec w)).

Record xinv (w : xworld) : Prop := {
  xi_task : ∀ i t, tasks (x_exec w) !! i = Some t → task_id t = i ∧ 0 <= i < x_next_id w;
  xi_cache : ∀ i k, waker_cache (x_exec w) !! i = Some k →
    tw_task_id k = i ∧ is_Some (tasks (x_exec w) !! i) ∧ i ∈ started_tasks (x_exec w);
  xi_started : ∀ i, i ∈ started_tasks (x_exec w) → is_Some (tasks (x_exec w) !! i);
  xi_unstarted : ∀ i, is_Some (tasks (x_exec w) !! i) →
    i ∈ started_tasks (x_exec w) ∨ i ∈ ids w;
  xi_alive : tasks_alive (stats (x_env w)) = Z.of_nat (size (tasks (x_exec w))) mod u64_modulus;
  xi_cap : aq_cap (task_queue (x_exec w)) = TASK_QUEUE_CAPACITY;
  xi_next : 0 <= x_next_id w;
  xi_log : ∀ i, (starts i (x_log w) <= 1)%nat ∧
    ((is_Some (tasks (x_exec w) !! i) ∧ i ∉ started_tasks (x_exec w)) ∨ x_next_id w <= i →
     starts i (x_log w) = 0%nat);
}.

Lemma starts_app i l k : starts i (l ++ k) = (starts i l + starts i k)%nat.
Proof. unfold starts. by rewrite list.filter_app, length_app. Qed.

Lemma xinv_new w :
  x_exec w = exec_new → tasks_alive (stats (x_env w)) = 0 → 0 <= x_next_id w → x_log w = [] → xinv w.
Proof.
  intros E1 E2 E3 E4. destruct (aq_new_ok TASK_QUEUE_CAPACITY) as [N1 N2]; [unfold TASK_QUEUE_CAPACITY; lia|].
  split; unfold ids; rewrite ?E1, ?E2, ?E4; cbn [exec_new tasks waker_cache started_tasks task_queue]; try done.
  - intros i [t Ht]. done.
  - intros i. split; [unfold starts; simpl; lia|done].
Qed.

Lemma wake_all_ok l q :
  (length (aq_list q) + length l <= aq_cap q)%nat →
  ∃ q', wake_all l q = Ok q' ∧ aq_list q' = aq_list q ++ l ∧ aq_cap q' = aq_cap q.
Proof.
  revert q. induction l as [|i l IH]; intros q Hq; cbn [wake_all length] in *.
  { exists q. by rewrite app_nil_r. }
  unfold wake, wake_task. cbn [tw_task_id TaskWaker_new]. pose proof (aq_push_ok q i) as Hp.
  rewrite bool_decide_eq_true_2 in Hp by lia. destruct Hp as (q1 & -> & Hl & Hc). cbn [expect]. bstep.
  destruct (IH q1) as (q2 & -> & Hl2 & Hc2); [rewrite Hl, Hc, length_app; simpl; lia|].
  exists q2. split; [done|]. rewrite Hl2, Hl, Hc2, <- app_assoc. done.
Qed.

Lemma wake_all_list l q q' :
  wake_all l q = Ok q' → aq_list q' = aq_list q ++ l ∧ aq_cap q' = aq_cap q.
Proof.
  revert q. induction l as [|i l IH]; intros q Hw; cbn [wake_all] in Hw.
  { injection Hw as <-. by rewrite app_nil_r. }
  unfold wake, wake_task in Hw. cbn [tw_task_id TaskWaker_new] in Hw. pose proof (aq_push_ok q i) as Hp.
  case_bool_decide; [|by rewrite Hp in Hw]. destruct Hp as (q1 & Hq1 & Hl & Hc). rewrite Hq1 in Hw.
  cbn [expect mbind outcome_bind] in Hw. destruct (IH q1 Hw) as [-> ->].
  rewrite Hl, Hc, <- app_assoc. done.
Qed.

(** More wake-ups than there is room for. *)
Lemma wake_all_full l q :
  (aq_cap q < length (aq_list q) + length l)%nat → (length (aq_list q) <= aq_cap q)%nat →
  wake_all l q = Panic "task_queue full".
Proof.
  revert q. induction l as [|i l IH]; intros q Hq Hle; cbn [wake_all length] in *; [lia|].
  unfold wake, wake_task. cbn [tw_task_id TaskWaker_new]. pose proof (aq_push_ok q i) as Hp.
  case_bool_decide; [|by rewrite Hp]. destruct Hp as (q1 & -> & Hl & Hc). cbn [expect]. bstep.
  apply IH; rewrite Hl, Hc, length_app; simpl; lia.
Qed.

(** ** [spawn] *)

Lemma task_spawn_spec future w :
  xinv w → x_next_id w + 1 < u64_modulus →
  let '(t, w1) := Task_new future w in
  task_id t = x_next_id w ∧
  if bool_decide (length (ids w) < TASK_QUEUE_CAPACITY)%nat
  then ∃ w', spawn t w1 = Ok w' ∧ xinv w' ∧ ids w' = ids w ++ [task_id t] ∧
    tasks (x_exec w') = <[task_id t := t]> (tasks (x_exec w)) ∧ x_next_id w' = x_next_id w + 1 ∧
    x_env w' = set_stats (note_task_spawned (stats (x_env w))) (x_env w)
  else spawn t w1 = Panic "queue full".
Proof.
  intros [X1 X2 X3 X4 X5 X6 X7 X8] Hn. unfold Task_new, TaskId_new. set (n := x_next_id w) in *.
  split; [done|]. unfold spawn, ids in *. cbn [x_exec task_id x_next_id x_log x_env].
  assert (tasks (x_exec w) !! n = None) as Hnone.
  { destruct (tasks (x_exec w) !! n) eqn:E; [|done]. destruct (X1 _ _ E). lia. }
  rewrite Hnone, (bool_decide_eq_true_2 (None = None)) by done. cbn [rust_assert]. bstep.
  pose proof (aq_push_ok (task_queue (x_exec w)) n) as Hp. rewrite X6 in Hp.
  case_bool_decide as Hq; [|by rewrite Hp]. destruct Hp as (q & -> & Hl & Hc). cbn [expect]. bstep.
  eexists. split; [done|]. rewrite wrapping_add_ok by lia. split; [|done].
  split; cbn [x_exec tasks waker_cache started_tasks task_queue x_next_id x_log x_env].
  - intros i t Ht. apply lookup_insert_Some in Ht as [[<- <-]|[_ Ht]]; [simpl; lia|].
    destruct (X1 i t Ht). lia.
  - intros i k Hk. destruct (X2 i k Hk) as (? & Ht & ?). split_and!; try done.
    rewrite lookup_insert_ne; [done|]. intros <-. by rewrite Hnone in Ht; destruct Ht.
  - intros i Hi. destruct (X3 i Hi) as [t Ht]. rewrite lookup_insert_ne by congruence. eauto.
  - intros i Hi. unfold ids. cbn [x_exec task_queue]. rewrite Hl.
    destruct (decide (i = n)) as [->|Hne];
      [right; apply elem_of_app; right; by apply list_elem_of_singleton|].
    rewrite lookup_insert_ne in Hi by done. destruct (X4 i Hi); [by left|right].
    apply elem_of_app. by left.
  - rewrite stats_set. cbn [note_task_spawned tasks_alive]. rewrite X5, map_size_insert_None by done.
    unfold wrapping_add. rewrite Zplus_mod_idemp_l. f_equal. lia.
  - congruence.
  - lia.
  - intros i. rewrite starts_app. change (starts i [LQueued n _]) with 0%nat. rewrite Nat.add_0_r.
    destruct (X8 i) as [H1 H2]. split; [done|]. intros [[[t Ht] Hi]|Hi]; [|apply H2; right; lia].
    apply H2. destruct (decide (i = n)) as [->|Hne]; [right; lia|].
    rewrite lookup_insert_ne in Ht by done. left. eauto.
Qed.

(** [executor.spawn(Task::new(future))] with room in the queue. *)
Lemma spawn_new future w :
  xinv w → x_next_id w + 1 < u64_modulus → (length (ids w) < TASK_QUEUE_CAPACITY)%nat →
  ∃ w', (let '(t, w1) := Task_new future w in spawn t w1) = Ok w' ∧ xinv w' ∧
    ids w' = ids w ++ [x_next_id w] ∧
    tasks (x_exec w') = <[x_next_id w := mkTask (x_next_id w) future]> (tasks (x_exec w)) ∧
    x_next_id w' = x_next_id w + 1 ∧ x_env w' = set_stats (note_task_spawned (stats (x_env w))) (x_env w).
Proof.
  intros Hinv Hn Hl. pose proof (task_spawn_spec future w Hinv Hn) as Hs.
  destruct (Task_new future w) as [t w1] eqn:Ht. injection Ht as <- <-. destruct Hs as [_ Hs].
  by rewrite bool_decide_eq_true_2 in Hs.
Qed.

(** ** One turn of the loop *)

Lemma started_log i id (st : gset Z) total log :
  (starts i log <= 1)%nat → (id ∉ st → starts id log = 0%nat) →
  let log' := if bool_decide (id ∈ st) then log else log ++ [LStarted id total] in
  (starts i log' <= 1)%nat ∧ (i ≠ id → starts i log' = starts i log).
Proof.
  intros H1 H2. case_bool_decide as Hin; [by split|]. cbv zeta. rewrite starts_app.
  assert (starts i [LStarted id total] = if decide (id = i) then 1 else 0)%nat as ->.
  { unfold starts. rewrite filter_cons, list.filter_nil. cbn [is_start].
    destruct (Z.eqb_spec id i); by repeat case_decide. }
  case_decide as E; [subst id; rewrite H2 by done; split; [lia|done]|]. split; [lia|]. intros _. lia.
Qed.

Section turn.
Context (w : xworld) (id : Z) (l : list Z) (q : aq).
Context (Hinv : xinv w) (Hids : ids w = id :: l).
Context (Hq : aq_list q = l) (Hcap : aq_cap q = TASK_QUEUE_CAPACITY).

(** A wake-up of a task that has finished is skipped. *)
Lemma run_stale :
  tasks (x_exec w) !! id = None →
  run_task id (set_queue q w) = Ok (set_queue q w) ∧ xinv (set_queue q w).
Proof.
  intros Hnone. unfold run_task. cbn [set_queue x_exec tasks]. rewrite Hnone. split; [done|].
  destruct Hinv as [X1 X2 X3 X4 X5 X6 X7 X8]. split; try done.
  intros i Hi. destruct (X4 i Hi) as [?|Hin]; [by left|right]. rewrite Hids in Hin.
  unfold ids. cbn [set_queue x_exec task_queue]. rewrite Hq.
  apply elem_of_cons in Hin as [->|Hin]; [|done]. cbn in Hi. rewrite Hnone in Hi. by destruct Hi.
Qed.

Context (t : Task) (Ht : tasks (x_exec w) !! id = Some t).
Context (r : bool) (t' : Task) (woken : list Z) (s' : Env).
Context (Hpoll : poll (TaskWaker_new id) t (x_env w) = Ok (r, t', woken, s')).

Context (q' : aq) (Hwake : wake_all woken q = Ok q').

(** The waker handed to the future is the task's own. *)
Lemma cached_waker :
  match waker_cache (x_exec w) !! id with Some k => k | None => TaskWaker_new id end
    = TaskWaker_new id.
Proof.
  destruct (waker_cache (x_exec w) !! id) as [[k]|] eqn:Hk; [|done].
  destruct (xi_cache _ Hinv id _ Hk) as [E _]. simpl in E. by subst.
Qed.

Lemma poll_id : task_id t' = id.
Proof.
  apply bind_inv in Hpoll as ([[[r0 f0] l0] s0] & _ & [= _ <- _ _]). simpl.
  by destruct (xi_task _ Hinv id t Ht).
Qed.

Lemma turn_alive : tasks_alive (stats s') = tasks_alive (stats (x_env w)).
Proof.
  apply bind_inv in Hpoll as ([[[r0 f0] l0] s0] & Hp & [= _ _ _ <-]). by apply poll_alive in Hp.
Qed.

(** The two states a turn can end in. *)
Definition turn_log : list xlog :=
  if bool_decide (id ∈ started_tasks (x_exec w)) then x_log w
  else x_log w ++ [LStarted id (size (tasks (x_exec w)))].

Definition finished : xworld :=
  let ex := x_exec w in
  let ts := delete id (tasks ex) in
  mkX (mkExec ts q' (delete id (<[id := TaskWaker_new id]> (waker_cache ex)))
         (({[ id ]} ∪ started_tasks ex) ∖ {[ id ]}))
    (x_next_id w) (turn_log ++ [LCompleted id (size ts)])
    (set_stats (note_task_completed (stats s')) s').

Definition waiting : xworld :=
  let ex := x_exec w in
  mkX (mkExec (<[id := t']> (tasks ex)) q' (<[id := TaskWaker_new id]> (waker_cache ex))
         ({[ id ]} ∪ started_tasks ex))
    (x_next_id w) turn_log s'.

Lemma turn_starts i :
  (starts i turn_log <= 1)%nat ∧ (i ≠ id → starts i turn_log = starts i (x_log w)).
Proof.
  apply started_log; [apply (xi_log _ Hinv)|]. intros Hns. apply (xi_log _ Hinv). left. eauto.
Qed.

Lemma others_queued i :
  is_Some (tasks (x_exec w) !! i) → i ≠ id → i ∈ started_tasks (x_exec w) ∨ i ∈ l ++ woken.
Proof.
  intros Hi Hne. destruct (xi_unstarted _ Hinv i Hi) as [|Hin]; [by left|right].
  rewrite Hids in Hin. apply elem_of_cons in Hin as [|Hin]; [done|]. apply elem_of_app. by left.
Qed.

Lemma turn_queue : aq_list q' = l ++ woken ∧ aq_cap q' = TASK_QUEUE_CAPACITY.
Proof. destruct (wake_all_list _ _ _ Hwake) as [-> ->]. by rewrite Hq, Hcap. Qed.

Lemma finished_inv : xinv finished.
Proof.
  destruct turn_queue as [Hq' Hc']. pose proof Hinv as [X1 X2 X3 X4 X5 X6 X7 X8]. unfold finished. split;
    unfold ids; cbn [x_exec tasks waker_cache started_tasks task_queue x_log x_next_id x_env]; try done.
  - intros i u Hu. apply lookup_delete_Some in Hu as [_ Hu]. by apply X1.
  - intros i k Hk. apply lookup_delete_Some in Hk as [Hne Hk].
    rewrite lookup_insert_ne in Hk by done. destruct (X2 i k Hk) as (? & ? & ?).
    rewrite lookup_delete_ne by done. split_and!; [done..|].
    apply elem_of_difference. split; [apply elem_of_union; by right|].
    intros E. by apply elem_of_singleton in E.
  - intros i Hi. apply elem_of_difference in Hi as [Hi Hne]. apply elem_of_union in Hi as [Hi|Hi]; [done|].
    rewrite lookup_delete_ne; [by apply X3|]. intros ->. apply Hne. by apply elem_of_singleton.
  - intros i Hi. destruct (decide (i = id)) as [->|Hne]; [rewrite lookup_delete_eq in Hi; by destruct Hi|].
    rewrite lookup_delete_ne in Hi by done. rewrite Hq'.
    destruct (others_queued i Hi Hne) as [Hs|]; [left|by right].
    apply elem_of_difference. split; [apply elem_of_union; by right|].
    intros E. by apply elem_of_singleton in E.
  - rewrite stats_set. cbn [note_task_completed tasks_alive]. rewrite turn_alive, X5, map_size_delete_Some by eauto.
    unfold wrapping_sub. rewrite Zminus_mod_idemp_l. f_equal.
    assert (size (tasks (x_exec w)) ≠ 0%nat); [|lia].
    intros E. apply map_size_empty_inv in E. rewrite E in Ht. done.
  - intros i. rewrite starts_app. change (starts i [LCompleted id _]) with 0%nat. rewrite Nat.add_0_r.
    destruct (turn_starts i) as [L1 L2]. split; [done|]. intros Hi.
    destruct (X1 id t Ht) as [_ Hidr].
    assert (i ≠ id) as Hne.
    { intros ->. destruct Hi as [[Hi _]|Hi]; [rewrite lookup_delete_eq in Hi; by destruct Hi|lia]. }
    rewrite L2 by done. apply X8. destruct Hi as [[Hi Hns]|Hi]; [left|by right].
    rewrite lookup_delete_ne in Hi by done. split; [done|]. intros E. apply Hns.
    apply elem_of_difference. split; [apply elem_of_union; by right|].
    intros E'. by apply elem_of_singleton in E'.
Qed.

Lemma waiting_inv : xinv waiting.
Proof.
  destruct turn_queue as [Hq' Hc']. pose proof Hinv as [X1 X2 X3 X4 X5 X6 X7 X8]. destruct (X1 id t Ht) as [_ Hidr].
  unfold waiting. split;
    unfold ids; cbn [x_exec tasks waker_cache started_tasks task_queue x_log x_next_id x_env]; try done.
  - intros i u Hu. apply lookup_insert_Some in Hu as [[<- <-]|[_ Hu]]; [|by apply X1].
    split; [apply poll_id|done].
  - intros i k Hk. apply lookup_insert_Some in Hk as [[<- <-]|[Hne Hk]].
    + rewrite lookup_insert_eq. split_and!; [done|done|]. apply elem_of_union. left. by apply elem_of_singleton.
    + destruct (X2 i k Hk) as (? & ? & ?). rewrite lookup_insert_ne by done.
      split_and!; [done..|]. apply elem_of_union. by right.
  - intros i Hi. destruct (decide (i = id)) as [->|Hne]; [by rewrite lookup_insert_eq|].
    rewrite lookup_insert_ne by done. apply elem_of_union in Hi as [Hi|Hi]; [by apply elem_of_singleton in Hi|].
    by apply X3.
  - intros i Hi. destruct (decide (i = id)) as [->|Hne].
    + left. apply elem_of_union. left. by apply elem_of_singleton.
    + rewrite lookup_insert_ne in Hi by done. rewrite Hq'.
      destruct (others_queued i Hi Hne); [left; apply elem_of_union; by right|by right].
  - rewrite turn_alive, X5. f_equal. by rewrite map_size_insert_Some by eauto.
  - intros i. destruct (turn_starts i) as [L1 L2]. split; [done|]. intros Hi.
    assert (i ≠ id) as Hne.
    { intros ->. destruct Hi as [[_ Hns]|Hi]; [|lia]. apply Hns. apply elem_of_union. left.
      by apply elem_of_singleton. }
    rewrite L2 by done. apply X8. destruct Hi as [[Hi Hns]|Hi]; [left|by right].
    rewrite lookup_insert_ne in Hi by done. split; [done|]. intros E. apply Hns.
    apply elem_of_union. by right.
Qed.

Lemma run_task_spec :
  ∃ w', run_task id (set_queue q w) = Ok w' ∧ xinv w' ∧ ids w' = l ++ woken ∧
    tasks (x_exec w') = (if r then delete id (tasks (x_exec w)) else <[id := t']> (tasks (x_exec w))) ∧
    x_env w' = (if r then set_stats (note_task_completed (stats s')) s' else s').
Proof.
  unfold run_task.
  cbn [set_queue x_exec tasks waker_cache started_tasks task_queue x_log x_next_id x_env].
  rewrite Ht, cached_waker, Hpoll. bstep. rewrite Hwake. bstep. destruct turn_queue as [Hq' _].
  destruct (Sumbool.sumbool_of_bool r) as [E|E]; rewrite E.
  - exists finished. split; [done|]. split; [apply finished_inv|]. done.
  - exists waiting. split; [done|]. split; [apply waiting_inv|]. done.
Qed.
End turn.

(** ** The loop *)

(** One turn, as the loop runs it. *)
Definition turn (w : xworld) : outcome (option xworld) :=
  match aq_pop (task_queue (x_exec w)) with
  | None => Ok None
  | Some (id, q) => w ← run_task id (set_queue q w); Ok (Some w)
  end.

Lemma run_ready_tasks_turn fuel w :
  run_ready_tasks (S fuel) w =
    (o ← turn w; match o with None => Ok w | Some w => run_ready_tasks fuel w end).
Proof.
  cbn [run_ready_tasks]. unfold turn. destruct (aq_pop _) as [[id q]|]; [|done].
  by destruct (run_task id (set_queue q w)).
Qed.

Lemma turn_none w : ids w = [] → turn w = Ok None.
Proof.
  intros Hl. unfold turn, ids in *. pose proof (aq_pop_ok (task_queue (x_exec w))) as Hpop.
  by rewrite Hl in Hpop; rewrite Hpop.
Qed.

(** A turn that pops [id], by the state of its task. *)
Lemma turn_stale w id l :
  xinv w → ids w = id :: l → tasks (x_exec w) !! id = None →
  ∃ w', turn w = Ok (Some w') ∧ xinv w' ∧ ids w' = l ∧ tasks (x_exec w') = tasks (x_exec w) ∧
    x_env w' = x_env w.
Proof.
  intros Hinv Hl Ht. unfold turn. pose proof (aq_pop_ok (task_queue (x_exec w))) as Hpop.
  unfold ids in Hl. rewrite Hl in Hpop. destruct Hpop as (q & -> & Hq & Hc). rewrite (xi_cap _ Hinv) in Hc.
  destruct (run_stale w id l q Hinv Hl Hq Hc Ht) as [-> Hinv']. bstep. by eexists.
Qed.

Lemma turn_poll w id l t r t' woken s' :
  xinv w → ids w = id :: l → tasks (x_exec w) !! id = Some t →
  poll (TaskWaker_new id) t (x_env w) = Ok (r, t', woken, s') →
  (length l + length woken <= TASK_QUEUE_CAPACITY)%nat →
  ∃ w', turn w = Ok (Some w') ∧ xinv w' ∧ ids w' = l ++ woken ∧
    tasks (x_exec w') = (if r then delete id (tasks (x_exec w)) else <[id := t']> (tasks (x_exec w))) ∧
    x_env w' = (if r then set_stats (note_task_completed (stats s')) s' else s').
Proof.
  intros Hinv Hl Ht Hp Hfit. unfold turn. pose proof (aq_pop_ok (task_queue (x_exec w))) as Hpop.
  unfold ids in Hl. rewrite Hl in Hpop. destruct Hpop as (q & -> & Hq & Hc). rewrite (xi_cap _ Hinv) in Hc.
  destruct (wake_all_ok woken q) as (q' & Hwake & _); [rewrite Hq, Hc; lia|].
  destruct (run_task_spec w id l q Hinv Hl Hq Hc t Ht r t' woken s' Hp q' Hwake) as (w' & -> & ?).
  bstep. by exists w'.
Qed.

(** A turn whose poll wakes more often than the queue has room for. *)
Lemma turn_full w id t r t' woken s' :
  xinv w → ids w = [id] → tasks (x_exec w) !! id = Some t →
  poll (TaskWaker_new id) t (x_env w) = Ok (r, t', woken, s') → (TASK_QUEUE_CAPACITY < length woken)%nat →
  turn w = Panic "task_queue full".
Proof.
  intros Hinv Hl Ht Hp Hfull. unfold turn. pose proof (aq_pop_ok (task_queue (x_exec w))) as Hpop.
  unfold ids in Hl. rewrite Hl in Hpop. destruct Hpop as (q & -> & Hq & Hc). rewrite (xi_cap _ Hinv) in Hc.
  unfold run_task. cbn [set_queue x_exec tasks waker_cache x_env task_queue].
  rewrite Ht. erewrite cached_waker by eauto. rewrite Hp. bstep. by rewrite wake_all_full by (rewrite ?Hq, ?Hc; simpl; lia).
Qed.

(** A turn that went through was one of these. *)
Lemma turn_cases w w' :
  xinv w → turn w = Ok (Some w') → xinv w' ∧ ∃ id l, ids w = id :: l ∧
  match tasks (x_exec w) !! id with
  | None => ids w' = l ∧ tasks (x_exec w') = tasks (x_exec w) ∧ x_env w' = x_env w
  | Some t => ∃ r t' woken s', poll (TaskWaker_new id) t (x_env w) = Ok (r, t', woken, s') ∧
      ids w' = l ++ woken ∧
      tasks (x_exec w') = (if r then delete id (tasks (x_exec w)) else <[id := t']> (tasks (x_exec w))) ∧
      x_env w' = (if r then set_stats (note_task_completed (stats s')) s' else s')
  end.
Proof.
  intros Hinv Ht. unfold turn in Ht. pose proof (aq_pop_ok (task_queue (x_exec w))) as Hpop.
  destruct (aq_list (task_queue (x_exec w))) as [|id l] eqn:Hl; [by rewrite Hpop in Ht|].
  destruct Hpop as (q & Hq1 & Hq & Hc). rewrite Hq1 in Ht. rewrite (xi_cap _ Hinv) in Hc.
  apply bind_inv in Ht as (w1 & Hrt & [= ->]).
  destruct (tasks (x_exec w) !! id) as [t|] eqn:Htk.
  - pose proof Hrt as Hrun. unfold run_task in Hrt.
    cbn [set_queue x_exec tasks waker_cache started_tasks task_queue x_env] in Hrt.
    rewrite Htk, (cached_waker w id l q Hinv Hl Hq) in Hrt.
    apply bind_inv in Hrt as ([[[r t'] woken] s'] & Hpl & Hrt). apply bind_inv in Hrt as (q' & Hwake & _).
    destruct (run_task_spec w id l q Hinv Hl Hq Hc t Htk r t' woken s' Hpl q' Hwake)
      as (w2 & Hrt2 & Hinv' & ?). rewrite Hrt2 in Hrun. injection Hrun as <-.
    split; [done|]. exists id, l. split; [done|]. rewrite Htk. by exists r, t', woken, s'.
  - destruct (run_stale w id l q Hinv Hl Hq Hc Htk) as [Hrt2 Hinv']. rewrite Hrt2 in Hrt.
    injection Hrt as <-. split; [done|]. exists id, l. by rewrite Htk.
Qed.

Lemma turn_inv w w' : xinv w → turn w = Ok (Some w') → xinv w'.
Proof. intros Hinv Ht. by apply turn_cases in Ht as [? _]. Qed.

Lemma turn_next_id w w' : turn w = Ok (Some w') → x_next_id w' = x_next_id w.
Proof.
  unfold turn. destruct (aq_pop _) as [[id q]|]; [|done]. intros H. apply bind_inv in H as (w1 & Hr & [= ->]).
  unfold run_task in Hr. cbn [set_queue x_exec tasks] in Hr. destruct (_ !! _) as [t|]; [|by injection Hr as <-].
  apply bind_inv in Hr as ([[[r t'] l] s] & _ & Hr). apply bind_inv in Hr as (q' & _ & Hr).
  destruct r; by injection Hr as <-.
Qed.

(** *** Tasks that are ready and finish when polled *)

(** [n] tasks of the future [f], all ready, and no others. *)
Record all_ready (f : F) (n : nat) (w : xworld) : Prop := {
  ar_inv : xinv w;
  ar_nodup : NoDup (ids w);
  ar_length : length (ids w) = n;
  ar_tasks : ∀ i, tasks (x_exec w) !! i = if decide (i ∈ ids w) then Some (mkTask i f) else None;
}.

Lemma all_ready_new f w :
  x_exec w = exec_new → tasks_alive (stats (x_env w)) = 0 → 0 <= x_next_id w → x_log w = [] → all_ready f 0 w.
Proof.
  intros E1 E2 E3 E4. destruct (aq_new_ok TASK_QUEUE_CAPACITY) as [N1 N2]; [unfold TASK_QUEUE_CAPACITY; lia|].
  split; [by apply xinv_new|..]; unfold ids; rewrite E1; cbn [exec_new task_queue tasks]; rewrite N1; [constructor|done|].
  intros i. rewrite decide_False by apply not_elem_of_nil. apply lookup_empty.
Qed.

Lemma all_ready_none f w : all_ready f 0 w → tasks (x_exec w) = ∅ ∧ ids w = [] ∧ tasks_alive (stats (x_env w)) = 0.
Proof.
  intros [Hi _ Hl Ht]. apply nil_length_inv in Hl. rewrite Hl in Ht.
  assert (tasks (x_exec w) = ∅) as He.
  { apply map_eq. intros i. rewrite Ht, lookup_empty. rewrite decide_False; [done|apply not_elem_of_nil]. }
  split; [done|]. split; [done|]. rewrite (xi_alive _ Hi), He. done.
Qed.

Lemma all_ready_one f w :
  all_ready f 1 w → ∃ id, ids w = [id] ∧ tasks (x_exec w) = {[id := mkTask id f]}.
Proof.
  intros [_ _ Hl Ht]. destruct (ids w) as [|id [|? ?]]; try done. exists id. split; [done|].
  apply map_eq. intros i. rewrite Ht. case_decide as Hi.
  - apply list_elem_of_singleton in Hi as ->. by rewrite lookup_singleton_eq.
  - rewrite lookup_singleton_ne; [done|]. intros <-. by apply Hi, list_elem_of_singleton.
Qed.

Lemma all_ready_spawn f n w :
  all_ready f n w → x_next_id w + 1 < u64_modulus → (n < TASK_QUEUE_CAPACITY)%nat →
  ∃ w', (let '(t, w1) := Task_new f w in spawn t w1) = Ok w' ∧ all_ready f (S n) w' ∧
    x_next_id w' = x_next_id w + 1 ∧ x_env w' = set_stats (note_task_spawned (stats (x_env w))) (x_env w).
Proof.
  intros [Hi Hn Hl Ht] Hb Hc. destruct (spawn_new f w Hi Hb) as (w' & E & Hi' & Hl' & Ht' & Hn' & He'); [by rewrite Hl|].
  exists w'. split; [done|]. split; [|done]. assert (x_next_id w ∉ ids w) as Hnew.
  { intros Hin. specialize (Ht (x_next_id w)). rewrite decide_True in Ht by done.
    destruct (xi_task _ Hi _ _ Ht). lia. }
  split; [done|..]; rewrite Hl'; [|rewrite length_app; simpl; lia|].
  - apply list.NoDup_app. split; [done|]. split; [|apply NoDup_singleton]. intros x Hx. by intros ->%list_elem_of_singleton.
  - intros i. rewrite Ht'. destruct (decide (i = x_next_id w)) as [->|Hne].
    + rewrite lookup_insert_eq, decide_True; [done|]. apply elem_of_app. right. by apply list_elem_of_singleton.
    + rewrite lookup_insert_ne, Ht by done. apply decide_ext. rewrite elem_of_app, list_elem_of_singleton. tauto.
Qed.

Section finishing.
Context (f : F) (g : Env → Env) (Hpoll : ∀ k s, poll_future k f s = Ok (true, f, [], g s)).

(** What a poll of such a task does to the world. *)
Definition finish (s : Env) : Env := set_stats (note_task_completed (stats (g s))) (g s).

Lemma all_ready_turn n w :
  all_ready f (S n) w → (S n <= TASK_QUEUE_CAPACITY)%nat →
  ∃ w', turn w = Ok (Some w') ∧ all_ready f n w' ∧ x_next_id w' = x_next_id w ∧ x_env w' = finish (x_env w).
Proof.
  intros [Hi Hn Hl Ht] Hc. destruct (ids w) as [|id l] eqn:El; [done|]. injection Hl as Hl.
  apply list.NoDup_cons in Hn as [Hid Hn].
  assert (tasks (x_exec w) !! id = Some (mkTask id f)) as Hid'.
  { rewrite Ht, decide_True by apply list_elem_of_here. done. }
  destruct (turn_poll w id l _ true (mkTask id f) [] (g (x_env w)) Hi El Hid') as (w' & E & Hi' & El' & Ht' & He');
    [unfold poll; cbn [task_future]; by rewrite Hpoll|simpl; lia|].
  exists w'. split; [done|]. split; [|split; [by apply turn_next_id|done]]. rewrite app_nil_r in El'.
  split; [done|by rewrite El'..|]. intros i. rewrite Ht', El'. destruct (decide (i = id)) as [->|Hne].
  - rewrite lookup_delete_eq, decide_False by done. done.
  - rewrite lookup_delete_ne, Ht by done. apply decide_ext. rewrite elem_of_cons. tauto.
Qed.

(** All of them are run, each once. *)
Lemma run_all_ready fuel n w :
  all_ready f n w → (n <= TASK_QUEUE_CAPACITY)%nat → (n < fuel)%nat →
  ∃ w', run_ready_tasks fuel w = Ok w' ∧ all_ready f 0 w' ∧ x_next_id w' = x_next_id w ∧
    x_env w' = Nat.iter n finish (x_env w).
Proof.
  revert fuel w. induction n as [|n IH]; intros [|fuel] w Hw Hc Hf; try lia; rewrite run_ready_tasks_turn.
  - destruct (all_ready_none f w Hw) as (_ & Hl & _). rewrite turn_none by done. bstep. by exists w.
  - destruct (all_ready_turn n w Hw Hc) as (w1 & -> & Hw1 & Hn1 & He1). bstep.
    destruct (IH fuel w1 Hw1) as (w2 & -> & Hw2 & Hn2 & He2); [lia..|]. exists w2. split; [done|]. split; [done|].
    rewrite Hn2, He2, He1, Hn1. split; [done|]. by rewrite <- Nat.iter_succ_r.
Qed.
End finishing.

Section budget.
(** Polls do not panic as long as the shared state is sound, which they keep
    it; [budget f] bounds the wake-ups that polling [f] can still cause. *)
Context (sound : Env → Prop) (sound_stats : ∀ s e, sound e → sound (set_stats s e)).
Context (budget : F → nat).
Context (Hbudget : ∀ k f s, sound s → ∃ r f' l s', poll_future k f s = Ok (r, f', l, s') ∧ sound s' ∧
  (length l + (if r then 0 else budget f') <= budget f)%nat).

Definition total_budget (m : gmap Z Task) : nat :=
  map_fold (λ _ t n, budget (task_future t) + n)%nat 0%nat m.

Definition potential (w : xworld) : nat := (length (ids w) + total_budget (tasks (x_exec w)))%nat.

Lemma total_budget_delete m i t :
  m !! i = Some t → total_budget m = (budget (task_future t) + total_budget (delete i m))%nat.
Proof. intros Hi. unfold total_budget.
  apply (map_fold_delete_L (λ _ t n, (budget (task_future t) + n)%nat) 0%nat i t m); [|done].
  intros. lia.
Qed.

Lemma total_budget_insert m i t t' :
  m !! i = Some t →
  total_budget (<[i := t']> m) = (budget (task_future t') + total_budget (delete i m))%nat.
Proof.
  intros Hi. rewrite (total_budget_delete _ i t') by apply lookup_insert_eq.
  by rewrite delete_insert_eq.
Qed.

Lemma turn_spec w :
  xinv w → sound (x_env w) → (potential w <= TASK_QUEUE_CAPACITY)%nat →
  match ids w with
  | [] => turn w = Ok None
  | _ => ∃ w', turn w = Ok (Some w') ∧ xinv w' ∧ sound (x_env w') ∧ (potential w' < potential w)%nat
  end.
Proof.
  intros Hinv Hs Hp. destruct (ids w) as [|id l] eqn:Hl.
  { by apply turn_none. }
  unfold potential in *. rewrite Hl in *. cbn [length] in Hp.
  destruct (tasks (x_exec w) !! id) as [t|] eqn:Ht.
  - destruct (Hbudget (TaskWaker_new id) (task_future t) (x_env w) Hs)
      as (r & f' & woken & s' & Hpf & Hs' & Hb).
    pose proof (total_budget_delete _ _ _ Ht) as Htot.
    destruct (turn_poll w id l t r (mkTask (task_id t) f') woken s' Hinv Hl Ht)
      as (w' & -> & Hinv' & Hids' & Hts & He); [unfold poll; by rewrite Hpf|lia|].
    exists w'. split; [done|]. split; [done|]. split; [rewrite He; destruct r; auto|].
    rewrite Hids', Hts, length_app. cbn [length].
    destruct r; [lia|]. rewrite (total_budget_insert _ _ t) by done. cbn [task_future]. lia.
  - destruct (turn_stale w id l Hinv Hl Ht) as (w' & -> & Hinv' & Hi & Hts & He). exists w'.
    split; [done|]. split; [done|]. split; [by rewrite He|]. rewrite Hi, Hts. cbn [length]. lia.
Qed.

Lemma run_ready_tasks_spec fuel w :
  xinv w → sound (x_env w) → (potential w <= TASK_QUEUE_CAPACITY)%nat → (potential w < fuel)%nat →
  ∃ w', run_ready_tasks fuel w = Ok w' ∧ xinv w' ∧ ids w' = [].
Proof.
  revert w. induction fuel as [|fuel IH]; intros w Hinv Hs Hp Hf; [lia|].
  rewrite run_ready_tasks_turn. pose proof (turn_spec w Hinv Hs Hp) as Ht.
  destruct (ids w) as [|id l] eqn:Hl.
  - rewrite Ht. bstep. eauto.
  - destruct Ht as (w' & -> & Hinv' & Hs' & Hlt). bstep. apply IH; [done|done|lia|lia].
Qed.

(** ** Theorems *)

(** C26: [run_ready_tasks] terminates, without overflowing the ready queue, as
    long as polls do not panic and the wake-ups they can cause fit the queue: it returns after
    at most one turn per queued or caused wake-up, with the queue empty, so
    the executor sleeps; every task still there has been polled at least
    once; no task's start was logged twice; and [tasks_alive] is their number. *)
Theorem run_ready_tasks_terminates w :
  xinv w → sound (x_env w) → (potential w <= TASK_QUEUE_CAPACITY)%nat →
  ∃ w', run_ready_tasks (S (potential w)) w = Ok w' ∧ sleep_if_idle w' = true ∧
    (∀ i, is_Some (tasks (x_exec w') !! i) → i ∈ started_tasks (x_exec w')) ∧
    (∀ i, (starts i (x_log w') <= 1)%nat) ∧
    tasks_alive (stats (x_env w')) = Z.of_nat (task_count (x_exec w')) mod u64_modulus.
Proof.
  intros Hinv Hs Hp. destruct (run_ready_tasks_spec (S (potential w)) w Hinv Hs Hp) as (w' & Hr & Hinv' & Hids); [lia|].
  exists w'. split_and!; [done| | |intros i; apply (xi_log _ Hinv')|apply Hinv'].
  - unfold sleep_if_idle. rewrite aq_empty_ok. by apply bool_decide_eq_true_2.
  - intros i Hi. destruct (xi_unstarted _ Hinv' i Hi) as [|Hin]; [done|].
    rewrite Hids in Hin. by apply elem_of_nil in Hin.
Qed.
End budget.

(** The states an executor reaches: tasks are spawned, and turns are run. *)
Inductive xreach : xworld → Prop :=
| xreach_new w : x_exec w = exec_new → tasks_alive (stats (x_env w)) = 0 → x_next_id w = 0 →
    x_log w = [] → xreach w
| xreach_spawn w future t w1 w2 : xreach w → x_next_id w + 1 < u64_modulus →
    Task_new future w = (t, w1) → spawn t w1 = Ok w2 → xreach w2
| xreach_turn w w' : xreach w → turn w = Ok (Some w') → xreach w'.

Lemma xreach_inv w : xreach w → xinv w.
Proof.
  induction 1 as [w E1 E2 E3 E4|w future t w1 w2 _ IH Hn Ht Hs|w w' _ IH Ht].
  - apply xinv_new; [done..|lia|done].
  - pose proof (task_spawn_spec future w IH Hn) as Hsp. rewrite Ht in Hsp. destruct Hsp as [_ Hsp].
    case_bool_decide; [|congruence]. destruct Hsp as (w' & ? & ? & _). congruence.
  - by eapply turn_inv.
Qed.

(** C29: in every state an executor reaches, a task that has not been polled is
    in the ready queue, so no spawned task is forgotten; a cached waker wakes
    its own task; [tasks_alive] counts the tasks; the start of a task is
    logged at most once; and [spawn] can fail only because the queue is
    full. *)
Theorem executor_reachable w :
  xreach w →
  (∀ i, is_Some (tasks (x_exec w) !! i) → i ∈ started_tasks (x_exec w) ∨ i ∈ ids w) ∧
  (∀ i k, waker_cache (x_exec w) !! i = Some k → tw_task_id k = i ∧ is_Some (tasks (x_exec w) !! i)) ∧
  tasks_alive (stats (x_env w)) = Z.of_nat (task_count (x_exec w)) mod u64_modulus ∧
  (∀ i, (starts i (x_log w) <= 1)%nat) ∧
  (∀ future, x_next_id w + 1 < u64_modulus →
     let '(t, w1) := Task_new future w in
     if bool_decide (length (ids w) < TASK_QUEUE_CAPACITY)%nat
     then ∃ w', spawn t w1 = Ok w' ∧ ids w' = ids w ++ [task_id t]
     else spawn t w1 = Panic "queue full").
Proof.
  intros Hr. pose proof (xreach_inv w Hr) as Hinv. split_and!.
  - apply Hinv.
  - intros i k Hk. destruct (xi_cache _ Hinv i k Hk) as (? & ? & _). done.
  - apply Hinv.
  - intros i. apply (xi_log _ Hinv).
  - intros future Hn. pose proof (task_spawn_spec future w Hinv Hn) as Hs.
    destruct (Task_new future w) as [t w1]. destruct Hs as [_ Hs].
    case_bool_decide; [|done]. destruct Hs as (w' & ? & _ & ? & _). eauto.
Qed.
End executor.

(** *** A concrete executor: futures that count down, waking themselves *)

#[export] Instance scheduler_stats_only : HasStats Scheduler :=
  {| stats s := s; set_stats s _ := s; stats_set _ _ := eq_refl |}.

Definition demo_poll (k : TaskWaker) (n : nat) (s : Scheduler) : outcome (bool * nat * list Z * Scheduler) :=
  match n with
  | O => Ok (true, O, [], s)
  | S n => Ok (false, n, [tw_task_id k], s)
  end.

Lemma demo_poll_alive k f s r f' l s' :
  demo_poll k f s = Ok (r, f', l, s') → tasks_alive (stats s') = tasks_alive (stats s).
Proof. destruct f; intros; by simplify_eq/=. Qed.

Definition demo_exec : xworld (Q := list_array_queue) (F := nat) (Env := Scheduler) :=
  mkX (Q := list_array_queue) (exec_new (Q := list_array_queue)) 0 [] sched_new.

Definition demo_two : xworld (Q := list_array_queue) (F := nat) (Env := Scheduler) :=
  let '(t, w) := Task_new 3%nat demo_exec in
  let w := value w (spawn t w) in
  let '(t, w) := Task_new 1%nat w in
  value w (spawn t w).

Lemma demo_two_reach : xreach demo_poll demo_two.
Proof.
  eapply (xreach_spawn demo_poll (value demo_exec
    (spawn (Task_new 3%nat demo_exec).1 (Task_new 3%nat demo_exec).2)) 1%nat); [|done|done|].
  - eapply (xreach_spawn demo_poll demo_exec 3%nat); [|done|done|].
    + by apply xreach_new.
    + apply value_ok. vm_compute. reflexivity.
  - apply value_ok. vm_compute. reflexivity.
Qed.

Lemma executor_reachable_witness :
  (∀ i, is_Some (tasks (x_exec demo_two) !! i) →
     i ∈ started_tasks (x_exec demo_two) ∨ i ∈ ids (QL := list_array_queue_laws) demo_two) ∧
  (∀ i k, waker_cache (x_exec demo_two) !! i = Some k →
     tw_task_id k = i ∧ is_Some (tasks (x_exec demo_two) !! i)) ∧
  tasks_alive (stats (x_env demo_two)) = Z.of_nat (task_count (x_exec demo_two)) mod u64_modulus ∧
  (∀ i, (starts i (x_log demo_two) <= 1)%nat) ∧
  (∀ future, x_next_id demo_two + 1 < u64_modulus →
     let '(t, w1) := Task_new future demo_two in
     if bool_decide (length (ids (QL := list_array_queue_laws) demo_two) < TASK_QUEUE_CAPACITY)%nat
     then ∃ w', spawn t w1 = Ok w' ∧
       ids (QL := list_array_queue_laws) w' = ids (QL := list_array_queue_laws) demo_two ++ [task_id t]
     else spawn t w1 = Panic "queue full").
Proof. apply (executor_reachable (QL := list_array_queue_laws) demo_poll demo_poll_alive). apply demo_two_reach. Defined.

Lemma run_ready_tasks_terminates_witness :
  ∃ w', run_ready_tasks demo_poll (S (potential (QL := list_array_queue_laws) id demo_two)) demo_two = Ok w' ∧
    sleep_if_idle w' = true ∧
    (∀ i, is_Some (tasks (x_exec w') !! i) → i ∈ started_tasks (x_exec w')) ∧
    (∀ i, (starts i (x_log w') <= 1)%nat) ∧
    tasks_alive (stats (x_env w')) = Z.of_nat (task_count (x_exec w')) mod u64_modulus.
Proof.
  apply (run_ready_tasks_terminates (QL := list_array_queue_laws) demo_poll demo_poll_alive (λ _, True) (λ _ _ _, I) id).
  - intros k [|n] s _; repeat eexists; simpl; lia.
  - apply (xreach_inv (QL := list_array_queue_laws) demo_poll demo_poll_alive). apply demo_two_reach.
  - exact I.
  - vm_compute. lia.
Defined.
