(* ===== verification/ExecLoop.v ===== *)
(** * The executor's run loop and interrupts

    [CoopExecutor::run] and [sleep_if_idle] of src/src/task/executor.rs, as a
    transition system: the loop runs turn by turn, and between any two of its
    steps an interrupt may come in, if the CPU has them enabled, and call
    wakers.  The point of [sleep_if_idle] is that the executor never halts
    with a task in the ready queue. *)

From Stdlib Require Import ZArith Lia.
From stdpp Require Import base gmap list strings numbers relations.
From S2P Require Import Prelude Libs Scheduler Executor.

Open Scope Z_scope.

(** Where the loop is: in [run_ready_tasks]; before [interrupts::disable()];
    before the test of the queue; before [enable_and_hlt]; before
    [interrupts::enable()]; halted. *)
Inductive loop_pc := PRun | PDisable | PTest | PHlt | PEnable | PHalted.

Section exec_loop.
Context {Q : ArrayQueue} {F Env I : Type} {HS : HasStats Env}.
Context (poll_future : TaskWaker → F → Env → outcome (bool * F * list Z * Env)).
(** The interrupt handlers: the wakers called, and the new shared state. *)
Context (irq : I → Env → outcome (list Z * Env)).

(** The program point, the CPU's interrupt flag, and the executor. *)
Record loop_state := mkLoop {
  l_pc : loop_pc;
  l_if : bool;
  l_x : xworld (Q := Q) (F := F) (Env := Env);
}.

(** [run], from its start, with interrupts enabled or not. *)
Definition loop_start (enabled : bool) (x : xworld) : loop_state := mkLoop PRun enabled x.

(** The next step of the loop itself; a halted CPU has none. *)
Definition loop_step (s : loop_state) : outcome (option loop_state) :=
  match l_pc s with
  | PRun =>
      o ← turn poll_future (l_x s);
      Ok (Some (match o with
                | Some x => mkLoop PRun (l_if s) x
                | None => mkLoop PDisable (l_if s) (l_x s)
                end))
  | PDisable => Ok (Some (mkLoop PTest false (l_x s)))
  | PTest => Ok (Some (mkLoop (if sleep_if_idle (l_x s) then PHlt else PEnable) (l_if s) (l_x s)))
  | PHlt => Ok (Some (mkLoop PHalted true (l_x s)))
  | PEnable => Ok (Some (mkLoop PRun true (l_x s)))
  | PHalted => Ok None
  end.

Definition set_env (e : Env) (x : xworld (Q := Q) (F := F) (Env := Env)) : xworld :=
  mkX (x_exec x) (x_next_id x) (x_log x) e.

(** An interrupt, whose handler acts on the shared state and calls wakers.  It
    is held back while interrupts are off; it ends the [hlt], and the loop
    goes on. *)
Definition interrupt (i : I) (s : loop_state) : outcome (option loop_state) :=
  if l_if s then
    '(ids, e) ← irq i (x_env (l_x s));
    q ← wake_all ids (task_queue (x_exec (l_x s)));
    Ok (Some (mkLoop (match l_pc s with PHalted => PRun | pc => pc end) true
                (set_env e (set_queue q (l_x s)))))
  else Ok None.

Inductive lstep (s s' : loop_state) : Prop :=
| lstep_loop : loop_step s = Ok (Some s') → lstep s s'
| lstep_interrupt i : interrupt i s = Ok (Some s') → lstep s s'.

Context {QL : ArrayQueueLaws Q}.
(** Neither a poll nor a handler touches the count of the tasks. *)
Context (poll_alive : ∀ k f s r f' l s', poll_future k f s = Ok (r, f', l, s') →
  tasks_alive (stats s') = tasks_alive (stats s)).
Context (irq_alive : ∀ i s l s', irq i s = Ok (l, s') → tasks_alive (stats s') = tasks_alive (stats s)).

(** The flag is off around the test and on in the [hlt], and a loop that is
    about to halt or has halted has nothing to do. *)
Record loop_inv (s : loop_state) : Prop := {
  li_x : xinv (l_x s);
  li_flag : l_pc s = PTest ∨ l_pc s = PHlt ∨ l_pc s = PEnable → l_if s = false;
  li_halted : l_pc s = PHalted → l_if s = true;
  li_idle : l_pc s = PHlt ∨ l_pc s = PHalted → ids (l_x s) = [];
}.

Lemma set_env_inv (x : xworld (Q := Q) (F := F) (Env := Env)) e : 
  xinv x → tasks_alive (stats e) = tasks_alive (stats (x_env x)) → xinv (set_env e x).
Proof. intros [X1 X2 X3 X4 X5 X6 X7 X8] He. split; try done. simpl. by rewrite He. Qed.

Lemma set_queue_inv (x : xworld (Q := Q) (F := F) (Env := Env)) q woken :
  xinv x → wake_all woken (task_queue (x_exec x)) = Ok q →
  xinv (set_queue q x) ∧ ids (set_queue q x) = ids x ++ woken.
Proof.
  intros [X1 X2 X3 X4 X5 X6 X7 X8] Hw. destruct (wake_all_list _ _ _ Hw) as [Hl Hc].
  assert (ids (set_queue q x) = ids x ++ woken) as Hids by exact Hl.
  split; [|done]. split; try done.
  - intros i Hi. destruct (X4 i Hi) as [|Hin]; [by left|right]. rewrite Hids. apply elem_of_app. by left.
  - cbn [set_queue x_exec task_queue]. congruence.
Qed.

#[local] Ltac pcs := first [done | intros [?|[?|?]]; done | intros [?|?]; done | by intros; auto].

Lemma loop_step_inv s s' : loop_inv s → loop_step s = Ok (Some s') → loop_inv s'.
Proof.
  intros [Hx Hf Hh Hi] Hs. destruct s as [pc f x]. unfold loop_step in Hs. cbn [l_pc l_if l_x] in *.
  destruct pc; cbn in Hs.
  - apply bind_inv in Hs as (o & Ht & Hs). destruct o as [x'|]; injection Hs as <-;
      (split; cbn; [|by pcs..]); [by eapply turn_inv|done].
  - injection Hs as <-. split; cbn; by pcs.
  - injection Hs as <-. unfold sleep_if_idle. rewrite aq_empty_ok.
    split; cbn; try case_bool_decide; by pcs.
  - injection Hs as <-. split; cbn; by pcs.
  - injection Hs as <-. split; cbn; by pcs.
  - done.
Qed.

Lemma interrupt_inv s s' i : loop_inv s → interrupt i s = Ok (Some s') → loop_inv s'.
Proof.
  intros [Hx Hf Hh Hi] Hs. destruct s as [pc f x]. unfold interrupt in Hs. cbn [l_pc l_if l_x] in *.
  destruct f; [|done]. apply bind_inv in Hs as ([woken e] & Hirq & Hs).
  apply bind_inv in Hs as (q & Hw & Hs). injection Hs as <-.
  destruct (set_queue_inv x q woken Hx Hw) as [Hx' _]. apply (set_env_inv _ e) in Hx'; [|by apply irq_alive in Hirq].
  destruct pc; split; cbn [l_pc l_if l_x]; try done; naive_solver.
Qed.

Lemma loop_reach_inv b x s : xreach poll_future x → rtc lstep (loop_start b x) s → loop_inv s.
Proof.
  intros Hx Hr. assert (loop_inv (loop_start b x)) as H0.
  { split; cbn; [by eapply xreach_inv|naive_solver..]. }
  revert H0. generalize (loop_start b x), Hr. clear Hx Hr x. intros s0 Hr.
  induction Hr as [s0|s0 s1 s2 [Hs|i Hs] _ IH]; intros H0; [done|..];
    apply IH; [by eapply loop_step_inv|by eapply interrupt_inv].
Qed.

(** The loop's own steps, without an interrupt. *)
Fixpoint loop_steps (n : nat) (s : loop_state) : outcome (option loop_state) :=
  match n with
  | O => Ok (Some s)
  | S n => o ← loop_step s; match o with Some s => loop_steps n s | None => Ok None end
  end.

Lemma loop_steps_reach n s s' : loop_steps n s = Ok (Some s') → rtc lstep s s'.
Proof.
  revert s. induction n as [|n IH]; intros s; cbn [loop_steps]; [by intros [= ->]|].
  intros Hs. apply bind_inv in Hs as ([s1|] & H1 & Hs); [|done].
  eapply rtc_l; [by apply lstep_loop|auto].
Qed.

(** C17: the executor never sleeps on work.  Started with interrupts on or
    off, whenever it is halted, or has decided to halt, the ready queue is
    empty, and a halted CPU has its interrupts on; when an interrupt then wakes
    a task, the loop runs again with that task in the queue.  With a task in the queue, the loop is back
    in [run_ready_tasks] after at most three steps of its own; and no task is
    lost: one that was never polled is in the queue. *)
Theorem executor_never_sleeps_on_work b x s :
  xreach poll_future x → rtc lstep (loop_start b x) s →
  (l_pc s = PHlt ∨ l_pc s = PHalted → ids (l_x s) = []) ∧
  (l_pc s = PHalted → l_if s = true ∧
     ∀ i woken e, irq i (x_env (l_x s)) = Ok (woken, e) → (length woken <= TASK_QUEUE_CAPACITY)%nat →
       ∃ s', interrupt i s = Ok (Some s') ∧ l_pc s' = PRun ∧ ids (l_x s') = woken) ∧
  (ids (l_x s) ≠ [] → ∃ n s', (n <= 3)%nat ∧ loop_steps n s = Ok (Some s') ∧
     l_pc s' = PRun ∧ l_x s' = l_x s) ∧
  (∀ i, is_Some (tasks (x_exec (l_x s)) !! i) → i ∈ started_tasks (x_exec (l_x s)) ∨ i ∈ ids (l_x s)).
Proof.
  intros Hx Hr. pose proof (loop_reach_inv b x s Hx Hr) as [Hinv Hf Hh Hi]. split_and!; [done| | |apply Hinv].
  - intros Hpc. pose proof (Hh Hpc) as Hif. split; [done|]. intros i woken e Hirq Hl.
    destruct (wake_all_ok woken (task_queue (x_exec (l_x s)))) as (q & Hw & _).
    { pose proof (Hi (or_intror Hpc)) as Hn. unfold ids in Hn. rewrite Hn, (xi_cap _ Hinv). done. }
    destruct (set_queue_inv (l_x s) q woken Hinv Hw) as [_ Hids].
    unfold interrupt. rewrite Hif, Hirq. bstep. rewrite Hw. bstep. eexists. split; [done|]. rewrite Hpc. split; [done|].
    cbn [l_x]. change (ids (set_env e ?x)) with (ids x). rewrite Hids, (Hi (or_intror Hpc)). done.
  - intros Hne. assert (sleep_if_idle (l_x s) = false) as Hsl.
    { unfold sleep_if_idle. rewrite aq_empty_ok. by apply bool_decide_eq_false_2. }
    destruct s as [pc f x']; cbn [l_pc l_if l_x] in *. destruct pc.
    + exists 0%nat. eexists. split; [lia|]. done.
    + exists 3%nat. eexists. split; [lia|]. cbn. rewrite Hsl. cbn. done.
    + exists 2%nat. eexists. split; [lia|]. cbn. rewrite Hsl. cbn. done.
    + exfalso. apply Hne, Hi. by left.
    + exists 1%nat. eexists. split; [lia|]. cbn. done.
    + exfalso. apply Hne, Hi. by right.
Qed.
End exec_loop.

(** *** Witness: the countdown tasks, run until the executor halts *)

(** An interrupt that wakes the tasks it names. *)
Definition demo_irq (woken : list Z) (s : Scheduler) : outcome (list Z * Scheduler) := Ok (woken, s).

Lemma demo_irq_alive i s l s' :
  demo_irq i s = Ok (l, s') → tasks_alive (stats s') = tasks_alive (stats s).
Proof. by intros [= _ <-]. Qed.

Definition demo_halted : loop_state (Q := list_array_queue) (F := nat) :=
  default (loop_start true demo_two) (value None (loop_steps demo_poll 10 (loop_start true demo_two))).

Lemma executor_never_sleeps_on_work_witness :
  l_pc demo_halted = PHalted ∧ l_if demo_halted = true ∧
  ∀ i woken e, demo_irq i (x_env (l_x demo_halted)) = Ok (woken, e) →
    (length woken <= TASK_QUEUE_CAPACITY)%nat →
    ∃ s', interrupt demo_irq i demo_halted = Ok (Some s') ∧ l_pc s' = PRun ∧
      ids (QL := list_array_queue_laws) (l_x s') = woken.
Proof.
  assert (l_pc demo_halted = PHalted) as Hpc by (vm_compute; reflexivity). split; [exact Hpc|].
  apply (executor_never_sleeps_on_work (QL := list_array_queue_laws) demo_poll demo_irq
    demo_poll_alive demo_irq_alive true demo_two demo_halted).
  - apply demo_two_reach.
  - apply (loop_steps_reach demo_poll demo_irq 10). vm_compute. reflexivity.
  - exact Hpc.
Defined.
