(* ===== verification/Logger.v ===== *)
(** * The kernel log and the serial port

    src/src/logger.rs and src/src/serial.rs.  The logger takes the serial port
    only if it is free and counts the messages it drops otherwise; the serial
    printer waits for it.  The port and the spin lock around it are
    third-party code and parameters. *)

From Stdlib Require Import ZArith Lia.
From stdpp Require Import base list strings numbers.
From S2P Require Import Prelude.

Open Scope Z_scope.

Definition SERIAL_PORT_BASE : Z := 0x3F8.

(** [SerialPort] of the uart_16550 crate: [write_str] on bytes. *)
Class SerialPort := {
  port : Type;
  port_write : port → list Z → port;
}.

(** Bytes are sent in order; the two the port treats as backspace are not in
    the contract. *)
Definition plain (b : Z) : Prop := b ≠ 8 ∧ b ≠ 0x7f.

Class SerialPortLaws (SP : SerialPort) := {
  sent : port → list Z;
  port_write_ok : ∀ p s, Forall plain s → sent (port_write p s) = sent p ++ s;
}.

(** [Mutex<T>] of the spin crate: [try_lock] gives the contents for the time
    the guard lives, [unlock] is the guard's drop with what it left. *)
Class SpinMutex (T : Type) := {
  mutex : Type;
  try_lock : mutex → option (T * mutex);
  unlock : T → mutex → mutex;
}.

Class SpinMutexLaws (T : Type) (M : SpinMutex T) := {
  contents : mutex → T;
  locked : mutex → bool;
  try_lock_ok : ∀ m,
    if locked m then try_lock m = None
    else ∃ m', try_lock m = Some (contents m, m') ∧ locked m' = true;
  unlock_ok : ∀ x m, locked (unlock x m) = false ∧ contents (unlock x m) = x;
}.

Inductive LogLevel := LTrace | LDebug | LInfo | LWarn | LError.

Definition tag (level : LogLevel) : list Z :=
  match level with
  | LTrace => [84; 82; 67]
  | LDebug => [68; 66; 71]
  | LInfo => [73; 78; 70]
  | LWarn => [87; 82; 78]
  | LError => [69; 82; 82]
  end.

(** [u8::to_ascii_uppercase] *)
Definition to_ascii_uppercase (b : Z) : Z := if (97 <=? b) && (b <=? 122) then b - 32 else b.

(** [for (dst, src) in buf[..copy].iter_mut().zip(&bytes[..copy])] *)
Fixpoint copy_upper (buf bytes : list Z) (copy : nat) : list Z :=
  match copy, buf, bytes with
  | S copy, _ :: buf, src :: bytes => to_ascii_uppercase src :: copy_upper buf bytes copy
  | _, _, _ => buf
  end.

(** The four bytes that stand for the source of a message. *)
Definition short (source : list Z) : list Z :=
  copy_upper (replicate 4 32) source (Nat.min (length source) 4).

Section logger.
Context {SP : SerialPort} {M : SpinMutex port}.

(** [SERIAL1] and [DROPPED_MESSAGES]. *)
Record lworld := mkLog { SERIAL1 : mutex; DROPPED_MESSAGES : Z }.

(** [write_fmt] hands the writer one piece after the other; the writer's
    errors are ignored, and it reports none. *)
Fixpoint write_fmt (pieces : list (list Z)) (p : port) : port :=
  match pieces with
  | [] => p
  | s :: pieces => write_fmt pieces (port_write p s)
  end.

(** The common part of [_print] and [_log]. *)
Definition emit (pieces : list (list Z)) (w : lworld) : lworld :=
  match try_lock (SERIAL1 w) with
  | None => mkLog (SERIAL1 w) (wrapping_add (DROPPED_MESSAGES w) 1)
  | Some (serial, m) => mkLog (unlock (write_fmt pieces serial) m) (DROPPED_MESSAGES w)
  end.

Definition log_print (args : list (list Z)) : lworld → lworld := emit args.

Definition log (level : LogLevel) (source : list Z) (args : list (list Z)) : lworld → lworld :=
  emit ([tag level; [59]; short source; [32; 91]] ++ args ++ [[93; 10]]).

(** The macros.  [_log] ends the line itself, so the variants with [ln] are
    the plain ones; without a message they pass an empty one. *)
Definition klog (args : list (list Z)) : lworld → lworld := log_print args.
Definition klogln (args : list (list Z)) : lworld → lworld := klog (args ++ [[10]]).
Definition ktrace (source : list Z) (args : list (list Z)) : lworld → lworld := log LTrace source args.
Definition ktraceln (source : list Z) (args : list (list Z)) : lworld → lworld := ktrace source args.
Definition kdebug (source : list Z) (args : list (list Z)) : lworld → lworld := log LDebug source args.
Definition kdebugln (source : list Z) (args : list (list Z)) : lworld → lworld := kdebug source args.
Definition kinfo (source : list Z) (args : list (list Z)) : lworld → lworld := log LInfo source args.
Definition kinfoln (source : list Z) (args : list (list Z)) : lworld → lworld := kinfo source args.
Definition kwarn (source : list Z) (args : list (list Z)) : lworld → lworld := log LWarn source args.
Definition kwarnln (source : list Z) (args : list (list Z)) : lworld → lworld := kwarn source args.
Definition kerror (source : list Z) (args : list (list Z)) : lworld → lworld := log LError source args.
Definition kerrorln (source : list Z) (args : list (list Z)) : lworld → lworld := kerror source args.

Definition dropped_messages (w : lworld) : Z := DROPPED_MESSAGES w.

(** [serial::_print]: [lock] spins until the lock is free.  Interrupts are
    off, so on one CPU nobody else can free it. *)
Definition serial_print (args : list (list Z)) (w : lworld) : outcome lworld :=
  match try_lock (SERIAL1 w) with
  | None => Diverge
  | Some (serial, m) => Ok (mkLog (unlock (write_fmt args serial) m) (DROPPED_MESSAGES w))
  end.

(** [serial_println!] appends the newline to the format string. *)
Definition serial_println (args : list (list Z)) : lworld → outcome lworld := serial_print (args ++ [[10]]).
End logger.

(** ** Theorems *)

Lemma write_fmt_sent {SP : SerialPort} {L : SerialPortLaws SP} pieces p :
  Forall (Forall plain) pieces → sent (write_fmt pieces p) = sent p ++ mjoin pieces.
Proof.
  intros Hp. revert p. induction Hp as [|s pieces Hs _ IH]; intros p; cbn [write_fmt].
  - symmetry. apply app_nil_r.
  - rewrite IH, port_write_ok by done. by rewrite <- app_assoc.
Qed.

Lemma copy_upper_length buf bytes n : length (copy_upper buf bytes n) = length buf.
Proof.
  revert buf bytes. induction n as [|n IH]; intros [|b buf] [|c bytes]; try done.
  simpl. by rewrite IH.
Qed.

Lemma copy_upper_lookup buf bytes n i :
  (i < length buf)%nat →
  copy_upper buf bytes n !! i =
    match bytes !! i with
    | Some c => if decide (i < n)%nat then Some (to_ascii_uppercase c) else buf !! i
    | None => buf !! i
    end.
Proof.
  revert buf bytes i. induction n as [|n IH]; intros [|b buf] bytes i Hi; simpl in *; try lia.
  - by destruct (bytes !! i).
  - destruct bytes as [|c bytes]; [done|]. destruct i as [|i]; [done|]. simpl. rewrite IH by lia.
    destruct (bytes !! i); [|done]. repeat case_decide; done || lia.
Qed.

(** What the logger's output depends on: the message may not contain the two
    bytes the port treats specially. *)
Definition log_line (level : LogLevel) (source : list Z) (args : list (list Z)) : list Z :=
  tag level ++ [59] ++ short source ++ [32; 91] ++ mjoin args ++ [93; 10].

Section theorems.
Context {SP : SerialPort} {SL : SerialPortLaws SP} {M : SpinMutex port} {ML : SpinMutexLaws port M}.

Lemma short_plain source : Forall plain source → Forall plain (short source).
Proof.
  intros Hs. apply Forall_elem. intros b Hb. apply list_elem_of_lookup in Hb as [i Hi].
  assert (i < 4)%nat as Hlt.
  { apply lookup_lt_Some in Hi. unfold short in Hi. by rewrite copy_upper_length in Hi. }
  unfold short in Hi. rewrite copy_upper_lookup in Hi by done.
  assert (replicate 4 32 !! i = Some 32) as E32 by (by apply lookup_replicate).
  destruct (source !! i) as [c|] eqn:Hc; [|rewrite E32 in Hi; by injection Hi as <-].
  case_decide; [|rewrite E32 in Hi; by injection Hi as <-]. injection Hi as <-.
  assert (plain c) as [? ?] by (eapply Forall_lookup_1; eauto).
  unfold plain, to_ascii_uppercase. destruct ((97 <=? c) && (c <=? 122)) eqn:E; [zbool; lia|done].
Qed.

Lemma emit_spec pieces w :
  Forall (Forall plain) pieces →
  (locked (SERIAL1 w) = true →
     emit pieces w = mkLog (SERIAL1 w) ((DROPPED_MESSAGES w + 1) mod u64_modulus)) ∧
  (locked (SERIAL1 w) = false →
     sent (contents (SERIAL1 (emit pieces w))) = sent (contents (SERIAL1 w)) ++ mjoin pieces ∧
     locked (SERIAL1 (emit pieces w)) = false ∧ DROPPED_MESSAGES (emit pieces w) = DROPPED_MESSAGES w).
Proof.
  intros Hp. unfold emit. pose proof (try_lock_ok (SERIAL1 w)) as Ht. split; intros Hl; rewrite Hl in Ht.
  - by rewrite Ht.
  - destruct Ht as (m' & -> & _). cbn [SERIAL1 DROPPED_MESSAGES].
    destruct (unlock_ok (write_fmt pieces (contents (SERIAL1 w))) m') as [-> ->].
    split; [by apply write_fmt_sent|done].
Qed.

(** logging never blocks and never fails.  If the port is free, exactly
    one line goes out, with the level, the source in four upper-case
    characters and the message, and the port is free again; if somebody holds
    the port, as when an interrupt hits a print, nothing is sent and the drop
    is counted.  The serial printer, in the second case, spins forever. *)
Theorem log_line_or_drop level source args w :
  Forall plain source → Forall (Forall plain) args →
  length (short source) = 4%nat ∧
  (∀ i c, (i < 4)%nat → source !! i = Some c → short source !! i = Some (to_ascii_uppercase c)) ∧
  (∀ i, (i < 4)%nat → source !! i = None → short source !! i = Some 32) ∧
  (locked (SERIAL1 w) = true →
     log level source args w = mkLog (SERIAL1 w) ((dropped_messages w + 1) mod u64_modulus) ∧
     serial_print args w = Diverge) ∧
  (locked (SERIAL1 w) = false →
     let w' := log level source args w in
     sent (contents (SERIAL1 w')) = sent (contents (SERIAL1 w)) ++ log_line level source args ∧
     locked (SERIAL1 w') = false ∧ dropped_messages w' = dropped_messages w).
Proof.
  intros Hs Ha. unfold dropped_messages.
  assert (Forall (Forall plain) ([tag level; [59]; short source; [32; 91]] ++ args ++ [[93; 10]])) as Hp.
  { apply Forall_app. split; [|apply Forall_app; split; [done|]].
    - repeat constructor; try done; [by destruct level; repeat constructor|by apply short_plain].
    - by repeat constructor. }
  destruct (emit_spec _ w Hp) as [H1 H2].
  assert (∀ i, (i < 4)%nat → short source !! i =
    match source !! i with Some c => Some (to_ascii_uppercase c) | None => Some 32 end) as Hsh.
  { intros i Hi. unfold short. rewrite copy_upper_lookup by done.
    assert (replicate 4 32 !! i = Some 32) as -> by (by apply lookup_replicate).
    destruct (source !! i) as [c|] eqn:Hc; [|done]. apply lookup_lt_Some in Hc. by rewrite decide_True by lia. }
  split_and!.
  - unfold short. by rewrite copy_upper_length.
  - intros i c Hi Hc. by rewrite Hsh, Hc.
  - intros i Hi Hc. by rewrite Hsh, Hc.
  - intros Hl. split; [by apply H1|]. unfold serial_print. pose proof (try_lock_ok (SERIAL1 w)) as Ht.
    rewrite Hl in Ht. by rewrite Ht.
  - intros Hl. destruct (H2 Hl) as (E1 & E2 & E3). cbv zeta. split; [|done].
    unfold log. rewrite E1. f_equal. unfold log_line. rewrite !join_app. cbn [mjoin list_join].
    by rewrite !app_nil_r, <- !app_assoc.
Qed.
End theorems.

(** ** Witness: a port that keeps what it was sent *)

Definition demo_port : SerialPort := {| port := list Z; port_write p s := p ++ s |}.

Definition demo_port_laws : SerialPortLaws demo_port.
Proof. refine {| sent := (λ p, p) : @port demo_port → _ |}. done. Defined.

Definition flag_mutex (T : Type) : SpinMutex T := {|
  mutex := T * bool;
  try_lock m := if m.2 then None else Some (m.1, (m.1, true));
  unlock x _ := (x, false);
|}.

Definition flag_mutex_laws T : SpinMutexLaws T (flag_mutex T).
Proof.
  refine {| contents := fst : @mutex T (flag_mutex T) → _; locked := snd : @mutex T (flag_mutex T) → _ |}.
  - intros [x [|]]; cbn; eauto.
  - done.
Defined.

(** [kinfoln!(init, ...)], once with the port free and once from an interrupt
    that hit a print. *)
Lemma log_line_or_drop_witness :
  let source := [105; 110; 105; 116] in
  let free : lworld (M := flag_mutex _) := mkLog (SP := demo_port) (M := flag_mutex _) ([], false) 0 in
  let held : lworld (M := flag_mutex _) := mkLog (SP := demo_port) (M := flag_mutex _) ([], true) 0 in
  SERIAL1 (log LInfo source [[103; 111]] free) =
    ([73; 78; 70; 59; 73; 78; 73; 84; 32; 91; 103; 111; 93; 10], false) ∧
  log LInfo source [[103; 111]] held = mkLog (SERIAL1 held) 1 ∧
  serial_print [[103; 111]] held = Diverge.
Proof.
  cbv zeta. split; [reflexivity|].
  apply (log_line_or_drop (SL := demo_port_laws) (ML := flag_mutex_laws _) LInfo
    [105; 110; 105; 116] [[103; 111]] (mkLog (SP := demo_port) (M := flag_mutex _) ([], true) 0)).
  - by repeat constructor.
  - by repeat constructor.
  - reflexivity.
Defined.
