(* ===== verification/TestRunner.v ===== *)
(** * The test harness

    The custom test framework of src/src/lib.rs: [Testable::run],
    [test_runner], [test_panic_handler], [exit_qemu] and [hlt_loop].  A test is
    a function on the state of the kernel under test; a panic in it runs the
    panic handler.  The verdict goes to the serial port and, as an exit code, to
    the port of the emulator's exit device. *)

From Stdlib Require Import ZArith Lia.
From stdpp Require Import base list strings numbers.
From S2P Require Import Prelude Fmt Libs Logger.

Open Scope Z_scope.

Inductive QemuExitCode := Success | Failed.

(** [exit_code as u32] *)
Definition exit_code_u32 (c : QemuExitCode) : Z := match c with Success => 0x10 | Failed => 0x11 end.

#[export] Instance exit_code_eq_dec : EqDecision QemuExitCode.
Proof. solve_decision. Defined.

Definition EXIT_PORT : Z := 0xf4.

Section runner.
Context {SP : SerialPort} {M : SpinMutex port} {IO : PortIo} {T : Type}.

(** The kernel under test, the serial port with the logger, the other ports. *)
Record hworld := mkH { h_state : T; h_log : lworld; h_io : io }.

Definition exit_qemu (code : QemuExitCode) (w : hworld) : hworld :=
  mkH (h_state w) (h_log w) (outl EXIT_PORT (exit_code_u32 code) (h_io w)).

(** Where the harness is after a step: it goes on; it panicked; it waits for
    a lock for ever.  What a panicking test itself did to the world is not
    kept. *)
Inductive hresult := HOn (w : hworld) | HPanic (msg : string) (w : hworld) | HStuck.

Definition hthen (r : hresult) (f : hworld → hresult) : hresult :=
  match r with HOn w => f w | r => r end.

Definition print_serial (pieces : list (list Z)) (w : hworld) : hresult :=
  match serial_print pieces (h_log w) with
  | Ok l => HOn (mkH (h_state w) l (h_io w))
  | _ => HStuck
  end.

Definition println_serial (pieces : list (list Z)) : hworld → hresult := print_serial (pieces ++ [newline]).

(** A test: [core::any::type_name::<T>()] and the function. *)
Record Test := mkTest { type_name : string; test_fn : hworld → outcome hworld }.

Definition run_fn (t : Test) (w : hworld) : hresult :=
  match test_fn t w with Ok w => HOn w | Panic msg => HPanic msg w | _ => HStuck end.

(** [Testable::run] *)
Definition run (t : Test) (w : hworld) : hresult :=
  hthen (print_serial [bytes (type_name t); bytes "..." ++ [9]] w) (λ w,
  hthen (run_fn t w) (println_serial [bytes "[ok]"])).

Fixpoint run_tests (tests : list Test) (w : hworld) : hresult :=
  match tests with
  | [] => HOn w
  | t :: tests => hthen (run t w) (run_tests tests)
  end.

Definition test_runner (tests : list Test) (w : hworld) : hresult :=
  hthen (println_serial [] w) (λ w,
  hthen (println_serial [bytes "  Running "; fmt_dec (Z.of_nat (length tests)); bytes " tests"] w) (λ w,
  hthen (println_serial [] w) (λ w,
  hthen (run_tests tests w) (λ w,
  hthen (println_serial [] w) (λ w,
  hthen (println_serial [bytes "  All tests passed!"] w) (λ w,
  hthen (println_serial [] w) (λ w,
  HOn (exit_qemu Success w)))))))).

(** [info] is the formatted panic message.  [hlt_loop] halts for ever, so the
    world the handler leaves is the last one. *)
Definition test_panic_handler (info : list Z) (w : hworld) : hresult :=
  hthen (println_serial [bytes "[failed]"; newline] w) (λ w,
  hthen (println_serial [bytes "Error: "; info; newline] w) (λ w,
  HOn (exit_qemu Failed w))).

(** The test kernel: [test_main] runs the tests, a panic goes to the handler,
    and then the CPU halts. *)
Definition test_main (format : string → list Z) (tests : list Test) (w : hworld) : hresult :=
  match test_runner tests w with
  | HPanic msg w => test_panic_handler (format msg) w
  | r => r
  end.

(** A test that prints nothing and leaves the ports alone. *)
Definition silent (t : string * (T → outcome T)) : Test :=
  mkTest t.1 (λ w, s ← t.2 (h_state w); Ok (mkH s (h_log w) (h_io w))).

(** ** What it should report *)

(** What the tests print, and the panic of the first one that fails; [None]
    if there is one that does neither return nor panic. *)
Fixpoint report (tests : list (string * (T → outcome T))) (s : T) : option (list Z * (string * T + T)) :=
  match tests with
  | [] => Some ([], inr s)
  | (name, f) :: tests =>
      match f s with
      | Ok s =>
          '(out, v) ← report tests s;
          Some (bytes name ++ bytes "..." ++ [9] ++ bytes "[ok]" ++ newline ++ out, v)
      | Panic msg => Some (bytes name ++ bytes "..." ++ [9], inl (msg, s))
      | _ => None
      end
  end.

Context {SL : SerialPortLaws SP} {ML : SpinMutexLaws port M}.

(** What has gone out of the serial port, with nobody holding it. *)
Definition printed (w : hworld) : list Z := sent (contents (SERIAL1 (h_log w))).
Definition free (w : hworld) : Prop := locked (SERIAL1 (h_log w)) = false.

Lemma print_serial_ok pieces w :
  free w → Forall (Forall plain) pieces →
  ∃ w', print_serial pieces w = HOn w' ∧ free w' ∧ printed w' = printed w ++ mjoin pieces ∧
    h_state w' = h_state w ∧ h_io w' = h_io w.
Proof.
  intros Hf Hp. unfold print_serial, serial_print. pose proof (try_lock_ok (SERIAL1 (h_log w))) as Hl.
  unfold free in Hf. rewrite Hf in Hl. destruct Hl as (m & -> & _). eexists. split; [done|].
  unfold free, printed. cbn. destruct (unlock_ok (write_fmt pieces (contents (SERIAL1 (h_log w)))) m) as [-> ->].
  by rewrite write_fmt_sent.
Qed.

Lemma println_serial_ok pieces w :
  free w → Forall (Forall plain) pieces →
  ∃ w', println_serial pieces w = HOn w' ∧ free w' ∧ printed w' = printed w ++ mjoin pieces ++ newline ∧
    h_state w' = h_state w ∧ h_io w' = h_io w.
Proof.
  intros Hf Hp. destruct (print_serial_ok (pieces ++ [newline]) w Hf) as (w' & ? & ? & E & ?).
  { apply Forall_app. split; [done|]. by repeat constructor. }
  exists w'. split; [done|]. split; [done|]. split; [|done]. rewrite E, join_app. cbn. done.
Qed.

Lemma digits_plain fuel base n : 2 <= base <= 36 → Forall plain (digits fuel base n).
Proof.
  intros Hb. revert n. induction fuel as [|fuel IH]; intros n; [constructor|].
  cbn [digits]. apply Forall_app. split; [by destruct (_ =? 0)|]. constructor; [|done].
  pose proof (Z.mod_pos_bound n base). unfold plain, digit. case_match; zbool; lia.
Qed.

Definition verdict (v : string * T + T) (w : hworld) : hresult :=
  match v with inr _ => HOn w | inl (msg, _) => HPanic msg w end.

Definition final (v : string * T + T) : T := match v with inr s | inl (_, s) => s end.

Lemma run_tests_ok tests w out v :
  free w → Forall (λ t, Forall plain (bytes t.1)) tests → report tests (h_state w) = Some (out, v) →
  ∃ w', run_tests (silent <$> tests) w = verdict v w' ∧ free w' ∧ printed w' = printed w ++ out ∧
    h_io w' = h_io w ∧ h_state w' = final v.
Proof.
  intros Hf Hn. revert w out Hf. induction Hn as [|[name f] tests Hname _ IH]; intros w out Hf Hr.
  { injection Hr as <- <-. exists w. by rewrite app_nil_r. }
  cbn [report] in Hr. cbn [fst] in Hname. cbn [fmap list_fmap run_tests]. unfold run at 1. cbn [silent type_name fst].
  destruct (print_serial_ok [bytes name; bytes "..." ++ [9]] w Hf) as (w1 & -> & Hf1 & Hp1 & Hs1 & Hi1).
  { repeat constructor; done. }
  cbn [hthen]. unfold run_fn. cbn [silent test_fn snd]. rewrite Hs1.
  destruct (f (h_state w)) as [s|msg| |] eqn:Hfs; try done; cbn [mbind outcome_bind hthen].
  - destruct (println_serial_ok [bytes "[ok]"] (mkH s (h_log w1) (h_io w1))) as (w2 & -> & Hf2 & Hp2 & Hs2 & Hi2);
      [done|by repeat constructor|].
    destruct (report tests s) as [[out' v']|] eqn:Hr'; [|done]. injection Hr as <- <-.
    cbn [h_state h_io] in *. rewrite <- Hs2 in Hr'. destruct (IH w2 out' Hf2 Hr') as (w' & Hr2 & Hf' & Hp' & Hi' & Hv).
    exists w'. split; [done|]. split; [done|]. split.
    { rewrite Hp', Hp2. change (printed (mkH s (h_log w1) (h_io w1))) with (printed w1). rewrite Hp1.
      cbn [mjoin list_join]. rewrite ?app_nil_r, <- ?app_assoc. done. }
    split; [congruence|done].
  - injection Hr as <- <-. exists w1. split; [done|]. split; [done|]. split; [rewrite Hp1; cbn [mjoin list_join]; by rewrite app_nil_r|].
    done.
Qed.

(** What [test_runner] does around the tests. *)
Definition header (n : Z) : list Z :=
  newline ++ bytes "  Running " ++ fmt_dec n ++ bytes " tests" ++ newline ++ newline.

Definition footer : list Z := newline ++ bytes "  All tests passed!" ++ newline ++ newline.

Definition closing (w : hworld) : hresult :=
  hthen (println_serial [] w) (λ w,
  hthen (println_serial [bytes "  All tests passed!"] w) (λ w,
  hthen (println_serial [] w) (λ w, HOn (exit_qemu Success w)))).

Lemma test_runner_eq tests w :
  free w →
  ∃ w1, test_runner tests w = hthen (run_tests tests w1) closing ∧ free w1 ∧
    printed w1 = printed w ++ header (Z.of_nat (length tests)) ∧ h_state w1 = h_state w ∧ h_io w1 = h_io w.
Proof.
  intros Hf. unfold test_runner. set (n := Z.of_nat (length tests)).
  assert (Forall (Forall plain) [bytes "  Running "; fmt_dec n; bytes " tests"]) as Hhd
    by (repeat constructor; try done; apply digits_plain; lia).
  destruct (println_serial_ok [] w Hf) as (w1 & -> & F1 & P1 & S1 & I1); [by constructor|]. cbn [hthen].
  destruct (println_serial_ok _ w1 F1 Hhd) as (w2 & -> & F2 & P2 & S2 & I2). cbn [hthen].
  destruct (println_serial_ok [] w2 F2) as (w3 & -> & F3 & P3 & S3 & I3); [by constructor|]. cbn [hthen].
  exists w3. split; [done|]. split; [done|]. split; [|split; congruence].
  rewrite P3, P2, P1. unfold header. cbn [mjoin list_join]. by rewrite ?app_nil_r, <- ?app_assoc.
Qed.

Lemma closing_ok w :
  free w →
  ∃ w', closing w = HOn w' ∧ printed w' = printed w ++ footer ∧ h_state w' = h_state w ∧
    h_io w' = outl EXIT_PORT 0x10 (h_io w).
Proof.
  intros Hf. unfold closing.
  destruct (println_serial_ok [] w Hf) as (w1 & -> & F1 & P1 & S1 & I1); [by constructor|]. cbn [hthen].
  destruct (println_serial_ok [bytes "  All tests passed!"] w1 F1) as (w2 & -> & F2 & P2 & S2 & I2);
    [by repeat constructor|]. cbn [hthen].
  destruct (println_serial_ok [] w2 F2) as (w3 & -> & F3 & P3 & S3 & I3); [by constructor|]. cbn [hthen].
  eexists. split; [done|]. split; [|split; [cbn [exit_qemu h_state]; congruence|cbn; congruence]].
  change (printed (exit_qemu Success w3)) with (printed w3). rewrite P3, P2, P1. unfold footer.
  cbn [mjoin list_join]. by rewrite ?app_nil_r, <- ?app_assoc.
Qed.

Lemma panic_handler_ok info w :
  free w → Forall plain info →
  ∃ w', test_panic_handler info w = HOn w' ∧ h_state w' = h_state w ∧ h_io w' = outl EXIT_PORT 0x11 (h_io w) ∧
    printed w' = printed w ++ bytes "[failed]" ++ newline ++ newline ++ bytes "Error: " ++ info ++ newline ++ newline.
Proof.
  intros Hf Hi. unfold test_panic_handler.
  destruct (println_serial_ok [bytes "[failed]"; newline] w Hf) as (w1 & -> & F1 & P1 & S1 & I1);
    [by repeat constructor|]. cbn [hthen].
  destruct (println_serial_ok [bytes "Error: "; info; newline] w1 F1) as (w2 & -> & F2 & P2 & S2 & I2);
    [by repeat constructor|]. cbn [hthen].
  eexists. split; [done|]. split; [cbn [exit_qemu h_state]; congruence|]. split; [cbn; congruence|].
  change (printed (exit_qemu Failed w2)) with (printed w2). rewrite P2, P1. cbn [mjoin list_join].
  by rewrite ?app_nil_r, <- ?app_assoc.
Qed.

(** ** Theorem *)

(** C35: the harness tells the truth.  Started with the serial port free, it
    halts with exactly one exit code written: success if every test returned,
    failure if one panicked, in which case the later ones were not run.  The
    transcript has the header with the number of tests, one line per test that
    passed, and the closing line or the name of the failed test with its
    panic message. *)
Theorem test_main_verdict format tests w out v :
  free w → Forall (λ t, Forall plain (bytes t.1)) tests → report tests (h_state w) = Some (out, v) →
  (∀ msg s, v = inl (msg, s) → Forall plain (format msg)) →
  let start := printed w ++ header (Z.of_nat (length tests)) ++ out in
  ∃ w', test_main format (silent <$> tests) w = HOn w' ∧ h_state w' = final v ∧
    match v with
    | inr _ => h_io w' = outl EXIT_PORT 0x10 (h_io w) ∧ printed w' = start ++ footer
    | inl (msg, _) => h_io w' = outl EXIT_PORT 0x11 (h_io w) ∧
        printed w' = start ++ bytes "[failed]" ++ newline ++ newline ++
          bytes "Error: " ++ format msg ++ newline ++ newline
    end.
Proof.
  intros Hf Hn Hr Hm start. unfold test_main.
  destruct (test_runner_eq (silent <$> tests) w Hf) as (w1 & -> & F1 & P1 & S1 & I1). rewrite length_fmap in P1.
  rewrite <- S1 in Hr. destruct (run_tests_ok tests w1 out v F1 Hn Hr) as (w2 & -> & F2 & P2 & I2 & S2).
  assert (printed w2 = start) as P by (rewrite P2, P1; unfold start; by rewrite <- app_assoc).
  destruct v as [[msg s]|s]; cbn [verdict hthen].
  - destruct (panic_handler_ok (format msg) w2 F2 (Hm _ _ eq_refl)) as (w' & -> & S3 & I3 & P3).
    exists w'. rewrite S3, S2, I3, I2, I1, P3, P. done.
  - destruct (closing_ok w2 F2) as (w' & -> & P3 & S3 & I3).
    exists w'. rewrite S3, S2, I3, I2, I1, P3, P. done.
Qed.
End runner.

(** ** Witness: one test passes, the next one panics, the third is not run *)

#[local] Existing Instances demo_port flag_mutex demo_port_io.

Definition demo_tests : list (string * (Z → outcome Z)) :=
  [("adds"%string, λ n, Ok (n + 1));
   ("fails"%string, λ n, Panic "boom");
   ("adds again"%string, λ n, Ok (n + 1))].

Definition demo_harness : hworld (SP := demo_port) (T := Z) := mkH 0 (mkLog ([], false) 0) (mkPorts [] []).

Lemma test_main_verdict_witness :
  ∃ w', test_main bytes (silent <$> demo_tests) demo_harness = HOn w' ∧ h_state w' = 1 ∧
    h_io w' = mkPorts [] [(0xf4, 0x11)] ∧
    contents (SpinMutexLaws := flag_mutex_laws _) (SERIAL1 (h_log w')) =
      newline ++ bytes "  Running 3 tests" ++ newline ++ newline ++
      bytes "adds..." ++ [9] ++ bytes "[ok]" ++ newline ++ bytes "fails..." ++ [9] ++
      bytes "[failed]" ++ newline ++ newline ++ bytes "Error: boom" ++ newline ++ newline.
Proof.
  apply (test_main_verdict (SL := demo_port_laws) (ML := flag_mutex_laws _) bytes demo_tests demo_harness
    (bytes "adds..." ++ [9] ++ bytes "[ok]" ++ newline ++ bytes "fails..." ++ [9]) (inl ("boom"%string, 1))).
  - reflexivity.
  - repeat constructor; done.
  - reflexivity.
  - intros msg s [= <- <-]. repeat constructor; done.
Defined.
