(* ===== verification/Paging.v ===== *)
(** * Paging and heap initialisation

    [init_heap] of src/src/allocator/mod.rs.  The page tables and the frame
    allocator it is given are the x86_64 crate's [Mapper] and
    [FrameAllocator] traits: parameters, in the class [Paging], with their
    documented behaviour in [PagingLaws].  Pages and frames are named by their
    start addresses. *)

From Stdlib Require Import ZArith Lia.
From stdpp Require Import base gmap list strings numbers.
From S2P Require Import Prelude AllocMod FreeList LinkedList FixedSizeBlock.

Open Scope Z_scope.

(** Bits of a page-table entry. *)
Definition PRESENT : Z := 1.
Definition WRITABLE : Z := 2.
Definition USER_ACCESSIBLE : Z := 4.

Inductive MapToError := FrameAllocationFailed | ParentEntryHugePage | PageAlreadyMapped.

(** ** What the kernel calls *)

Class Paging := {
  mapper : Type;
  frames : Type;
  virt_addr_new : Z → outcome Z;
  page_containing : Z → Z;
  page_range_inclusive : Z → Z → list Z;
  frame_alloc : frames → option Z * frames;
  (* page, frame, flags; [None] is success *)
  map_to : mapper → frames → Z → Z → Z → option MapToError * mapper * frames;
  (* page, frame, flags, flags of the parent entries *)
  map_to_with_table_flags :
    mapper → frames → Z → Z → Z → Z → option MapToError * mapper * frames;
}.

(** ** What their documentation promises

    [translate] is the leaf entry of a page, [small] says no huge page covers
    it, [ring3] that user code can reach it, [free_frames] are the frames left
    to allocate.  Mapping a page takes at most one frame for each of the three
    levels of tables below the root, and fails for want of frames only when
    fewer than three are left. *)

Section laws.
Context {M F : Type}.
Context (translate : M → Z → option (Z * Z)) (small ring3 : M → Z → Prop) (free_frames : F → list Z).

Record map_result (m : M) (f : F) (page frame flags parents : Z) (r : option MapToError * M * F) : Prop := {
  mr_frames : ∃ n, (n <= 3)%nat ∧ free_frames r.2 = drop n (free_frames f);
  mr_small : ∀ q, small m q → small r.1.2 q;
  mr_ring3 : ∀ q, ring3 m q → ring3 r.1.2 q;
  mr_entry :
    match r.1.1 with
    | None => translate m page = None ∧
        (∀ q, translate r.1.2 q = if q =? page then Some (frame, flags) else translate m q) ∧
        (Z.testbit flags 2 = true → Z.testbit parents 2 = true → ring3 r.1.2 page)
    | Some e => (∀ q, translate r.1.2 q = translate m q) ∧
        match e with
        | FrameAllocationFailed => (length (free_frames f) < 3)%nat
        | ParentEntryHugePage => ¬ small m page
        | PageAlreadyMapped => is_Some (translate m page)
        end
    end;
}.
End laws.

Class PagingLaws (P : Paging) := {
  translate : mapper → Z → option (Z * Z);
  small : mapper → Z → Prop;
  ring3 : mapper → Z → Prop;
  free_frames : frames → list Z;
  virt_addr_new_ok : ∀ a, 0 <= a < 2 ^ 47 → virt_addr_new a = Ok a;
  page_containing_ok : ∀ a, 0 <= a → page_containing a = a - a mod 4096;
  page_range_ok : ∀ a b, (4096 | a) → (4096 | b) → a <= b →
    page_range_inclusive a b = (λ i, a + 4096 * Z.of_nat i) <$> seq 0 (Z.to_nat ((b - a) / 4096 + 1));
  frame_alloc_ok : ∀ f,
    match free_frames f with
    | [] => (frame_alloc f).1 = None
    | a :: l => (frame_alloc f).1 = Some a ∧ free_frames (frame_alloc f).2 = l
    end;
  map_to_ok : ∀ m f page frame flags,
    map_result translate small ring3 free_frames m f page frame flags (Z.land flags 7)
      (map_to m f page frame flags);
  map_to_with_table_flags_ok : ∀ m f page frame flags parents,
    map_result translate small ring3 free_frames m f page frame flags parents
      (map_to_with_table_flags m f page frame flags parents);
}.

Section init_heap.
Context {P : Paging}.

(** The [for] loop: [Some e] is the error the [?] returned. *)
Fixpoint map_pages (pages : list Z) (m : mapper) (f : frames)
  : option MapToError * mapper * frames :=
  match pages with
  | [] => (None, m, f)
  | page :: pages =>
      match frame_alloc f with
      | (None, f) => (Some FrameAllocationFailed, m, f)
      | (Some frame, f) =>
          let flags := Z.lor PRESENT WRITABLE in
          match map_to m f page frame flags with
          | (Some e, m, f) => (Some e, m, f)
          | (None, m, f) => map_pages pages m f
          end
      end
  end.

Definition heap_page_range : outcome (list Z) :=
  heap_start ← virt_addr_new HEAP_START;
  heap_end ← add_u64 heap_start HEAP_SIZE;
  heap_end ← virt_addr_new heap_end;
  heap_end ← sub_u64 heap_end 1;
  heap_end ← virt_addr_new heap_end;
  Ok (page_range_inclusive (page_containing heap_start) (page_containing heap_end)).

Definition init_heap (m : mapper) (f : frames) (heap : Fixed.fworld)
  : outcome (option MapToError * mapper * frames * Fixed.fworld) :=
  pages ← heap_page_range;
  match map_pages pages m f with
  | (Some e, m, f) => Ok (Some e, m, f, heap)
  | (None, m, f) =>
      heap ← Fixed.init heap HEAP_START HEAP_SIZE;
      Ok (None, m, f, heap)
  end.

(** ** Lemmas *)

Context {L : PagingLaws P}.

Definition heap_pages : list Z := (λ i, HEAP_START + 4096 * Z.of_nat i) <$> seq 0 25.

Lemma page_range_bytes s n :
  (4096 | s) → 0 <= s → (0 < n)%nat →
  page_range_inclusive (page_containing s) (page_containing (s + 4096 * Z.of_nat n - 1))
  = (λ i, s + 4096 * Z.of_nat i) <$> seq 0 n.
Proof.
  intros [q ->] Hs Hn. rewrite !page_containing_ok by lia.
  assert ((q * 4096) mod 4096 = 0) as -> by (apply Z.mod_mul; lia).
  replace (q * 4096 + 4096 * Z.of_nat n - 1) with (4095 + (q + Z.of_nat n - 1) * 4096) by lia.
  rewrite Z.mod_add by lia. change (4095 mod 4096) with 4095. rewrite Z.sub_0_r.
  rewrite page_range_ok; [|by exists q|exists (q + Z.of_nat n - 1); lia|lia].
  replace (4095 + (q + Z.of_nat n - 1) * 4096 - 4095 - q * 4096) with ((Z.of_nat n - 1) * 4096) by lia.
  rewrite Z.div_mul by lia. by replace (Z.to_nat (Z.of_nat n - 1 + 1)) with n by lia.
Qed.

Lemma heap_page_range_ok : heap_page_range = Ok heap_pages.
Proof.
  assert (HEAP_START = 18325193792 * 4096) as Hs by reflexivity.
  assert (HEAP_SIZE = 4096 * Z.of_nat 25) as Hz by reflexivity.
  unfold heap_page_range, heap_pages. rewrite Hz. generalize dependent HEAP_START. intros s Hs.
  rewrite virt_addr_new_ok by lia. bstep. rewrite add_u64_ok by (unfold u64_modulus; lia). bstep.
  rewrite virt_addr_new_ok by lia. bstep. rewrite sub_u64_ok by lia. bstep.
  rewrite virt_addr_new_ok by lia. bstep. rewrite page_range_bytes; [done| |lia|lia].
  by exists 18325193792.
Qed.

(** An unmapped page with no huge page above it is mapped when three
    frames are left. *)
Lemma map_result_success m f page frame flags parents r :
  map_result translate small ring3 free_frames m f page frame flags parents r →
  translate m page = None → small m page → (3 <= length (free_frames f))%nat → r.1.1 = None.
Proof.
  intros [_ _ _ He] Ht Hs Hl. destruct (r.1.1) as [e|]; [|done].
  destruct He as [_ He]. destruct e; [lia|done|rewrite Ht in He; by destruct He].
Qed.

(** What mapping a list of pages did, success or not: the pages not in the
    list keep their entries, and the frames used come from the free ones. *)
Lemma map_pages_frame pages m f e m' f' :
  map_pages pages m f = (e, m', f') →
  (∀ q, q ∉ pages → translate m' q = translate m q) ∧
  (∀ q a, translate m q = Some a → translate m' q = Some a).
Proof.
  revert m f. induction pages as [|p pages IH]; intros m f; cbn [map_pages].
  { by intros [= <- <- <-]. }
  destruct (frame_alloc f) as [[a|] f1]; [|by intros [= <- <- <-]].
  pose proof (map_to_ok m f1 p a (Z.lor PRESENT WRITABLE)) as [_ _ _ He].
  destruct (map_to m f1 p a (Z.lor PRESENT WRITABLE)) as [[[e1|] m1] f2]; simpl in He.
  { destruct He as [He _]. intros [= <- <- <-]. split; intros; by rewrite He. }
  destruct He as (Hn & He & _). intros Hm. apply IH in Hm as [H1 H2]. split.
  - intros q Hq. apply not_elem_of_cons in Hq as [Hq1 Hq2]. rewrite H1, He by done.
    by rewrite (proj2 (Z.eqb_neq q p)).
  - intros q b Hb. apply H2. rewrite He. destruct (q =? p) eqn:E; [|done].
    apply Z.eqb_eq in E as ->. congruence.
Qed.

(** No page becomes part of a huge one, and a page costs four frames at
    most. *)
Lemma map_pages_cost pages m f e m' f' :
  map_pages pages m f = (e, m', f') →
  (∀ q, small m q → small m' q) ∧
  (length (free_frames f) <= length (free_frames f') + 4 * length pages)%nat.
Proof.
  revert m f. induction pages as [|p pages IH]; intros m f; cbn [map_pages length].
  { intros [= <- <- <-]. split; [done|lia]. }
  pose proof (frame_alloc_ok f) as Ha. destruct (free_frames f) as [|a0 l] eqn:El.
  { destruct (frame_alloc f) as [[a|] f1]; [done|]. intros [= <- <- <-]. split; [done|simpl; lia]. }
  destruct (frame_alloc f) as [o f1]. simpl in Ha. destruct Ha as [-> Hf1].
  pose proof (map_to_ok m f1 p a0 (Z.lor PRESENT WRITABLE)) as [(n & Hn & Hff) Hsm _ _].
  destruct (map_to m f1 p a0 (Z.lor PRESENT WRITABLE)) as [[[e1|] m1] f2]; simpl in *;
    rewrite Hf1 in Hff; assert (length (free_frames f2) = (length l - n)%nat) as El2 by (by rewrite Hff, length_drop).
  - intros [= <- <- <-]. split; [done|lia].
  - intros Hm. apply IH in Hm as [H1 H2]. split; [auto|lia].
Qed.

Lemma map_pages_success pages m f :
  NoDup pages → (∀ p, p ∈ pages → translate m p = None ∧ small m p) →
  NoDup (free_frames f) → (4 * length pages <= length (free_frames f))%nat →
  ∃ m' f' fs, map_pages pages m f = (None, m', f') ∧
    length fs = length pages ∧ NoDup fs ∧ (∀ a, a ∈ fs → a ∈ free_frames f) ∧
    (∀ i p a, pages !! i = Some p → fs !! i = Some a →
       translate m' p = Some (a, Z.lor PRESENT WRITABLE)).
Proof.
  revert m f. induction pages as [|p pages IH]; intros m f Hnd Hp Hf Hl; cbn [map_pages].
  { exists m, f, []. split_and!; try done. intros a Ha. by apply elem_of_nil in Ha. }
  inversion_clear Hnd as [|? ? Hnin Hnd']. cbn [length] in Hl.
  pose proof (frame_alloc_ok f) as Ha. destruct (free_frames f) as [|a l] eqn:El; [simpl in Hl; lia|].
  destruct (frame_alloc f) as [o f1]. simpl in Ha. destruct Ha as [-> Hf1].
  destruct (Hp p) as [Hpt Hps]; [left|].
  pose proof (map_to_ok m f1 p a (Z.lor PRESENT WRITABLE)) as Hr.
  pose proof (map_result_success _ _ _ _ _ _ _ Hr Hpt Hps) as Hok. rewrite Hf1 in Hok.
  destruct Hr as [(n & Hn & Hff) Hsm _ He]. rewrite Hf1 in Hff.
  destruct (map_to m f1 p a (Z.lor PRESENT WRITABLE)) as [[e1 m1] f2]. simpl in *.
  rewrite Hok in He |- * by lia. destruct He as (_ & He & _).
  inversion_clear Hf as [|? ? Hal Hnl].
  destruct (IH m1 f2) as (m' & f' & fs & Hm & Hfl & Hfn & Hfi & Hft); [done| | | |].
  - intros q Hq. destruct (Hp q) as [Hq1 Hq2]; [by right|]. split; [|by apply Hsm].
    rewrite He. destruct (q =? p) eqn:E; [|done]. apply Z.eqb_eq in E as ->. done.
  - rewrite Hff. by eapply sublist_NoDup, sublist_drop.
  - rewrite Hff, length_drop. lia.
  - assert (∀ b, b ∈ fs → b ∈ l) as Hin.
    { intros b Hb. apply Hfi in Hb. rewrite Hff in Hb. rewrite <- (take_drop n l). apply elem_of_app. by right. }
    exists m', f', (a :: fs). split_and!; [done|by f_equal/=| |..].
    + constructor; [|done]. intros Hb. by apply Hal, Hin.
    + intros b Hb. apply elem_of_cons in Hb as [->|Hb]; [left|right; auto].
    + intros [|i] q b Hq Hb; [|by eapply Hft]. simplify_eq/=.
      destruct (map_pages_frame pages m1 f2 None m' f' Hm) as [_ Hk]. apply Hk.
      rewrite He. by rewrite Z.eqb_refl.
Qed.
(** Success, with enough frames. *)
Lemma init_heap_succeeds m f mem0 :
  NoDup (free_frames f) → (100 <= length (free_frames f))%nat →
  (∀ p, p ∈ heap_pages → translate m p = None ∧ small m p) →
  ∃ m' f' w' fs, init_heap m f (Fixed.mkFW Fixed.empty mem0) = Ok (None, m', f', w') ∧
    length fs = 25%nat ∧ NoDup fs ∧ (∀ a, a ∈ fs → a ∈ free_frames f) ∧
    (∀ i a, fs !! i = Some a →
       translate m' (HEAP_START + 4096 * Z.of_nat i) = Some (a, Z.lor PRESENT WRITABLE)) ∧
    (∀ q, q ∉ heap_pages → translate m' q = translate m q) ∧
    Fixed.implements HEAP_START (HEAP_START + HEAP_SIZE) w' ∅ (Fixed.ref_init HEAP_START HEAP_SIZE).
Proof.
  intros Hnd Hl Hp. unfold init_heap. rewrite heap_page_range_ok. bstep.
  destruct (map_pages_success heap_pages m f) as (m' & f' & fs & Hm & Hfl & Hfn & Hfi & Hft);
    [by_decide|done|done|done|].
  destruct (Fixed.init_fixed_inv mem0 HEAP_START HEAP_SIZE) as (w' & Hw & Hinv); [done..|].
  rewrite Hm. rewrite Hw. bstep. exists m', f', w', fs.
  split; [done|]. split; [done|]. split; [done|]. split; [done|]. split; [|split].
  - intros i a Ha. apply (Hft i); [|done]. unfold heap_pages. rewrite list_lookup_fmap.
    apply lookup_lt_Some in Ha. rewrite lookup_seq_lt; [done|]. rewrite Hfl in Ha. exact Ha.
  - by destruct (map_pages_frame _ _ _ _ _ _ Hm).
  - by eexists.
Qed.

Lemma init_heap_cost m f h m' f' h' :
  init_heap m f h = Ok (None, m', f', h') →
  (∀ q, small m q → small m' q) ∧ (length (free_frames f) <= length (free_frames f') + 100)%nat.
Proof.
  unfold init_heap. rewrite heap_page_range_ok. bstep.
  destruct (map_pages heap_pages m f) as [[[e|] m1] f1] eqn:Hm; [done|].
  intros Hi. apply bind_inv in Hi as (w & _ & [= <- <- <-]). exact (map_pages_cost _ _ _ _ _ _ Hm).
Qed.
End init_heap.

(** ** Theorems *)

(** heap initialisation.  With the heap's 25 pages unmapped and a hundred
    distinct frames free, it succeeds: every heap page is mapped writable to a
    frame of its own taken from the free ones, no other page changes, and the
    allocator starts on exactly the mapped range with no block handed out.
    When it fails, whatever the reason, the allocator is not touched and no
    existing mapping is lost. *)
Theorem init_heap_maps {P : Paging} {L : PagingLaws P} m f mem0 :
  let w := Fixed.mkFW Fixed.empty mem0 in
  (NoDup (free_frames f) → (100 <= length (free_frames f))%nat →
   (∀ p, p ∈ heap_pages → translate m p = None ∧ small m p) →
   ∃ m' f' w' fs, init_heap m f w = Ok (None, m', f', w') ∧
     length fs = 25%nat ∧ NoDup fs ∧ (∀ a, a ∈ fs → a ∈ free_frames f) ∧
     (∀ i a, fs !! i = Some a →
        translate m' (HEAP_START + 4096 * Z.of_nat i) = Some (a, Z.lor PRESENT WRITABLE)) ∧
     (∀ q, q ∉ heap_pages → translate m' q = translate m q) ∧
     Fixed.implements HEAP_START (HEAP_START + HEAP_SIZE) w' ∅ (Fixed.ref_init HEAP_START HEAP_SIZE)) ∧
  (∀ e m' f' w', init_heap m f w = Ok (Some e, m', f', w') →
     w' = w ∧ ∀ q a, translate m q = Some a → translate m' q = Some a).
Proof.
  intros w. split; [intros; by apply init_heap_succeeds|].
  unfold init_heap. rewrite heap_page_range_ok. bstep.
  intros e m' f' w'. destruct (map_pages heap_pages m f) as [[[e1|] m1] f1] eqn:Hm.
  - intros [= <- <- <- <-]. by destruct (map_pages_frame _ _ _ _ _ _ Hm).
  - intros He. binds. done.
Qed.

(** ** Witness: page tables as a map, frames as a list *)

Definition demo_map_page {F} (m : gmap Z (Z * Z)) (f : F) (page frame flags : Z)
  : option MapToError * gmap Z (Z * Z) * F :=
  match m !! page with
  | Some _ => (Some PageAlreadyMapped, m, f)
  | None => (None, <[page := (frame, flags)]> m, f)
  end.

Definition demo_paging : Paging := {|
  mapper := gmap Z (Z * Z);
  frames := list Z;
  virt_addr_new a := Ok a;
  page_containing a := a - a mod 4096;
  page_range_inclusive a b :=
    (λ i, a + 4096 * Z.of_nat i) <$> seq 0 (Z.to_nat ((b - a) / 4096 + 1));
  frame_alloc f := match f with [] => (None, []) | a :: l => (Some a, l) end;
  map_to := demo_map_page;
  map_to_with_table_flags m f page frame flags parents := demo_map_page m f page frame flags;
|}.

Definition demo_ring3 (m : gmap Z (Z * Z)) (page : Z) : Prop :=
  ∃ a, m !! page = Some a ∧ Z.testbit a.2 2 = true.

Lemma demo_map_page_result {F} (free : F → list Z) (m : gmap Z (Z * Z)) f page frame flags parents :
  map_result (λ m q, m !! q) (λ _ _, True) demo_ring3 free m f page frame flags parents
    (demo_map_page m f page frame flags).
Proof.
  unfold demo_map_page. destruct (m !! page) as [a|] eqn:Hm; split; simpl; try done.
  - exists 0%nat. split; [lia|reflexivity].
  - exists 0%nat. split; [lia|reflexivity].
  - intros q (a & Ha & Hb). exists a. split; [|done]. rewrite lookup_insert_ne; congruence.
  - split; [done|]. split.
    + intros q. destruct (q =? page) eqn:E; zbool; subst;
        [apply lookup_insert_eq|by apply lookup_insert_ne].
    + intros Hf _. exists (frame, flags). split; [apply lookup_insert_eq|done].
Qed.

Definition demo_paging_laws : PagingLaws demo_paging.
Proof.
  refine {| translate := (λ m q, m !! q) : @mapper demo_paging → _;
            small := (λ _ _, True) : @mapper demo_paging → _;
            ring3 := demo_ring3 : @mapper demo_paging → _;
            free_frames := (λ f, f) : @frames demo_paging → _ |}; try done.
  - by intros [|a l].
  - intros. apply demo_map_page_result.
  - intros. apply demo_map_page_result.
Defined.

#[local] Existing Instance demo_paging_laws.

Definition demo_frames : list Z := (λ i, 0x100000 + 4096 * Z.of_nat i) <$> seq 0 100.

Lemma init_heap_maps_witness :
  ∃ m' f' w' fs,
    init_heap (P := demo_paging) ∅ demo_frames (Fixed.mkFW Fixed.empty ∅) = Ok (None, m', f', w') ∧
    length fs = 25%nat ∧ NoDup fs ∧ (∀ a, a ∈ fs → a ∈ demo_frames) ∧
    (∀ i a, fs !! i = Some a →
       m' !! (HEAP_START + 4096 * Z.of_nat i) = Some (a, Z.lor PRESENT WRITABLE)) ∧
    (∀ q, q ∉ heap_pages → m' !! q = (∅ : gmap Z (Z * Z)) !! q) ∧
    Fixed.implements HEAP_START (HEAP_START + HEAP_SIZE) w' ∅ (Fixed.ref_init HEAP_START HEAP_SIZE).
Proof.
  apply (init_heap_maps (L := demo_paging_laws) ∅ demo_frames ∅).
  - by_decide.
  - simpl. lia.
  - done.
Defined.
