(* ===== verification/FramePaging.v ===== *)
(** * The page tables with the kernel's frame allocator

    The mapper of the x86_64 crate takes any [FrameAllocator]; the kernel
    passes it the [MonotonicFrameAllocator] of src/src/memory.rs.  The class
    [MapperApi] is the mapper alone, generic in the allocator, and
    [monotonic_paging] is the [Paging] of Paging.v the kernel boots with: what
    [PagingLaws] says of the frames is proved here from FrameAlloc.v.  Also
    [memory::init]. *)

From Stdlib Require Import ZArith Lia.
From stdpp Require Import base gmap list strings numbers.
From S2P Require Import Prelude FrameAlloc Paging.

Open Scope Z_scope.

(** ** The mapper *)

Class MapperApi := {
  page_tables : Type;
  m_virt_addr_new : Z → outcome Z;
  m_page_containing : Z → Z;
  m_page_range_inclusive : Z → Z → list Z;
  m_map_to {F} : (F → option Z * F) → page_tables → F → Z → Z → Z →
    option MapToError * page_tables * F;
  m_map_to_with_table_flags {F} : (F → option Z * F) → page_tables → F → Z → Z → Z → Z →
    option MapToError * page_tables * F;
  (* [OffsetPageTable::new]: the address of the level 4 table, the offset *)
  offset_page_table_new : Z → Z → page_tables;
}.

Definition paging_with {M : MapperApi} {F} (allocate : F → option Z * F) : Paging := {|
  mapper := page_tables;
  frames := F;
  virt_addr_new := m_virt_addr_new;
  page_containing := m_page_containing;
  page_range_inclusive := m_page_range_inclusive;
  frame_alloc := allocate;
  map_to := m_map_to allocate;
  map_to_with_table_flags := m_map_to_with_table_flags allocate;
|}.

(** An allocator that hands out the frames of a list, in order. *)
Definition hands_out {F} (allocate : F → option Z * F) (free : F → list Z) : Prop :=
  ∀ f, match free f with
       | [] => (allocate f).1 = None
       | a :: l => (allocate f).1 = Some a ∧ free (allocate f).2 = l
       end.

Class MapperLaws (M : MapperApi) := {
  m_translate : page_tables → Z → option (Z * Z);
  m_small : page_tables → Z → Prop;
  m_ring3 : page_tables → Z → Prop;
  m_virt_addr_new_ok : ∀ a, 0 <= a < 2 ^ 47 → m_virt_addr_new a = Ok a;
  m_page_containing_ok : ∀ a, 0 <= a → m_page_containing a = a - a mod 4096;
  m_page_range_ok : ∀ a b, (4096 | a) → (4096 | b) → a <= b →
    m_page_range_inclusive a b = (λ i, a + 4096 * Z.of_nat i) <$> seq 0 (Z.to_nat ((b - a) / 4096 + 1));
  m_map_to_ok : ∀ F (allocate : F → option Z * F) free m f page frame flags,
    hands_out allocate free →
    map_result m_translate m_small m_ring3 free m f page frame flags
      (Z.land flags 7) (m_map_to allocate m f page frame flags);
  m_map_to_with_table_flags_ok : ∀ F (allocate : F → option Z * F) free m f page frame flags parents,
    hands_out allocate free →
    map_result m_translate m_small m_ring3 free m f page frame flags parents
      (m_map_to_with_table_flags allocate m f page frame flags parents);
}.

Definition paging_with_laws {M : MapperApi} {ML : MapperLaws M} {F} (allocate : F → option Z * F) free :
  hands_out allocate free → PagingLaws (paging_with allocate).
Proof.
  intros Hf. refine {| translate := m_translate : @mapper (paging_with allocate) → _;
    small := m_small : @mapper (paging_with allocate) → _;
    ring3 := m_ring3 : @mapper (paging_with allocate) → _;
    free_frames := free : @frames (paging_with allocate) → _ |}.
  - apply m_virt_addr_new_ok.
  - apply m_page_containing_ok.
  - apply m_page_range_ok.
  - exact Hf.
  - intros. by apply m_map_to_ok.
  - intros. by apply m_map_to_with_table_flags_ok.
Defined.

(** ** The kernel's allocator *)

Section monotonic.
Context {api : PhysApi} {laws : PhysLaws api} {M : MapperApi}.

Definition sound (f : MonotonicFrameAllocator) : Prop := map_ok (memory_map f) ∧ cursor_ok (cursor f).

(** An allocator on a memory map the bootloader may pass. *)
Definition boot_frames : Type := { f : MonotonicFrameAllocator | sound f }.

Lemma next_frame_sound f o f' : sound f → next_frame f = Ok (o, f') → sound f'.
Proof.
  destruct f as [m c]. intros [Hm Hc] Hn. pose proof (next_frame_spec m c Hm Hc) as H.
  destruct (remaining m c).
  - rewrite Hn in H. injection H as -> ->. done.
  - destruct H as (? & c' & H & _ & Hc' & _). rewrite Hn in H. injection H as -> ->. done.
Qed.

(** A result of [allocate_frame], with the frame named by its start
    address. *)
Definition bundle (f : boot_frames) (r : outcome (option PhysFrame * MonotonicFrameAllocator)) :
  (∀ o f', r = Ok (o, f') → sound f') → option Z * boot_frames :=
  match r with
  | Ok (o, f') => λ H, (start_address <$> o, exist _ f' (H o f' eq_refl))
  | _ => λ _, (None, f)
  end.

Definition boot_allocate (f : boot_frames) : option Z * boot_frames :=
  bundle f (next_frame (proj1_sig f)) (λ o f', next_frame_sound (proj1_sig f) o f' (proj2_sig f)).

Definition boot_free (f : boot_frames) : list Z :=
  remaining (memory_map (proj1_sig f)) (cursor (proj1_sig f)).

Lemma bundle_ok f r H o f' : r = Ok (o, f') → ∃ Hf, bundle f r H = (start_address <$> o, exist _ f' Hf).
Proof. intros ->. by eexists. Qed.

Lemma boot_allocate_ok f o f' :
  next_frame (proj1_sig f) = Ok (o, f') → ∃ Hf, boot_allocate f = (start_address <$> o, exist _ f' Hf).
Proof. apply bundle_ok. Qed.

(** The allocator hands out the usable frames that remain. *)
Lemma boot_hands_out : hands_out boot_allocate boot_free.
Proof.
  intros f. pose proof (boot_allocate_ok f) as Hok. unfold boot_free.
  destruct f as [[m c] [Hm Hc]]. cbn [proj1_sig memory_map cursor] in *.
  pose proof (next_frame_spec m c Hm Hc) as H. destruct (remaining m c) as [|a l].
  - by destruct (Hok _ _ H) as [? ->].
  - destruct H as (p & c' & H & Ha & _ & Hr). destruct (Hok _ _ H) as [? ->]. cbn. by rewrite Ha, Hr.
Qed.

(** The paging the kernel runs with. *)
Definition monotonic_paging : Paging := paging_with boot_allocate.

Definition monotonic_paging_laws {ML : MapperLaws M} : PagingLaws monotonic_paging :=
  paging_with_laws boot_allocate boot_free boot_hands_out.

(** [MonotonicFrameAllocator::init] *)
Lemma init_sound m : map_ok m → sound (init m).
Proof. intros Hm. split; [done|]. split; simpl; unfold phys_limit; lia. Qed.

Definition boot_init (m : list MemoryRegion) (Hm : map_ok m) : boot_frames := exist _ (init m) (init_sound m Hm).

Lemma boot_init_free m Hm : boot_free (boot_init m Hm) = usable_frames m.
Proof. apply remaining_new. Qed.

(** ** [memory::init]

    [cr3] is the physical address of the level 4 table. *)

Definition active_level_4_table (cr3 physical_memory_offset : Z) : outcome Z :=
  virt ← add_u64 physical_memory_offset cr3;
  m_virt_addr_new virt.

Definition memory_init (cr3 physical_memory_offset : Z) : outcome page_tables :=
  level_4_table ← active_level_4_table cr3 physical_memory_offset;
  Ok (offset_page_table_new level_4_table physical_memory_offset).
End monotonic.

(** ** Instance: page tables as a map *)

Definition demo_mapper : MapperApi := {|
  page_tables := gmap Z (Z * Z);
  m_virt_addr_new a := Ok a;
  m_page_containing a := a - a mod 4096;
  m_page_range_inclusive a b :=
    (λ i, a + 4096 * Z.of_nat i) <$> seq 0 (Z.to_nat ((b - a) / 4096 + 1));
  m_map_to F allocate m f page frame flags := demo_map_page m f page frame flags;
  m_map_to_with_table_flags F allocate m f page frame flags parents := demo_map_page m f page frame flags;
  offset_page_table_new _ _ := ∅;
|}.

Definition demo_mapper_laws : MapperLaws demo_mapper.
Proof.
  refine {| m_translate := (λ m q, m !! q) : @page_tables demo_mapper → _;
            m_small := (λ _ _, True) : @page_tables demo_mapper → _;
            m_ring3 := demo_ring3 : @page_tables demo_mapper → _ |}; try done.
  - intros F allocate free m f page frame flags _. apply demo_map_page_result.
  - intros F allocate free m f page frame flags parents _. apply demo_map_page_result.
Defined.
