(* ===== verification/Gdt.v ===== *)
(** * Segments, the task state segment and trap delivery

    src/src/gdt.rs: the stacks of the task state segment and the segment
    selectors.  The descriptor table of the x86_64 crate is a parameter.  What
    the CPU does when ring 3 traps is given here too: it takes the stack of
    the task state segment and pushes the interrupted context on it. *)

From Stdlib Require Import ZArith Lia.
From stdpp Require Import base gmap list strings numbers functions.
From S2P Require Import Prelude Machine Paging.

Open Scope Z_scope.

Definition DOUBLE_FAULT_IST_INDEX : nat := 0.
Definition IST_STACK_SIZE : Z := 4096 * 5.
Definition PRIVILEGE_STACK_SIZE : Z := 4096 * 5.

(** ** The task state segment *)

Record TaskStateSegment := mkTss {
  interrupt_stack_table : list Z;
  privilege_stack_table : list Z;
}.

(** [TaskStateSegment::new()]: every stack pointer is zero. *)
Definition tss_zero : TaskStateSegment := mkTss (replicate 7 0) (replicate 3 0).

(** [base + size] on a [VirtAddr] checks that the result is canonical. *)
Definition stack_end {P : Paging} (base size : Z) : outcome Z :=
  a ← add_u64 base size; virt_addr_new a.

(** The [TSS] static; the arguments are the addresses of the two stacks. *)
Definition TSS {P : Paging} (ist_stack privilege_stack : Z) : outcome TaskStateSegment :=
  let tss := tss_zero in
  ist ← stack_end ist_stack IST_STACK_SIZE;
  let tss := mkTss (<[DOUBLE_FAULT_IST_INDEX := ist]> (interrupt_stack_table tss))
                   (privilege_stack_table tss) in
  priv ← stack_end privilege_stack PRIVILEGE_STACK_SIZE;
  Ok (mkTss (interrupt_stack_table tss) (<[0%nat := priv]> (privilege_stack_table tss))).

(** ** The descriptor table *)

(** [Descriptor::kernel_code_segment()] and the others. *)
Inductive Descriptor := KernelCode | KernelData | UserData | UserCode | TssSegment.

Class GdtApi := {
  gdt_table : Type;
  gdt_new : gdt_table;
  add_entry : gdt_table → Descriptor → outcome (Z * gdt_table);
}.

(** The privilege level of a descriptor, and the table slots it takes. *)
Definition dpl (d : Descriptor) : Z := match d with UserData | UserCode => 3 | _ => 0 end.
Definition slots (d : Descriptor) : Z := match d with TssSegment => 2 | _ => 1 end.

(** The table has eight slots, the first of which is the null descriptor; a
    selector is the slot's index and the descriptor's privilege level. *)
Class GdtLaws (G : GdtApi) := {
  gdt_used : gdt_table → Z;
  gdt_new_ok : gdt_used gdt_new = 1;
  add_entry_ok : ∀ t d, gdt_used t + slots d <= 8 →
    ∃ t', add_entry t d = Ok (8 * gdt_used t + dpl d, t') ∧ gdt_used t' = gdt_used t + slots d;
}.

Record Selectors := mkSelectors {
  kernel_code : Z;
  kernel_data : Z;
  user_code : Z;
  user_data : Z;
  tss_selector : Z;
}.

(** The [GDT] static. *)
Definition GDT {G : GdtApi} : outcome (gdt_table * Selectors) :=
  let gdt := gdt_new in
  '(kernel_code, gdt) ← add_entry gdt KernelCode;
  '(kernel_data, gdt) ← add_entry gdt KernelData;
  '(tss, gdt) ← add_entry gdt TssSegment;
  '(user_data, gdt) ← add_entry gdt UserData;
  '(user_code, gdt) ← add_entry gdt UserCode;
  Ok (gdt, mkSelectors kernel_code kernel_data user_code user_data tss).

Definition selectors {G : GdtApi} : outcome Selectors :=
  '(_, s) ← GDT; Ok s.

(** ** Traps from ring 3

    In 64-bit mode the CPU loads the stack pointer from the first privilege
    stack, aligns it to 16 bytes, pushes the interrupted [ss], [rsp],
    [rflags], [cs] and [rip], and continues in the handler's code segment.  An
    interrupt gate clears IF, TF, NT and RF ([0x14300]).  [code] is the error
    code some exceptions push. *)

(** The words of the frame, lowest address first. *)
Definition trap_words (code : option Z) (m : machine) : list Z :=
  match code with Some c => [c] | None => [] end ++ [rip m; cs m; rflags m; regs m RSP; ss m].

Definition push_frame (sp kernel_cs handler new_ss : Z) (code : option Z) (m : machine)
  : outcome machine :=
  let sp := Z.land sp (not_u64 0xF) in
  m1 ← run (PushImm <$> reverse (trap_words code m)) (set_reg RSP sp m);
  Ok (mkMachine (regs m1) handler kernel_cs (Z.ldiff (rflags m) 0x14300) new_ss (mem m1)).

(** From ring 3 the stack segment becomes null. *)
Definition trap_entry (top kernel_cs handler : Z) (code : option Z) (m : machine) : outcome machine :=
  push_frame top kernel_cs handler 0 code m.

(** In ring 0 the CPU stays on the stack it is on. *)
Definition kernel_trap_entry (kernel_cs handler : Z) (code : option Z) (m : machine) : outcome machine :=
  push_frame (regs m RSP) kernel_cs handler (ss m) code m.

(** ** Lemmas *)

Lemma GDT_ok {G : GdtApi} {L : GdtLaws G} :
  ∃ t, GDT = Ok (t, mkSelectors 0x08 0x10 0x33 0x2b 0x18).
Proof.
  unfold GDT. pose proof gdt_new_ok as H0.
  destruct (add_entry_ok gdt_new KernelCode) as (t1 & -> & H1); [rewrite H0; simpl; lia|].
  bstep. destruct (add_entry_ok t1 KernelData) as (t2 & -> & H2); [rewrite H1, H0; simpl; lia|].
  bstep. destruct (add_entry_ok t2 TssSegment) as (t3 & -> & H3); [rewrite H2, H1, H0; simpl; lia|].
  bstep. destruct (add_entry_ok t3 UserData) as (t4 & -> & H4); [rewrite H3, H2, H1, H0; simpl; lia|].
  bstep. destruct (add_entry_ok t4 UserCode) as (t5 & -> & H5); [rewrite H4, H3, H2, H1, H0; simpl; lia|].
  bstep. rewrite H4, H3, H2, H1, H0. by exists t5.
Qed.

(** Both stack pointers are the ends of their stacks, and the other entries
    are zero. *)
Lemma TSS_ok {P : Paging} {L : PagingLaws P} ist priv :
  0 <= ist → ist + IST_STACK_SIZE < 2 ^ 47 → 0 <= priv → priv + PRIVILEGE_STACK_SIZE < 2 ^ 47 →
  TSS ist priv = Ok (mkTss ((ist + IST_STACK_SIZE) :: replicate 6 0)
                           ((priv + PRIVILEGE_STACK_SIZE) :: replicate 2 0)).
Proof.
  unfold TSS, stack_end, IST_STACK_SIZE, PRIVILEGE_STACK_SIZE. intros ? ? ? ?.
  rewrite add_u64_ok by (unfold u64_modulus; lia). bstep. rewrite virt_addr_new_ok by lia. bstep.
  rewrite add_u64_ok by (unfold u64_modulus; lia). bstep. rewrite virt_addr_new_ok by lia. done.
Qed.

Lemma run_push_imms vs m :
  (8 | regs m RSP) → len8 vs <= regs m RSP < u64_modulus →
  ∃ m', run (PushImm <$> vs) m = Ok m' ∧
    mem m' = push_words (regs m RSP) vs (mem m) ∧
    regs m' RSP = regs m RSP - len8 vs ∧ (∀ r, r ≠ RSP → regs m' r = regs m r).
Proof.
  revert m. unfold len8. induction vs as [|v vs IH]; intros m Ha Hb.
  { exists m. cbn [fmap list_fmap run length]. repeat split; try done. lia. }
  cbn [length] in Hb. cbn [fmap list_fmap run exec]. rewrite push_ok by (done || lia). bstep.
  set (m1 := set_mem _ _). assert (regs m1 RSP = regs m RSP - 8) as H1 by apply fn_lookup_insert.
  destruct (IH m1) as (m' & Hrun & Hm & Hsp & Hreg); [|lia|].
  { rewrite H1. apply Z.divide_sub_r; [done|]. by exists 1. }
  exists m'. split_and!; [done| | |].
  - rewrite Hm, H1. done.
  - cbn [length]. lia.
  - intros q Hq. rewrite Hreg by done. by apply fn_lookup_insert_ne.
Qed.

(** A trap pushes the interrupted context below the stack pointer, rounded
    down, and keeps the registers. *)
Lemma push_frame_spec sp kernel_cs handler new_ss code m :
  is_u64 sp → 48 <= sp - sp mod 16 →
  let a := sp - sp mod 16 in
  let n := len8 (trap_words code m) in
  ∃ m', push_frame sp kernel_cs handler new_ss code m = Ok m' ∧
    regs m' RSP = a - n ∧ (∀ r, r ≠ RSP → regs m' r = regs m r) ∧
    rip m' = handler ∧ cs m' = kernel_cs ∧ rflags m' = Z.ldiff (rflags m) 0x14300 ∧
    words_at (mem m') (a - n) (trap_words code m) ∧
    (∀ k, k < a - n ∨ a <= k → mem m' !! k = mem m !! k).
Proof.
  intros Hu Hb a n. fold a in Hb. unfold push_frame. change 0xF with (2 ^ 4 - 1). rewrite land_not_mask by (done || lia).
  change (2 ^ 4) with 16. fold a.
  assert (16 | a) as Ha by (apply round_down_divide; lia).
  assert (sp - 16 < a <= sp) as Hab by (unfold a; pose proof (Z.mod_pos_bound sp 16); lia).
  assert (n <= 48) as Hn by (unfold n, len8; destruct code; simpl; lia).
  assert (n = len8 (reverse (trap_words code m))) as En by (unfold n, len8; by rewrite length_reverse).
  set (m0 := set_reg RSP a m). assert (regs m0 RSP = a) as H0 by apply fn_lookup_insert.
  destruct (run_push_imms (reverse (trap_words code m)) m0) as (m1 & -> & Hm & Hsp & Hr).
  { rewrite H0. destruct Ha as [q ->]. exists (2 * q). lia. }
  { rewrite H0, <- En. unfold is_u64 in Hu. lia. }
  bstep. eexists. split; [done|]. cbn [regs rip cs rflags mem]. rewrite Hm, Hsp, H0, <- En.
  split; [done|]. split; [|split; [done|split; [done|split; [done|split]]]].
  - intros r Hne. rewrite Hr by done. by apply fn_lookup_insert_ne.
  - pose proof (push_words_at a (reverse (trap_words code m)) (mem m0)) as Hw.
    by rewrite reverse_involutive, <- En in Hw.
  - intros k Hk. rewrite push_words_other by (rewrite <- En; lia). done.
Qed.

(** From ring 3 the frame is at the top of the privilege stack. *)
Lemma trap_entry_spec top kernel_cs handler code m :
  is_u64 top → (16 | top) → 48 <= top →
  let n := len8 (trap_words code m) in
  ∃ m', trap_entry top kernel_cs handler code m = Ok m' ∧
    regs m' RSP = top - n ∧ (∀ r, r ≠ RSP → regs m' r = regs m r) ∧
    rip m' = handler ∧ cs m' = kernel_cs ∧
    words_at (mem m') (top - n) (trap_words code m) ∧
    (∀ k, k < top - n ∨ top <= k → mem m' !! k = mem m !! k).
Proof.
  intros Hu Ha Hb n.
  pose proof (push_frame_spec top kernel_cs handler 0 code m Hu) as Hf. cbv zeta in Hf.
  rewrite (proj2 (Z.mod_divide top 16 ltac:(lia)) Ha), Z.sub_0_r in Hf.
  destruct (Hf Hb) as (m' & H1 & H2 & H3 & H4 & H5 & _ & H6 & H7). exists m'. auto 10.
Qed.

(** *** A concrete table: the number of slots in use *)

Definition demo_gdt : GdtApi := {|
  gdt_table := Z;
  gdt_new := 1;
  add_entry t d := if t + slots d <=? 8 then Ok (8 * t + dpl d, t + slots d) else Panic "GDT full";
|}.

Definition demo_gdt_laws : GdtLaws demo_gdt.
Proof.
  refine {| gdt_used := (λ t, t) : @gdt_table demo_gdt → Z |}; [done|].
  intros t d Hd. cbn. rewrite (proj2 (Z.leb_le _ _) Hd). eauto.
Defined.
