(* ===== verification/Kernel.v ===== *)
(** * The kernel object and its call boundary

    src/src/process.rs, src/src/kernel/abi.rs, src/src/kernel/service.rs and
    src/src/kernel/mod.rs: process descriptors, requests and responses, the
    services, and [Kernel::call], which authorizes a request by its caller
    and routes it.  The services act on the components modelled elsewhere:
    threads, counters, the heap, the keyboard queues and the console. *)

From Stdlib Require Import ZArith Lia.
From stdpp Require Import base gmap list strings numbers.
From S2P Require Import Prelude AllocMod FixedSizeBlock Scheduler Machine Thread Libs Keyboard Vga.

Open Scope Z_scope.

(** ** Processes *)

Inductive ProcessState := PReady | PRunning | PExited (code : Z).

Record Process := mkProcess {
  pid : Z;
  page_table_root : option Z;
  user_entry : Z;
  user_stack_top : Z;
  state : ProcessState;
}.

Record ProcessSnapshot := mkSnapshot {
  snap_pid : Z;
  snap_user_entry : Z;
  snap_user_stack_top : Z;
  snap_state : ProcessState;
}.

(** ** The call ABI *)

Inductive Caller := CKernel | CUser (p : Z) | CIrq.

Inductive ServiceId := SProcess | SThread | SScheduler | SMemory | STimer | SInput | SConsole.

Inductive SysError := BadHandle | Denied | BadPointer | WouldBlock | NoResources | Unsupported.

Definition sys_error_i64 (e : SysError) : Z :=
  match e with
  | BadHandle => 1 | Denied => 2 | BadPointer => 3
  | WouldBlock => 4 | NoResources => 5 | Unsupported => 6
  end.

(** [SysError::errno] *)
Definition sys_errno (e : SysError) : Z := - sys_error_i64 e.

Record SchedulerStats := mkSStats {
  ss_ticks : Z;
  ss_processes_alive : Z;
  ss_processes_spawned : Z;
  ss_threads_alive : Z;
  ss_threads_spawned : Z;
  ss_tasks_alive : Z;
  ss_tasks_spawned : Z;
  ss_tasks_completed : Z;
}.

Record MemoryStats := mkMStats { ms_heap_size : Z; ms_heap_free : Z }.

Inductive Request :=
| ProcessCreate (entry stack_top : Z)
| ProcessExit (p code : Z)
| ProcessSnapshotReq (p : Z)
| ProcessCount
| ThreadSpawn (entry process : Z)
| ThreadYield
| ThreadExit
| SchedulerStatsReq
| MemoryStatsReq
| TimerTicks
| InputReadByte
| ConsoleWrite (bytes : list Z).

Definition service (r : Request) : ServiceId :=
  match r with
  | ProcessCreate _ _ | ProcessExit _ _ | ProcessSnapshotReq _ | ProcessCount => SProcess
  | ThreadSpawn _ _ | ThreadYield | ThreadExit => SThread
  | SchedulerStatsReq => SScheduler
  | MemoryStatsReq => SMemory
  | TimerTicks => STimer
  | InputReadByte => SInput
  | ConsoleWrite _ => SConsole
  end.

Inductive Response :=
| ROk
| RWritten (n : Z)
| RByte (b : option Z)
| RProcess (p : Z)
| RSnapshot (s : option ProcessSnapshot)
| RThread (t : Z)
| RCount (n : Z)
| RStats (s : SchedulerStats)
| RMemory (m : MemoryStats)
| RTicks (n : Z)
| RErr (e : SysError).

(** The UTF-8 encoding of [byte as char], a code point below 256. *)
Definition utf8 (byte : Z) : list Z :=
  if byte <? 0x80 then [byte]
  else [Z.lor 0xC0 (Z.shiftr byte 6); Z.lor 0x80 (Z.land byte 0x3F)].

Section kernel.
(** Placement of code and data, as in Thread.v; [scratch] is the throwaway
    context of [exit_thread]. *)
Context (ctx_offset bootstrap_context yield_ret exit_ret scratch : Z).
Context {W E : Type} (wake : W → E → outcome E).
Context {Q : ArrayQueue} {C : OnceCell aq} {A : AtomicWaker W} {V : Volatile}.

(** The state behind [KERNEL] and the modules its services reach. *)
Record kworld := mkKW {
  kw_threads : tworld Fixed.fworld;
  kw_procs : gmap Z Process;
  kw_next_pid : Z;
  kw_input : kstate (W := W) (E := E);
  kw_console : Writer;
}.

Definition with_threads (t : tworld Fixed.fworld) (w : kworld) : kworld :=
  mkKW t (kw_procs w) (kw_next_pid w) (kw_input w) (kw_console w).

Definition with_procs (p : gmap Z Process) (w : kworld) : kworld :=
  mkKW (kw_threads w) p (kw_next_pid w) (kw_input w) (kw_console w).

Definition with_input (i : kstate) (w : kworld) : kworld :=
  mkKW (kw_threads w) (kw_procs w) (kw_next_pid w) i (kw_console w).

Definition with_console (c : Writer) (w : kworld) : kworld :=
  mkKW (kw_threads w) (kw_procs w) (kw_next_pid w) (kw_input w) c.

Definition with_counters (f : Scheduler → Scheduler) (w : kworld) : kworld :=
  with_threads (with_stats (f (tw_stats (kw_threads w))) (kw_threads w)) w.

(** *** [ProcessService] *)

Definition ProcessId_new (w : kworld) : Z * kworld :=
  (kw_next_pid w, mkKW (kw_threads w) (kw_procs w) (wrapping_add (kw_next_pid w) 1)
                    (kw_input w) (kw_console w)).

Definition Process_new (entry stack_top : Z) (w : kworld) : Process * kworld :=
  let '(p, w) := ProcessId_new w in
  (mkProcess p None entry stack_top PReady, w).

Definition register (process : Process) (w : kworld) : Z * kworld :=
  let p := pid process in
  (p, with_counters note_process_spawned (with_procs (<[p := process]> (kw_procs w)) w)).

Definition create (entry stack_top : Z) (w : kworld) : Z * kworld :=
  let '(process, w) := Process_new entry stack_top w in
  register process w.

Definition exit (p code : Z) (w : kworld) : bool * kworld :=
  let removed := kw_procs w !! p in
  let w := with_procs (delete p (kw_procs w)) w in
  match removed with
  | Some _ => (true, with_counters note_process_exited w)
  | None => (false, w)
  end.

Definition snapshot (p : Z) (w : kworld) : option ProcessSnapshot :=
  process ← kw_procs w !! p;
  Some (mkSnapshot (pid process) (user_entry process) (user_stack_top process) (state process)).

Definition count (w : kworld) : Z := Z.of_nat (size (kw_procs w)).

(** [process::is_registered] *)
Definition is_registered (p : Z) (w : kworld) : bool :=
  match snapshot p w with Some _ => true | None => false end.

(** *** The other services *)

Definition scheduler_stats (w : kworld) : SchedulerStats :=
  let s := tw_stats (kw_threads w) in
  mkSStats (tick_count s) (processes_alive s) (processes_spawned s) (threads_alive s)
    (threads_spawned s) (tasks_alive s) (tasks_spawned s) (tasks_completed s).

Definition memory_stats (w : kworld) : outcome MemoryStats :=
  stats ← Fixed.stats (tw_heap (kw_threads w));
  Ok (mkMStats (Fixed.st_heap_size stats) (Fixed.st_free_bytes stats)).

Fixpoint console_bytes (bytes : list Z) (c : Writer) : outcome Writer :=
  match bytes with
  | [] => Ok c
  | byte :: bytes => c ← write_str (utf8 byte) c; console_bytes bytes c
  end.

(** [ConsoleService::write] *)
Definition console_write (bytes : list Z) (w : kworld) : outcome (Z * kworld) :=
  c ← console_bytes bytes (kw_console w);
  Ok (Z.of_nat (length bytes), with_console c w).

(** *** [Kernel::call]

    A call returns a response, or never returns to its caller.  A yield
    returns [ROk] to its caller when the thread is switched back in; the
    world is the one the next thread continues with. *)
Inductive kresult :=
| Returned (r : Response) (w : kworld)
| NoReturn (w : kworld).

Definition is_kernel (c : Caller) : bool := match c with CKernel => true | _ => false end.

(** [if let Caller::User(caller_pid) = caller && caller_pid != pid] *)
Definition other_user (c : Caller) (p : Z) : bool :=
  match c with CUser q => negb (q =? p) | _ => false end.

Definition call (caller : Caller) (request : Request) (w : kworld) : outcome kresult :=
  match request with
  | ProcessCreate entry stack_top =>
      if negb (is_kernel caller) then Ok (Returned (RErr Denied) w)
      else let '(p, w) := create entry stack_top w in Ok (Returned (RProcess p) w)
  | ProcessExit p code =>
      if other_user caller p then Ok (Returned (RErr Denied) w)
      else
        let '(known, w) := exit p code w in
        Ok (Returned (if known then ROk else RErr BadHandle) w)
  | ProcessSnapshotReq p =>
      if other_user caller p then Ok (Returned (RErr Denied) w)
      else Ok (Returned (RSnapshot (snapshot p w)) w)
  | ProcessCount =>
      if negb (is_kernel caller) then Ok (Returned (RErr Denied) w)
      else Ok (Returned (RCount (count w)) w)
  | ThreadSpawn entry process =>
      if negb (is_kernel caller) then Ok (Returned (RErr Denied) w)
      else
        '(t, ts) ← spawn Fixed.alloc Fixed.scribble ctx_offset entry process (kw_threads w);
        Ok (Returned (RThread t) (with_threads ts w))
  | ThreadYield =>
      ts ← yield_now Fixed.dealloc ctx_offset bootstrap_context yield_ret (kw_threads w);
      Ok (Returned ROk (with_threads ts w))
  | ThreadExit =>
      ts ← exit_thread Fixed.dealloc ctx_offset bootstrap_context exit_ret scratch (kw_threads w);
      Ok (NoReturn (with_threads ts w))
  | SchedulerStatsReq => Ok (Returned (RStats (scheduler_stats w)) w)
  | MemoryStatsReq => m ← memory_stats w; Ok (Returned (RMemory m) w)
  | TimerTicks => Ok (Returned (RTicks (tick_count (tw_stats (kw_threads w)))) w)
  | InputReadByte =>
      let '(b, i) := read_byte (kw_input w) in
      Ok (Returned (RByte b) (with_input i w))
  | ConsoleWrite bytes =>
      '(n, w) ← console_write bytes w;
      Ok (Returned (RWritten n) w)
  end.

(** The kernel-only entry points of [Kernel], which the functions of
    process.rs call. *)
Definition register_process := register.
Definition exit_process := exit.
Definition process_snapshot := snapshot.
Definition process_count := count.

(** The interrupt entry points [Kernel::tick] and [Kernel::on_scancode]. *)
Definition kernel_tick (w : kworld) : outcome (option heartbeat * kworld) :=
  '(b, s) ← tick (tw_stats (kw_threads w));
  Ok (b, with_threads (with_stats s (kw_threads w)) w).

Definition on_scancode (byte : Z) (w : kworld) : outcome (option string * kworld) :=
  '(warning, i) ← add_scancode wake byte (kw_input w);
  Ok (warning, with_input i w).
End kernel.
