(* ===== verification/KernelThms.v ===== *)
(** * Theorems about the kernel call boundary

    Authorization of user callers, the process registry as an invariant of
    every reachable kernel state, the life of a process, and what a console
    write shows. *)

From Stdlib Require Import ZArith Lia.
From stdpp Require Import base gmap list strings numbers functions.
From S2P Require Import Prelude AllocMod FixedSizeBlock Scheduler Machine Thread Libs Keyboard Vga Kernel.
From S2P Require Import ThreadThms.

Open Scope Z_scope.

(** ** The thread code leaves the process counters alone *)

Definition pcounts (s : Scheduler) : Z * Z := (processes_alive s, processes_spawned s).

Section pcounts.
Context {H : Type}.
Context (alloc : H → Layout → outcome (Z * H)).
Context (dealloc : H → Z → Layout → outcome H).
Context (scribble : H → Z → Z → H).
Context (ctx_offset bootstrap_context yield_ret exit_ret : Z).

Lemma drain_reaper_pcounts w w' :
  drain_reaper dealloc w = Ok w' → pcounts (tw_stats w') = pcounts (tw_stats w).
Proof.
  unfold drain_reaper, drop_thread. destruct (reaper (tw_sched w)); intros He; binds; by simplify_eq/=.
Qed.

Lemma yield_now_pcounts w w' :
  yield_now dealloc ctx_offset bootstrap_context yield_ret w = Ok w' →
  pcounts (tw_stats w') = pcounts (tw_stats w).
Proof.
  unfold yield_now. intros He. binds. apply drain_reaper_pcounts in Ha. rewrite <- Ha.
  destruct a0 as [[[p n] s]|]; [|by simplify_eq]. binds. by simplify_eq/=.
Qed.

Lemma exit_thread_pcounts scratch w w' :
  exit_thread dealloc ctx_offset bootstrap_context exit_ret scratch w = Ok w' →
  pcounts (tw_stats w') = pcounts (tw_stats w).
Proof.
  unfold exit_thread. intros He. binds. apply drain_reaper_pcounts in Ha. rewrite <- Ha.
  destruct a0 as [n s]. binds. by simplify_eq/=.
Qed.

Lemma box_new_stats l w p w' : box_new alloc scribble l w = Ok (p, w') → tw_stats w' = tw_stats w.
Proof.
  unfold box_new. intros He. binds. destruct a as [q h]. destruct (q =? 0); [done|]. by simplify_eq/=.
Qed.

Lemma spawn_pcounts entry process w t w' :
  spawn alloc scribble ctx_offset entry process w = Ok (t, w') →
  pcounts (tw_stats w') = pcounts (tw_stats w).
Proof.
  unfold spawn. intros He. binds. destruct a as [[[id sp] stack] w1].
  apply bind_inv in He as ([box w2] & Hb & He). binds. simplify_eq/=.
  unfold KernelThread_new in Ha. apply bind_inv in Ha as ([stack1 w3] & Hs & Ha). binds.
  destruct a4 as [sp2 m2]. simplify_eq/=.
  apply box_new_stats in Hb. apply box_new_stats in Hs. simpl in *. unfold pcounts. simpl.
  by rewrite Hb, Hs.
Qed.
End pcounts.

Section kernel_thms.
Context (ctx_offset bootstrap_context yield_ret exit_ret scratch : Z).
Context {W E : Type} (wake : W → E → outcome E).
Context {Q : ArrayQueue} {C : OnceCell aq} {A : AtomicWaker W} {V : Volatile}.

Abbreviation kworld := (kworld (W := W) (E := E)).
Abbreviation Call := (Kernel.call ctx_offset bootstrap_context yield_ret exit_ret scratch).

(** The state a call leaves, whether it returns or not. *)
Definition after (o : kresult (W := W) (E := E)) : kworld :=
  match o with Returned _ w | NoReturn w => w end.

(** The requests only the kernel may make, and those about one process. *)
Definition kernel_only (r : Request) : bool :=
  match r with ProcessCreate _ _ | ProcessCount | ThreadSpawn _ _ => true | _ => false end.

Definition about_process (r : Request) (q : Z) : Prop :=
  match r with ProcessExit p _ | ProcessSnapshotReq p => p = q | _ => False end.

(** What a successful call does to the registry, request by request. *)
Lemma call_registry caller r w o :
  Call caller r w = Ok o →
  let w' := after o in
  match r with
  | ProcessCreate entry stack_top =>
      if is_kernel caller then w' = (create entry stack_top w).2 else w' = w
  | ProcessExit p code => if other_user caller p then w' = w else w' = (exit p code w).2
  | _ => kw_procs w' = kw_procs w ∧ kw_next_pid w' = kw_next_pid w ∧
         pcounts (tw_stats (kw_threads w')) = pcounts (tw_stats (kw_threads w))
  end.
Proof.
  unfold Kernel.call. intros He. destruct r; cbv zeta.
  - destruct (is_kernel caller); cbn [negb] in He; [|by simplify_eq].
    by destruct (create entry stack_top w); simplify_eq/=.
  - destruct (other_user caller p); [by simplify_eq|]. by destruct (exit p code w); simplify_eq/=.
  - destruct (other_user caller p); by simplify_eq/=.
  - destruct (is_kernel caller); by simplify_eq/=.
  - destruct (is_kernel caller); cbn [negb] in He; [|by simplify_eq].
    binds. destruct a as [t ts]. simplify_eq/=. split_and!; [done..|]. by eapply spawn_pcounts.
  - binds. simplify_eq/=. split_and!; [done..|]. by eapply yield_now_pcounts.
  - binds. simplify_eq/=. split_and!; [done..|]. by eapply exit_thread_pcounts.
  - by simplify_eq/=.
  - binds. by simplify_eq/=.
  - by simplify_eq/=.
  - destruct (read_byte (kw_input w)). by simplify_eq/=.
  - binds. destruct a as [n w1]. unfold console_write in Ha. binds. by simplify_eq/=.
Qed.

(** ** Reachable kernel states

    The kernel's entry points in any order, by any callers, with the two that
    other parts of the kernel call directly, [register_process] for a new
    process and [exit_process]; [kr_run] is everything else, which has no
    access to the registry. *)
Inductive kreach : nat → kworld → Prop :=
| kr_boot w :
    kw_procs w = ∅ → kw_next_pid w = 1 → pcounts (tw_stats (kw_threads w)) = (0, 0) →
    kreach 0 w
| kr_call n w caller r o :
    kreach n w → Call caller r w = Ok o → kreach (S n) (after o)
| kr_tick n w b w' : kreach n w → kernel_tick w = Ok (b, w') → kreach (S n) w'
| kr_scancode n w byte warning w' :
    kreach n w → on_scancode wake byte w = Ok (warning, w') → kreach (S n) w'
| kr_register n w entry stack_top :
    kreach n w →
    let '(process, w1) := Process_new entry stack_top w in kreach (S n) (register_process process w1).2
| kr_exit n w p code : kreach n w → kreach (S n) (exit_process p code w).2
| kr_run n w w' :
    kreach n w → kw_procs w' = kw_procs w → kw_next_pid w' = kw_next_pid w →
    pcounts (tw_stats (kw_threads w')) = pcounts (tw_stats (kw_threads w)) →
    kreach (S n) w'.

Record registry_ok (w : kworld) : Prop := {
  rg_procs : ∀ p pr, kw_procs w !! p = Some pr →
    pid pr = p ∧ 1 <= p < kw_next_pid w ∧ state pr = PReady ∧ page_table_root pr = None;
  rg_next : 1 <= kw_next_pid w;
  rg_alive : processes_alive (tw_stats (kw_threads w)) = count w;
  rg_spawned : processes_spawned (tw_stats (kw_threads w)) = kw_next_pid w - 1;
  rg_count : count w <= kw_next_pid w - 1;
}.

Lemma registry_ok_same w w' :
  kw_procs w' = kw_procs w → kw_next_pid w' = kw_next_pid w →
  pcounts (tw_stats (kw_threads w')) = pcounts (tw_stats (kw_threads w)) →
  registry_ok w → registry_ok w'.
Proof.
  unfold pcounts. intros Hp Hn [= Ha Hs] [H1 H2 H3 H4 H5].
  split; unfold count in *; rewrite ?Hp, ?Hn, ?Ha, ?Hs; done.
Qed.

Lemma create_fresh w : registry_ok w → kw_procs w !! kw_next_pid w = None.
Proof.
  intros [H1 _ _ _ _]. destruct (kw_procs w !! kw_next_pid w) as [pr|] eqn:Hp; [|done].
  apply H1 in Hp. lia.
Qed.

Lemma create_ok entry stack_top w :
  registry_ok w → kw_next_pid w + 1 < u64_modulus →
  registry_ok (create entry stack_top w).2 ∧
  kw_next_pid (create entry stack_top w).2 = kw_next_pid w + 1.
Proof.
  intros Hok Hn. pose proof (create_fresh w Hok) as Hf. destruct Hok as [H1 H2 H3 H4 H5].
  assert (wrapping_add (kw_next_pid w) 1 = kw_next_pid w + 1) as Ew by (apply wrapping_add_ok; lia).
  assert (0 <= count w) by (unfold count; lia).
  split; [|done]. split; unfold count in *; simpl; rewrite ?Ew.
  - intros p pr. destruct (decide (p = kw_next_pid w)) as [->|Hne].
    + rewrite lookup_insert_eq. intros [= <-]. simpl. split_and!; try done; lia.
    + rewrite lookup_insert_ne by done. intros (? & ? & ?)%H1. split_and!; try done; try lia; tauto.
  - lia.
  - rewrite map_size_insert_None, H3 by done. rewrite wrapping_add_ok by lia. lia.
  - rewrite H4, wrapping_add_ok by lia. lia.
  - rewrite map_size_insert_None by done. lia.
Qed.

Lemma exit_ok p code w :
  registry_ok w → kw_next_pid w < u64_modulus →
  registry_ok (exit p code w).2 ∧ kw_next_pid (exit p code w).2 = kw_next_pid w.
Proof.
  intros [H1 H2 H3 H4 H5] Hn. unfold exit. destruct (kw_procs w !! p) as [pr|] eqn:Hp; simpl.
  - assert (size (delete p (kw_procs w)) = pred (size (kw_procs w))) as Es
      by (by apply map_size_delete_Some).
    assert (size (kw_procs w) ≠ 0%nat) as Hz.
    { intros Hz. apply map_size_empty_inv in Hz. by rewrite Hz, lookup_empty in Hp. }
    split; [|done]. split; unfold count in *; simpl; rewrite ?Es; try done; try lia.
    + intros q pr' Hq. apply H1. by apply lookup_delete_Some in Hq as [_ ?].
    + rewrite H3, wrapping_sub_ok by lia. lia.
  - split; [|done]. rewrite delete_id by done. by split.
Qed.

Lemma registry_reachable n w :
  kreach n w → Z.of_nat n + 1 < u64_modulus →
  registry_ok w ∧ kw_next_pid w <= Z.of_nat n + 1.
Proof.
  induction 1 as [w Hp Hn Hc|n w caller r o _ IH Hc|n w b w' _ IH Ht|n w byte warning w' _ IH Ht
                 |n w entry stack_top _ IH|n w p code _ IH|n w w' _ IH Hp Hn Hc]; intros Hlt.
  - injection Hc as Ha Hs. split; [|lia].
    split; unfold count; rewrite ?Hp, ?Hn, ?Ha, ?Hs, ?map_size_empty; try done; lia.
  - destruct IH as [Hok Hle]; [lia|]. apply call_registry in Hc. cbv zeta in Hc.
    assert (∀ w', w' = w → registry_ok w' ∧ kw_next_pid w' <= Z.of_nat (S n) + 1) as Hsame
      by (intros ? ->; split; [done|lia]).
    destruct r; try (destruct Hc as (? & En & ?); rewrite En; split;
      [by eapply registry_ok_same|lia]).
    + destruct (is_kernel caller); [|by apply Hsame]. rewrite Hc.
      destruct (create_ok entry stack_top w) as [? ->]; [done|lia|]. split; [done|lia].
    + destruct (other_user caller p); [by apply Hsame|]. rewrite Hc.
      destruct (exit_ok p code w) as [? ->]; [done|lia|]. split; [done|lia].
  - destruct IH as [Hok Hle]; [lia|]. unfold kernel_tick in Ht. binds. destruct a as [b' s].
    simplify_eq/=. split; [|lia]. eapply registry_ok_same; [| | |done]; try done. simpl.
    unfold tick in Ha. binds. by simplify_eq/=.
  - destruct IH as [Hok Hle]; [lia|]. unfold on_scancode in Ht. binds. destruct a as [b' i].
    simplify_eq/=. split; [|lia]. by eapply registry_ok_same; [| | |done].
  - destruct IH as [Hok Hle]; [lia|]. destruct (create_ok entry stack_top w) as [H1 H2]; [done|lia|].
    split; [exact H1|]. unfold create in H2. cbn in *. lia.
  - destruct IH as [Hok Hle]; [lia|]. destruct (exit_ok p code w) as [H1 H2]; [done|lia|].
    split; [exact H1|]. unfold exit_process. lia.
  - destruct IH as [Hok Hle]; [lia|]. rewrite Hn. split; [|lia]. by eapply registry_ok_same.
Qed.

Lemma concat_utf8_ascii bytes : Forall (λ b, b < 0x80) bytes → mjoin (utf8 <$> bytes) = bytes.
Proof.
  induction 1 as [|b bytes Hb _ IH]; [done|].
  change (mjoin (utf8 <$> b :: bytes)) with (utf8 b ++ mjoin (utf8 <$> bytes)). rewrite IH.
  unfold utf8. by rewrite (proj2 (Z.ltb_lt b 0x80)).
Qed.

Context {VL : VolatileLaws V}.

Lemma console_bytes_refines bytes c t :
  shows c t →
  ∃ c', console_bytes bytes c = Ok c' ∧ shows c' (t_write_string (mjoin (utf8 <$> bytes)) t).
Proof.
  revert c t. induction bytes as [|b bytes IH]; intros c t Ht; [by exists c|].
  cbn [console_bytes]. destruct (write_string_refines (utf8 b) c t Ht) as (c1 & Hc & Ht1).
  unfold write_str. rewrite Hc. bstep. destruct (IH c1 _ Ht1) as (c' & -> & Ht').
  exists c'. split; [done|].
  change (mjoin (utf8 <$> b :: bytes)) with (utf8 b ++ mjoin (utf8 <$> bytes)).
  unfold t_write_string in *. by rewrite foldl_app.
Qed.

(** ** Theorems *)

(** C20: a user process is confined.  Requests reserved to the kernel and
    requests about another process are denied and change nothing, and no
    request it makes, whether it returns or not, touches another process's
    entry in the registry or the supply of process ids. *)
Theorem user_confined p r (w : kworld) :
  (kernel_only r = true → Call (CUser p) r w = Ok (Returned (RErr Denied) w)) ∧
  (∀ q, q ≠ p → about_process r q → Call (CUser p) r w = Ok (Returned (RErr Denied) w)) ∧
  (∀ o, Call (CUser p) r w = Ok o →
     kw_next_pid (after o) = kw_next_pid w ∧
     ∀ q, q ≠ p → kw_procs (after o) !! q = kw_procs w !! q).
Proof.
  split_and!.
  - by destruct r.
  - intros q Hq Hr. destruct r; try done; simpl in Hr; subst; simpl;
      by rewrite (proj2 (Z.eqb_neq p q)).
  - intros o Ho. apply call_registry in Ho. cbv zeta in Ho.
    destruct r; try (destruct Ho as (-> & -> & _); done); simpl in Ho; [by subst|].
    destruct (p =? p0) eqn:Ep; simpl in Ho; rewrite Ho; [|done]. apply Z.eqb_eq in Ep. subst p0.
    unfold exit. destruct (kw_procs w !! p); simpl; split; try done;
      intros q Hq; by rewrite lookup_delete_ne.
Qed.

(** C28: in every state reachable from boot by fewer than 2^64 - 1 kernel
    entries, in any order and by any callers, every registered process is
    filed under its own id, ids are never 0 (the kernel's) and never ahead of
    the id counter, and the scheduler's counters agree with the registry. *)
Theorem process_registry n w :
  kreach n w → Z.of_nat n + 1 < u64_modulus → registry_ok w.
Proof. intros Hr Hn. by destruct (registry_reachable n w Hr Hn). Qed.

(** the life of a process.  Creating one gives an id not in use, its
    snapshot shows the entry coordinates, and the count grows by one; its own
    exit removes it and restores the registry and the live counter; a second
    exit is a bad handle and changes nothing. *)
Theorem process_lifecycle entry stack_top code (w : kworld) :
  registry_ok w → kw_next_pid w + 1 < u64_modulus →
  ∃ p w1 w2,
    Call CKernel (ProcessCreate entry stack_top) w = Ok (Returned (RProcess p) w1) ∧
    p ≠ 0 ∧
    Call (CUser p) (ProcessSnapshotReq p) w1 =
      Ok (Returned (RSnapshot (Some (mkSnapshot p entry stack_top PReady))) w1) ∧
    Call CKernel ProcessCount w1 = Ok (Returned (RCount (count w + 1)) w1) ∧
    Call (CUser p) (ProcessExit p code) w1 = Ok (Returned ROk w2) ∧
    kw_procs w2 = kw_procs w ∧
    processes_alive (tw_stats (kw_threads w2)) = processes_alive (tw_stats (kw_threads w)) ∧
    Call (CUser p) (ProcessExit p code) w2 = Ok (Returned (RErr BadHandle) w2) ∧
    is_registered p w = false ∧ is_registered p w1 = true ∧ is_registered p w2 = false.
Proof.
  intros Hok Hn. pose proof (create_fresh w Hok) as Hf. destruct Hok as [_ H2 H3 _ H5].
  assert (0 <= count w) by (unfold count; lia).
  exists (kw_next_pid w). eexists. eexists. split; [reflexivity|]. cbn [Kernel.call other_user].
  rewrite Z.eqb_refl. cbn [negb]. unfold exit, is_registered, snapshot, register, count. simpl.
  rewrite !lookup_insert_eq. split; [lia|].
  split; [reflexivity|].
  split; [rewrite map_size_insert_None by done; do 3 f_equal; lia|].
  split; [reflexivity|]. simpl. rewrite delete_insert_id, Hf, delete_id by done.
  split; [done|]. split; [apply wrapping_succ_pred; unfold count in *; lia|].
  split; [reflexivity|]. done.
Qed.

(** a console write on a 25x80 console always returns the length of the
    buffer, and the screen then shows the terminal after the UTF-8 encoding
    of each byte taken as a character; for ASCII that is the buffer itself,
    and a byte from 0x80 up takes two cells, both the replacement glyph. *)
Theorem console_write_shows caller bytes (w : kworld) t :
  shows (kw_console w) t →
  (∃ w' : kworld, Call caller (ConsoleWrite bytes) w = Ok (Returned (RWritten (Z.of_nat (length bytes))) w') ∧
     shows (kw_console w') (t_write_string (mjoin (utf8 <$> bytes)) t) ∧
     kw_threads w' = kw_threads w ∧ kw_procs w' = kw_procs w ∧ kw_input w' = kw_input w) ∧
  (Forall (λ b, b < 0x80) bytes → mjoin (utf8 <$> bytes) = bytes) ∧
  (∀ b, 0x80 <= b < 0x100 → printable <$> utf8 b = [0xfe; 0xfe]).
Proof.
  intros Ht. split_and!; [|apply concat_utf8_ascii|].
  - destruct (console_bytes_refines bytes _ t Ht) as (c' & Hc & Hs).
    cbn [Kernel.call]. unfold console_write. rewrite Hc. bstep. eexists. split; [reflexivity|]. done.
  - intros b Hb. assert (b ∈ seqZ 0x80 0x80) as Hin by (apply elem_of_seqZ; lia). revert b Hb Hin.
    assert (Forall (λ b, printable <$> utf8 b = [0xfe; 0xfe]) (seqZ 0x80 0x80)) as HF
      by by_decide.
    intros b _ Hin. by eapply Forall_elem in HF.
Qed.
End kernel_thms.

(** ** Witnesses: a kernel at boot, and after one process was created *)

Definition demo_input : kstate (W := unit) (E := unit) (Q := list_array_queue) (C := option_cell _) (A := option_waker _) :=
  mkK (Q := list_array_queue) (C := option_cell _) (A := option_waker unit) None None None tt.

Definition demo_kernel : kworld (Q := list_array_queue) (V := demo_volatile) :=
  mkKW demo_boot ∅ 1 demo_input demo_writer.

Definition demo_with_process : kworld (Q := list_array_queue) (V := demo_volatile) :=
  (create 0x400000000000 0x400000003000 demo_kernel).2.

Abbreviation demo_call := (Kernel.call 16 0x1000 0x100 0x200 0x3000).

Lemma demo_kernel_boot : kreach 16 0x1000 0x100 0x200 0x3000 (λ _ e, Ok e) 0 demo_kernel.
Proof. by apply kr_boot. Qed.

Lemma process_registry_witness : registry_ok demo_with_process.
Proof.
  apply (process_registry 16 0x1000 0x100 0x200 0x3000 (λ _ e, Ok e) 1); [|done].
  apply (kr_call _ _ _ _ _ _ 0 demo_kernel CKernel (ProcessCreate 0x400000000000 0x400000003000)
           (Returned (RProcess 1) demo_with_process)); [by apply demo_kernel_boot|done].
Defined.

Lemma demo_kernel_ok : registry_ok demo_kernel.
Proof. split; try done. Qed.

Lemma process_lifecycle_witness :
  ∃ p w1 w2,
    demo_call CKernel (ProcessCreate 0x400000000000 0x400000003000) demo_kernel
      = Ok (Returned (RProcess p) w1) ∧
    p ≠ 0 ∧
    demo_call (CUser p) (ProcessSnapshotReq p) w1 =
      Ok (Returned (RSnapshot (Some (mkSnapshot p 0x400000000000 0x400000003000 PReady))) w1) ∧
    demo_call CKernel ProcessCount w1 = Ok (Returned (RCount (count demo_kernel + 1)) w1) ∧
    demo_call (CUser p) (ProcessExit p 7) w1 = Ok (Returned ROk w2) ∧
    kw_procs w2 = kw_procs demo_kernel ∧
    processes_alive (tw_stats (kw_threads w2)) = processes_alive (tw_stats (kw_threads demo_kernel)) ∧
    demo_call (CUser p) (ProcessExit p 7) w2 = Ok (Returned (RErr BadHandle) w2) ∧
    is_registered p demo_kernel = false ∧ is_registered p w1 = true ∧ is_registered p w2 = false.
Proof. apply process_lifecycle; [apply demo_kernel_ok|done]. Defined.

Definition demo_terminal : terminal :=
  mkTerm (replicate 24 (blank_row 7)) (blank_row 7) 0 7.

Lemma demo_shows : shows demo_writer demo_terminal.
Proof. split; try done; by_decide. Qed.

Lemma console_write_shows_witness :
  (∃ w', demo_call (CUser 1) (ConsoleWrite [104; 0xe9]) demo_kernel = Ok (Returned (RWritten 2) w') ∧
     shows (kw_console w') (t_write_string (mjoin (utf8 <$> [104; 0xe9])) demo_terminal) ∧
     kw_threads w' = kw_threads demo_kernel ∧ kw_procs w' = kw_procs demo_kernel ∧
     kw_input w' = kw_input demo_kernel) ∧
  (Forall (λ b, b < 0x80) [104; 0xe9] → mjoin (utf8 <$> [104; 0xe9]) = [104; 0xe9]) ∧
  (∀ b, 0x80 <= b < 0x100 → printable <$> utf8 b = [0xfe; 0xfe]).
Proof.
  apply (console_write_shows 16 0x1000 0x100 0x200 0x3000 (VL := demo_volatile_laws) (CUser 1) [104; 0xe9]).
  apply demo_shows.
Defined.
