(* ===== verification/Userland.v ===== *)
(** * Ring-3 processes

    src/src/userland.rs: the user address window, the demo programs,
    [create_process_from_program], and [user_thread_entry], which drops into
    ring 3.  User pages are reached through the page tables of Paging.v;
    [ram] is the contents of physical memory, byte by byte. *)

From Stdlib Require Import ZArith Lia.
From stdpp Require Import base gmap list strings numbers functions.
From S2P Require Import Prelude AllocMod FixedSizeBlock Scheduler Machine Thread Libs Keyboard Vga Kernel.
From S2P Require Import Paging.

Open Scope Z_scope.

Definition USER_CODE_BASE : Z := 0x400000000000.
Definition USER_STACK_BASE : Z := 0x400000002000.
Definition USER_STACK_TOP : Z := 0x400000003000.

Definition USER_DEMO : list Z :=
  [ 0x48; 0xc7; 0xc0; 0x01; 0x00; 0x00; 0x00;
    0x48; 0xc7; 0xc7; 0x01; 0x00; 0x00; 0x00;
    0x48; 0x8d; 0x35; 0x18; 0x00; 0x00; 0x00;
    0x48; 0xc7; 0xc2; 0x13; 0x00; 0x00; 0x00;
    0xcd; 0x80;
    0x48; 0xc7; 0xc0; 0x00; 0x00; 0x00; 0x00;
    0x48; 0x31; 0xff;
    0xcd; 0x80;
    0xf4;
    0xeb; 0xfe;
    104; 101; 108; 108; 111; 32; 102; 114; 111; 109;
    32; 114; 105; 110; 103; 32; 51; 33; 10 ].

Definition CRASH_PF_DEMO : list Z :=
  [ 0x48; 0xb8; 0x00; 0x00; 0x00; 0x00; 0x00; 0x50; 0x00; 0x00;
    0x48; 0xc7; 0x00; 0x00; 0x00; 0x00; 0x00;
    0xf4;
    0xeb; 0xfe ].

Definition CRASH_GPF_DEMO : list Z := [ 0xf4; 0xeb; 0xfe ].

Section userland.
Context (ctx_offset bootstrap_context yield_ret exit_ret scratch : Z).
Context {W E : Type}.
Context {Q : ArrayQueue} {C : OnceCell aq} {A : AtomicWaker W} {V : Volatile} {P : Paging}.
(** The page-table walk of the CPU: the leaf entry of a page. *)
Context (walk : mapper → Z → option (Z * Z)).

Record uworld := mkUW {
  u_kernel : kworld (W := W) (E := E);
  u_mapper : mapper;
  u_frames : frames;
  u_ram : Z → Z;
}.

(** The physical address of a virtual one. *)
Definition phys (m : mapper) (v : Z) : option Z :=
  match walk m (v - v mod 4096) with
  | Some (frame, _) => Some (frame + v mod 4096)
  | None => None
  end.

(** Byte accesses by the kernel; an unmapped address is a page fault in ring
    0, which [page_fault_handler] answers with a panic. *)
Definition read_byte_at (w : uworld) (v : Z) : outcome Z :=
  match phys (u_mapper w) v with Some a => Ok (u_ram w a) | None => Panic "Page fault" end.

Fixpoint read_bytes (w : uworld) (v : Z) (n : nat) : outcome (list Z) :=
  match n with
  | O => Ok []
  | S n => b ← read_byte_at w v; bs ← read_bytes w (v + 1) n; Ok (b :: bs)
  end.

Definition write_byte_at (m : mapper) (v b : Z) (ram : Z → Z) : outcome (Z → Z) :=
  match phys m v with Some a => Ok (<[a := b]> ram) | None => Panic "Page fault" end.

(** [copy_nonoverlapping(program.as_ptr(), v, program.len())] *)
Fixpoint copy_bytes (m : mapper) (v : Z) (bytes : list Z) (ram : Z → Z) : outcome (Z → Z) :=
  match bytes with
  | [] => Ok ram
  | b :: bytes => ram ← write_byte_at m v b ram; copy_bytes m (v + 1) bytes ram
  end.

(** [allocate_frame] and [map_to_with_table_flags] for one user page. *)
Definition map_user_page (no_frame no_map : string) (base : Z) (m : mapper) (f : frames)
  : outcome (option string * mapper * frames) :=
  let leaf_flags := Z.lor (Z.lor PRESENT WRITABLE) USER_ACCESSIBLE in
  let parent_flags := Z.lor (Z.lor PRESENT WRITABLE) USER_ACCESSIBLE in
  match frame_alloc f with
  | (None, f) => Ok (Some no_frame, m, f)
  | (Some frame, f) =>
      addr ← virt_addr_new base;
      match map_to_with_table_flags m f (page_containing addr) frame leaf_flags parent_flags with
      | (Some _, m, f) => Ok (Some no_map, m, f)
      | (None, m, f) => Ok (None, m, f)
      end
  end.

(** [Ok (inl msg, _)] is [Err(msg)], [Ok (inr pid, _)] is [Ok(pid)]. *)
Definition create_process_from_program (program : list Z) (w : uworld)
  : outcome ((string + Z) * uworld) :=
  if 4096 <? Z.of_nat (length program) then Ok (inl "program doesn't fit in one page"%string, w)
  else
    '(e, m, f) ← map_user_page "no frame for user code" "map_to_user_code failed"
                   USER_CODE_BASE (u_mapper w) (u_frames w);
    match e with
    | Some msg => Ok (inl msg, mkUW (u_kernel w) m f (u_ram w))
    | None =>
        ram ← copy_bytes m USER_CODE_BASE program (u_ram w);
        '(e, m, f) ← map_user_page "no frame for user stack" "map_to_user stack failed"
                       USER_STACK_BASE m f;
        match e with
        | Some msg => Ok (inl msg, mkUW (u_kernel w) m f ram)
        | None =>
            entry ← virt_addr_new USER_CODE_BASE;
            stack_top ← virt_addr_new USER_STACK_TOP;
            r ← Kernel.call ctx_offset bootstrap_context yield_ret exit_ret scratch
                  CKernel (ProcessCreate entry stack_top) (u_kernel w);
            match r with
            | Returned (RProcess p) k => Ok (inr p, mkUW k m f ram)
            | Returned (RErr _) k => Ok (inl "process registration denied"%string, mkUW k m f ram)
            | Returned _ k | NoReturn k =>
                Ok (inl "process registration returned an unexpected response"%string, mkUW k m f ram)
            end
        end
    end.

Definition create_demo_process : uworld → outcome ((string + Z) * uworld) :=
  create_process_from_program USER_DEMO.

(** [user_entry_fn] is the address of [user_thread_entry]. *)
Definition spawn_user_thread (user_entry_fn p : Z) (k : kworld (W := W) (E := E))
  : outcome (kworld (W := W) (E := E)) :=
  '(_, ts) ← spawn Fixed.alloc Fixed.scribble ctx_offset user_entry_fn p (kw_threads k);
  Ok (with_threads ts k).

(** The selectors of the GDT, and the registers the compiler gave to the
    operands of the [asm!] block. *)
Context (user_code user_data : Z) (r_ss r_rsp r_cs r_rip : reg).

Definition enter_userland_at (rip rsp : Z) (m : machine) : outcome machine :=
  run (enter_userland r_ss r_rsp r_cs r_rip)
    (set_reg r_ss user_data (set_reg r_rsp rsp (set_reg r_cs user_code (set_reg r_rip rip m)))).

Definition user_thread_entry (k : kworld (W := W) (E := E)) : outcome (kworld (W := W) (E := E)) :=
  let p := current_process (tw_sched (kw_threads k)) in
  r ← Kernel.call ctx_offset bootstrap_context yield_ret exit_ret scratch
        (CUser p) (ProcessSnapshotReq p) k;
  match r with
  | Returned (RSnapshot (Some snap)) k =>
      m ← enter_userland_at (snap_user_entry snap) (snap_user_stack_top snap) (tw_mach (kw_threads k));
      Ok (with_threads (with_mach m (kw_threads k)) k)
  | _ => Panic "user_thread_entry: pid missing from registry"
  end.
End userland.

(** ** Lemmas *)

Lemma page_offset base i : (4096 | base) → 0 <= i < 4096 → (base + i) mod 4096 = i.
Proof.
  intros [q ->] Hi. rewrite Z.add_comm, Z.mod_add by lia. by apply Z.mod_small.
Qed.

Section memory.
Context {P : Paging} (walk : mapper → Z → option (Z * Z)).
Context (m : mapper) (base frame flags : Z).
Context (Hbase : (4096 | base)) (Hwalk : walk m base = Some (frame, flags)).

Lemma phys_in_page i : 0 <= i < 4096 → phys walk m (base + i) = Some (frame + i).
Proof.
  intros Hi. unfold phys. rewrite page_offset by done.
  replace (base + i - i) with base by lia. by rewrite Hwalk.
Qed.

Lemma copy_bytes_spec bytes off ram :
  0 <= off → off + Z.of_nat (length bytes) <= 4096 →
  ∃ ram', copy_bytes walk m (base + off) bytes ram = Ok ram' ∧
    (∀ i b, bytes !! i = Some b → ram' (frame + off + Z.of_nat i) = b) ∧
    (∀ a, a < frame + off → ram' a = ram a).
Proof.
  revert off ram. induction bytes as [|b bytes IH]; intros off ram H0 Hl.
  { exists ram. done. }
  cbn [length] in Hl. cbn [copy_bytes]. unfold write_byte_at. rewrite phys_in_page by lia. bstep.
  destruct (IH (off + 1) (<[frame + off := b]> ram)) as (ram' & Hc & Hb & Ha); [lia|lia|].
  rewrite <- Z.add_assoc, Hc. exists ram'. split; [done|]. split.
  - intros [|i] c Hi; simpl in Hi.
    + injection Hi as ->. rewrite Z.add_0_r, Ha by lia. apply fn_lookup_insert.
    + rewrite <- (Hb i c Hi). f_equal. lia.
  - intros a Hlt. rewrite Ha by lia. apply fn_lookup_insert_ne. lia.
Qed.
End memory.

Section read.
Context {W E : Type}.
Context {Q : ArrayQueue} {C : OnceCell aq} {A : AtomicWaker W} {V : Volatile} {P : Paging}.
Context (walk : mapper → Z → option (Z * Z)).

Lemma read_bytes_spec (w : uworld (W := W) (E := E)) base frame flags bytes off :
  (4096 | base) → walk (u_mapper w) base = Some (frame, flags) →
  0 <= off → off + Z.of_nat (length bytes) <= 4096 →
  (∀ i b, bytes !! i = Some b → u_ram w (frame + off + Z.of_nat i) = b) →
  read_bytes walk w (base + off) (length bytes) = Ok bytes.
Proof.
  intros Hb Hw. revert off. induction bytes as [|b bytes IH]; intros off H0 Hl Hr; [done|].
  cbn [length] in *. cbn [read_bytes]. unfold read_byte_at.
  rewrite (phys_in_page walk _ base frame flags) by (done || lia). bstep.
  rewrite <- Z.add_assoc, IH; [|lia|lia|]; bstep.
  - do 2 f_equal. rewrite <- (Hr 0%nat b) by done. f_equal. lia.
  - intros i c Hi. rewrite <- (Hr (S i) c Hi). f_equal. lia.
Qed.
End read.

(** One user page: either an error, which changes no mapping, or the page is
    mapped and reachable from ring 3. *)
Section map_user_page.
Context {P : Paging} {L : PagingLaws P}.

Lemma map_user_page_spec no_frame no_map base m f :
  (4096 | base) → 0 <= base < 2 ^ 47 →
  ∃ e m' f', map_user_page no_frame no_map base m f = Ok (e, m', f') ∧
    (∀ q, ring3 m q → ring3 m' q) ∧
    match e with
    | Some _ => ∀ q, translate m' q = translate m q
    | None => translate m base = None ∧ ring3 m' base ∧
        (∃ frame, translate m' base = Some (frame, 7)) ∧
        ∀ q, q ≠ base → translate m' q = translate m q
    end.
Proof.
  intros Hb Hr. unfold map_user_page. destruct (frame_alloc f) as [[frame|] f1]; [|eauto 10].
  rewrite virt_addr_new_ok by done. bstep. rewrite page_containing_ok by lia.
  assert (base mod 4096 = 0) as -> by (by apply Z.mod_divide). rewrite Z.sub_0_r.
  change (Z.lor (Z.lor PRESENT WRITABLE) USER_ACCESSIBLE) with 7.
  destruct (map_to_with_table_flags_ok m f1 base frame 7 7) as [_ _ H3 He].
  destruct (map_to_with_table_flags m f1 base frame 7 7) as [[[e|] m'] f']; simpl in *.
  - destruct He as [He _]. eauto 10.
  - destruct He as (Hn & He & Hu). exists None, m', f'. split; [done|]. split; [done|].
    split; [done|]. split; [by apply Hu|]. split.
    + exists frame. by rewrite He, Z.eqb_refl.
    + intros q Hq. rewrite He. by rewrite (proj2 (Z.eqb_neq q base)).
Qed.

(** With four frames left it maps an unmapped page. *)
Lemma map_user_page_succeeds no_frame no_map base m f :
  (4096 | base) → 0 <= base < 2 ^ 47 →
  translate m base = None → small m base → (4 <= length (free_frames f))%nat →
  ∃ m' f', map_user_page no_frame no_map base m f = Ok (None, m', f') ∧
    (∀ q, small m q → small m' q) ∧ (length (free_frames f) <= length (free_frames f') + 4)%nat.
Proof.
  intros Hb Hr Ht Hs Hf. unfold map_user_page. pose proof (frame_alloc_ok f) as Ha.
  destruct (free_frames f) as [|a l]; [simpl in Hf; lia|]. destruct (frame_alloc f) as [o f1].
  simpl in Ha, Hf. destruct Ha as [-> Hf1]. rewrite virt_addr_new_ok by done. bstep.
  rewrite page_containing_ok by lia. assert (base mod 4096 = 0) as -> by (by apply Z.mod_divide). rewrite Z.sub_0_r.
  change (Z.lor (Z.lor PRESENT WRITABLE) USER_ACCESSIBLE) with 7.
  pose proof (map_to_with_table_flags_ok m f1 base a 7 7) as Hm.
  pose proof (map_result_success _ _ _ _ _ _ _ Hm Ht Hs) as Hok. destruct Hm as [(n & Hn & Hff) Hsm _ _].
  destruct (map_to_with_table_flags m f1 base a 7 7) as [[e m'] f']. simpl in *. rewrite Hok by (rewrite Hf1; lia).
  exists m', f'. split; [done|]. split; [done|]. rewrite Hff, Hf1, length_drop. simpl. lia.
Qed.
End map_user_page.
