(* ===== verification/UserlandThms.v ===== *)
(** * Theorems about ring-3 processes

    Setting up a process from a program, and entering ring 3. *)

From Stdlib Require Import ZArith Lia.
From stdpp Require Import base gmap list strings numbers functions.
From S2P Require Import Prelude AllocMod FixedSizeBlock Scheduler Machine Thread Libs Keyboard Vga Kernel.
From S2P Require Import Paging Userland KernelThms ThreadThms.

Open Scope Z_scope.

Section userland_thms.
Context (ctx_offset bootstrap_context yield_ret exit_ret scratch : Z).
Context {W E : Type}.
Context {Q : ArrayQueue} {C : OnceCell aq} {A : AtomicWaker W} {V : Volatile}.
Context {P : Paging} {L : PagingLaws P}.

Abbreviation Create := (create_process_from_program ctx_offset bootstrap_context yield_ret
  exit_ret scratch translate (W := W) (E := E)).

(** What a successful set-up leaves behind. *)
Record process_set_up (program : list Z) (w : uworld (W := W) (E := E)) (p : Z)
    (w' : uworld (W := W) (E := E)) : Prop := {
  su_pid : p = kw_next_pid (u_kernel w);
  su_kernel : u_kernel w' = (create USER_CODE_BASE USER_STACK_TOP (u_kernel w)).2;
  su_code : ring3 (u_mapper w') USER_CODE_BASE ∧ is_Some (translate (u_mapper w') USER_CODE_BASE);
  su_stack : ring3 (u_mapper w') USER_STACK_BASE ∧ is_Some (translate (u_mapper w') USER_STACK_BASE);
  su_program : read_bytes translate w' USER_CODE_BASE (length program) = Ok program;
  su_others : ∀ q, q ≠ USER_CODE_BASE → q ≠ USER_STACK_BASE →
    translate (u_mapper w') q = translate (u_mapper w) q;
}.

Lemma create_process_spec program w :
  ∃ r w', Create program w = Ok (r, w') ∧
    match r with
    | inl _ => u_kernel w' = u_kernel w
    | inr p => process_set_up program w p w'
    end.
Proof.
  unfold create_process_from_program. destruct (4096 <? _) eqn:Hlen; [by eexists _, _|]. zbool.
  assert ((4096 | USER_CODE_BASE) ∧ (4096 | USER_STACK_BASE)) as [Hc Hs]
    by (split; [by exists 17179869184|by exists 17179869186]).
  destruct (map_user_page_spec "no frame for user code" "map_to_user_code failed" USER_CODE_BASE
              (u_mapper w) (u_frames w) Hc) as (e & m & f & -> & _ & He); [done|]. bstep.
  destruct e as [msg|]; [by eexists _, _|]. destruct He as (_ & Hr & (frame & Ht) & Ho).
  destruct (copy_bytes_spec translate m USER_CODE_BASE frame 7 Hc Ht program 0 (u_ram w))
    as (ram & Hcp & Hb & _); [lia|lia|]. rewrite Z.add_0_r in Hcp. rewrite Hcp. bstep.
  destruct (map_user_page_spec "no frame for user stack" "map_to_user stack failed" USER_STACK_BASE
              m f Hs) as (e & m2 & f2 & -> & Hr2 & He); [done|]. bstep.
  destruct e as [msg|]; [by eexists _, _|]. destruct He as (_ & Hrs & (frame2 & Hts) & Ho2).
  rewrite !virt_addr_new_ok by (unfold USER_CODE_BASE, USER_STACK_TOP; lia). bstep.
  cbn [Kernel.call is_kernel negb]. destruct (create USER_CODE_BASE USER_STACK_TOP (u_kernel w))
    as [p k] eqn:Hk. bstep. eexists _, _. split; [done|].
  assert (translate m2 USER_CODE_BASE = Some (frame, 7)) as Ht2 by (by rewrite Ho2).
  split; cbn [u_kernel u_mapper]; try done.
  - by injection Hk as <- _.
  - by rewrite Hk.
  - split; [auto|]. by rewrite Ht2.
  - pose proof (read_bytes_spec translate (mkUW k m2 f2 ram) _ frame 7 program 0 Hc Ht2) as Hrd.
    rewrite (Z.add_0_r USER_CODE_BASE) in Hrd. apply Hrd; [lia|lia|done].
  - intros q Hq1 Hq2. by rewrite Ho2, Ho.
Qed.

(** With room for two pages and their tables the first set-up succeeds. *)
Lemma create_process_succeeds program w :
  Z.of_nat (length program) <= 4096 → (8 <= length (free_frames (u_frames w)))%nat →
  (∀ q, q = USER_CODE_BASE ∨ q = USER_STACK_BASE → translate (u_mapper w) q = None ∧ small (u_mapper w) q) →
  ∃ p w', Create program w = Ok (inr p, w') ∧ process_set_up program w p w'.
Proof.
  intros Hlen Hf Hq. destruct (create_process_spec program w) as (r & w' & Hc & Hr).
  destruct r as [msg|p]; [exfalso|eauto]. unfold create_process_from_program in Hc.
  rewrite (proj2 (Z.ltb_ge _ _)) in Hc by lia.
  destruct (Hq USER_CODE_BASE) as [T1 S1]; [by left|]. destruct (Hq USER_STACK_BASE) as [T2 S2]; [by right|].
  assert ((4096 | USER_CODE_BASE) ∧ (4096 | USER_STACK_BASE)) as [Dc Ds]
    by (split; [by exists 17179869184|by exists 17179869186]).
  destruct (map_user_page_spec "no frame for user code" "map_to_user_code failed" USER_CODE_BASE
    (u_mapper w) (u_frames w) Dc) as (e & m & f & E1 & _ & He); [done|].
  destruct (map_user_page_succeeds "no frame for user code" "map_to_user_code failed" USER_CODE_BASE
    (u_mapper w) (u_frames w) Dc ltac:(done) T1 S1 ltac:(lia)) as (m1 & f1 & E2 & Hsm & Hf1).
  rewrite E2 in E1. injection E1 as <- <- <-. rewrite E2 in Hc. destruct He as (_ & _ & _ & Ho).
  apply bind_inv in Hc as ([[e m] f] & [= <- <- <-] & Hc). apply bind_inv in Hc as (ram & _ & Hc).
  destruct (map_user_page_succeeds "no frame for user stack" "map_to_user stack failed" USER_STACK_BASE
    m1 f1 Ds) as (m2 & f2 & E3 & _); [done|by rewrite Ho|auto|lia|]. rewrite E3 in Hc.
  apply bind_inv in Hc as ([[e m] f] & [= <- <- <-] & Hc). apply bind_inv in Hc as (a & _ & Hc).
  apply bind_inv in Hc as (b & _ & Hc). by apply bind_inv in Hc as (x & [= <-] & Hc).
Qed.

(** Once the code page is mapped, no further process can be set up. *)
Lemma create_process_again program w :
  is_Some (translate (u_mapper w) USER_CODE_BASE) →
  ∃ msg w', Create program w = Ok (inl msg, w') ∧ u_kernel w' = u_kernel w.
Proof.
  intros [x Hx]. unfold create_process_from_program. destruct (4096 <? _); [by eexists _, _|].
  destruct (map_user_page_spec "no frame for user code" "map_to_user_code failed" USER_CODE_BASE
              (u_mapper w) (u_frames w)) as (e & m & f & -> & _ & He);
    [by exists 17179869184|done|]. bstep.
  destruct e as [msg|]; [by eexists _, _|]. destruct He as (Hn & _). congruence.
Qed.

(** C21: setting up a process never panics.  If it succeeds, the id is fresh
    from the counter, the process is registered with the fixed entry and stack
    top, both user pages are mapped and reachable from ring 3, the code page
    holds the program, and no other page changed; every later set-up then
    fails, because the pages are never unmapped.  If it fails, the kernel's
    state is as it was. *)
Theorem create_process_sets_up program w :
  ∃ r w', Create program w = Ok (r, w') ∧
    match r with
    | inl _ => u_kernel w' = u_kernel w
    | inr p => process_set_up program w p w' ∧
        ∀ program', ∃ msg w'', Create program' w' = Ok (inl msg, w'') ∧ u_kernel w'' = u_kernel w'
    end.
Proof.
  destruct (create_process_spec program w) as (r & w' & Hc & Hr). exists r, w'. split; [done|].
  destruct r as [msg|p]; [done|]. split; [done|]. intros program'.
  by apply create_process_again, (su_code _ _ _ _ Hr).
Qed.

(** ** Entering ring 3 *)

Context (user_code user_data : Z) (r_ss r_rsp r_cs r_rip : reg).

Abbreviation Entry := (user_thread_entry ctx_offset bootstrap_context yield_ret exit_ret scratch
  (W := W) (E := E) user_code user_data r_ss r_rsp r_cs r_rip).

Lemma user_thread_entry_spec k pr :
  NoDup [RSP; r_ss; r_rsp; r_cs; r_rip] →
  (8 | regs (tw_mach (kw_threads k)) RSP) → 40 <= regs (tw_mach (kw_threads k)) RSP < u64_modulus →
  kw_procs k !! current_process (tw_sched (kw_threads k)) = Some pr →
  ∃ m, Entry k = Ok (with_threads (with_mach m (kw_threads k)) k) ∧
    rip m = user_entry pr ∧ regs m RSP = user_stack_top pr ∧
    cs m = user_code ∧ ss m = user_data ∧ rflags m = 0x202 ∧
    (∀ j, j < regs (tw_mach (kw_threads k)) RSP - 40 ∨ regs (tw_mach (kw_threads k)) RSP <= j →
       mem m !! j = mem (tw_mach (kw_threads k)) !! j).
Proof.
  intros Hnd Ha Hb Hpr. unfold user_thread_entry. cbn [Kernel.call other_user]. rewrite Z.eqb_refl.
  cbn [negb]. bstep. unfold snapshot. rewrite Hpr.
  cbn [mbind option_bind snap_user_entry snap_user_stack_top]. unfold enter_userland_at.
  rewrite !list.NoDup_cons, !not_elem_of_cons in Hnd.
  destruct Hnd as ((N1 & N2 & N3 & N4 & _) & (N5 & N6 & N7 & _) & (N8 & N9 & _) & (N10 & _) & _).
  set (m := set_reg r_ss _ _).
  assert (regs m RSP = regs (tw_mach (kw_threads k)) RSP) as Hsp
    by (unfold m; simpl; by rewrite !fn_lookup_insert_ne).
  destruct (enter_userland_spec m r_ss r_rsp r_cs r_rip) as (m' & -> & H1 & H2 & H3 & H4 & H5 & H6).
  { rewrite !not_elem_of_cons. auto using not_elem_of_nil. }
  { by rewrite Hsp. }
  { by rewrite Hsp. }
  bstep. rewrite Hsp in H6. eexists. split; [done|]. rewrite H1, H2, H3, H4, H5. unfold m. simpl.
  repeat (rewrite fn_lookup_insert || rewrite fn_lookup_insert_ne by done). done.
Qed.

(** a host thread whose process is registered enters ring 3 exactly at
    the process's entry point and stack top, with the user selectors and
    interrupts enabled; if the process is gone it panics and never reaches
    ring 3. *)
Theorem user_thread_enters_ring3 k :
  NoDup [RSP; r_ss; r_rsp; r_cs; r_rip] →
  (8 | regs (tw_mach (kw_threads k)) RSP) → 40 <= regs (tw_mach (kw_threads k)) RSP < u64_modulus →
  match kw_procs k !! current_process (tw_sched (kw_threads k)) with
  | Some pr => ∃ k', Entry k = Ok k' ∧
      let m := tw_mach (kw_threads k') in
      rip m = user_entry pr ∧ regs m RSP = user_stack_top pr ∧
      cs m = user_code ∧ ss m = user_data ∧ rflags m = 0x202 ∧
      kw_procs k' = kw_procs k ∧ tw_sched (kw_threads k') = tw_sched (kw_threads k)
  | None => Entry k = Panic "user_thread_entry: pid missing from registry"
  end.
Proof.
  intros Hnd Ha Hb. destruct (kw_procs k !! current_process _) as [pr|] eqn:Hpr.
  - destruct (user_thread_entry_spec k pr Hnd Ha Hb Hpr) as (m & -> & ? & ? & ? & ? & ? & _).
    eexists. split; [done|]. done.
  - unfold user_thread_entry. cbn [Kernel.call other_user]. rewrite Z.eqb_refl.
    cbn [negb]. bstep. unfold snapshot. by rewrite Hpr.
Qed.
End userland_thms.

(** ** Witnesses: the demo process on an empty page table, and its host thread *)

Definition demo_user : uworld (Q := list_array_queue) (V := demo_volatile) (P := demo_paging) :=
  mkUW (P := demo_paging) demo_kernel ∅ demo_frames (λ _, 0).

Abbreviation demo_create := (create_process_from_program 16 0x1000 0x100 0x200 0x3000
  (@translate demo_paging demo_paging_laws)).

Definition result_of {X Y} (o : outcome (X * Y)) : option X :=
  match o with Ok (x, _) => Some x | _ => None end.

Lemma create_process_sets_up_witness :
  ∃ w', demo_create USER_DEMO demo_user = Ok (inr 1, w') ∧
    process_set_up (L := demo_paging_laws) USER_DEMO demo_user 1 w' ∧
    ∀ program', ∃ msg w'', demo_create program' w' = Ok (inl msg, w'') ∧ u_kernel w'' = u_kernel w'.
Proof.
  destruct (create_process_sets_up 16 0x1000 0x100 0x200 0x3000 (L := demo_paging_laws)
              USER_DEMO demo_user) as (r & w' & Hc & Hr).
  assert (result_of (demo_create USER_DEMO demo_user) = Some (inr 1)) as Hres
    by (vm_compute; reflexivity).
  exists w'. rewrite Hc in Hres |- *. injection Hres as ->. auto.
Defined.

Definition demo_hosted : kworld (Q := list_array_queue) (V := demo_volatile) :=
  mkKW demo_switched {[3 := mkProcess 3 None USER_CODE_BASE USER_STACK_TOP PReady]} 4
    demo_input demo_writer.

Lemma user_thread_enters_ring3_witness :
  ∃ k', user_thread_entry 16 0x1000 0x100 0x200 0x3000 0x33 0x2b RAX RCX RDX RBX demo_hosted = Ok k' ∧
    let m := tw_mach (kw_threads k') in
    rip m = USER_CODE_BASE ∧ regs m RSP = USER_STACK_TOP ∧
    cs m = 0x33 ∧ ss m = 0x2b ∧ rflags m = 0x202 ∧
    kw_procs k' = kw_procs demo_hosted ∧
    tw_sched (kw_threads k') = tw_sched (kw_threads demo_hosted).
Proof.
  apply (user_thread_enters_ring3 16 0x1000 0x100 0x200 0x3000 0x33 0x2b RAX RCX RDX RBX demo_hosted).
  - by_decide.
  - apply Z.mod_divide; [done|]. vm_compute. reflexivity.
  - vm_compute. split; congruence.
Defined.
