(* ===== verification/Syscall.v ===== *)
(** * System calls

    src/src/syscall.rs: the saved register frame, the decoder
    [syscall_dispatch], the four system calls and the check of user buffers.
    The assembly around it, [syscall_isr], is in Machine.v. *)

From Stdlib Require Import ZArith Lia.
From stdpp Require Import base gmap list strings numbers functions.
From S2P Require Import Prelude AllocMod FixedSizeBlock Scheduler Machine Thread Libs Keyboard Vga Kernel.
From S2P Require Import Paging Userland.

Open Scope Z_scope.

Record SyscallFrame := mkSFrame {
  f_r15 : Z; f_r14 : Z; f_r13 : Z; f_r12 : Z;
  f_r11 : Z; f_r10 : Z; f_r9 : Z; f_r8 : Z;
  f_rdi : Z; f_rsi : Z; f_rbp : Z; f_rbx : Z;
  f_rdx : Z; f_rcx : Z; f_rax : Z;
  f_rip : Z; f_cs : Z; f_rflags : Z; f_user_rsp : Z; f_user_ss : Z;
}.

(** [frame.rax = v] *)
Definition set_rax (v : Z) (f : SyscallFrame) : SyscallFrame :=
  mkSFrame (f_r15 f) (f_r14 f) (f_r13 f) (f_r12 f) (f_r11 f) (f_r10 f) (f_r9 f) (f_r8 f)
    (f_rdi f) (f_rsi f) (f_rbp f) (f_rbx f) (f_rdx f) (f_rcx f) v
    (f_rip f) (f_cs f) (f_rflags f) (f_user_rsp f) (f_user_ss f).

(** The [repr(C)] layout, lowest address first. *)
Definition frame_words (f : SyscallFrame) : list Z :=
  [ f_r15 f; f_r14 f; f_r13 f; f_r12 f; f_r11 f; f_r10 f; f_r9 f; f_r8 f;
    f_rdi f; f_rsi f; f_rbp f; f_rbx f; f_rdx f; f_rcx f; f_rax f;
    f_rip f; f_cs f; f_rflags f; f_user_rsp f; f_user_ss f ].

Definition SYS_EXIT : Z := 0.
Definition SYS_WRITE : Z := 1.
Definition SYS_READ : Z := 2.
Definition SYS_YIELD : Z := 3.
Definition STDOUT : Z := 1.
Definition MAX_USER_IO : Z := 4096.

(** [error.errno() as u64] *)
Definition errno (e : SysError) : Z := sys_errno e mod u64_modulus.

(** [x as i32] *)
Definition as_i32 (x : Z) : Z :=
  let low := x mod 2 ^ 32 in if low <? 2 ^ 31 then low else low - 2 ^ 32.

(** [user_bytes]: the address and length of the slice. *)
Definition user_bytes (ptr len : Z) : option (Z * Z) :=
  if MAX_USER_IO <? len then None
  else
    end_ ← checked_add ptr len;
    if (ptr <? USER_CODE_BASE) || (USER_STACK_TOP <? end_) then None
    else Some (ptr, len).

Section syscall.
Context (ctx_offset bootstrap_context yield_ret exit_ret scratch : Z).
Context {W E : Type}.
Context {Q : ArrayQueue} {C : OnceCell aq} {A : AtomicWaker W} {V : Volatile} {P : Paging}.
Context (walk : mapper → Z → option (Z * Z)).

Abbreviation uworld := (uworld (W := W) (E := E)).
Abbreviation Call := (Kernel.call ctx_offset bootstrap_context yield_ret exit_ret scratch
  (W := W) (E := E)).

Definition with_kernel (k : kworld (W := W) (E := E)) (w : uworld) : uworld :=
  mkUW k (u_mapper w) (u_frames w) (u_ram w).

(** A system call returns a value for [rax], or does not return. *)
Inductive sresult :=
| SReturn (v : Z) (w : uworld)
| SGone (w : uworld).

Definition sys_exit (caller : Caller) (code : Z) (w : uworld) : outcome sresult :=
  match caller with
  | CUser p =>
      r ← Call caller (ProcessExit p code) (u_kernel w);
      match r with
      | NoReturn k => Ok (SGone (with_kernel k w))
      | Returned _ k =>
          ts ← exit_thread Fixed.dealloc ctx_offset bootstrap_context exit_ret scratch (kw_threads k);
          Ok (SGone (with_kernel (with_threads ts k) w))
      end
  | _ => Panic "sys_exit called from kernel context"
  end.

(** The slice is read when the console service prints it, byte by byte; here
    it is read first, which comes to the same: printing leaves the user's
    memory alone, and a byte that is not mapped is a page fault in ring 0,
    which ends the kernel whatever has been printed before it. *)
Definition sys_write (caller : Caller) (frame : SyscallFrame) (w : uworld) : outcome sresult :=
  if negb (f_rdi frame =? STDOUT) then Ok (SReturn (errno BadHandle) w)
  else match user_bytes (f_rsi frame) (f_rdx frame) with
  | None => Ok (SReturn (errno BadPointer) w)
  | Some (ptr, len) =>
      bytes ← read_bytes walk w ptr (Z.to_nat len);
      r ← Call caller (ConsoleWrite bytes) (u_kernel w);
      match r with
      | NoReturn k => Ok (SGone (with_kernel k w))
      | Returned (RWritten written) k => Ok (SReturn written (with_kernel k w))
      | Returned (RErr error) k => Ok (SReturn (errno error) (with_kernel k w))
      | Returned _ k => Ok (SReturn (errno Unsupported) (with_kernel k w))
      end
  end.

Definition sys_read (caller : Caller) (w : uworld) : outcome sresult :=
  r ← Call caller InputReadByte (u_kernel w);
  match r with
  | NoReturn k => Ok (SGone (with_kernel k w))
  | Returned (RByte (Some byte)) k => Ok (SReturn byte (with_kernel k w))
  | Returned (RByte None) k => Ok (SReturn (errno WouldBlock) (with_kernel k w))
  | Returned (RErr error) k => Ok (SReturn (errno error) (with_kernel k w))
  | Returned _ k => Ok (SReturn (errno Unsupported) (with_kernel k w))
  end.

Definition sys_yield (caller : Caller) (w : uworld) : outcome sresult :=
  r ← Call caller ThreadYield (u_kernel w);
  match r with
  | NoReturn k => Ok (SGone (with_kernel k w))
  | Returned ROk k => Ok (SReturn 0 (with_kernel k w))
  | Returned (RErr error) k => Ok (SReturn (errno error) (with_kernel k w))
  | Returned _ k => Ok (SReturn (errno Unsupported) (with_kernel k w))
  end.

(** [syscall_dispatch]: the frame as it is left on the stack, unless the call
    does not return. *)
Definition syscall_dispatch (frame : SyscallFrame) (w : uworld)
  : outcome (option SyscallFrame * uworld) :=
  let caller := CUser (current_process (tw_sched (kw_threads (u_kernel w)))) in
  r ← (if f_rax frame =? SYS_EXIT then sys_exit caller (as_i32 (f_rdi frame)) w
       else if f_rax frame =? SYS_WRITE then sys_write caller frame w
       else if f_rax frame =? SYS_READ then sys_read caller w
       else if f_rax frame =? SYS_YIELD then sys_yield caller w
       else Ok (SReturn (errno Unsupported) w));
  match r with
  | SReturn v w => Ok (Some (set_rax v frame), w)
  | SGone w => Ok (None, w)
  end.
End syscall.
