(* ===== verification/Interrupts.v ===== *)
(** * Interrupt and fault handlers

    src/src/interrupts.rs: the vectors, the descriptor table, the two fault
    handlers that tell ring 3 from ring 0, the timer and the keyboard with
    their end of interrupt. *)

From Stdlib Require Import ZArith Lia.
From stdpp Require Import base gmap list strings numbers functions.
From S2P Require Import Prelude AllocMod FixedSizeBlock Scheduler Machine Thread Libs Keyboard Vga Kernel.
From S2P Require Import Paging Gdt.

Open Scope Z_scope.

Definition PIC_1_OFFSET : Z := 32.
Definition PIC_2_OFFSET : Z := PIC_1_OFFSET + 8.
Definition SYSCALL_VECTOR : Z := 0x80.

Inductive InterruptIndex := Timer | IKeyboard.

Definition as_u8 (i : InterruptIndex) : Z :=
  match i with Timer => PIC_1_OFFSET | IKeyboard => PIC_1_OFFSET + 1 end.

(** ** The interrupt descriptor table *)

Inductive Handler :=
| HBreakpoint | HDoubleFault | HTimer | HKeyboard | HPageFault | HGpf | HSyscall.

(** A gate: the handler, the interrupt stack it switches to, if any, and the
    least privileged ring whose [int] instruction may use it. *)
Record Gate := mkGate { g_handler : Handler; g_ist : option nat; g_dpl : Z }.

(** The architecture's vectors of the exceptions the kernel handles. *)
Definition BREAKPOINT_VECTOR : Z := 3.
Definition DOUBLE_FAULT_VECTOR : Z := 8.
Definition GPF_VECTOR : Z := 13.
Definition PAGE_FAULT_VECTOR : Z := 14.

(** [set_handler_fn] makes a gate for ring 0 without a stack of its own. *)
Definition IDT : gmap Z Gate :=
  let idt : gmap Z Gate := ∅ in
  let idt := <[BREAKPOINT_VECTOR := mkGate HBreakpoint None 0]> idt in
  let idt := <[DOUBLE_FAULT_VECTOR := mkGate HDoubleFault (Some DOUBLE_FAULT_IST_INDEX) 0]> idt in
  let idt := <[as_u8 Timer := mkGate HTimer None 0]> idt in
  let idt := <[as_u8 IKeyboard := mkGate HKeyboard None 0]> idt in
  let idt := <[PAGE_FAULT_VECTOR := mkGate HPageFault None 0]> idt in
  let idt := <[GPF_VECTOR := mkGate HGpf None 0]> idt in
  <[SYSCALL_VECTOR := mkGate HSyscall None 3]> idt.

(** [int n] in ring 3: the handler, or a general protection fault. *)
Definition user_int (n : Z) : option Handler :=
  match IDT !! n with
  | Some g => if 3 <=? g_dpl g then Some (g_handler g) else None
  | None => None
  end.

(** The requested privilege level of the code segment that was interrupted. *)
Definition faulted_in_ring3 (code_segment : Z) : bool := Z.land code_segment 3 =? 3.

Section handlers.
Context (ctx_offset bootstrap_context yield_ret exit_ret scratch : Z).
Context {W E : Type} (wake : W → E → outcome E).
Context {Q : ArrayQueue} {C : OnceCell aq} {A : AtomicWaker W} {V : Volatile}.

Abbreviation kworld := (kworld (W := W) (E := E)).

(** It does not return; the result is the state the next thread continues
    with. *)
Definition kill_faulting_process (w : kworld) : outcome kworld :=
  let p := current_process (tw_sched (kw_threads w)) in
  if p =? KERNEL_PID then Panic "ring-3 fault without a process context"
  else
    r ← Kernel.call ctx_offset bootstrap_context yield_ret exit_ret scratch
          (CUser p) (ProcessExit p (-1)) w;
    match r with
    | NoReturn w => Ok w
    | Returned _ w =>
        ts ← exit_thread Fixed.dealloc ctx_offset bootstrap_context exit_ret scratch (kw_threads w);
        Ok (with_threads ts w)
    end.

(** [report] is the formatted message of the [println!]. *)
Definition fault_handler (panic_msg : string) (report : list Z) (code_segment : Z) (w : kworld)
  : outcome kworld :=
  c ← write_str report (kw_console w);
  let w := with_console c w in
  if faulted_in_ring3 code_segment then kill_faulting_process w else Panic panic_msg.

Definition gpf_handler := fault_handler "General protection fault".
Definition page_fault_handler := fault_handler "Page fault".

Definition breakpoint_handler (report : list Z) (w : kworld) : outcome kworld :=
  c ← write_str report (kw_console w);
  Ok (with_console c w).

Definition double_fault_handler (w : kworld) : outcome kworld := Panic "EXCEPTION: DOUBLE FAULT".

(** ** Hardware interrupts *)

Context {IO : PortIo} {PIC : ChainedPics}.

(** The ports and [PICS]. *)
Record devices := mkDev { dev_io : io; PICS : pics }.

Definition DATA_PORT : Z := 0x60.

(** The heartbeat the tick logs, if any, comes with the result. *)
Definition timer_interrupt_handler (w : kworld) (d : devices)
  : outcome (option heartbeat * kworld * devices) :=
  '(b, w) ← kernel_tick w;
  Ok (b, w, mkDev (dev_io d) (notify_end_of_interrupt (as_u8 Timer) (PICS d))).

(** Likewise the warning. *)
Definition keyboard_interrupt_handler (w : kworld) (d : devices)
  : outcome (option string * kworld * devices) :=
  let '(scancode, ports) := inb DATA_PORT (dev_io d) in
  '(warning, w) ← on_scancode wake scancode w;
  Ok (warning, w, mkDev ports (notify_end_of_interrupt (as_u8 IKeyboard) (PICS d))).

(** The handler behind the gate of a hardware interrupt. *)
Definition irq_handler (i : InterruptIndex) (w : kworld) (d : devices) : outcome (kworld * devices) :=
  match i with
  | Timer => '(_, w, d) ← timer_interrupt_handler w d; Ok (w, d)
  | IKeyboard => '(_, w, d) ← keyboard_interrupt_handler w d; Ok (w, d)
  end.
End handlers.
