(* ===== verification/Startup.v ===== *)
(** * The startup tasks

    The two tasks [kernel_main] gives the executor: [example_task] of
    src/src/demos.rs and [print_keypresses] of src/src/task/keyboard.rs, run by
    the executor of Executor.v in the loop of ExecLoop.v, with the interrupt
    handlers of Interrupts.v.  The shared state of the futures is the kernel;
    interrupts arrive between the steps of the loop and between the atomic
    operations of the keyboard task's poll. *)

From Stdlib Require Import ZArith Lia.
From stdpp Require Import base gmap list strings numbers relations.
From S2P Require Import Prelude Fmt Scheduler Thread Libs Keyboard Executor ExecLoop Vga Kernel Interrupts.

Open Scope Z_scope.

Section startup.
Context {Q : ArrayQueue} {C : OnceCell aq} {A : AtomicWaker TaskWaker} {K : KeyDecoder} {V : Volatile}.
Context {IO : PortIo} {PIC : ChainedPics}.

Abbreviation kernel := (kworld (W := TaskWaker) (E := list Z)).
Abbreviation input := (kstate (W := TaskWaker) (E := list Z)).

(** A waker called by the interrupt handler: its id goes to the executor's
    queue, in the order of the calls. *)
Definition note_wake (k : TaskWaker) (woken : list Z) : outcome (list Z) := Ok (woken ++ [tw_task_id k]).

(** The kernel and the devices; for each atomic operation of the polls to
    come, the interrupt that arrives before it, if any; and the history of the
    scancodes: those the interrupt queued, those the task took. *)
Record senv := mkS {
  s_kernel : kernel;
  s_dev : devices;
  s_arrivals : list (option InterruptIndex);
  s_queued : list Z;
  s_handled : list Z;
}.

Definition s_input (s : senv) : input := kw_input (s_kernel s).

Definition set_kernel (k : kernel) (s : senv) : senv :=
  mkS k (s_dev s) (s_arrivals s) (s_queued s) (s_handled s).

Definition set_input (st : input) (s : senv) : senv := set_kernel (with_input st (s_kernel s)) s.

#[export] Instance senv_stats : HasStats senv := {|
  stats s := tw_stats (kw_threads (s_kernel s));
  set_stats c s := set_kernel (with_threads (with_stats c (kw_threads (s_kernel s))) (s_kernel s)) s;
  stats_set _ _ := eq_refl;
|}.

(** ** Interrupts *)

Definition take_interrupt (i : InterruptIndex) (s : senv) : outcome senv :=
  match i with
  | Timer =>
      '(_, k, d) ← timer_interrupt_handler (s_kernel s) (s_dev s);
      Ok (mkS k d (s_arrivals s) (s_queued s) (s_handled s))
  | IKeyboard =>
      let scancode := (inb DATA_PORT (dev_io (s_dev s))).1 in
      '(warning, k, d) ← keyboard_interrupt_handler note_wake (s_kernel s) (s_dev s);
      Ok (mkS k d (s_arrivals s)
            (match warning with None => s_queued s ++ [scancode] | Some _ => s_queued s end)
            (s_handled s))
  end.

(** The wakers called since the last time, and none from now on. *)
Definition take_woken (s : senv) : list Z * senv :=
  let st := s_input s in
  (k_env st, set_input (mkK (SCANCODE_QUEUE st) (KEY_QUEUE st) (WAKER st) []) s).

(** An interrupt between two steps of the executor's loop. *)
Definition startup_irq (i : InterruptIndex) (s : senv) : outcome (list Z * senv) :=
  s ← take_interrupt i s; Ok (take_woken s).

(** An interrupt before an atomic operation of a poll. *)
Definition arrive (s : senv) : outcome senv :=
  match s_arrivals s with
  | [] => Ok s
  | a :: l =>
      let s := mkS (s_kernel s) (s_dev s) l (s_queued s) (s_handled s) in
      match a with Some i => take_interrupt i s | None => Ok s end
  end.

(** ** The tasks *)

(** [example_task], which has one poll in it; [print_keypresses], before its
    first poll, and after it with its decoder. *)
Inductive startup := ExampleTask | PrintKeypresses (decoder : option keyboard).

(** The body of the [while let] for one scancode: the decoder, the queue of
    decoded bytes, and [print!("{}", character)]. *)
Definition echo (scancode : Z) (kb : keyboard) (s : senv) : outcome (keyboard * senv) :=
  let '(out, kb, st) := handle_scancode scancode kb (s_input s) in
  c ← print (encode_utf8 <$> out) (kw_console (s_kernel s));
  Ok (kb, mkS (with_console c (with_input st (s_kernel s))) (s_dev s) (s_arrivals s) (s_queued s)
            (s_handled s ++ [scancode])).

(** A poll of [print_keypresses], from the point [p] of [poll_next]. *)
Fixpoint keypress_poll (fuel : nat) (w : TaskWaker) (p : pc) (kb : keyboard) (s : senv)
  : outcome (keyboard * senv) :=
  match fuel with
  | O => Diverge
  | S fuel =>
      s ← arrive s;
      '(p, st) ← poll_step w p (s_input s);
      let s := set_input st s in
      match p with
      | PDone Pending => Ok (kb, s)
      | PDone (Ready b) => '(kb, s) ← echo b kb s; keypress_poll fuel w PStart kb s
      | p => keypress_poll fuel w p kb s
      end
  end.

(** Four steps for each scancode queued before or during the poll, and four
    more, are enough. *)
Definition poll_fuel (s : senv) : nat :=
  (4 * (SCANCODE_QUEUE_CAPACITY + length (s_arrivals s)) + 4)%nat.

(** The first poll creates the stream and the decoder. *)
Definition begin_poll (o : option keyboard) (s : senv) : outcome (keyboard * senv) :=
  match o with
  | Some kb => Ok (kb, s)
  | None => st ← ScancodeStream_new (s_input s); Ok (keyboard_new, set_input st s)
  end.

Definition poll_startup (w : TaskWaker) (f : startup) (s : senv)
  : outcome (bool * startup * list Z * senv) :=
  match f with
  | ExampleTask => Ok (true, ExampleTask, [], s)
  | PrintKeypresses o =>
      '(kb, s) ← begin_poll o s;
      '(kb, s) ← keypress_poll (poll_fuel s) w PStart kb s;
      let '(woken, s) := take_woken s in
      Ok (false, PrintKeypresses (Some kb), woken, s)
  end.

(** [executor.spawn(Task::new(future))] *)
Definition spawn_task (future : startup) (w : xworld (Q := Q) (F := startup) (Env := senv)) : outcome xworld :=
  let '(t, w) := Task_new future w in spawn t w.

(** [CoopExecutor::new] and the two spawns of [kernel_main]. *)
Definition startup_tasks (w : xworld (Q := Q) (F := startup) (Env := senv)) : outcome xworld :=
  let w := mkX exec_new (x_next_id w) (x_log w) (x_env w) in
  w ← spawn_task ExampleTask w;
  spawn_task (PrintKeypresses None) w.
End startup.
