(* ===== verification/StartupThms.v ===== *)
(** * What the startup tasks do

    Typed keys reach the screen: whatever the timing of the interrupts, the
    scancodes the keyboard interrupt queued are decoded in order, echoed on
    the console and queued for [sys_read]; the executor does not halt while
    one is waiting; and no interrupt or poll panics as long as few keyboard
    interrupts fall into the polls themselves (Overflow.v has the other
    case). *)

From Stdlib Require Import ZArith Lia.
From stdpp Require Import base gmap list strings numbers relations.
From S2P Require Import Prelude Fmt FixedSizeBlock Scheduler Machine Thread Libs Keyboard Executor ExecLoop.
From S2P Require Import Vga Kernel Interrupts Startup.

Open Scope Z_scope.

Section startup.
Context {Q : ArrayQueue} {C : OnceCell aq} {A : AtomicWaker TaskWaker} {K : KeyDecoder} {V : Volatile}.
Context {IO : PortIo} {PIC : ChainedPics}.
Context {QL : ArrayQueueLaws Q} {CL : OnceCellLaws aq C} {AL : AtomicWakerLaws TaskWaker A}.
Context {VL : VolatileLaws V}.

(** ** Decoding, without the kernel *)

Definition decode1 (b : Z) (kb : keyboard) : list Z * keyboard :=
  let '(r, kb) := add_byte kb b in
  match r with
  | Some (Some key_event) =>
      let '(key, kb) := process_keyevent kb key_event in
      (match key with Some (Unicode c) => [c] | _ => [] end, kb)
  | _ => ([], kb)
  end.

Fixpoint decode (bs : list Z) (kb : keyboard) : list Z * keyboard :=
  match bs with
  | [] => ([], kb)
  | b :: bs => let '(out, kb) := decode1 b kb in let '(out', kb) := decode bs kb in (out ++ out', kb)
  end.

Lemma decode_snoc bs b kb :
  decode (bs ++ [b]) kb =
    ((decode bs kb).1 ++ (decode1 b (decode bs kb).2).1, (decode1 b (decode bs kb).2).2).
Proof.
  revert kb. induction bs as [|a bs IH]; intros kb; cbn [app decode].
  - cbn [fst snd]. destruct (decode1 b kb). cbn. by rewrite app_nil_r.
  - destruct (decode1 a kb) as [out kb1]. rewrite IH. destruct (decode bs kb1). cbn. by rewrite app_assoc.
Qed.

Lemma handle_decode1 b kb (st : kstate (W := TaskWaker) (E := list Z)) :
  ∃ st', handle_scancode b kb st = (decode1 b kb, st').
Proof.
  unfold handle_scancode, decode1. destruct (add_byte kb b) as [[[ev|]|] kb1]; [|by eexists..].
  destruct (process_keyevent kb1 ev) as [[[c|k]|] kb2]; by eexists.
Qed.

(** ** Interrupts *)

Definition woken (k : TaskWaker) (e : list Z) : Prop := tw_task_id k ∈ e.

Lemma note_wake_sets k e e' : note_wake k e = Ok e' → woken k e'.
Proof. intros [= <-]. apply elem_of_app. right. by apply list_elem_of_singleton. Qed.

Lemma note_wake_keeps k v e e' : note_wake v e = Ok e' → woken k e → woken k e'.
Proof. intros [= <-] H. apply elem_of_app. by left. Qed.

(** What an interrupt leaves alone, and what it does to the input. *)
Record irq_kept (s s' : senv) : Prop := {
  ik_arrivals : s_arrivals s' = s_arrivals s;
  ik_handled : s_handled s' = s_handled s;
  ik_console : kw_console (s_kernel s') = kw_console (s_kernel s);
  ik_alive : tasks_alive (stats s') = tasks_alive (stats s);
  ik_input : (s_input s' = s_input s ∧ s_queued s' = s_queued s) ∨
    ∃ b, add_scancode note_wake b (s_input s) = Ok (None, s_input s') ∧ s_queued s' = s_queued s ++ [b];
}.

Lemma take_interrupt_kept i s s' : take_interrupt i s = Ok s' → irq_kept s s'.
Proof.
  intros H. destruct i; cbn [take_interrupt] in H.
  - apply bind_inv in H as ([[hb k] d] & Hh & [= <-]).
    apply bind_inv in Hh as ([b k'] & Hk & [= <- <- <-]).
    apply bind_inv in Hk as ([b' c] & Ht & [= _ <-]).
    apply bind_inv in Ht as (n & _ & [= _ <-]). split; try done. by left.
  - apply bind_inv in H as ([[warning k] d] & Hh & [= <-]).
    unfold keyboard_interrupt_handler in Hh. destruct (inb DATA_PORT (dev_io (s_dev s))) as [b ports].
    apply bind_inv in Hh as ([r k'] & Hk & [= <- <- <-]).
    apply bind_inv in Hk as ([r' st] & Ha & [= <- <-]). split; try done.
    destruct r' as [msg|]; [left; split; [|done]|right; by exists b].
    by apply (add_scancode_spec note_wake) in Ha.
Qed.

Lemma timer_keeps_input s s' : take_interrupt Timer s = Ok s' → s_input s' = s_input s.
Proof.
  intros H. cbn [take_interrupt] in H. apply bind_inv in H as ([[hb k] d] & Hh & [= <-]).
  apply bind_inv in Hh as ([b k'] & Hk & [= <- <- <-]).
  by apply bind_inv in Hk as ([b' c] & Ht & [= _ <-]).
Qed.

(** The only panic of a handler is the overflow of the tick counter. *)
Lemma add_scancode_total b (st : kstate (W := TaskWaker) (E := list Z)) :
  ∃ r st', add_scancode note_wake b st = Ok (r, st').
Proof.
  unfold add_scancode, waker_wake. destruct (try_get (SCANCODE_QUEUE st)) as [q|]; [|by repeat eexists].
  destruct (aq_push q b) as [q'|]; [|by repeat eexists].
  destruct (aw_take (WAKER (set_scancodes st q'))) as [[k|] a]; by repeat eexists.
Qed.

Definition is_tick (i : InterruptIndex) : Z := match i with Timer => 1 | IKeyboard => 0 end.

Lemma take_interrupt_total i s :
  0 <= tick_count (stats s) → tick_count (stats s) + is_tick i < u64_modulus →
  ∃ s', take_interrupt i s = Ok s' ∧ tick_count (stats s') = tick_count (stats s) + is_tick i.
Proof.
  intros H0 Ht. destruct i; cbn [take_interrupt is_tick] in *.
  - unfold timer_interrupt_handler, kernel_tick, tick. cbn [stats senv_stats] in *.
    rewrite add_u64_ok by lia. bstep. eexists. split; [done|]. cbn.
    rewrite wrapping_add_ok by lia. lia.
  - unfold keyboard_interrupt_handler. destruct (inb DATA_PORT (dev_io (s_dev s))) as [b ports].
    unfold on_scancode. destruct (add_scancode_total b (kw_input (s_kernel s))) as (r & st & ->). bstep.
    eexists. split; [done|]. cbn in *. lia.
Qed.
(** ** The invariant of a poll *)

Definition queue_ok (st : kstate (W := TaskWaker) (E := list Z)) : Prop :=
  ∃ q, try_get (SCANCODE_QUEUE st) = Some q ∧ aq_cap q = SCANCODE_QUEUE_CAPACITY ∧
    (length (aq_list q) <= SCANCODE_QUEUE_CAPACITY)%nat.

Lemma queue_ok_ready st : queue_ok st → scancodes_ready st.
Proof. intros (q & Hq & _). by eexists. Qed.

Lemma queue_ok_length st : queue_ok st → (length (scancodes st) <= SCANCODE_QUEUE_CAPACITY)%nat.
Proof. intros (q & Hq & _ & Hl). unfold scancodes. by rewrite Hq. Qed.

Lemma add_scancode_queue b r st st' :
  add_scancode note_wake b st = Ok (r, st') → KEY_QUEUE st' = KEY_QUEUE st ∧ (queue_ok st → queue_ok st').
Proof.
  unfold add_scancode. destruct (try_get (SCANCODE_QUEUE st)) as [q|] eqn:Hq; [|by intros [= <- <-]].
  pose proof (aq_push_ok q b) as Hp. case_bool_decide as Hlt.
  - destruct Hp as (q' & -> & Hl & Hc). intros He. apply bind_inv in He as (st1 & Hw & [= <- <-]).
    destruct (waker_wake_spec _ _ _ Hw) as (E1 & -> & _). split; [done|]. intros (q0 & Hq0 & Hc0 & Hl0).
    assert (q0 = q) as -> by congruence. exists q'. rewrite E1. split; [by eapply set_scancodes_get|].
    split; [congruence|]. rewrite Hl, length_app. simpl. lia.
  - rewrite Hp. by intros [= <- <-].
Qed.

(** The scancode a poll has taken and not handled yet. *)
Definition held (p : pc) : list Z :=
  match p with PTake b | PDone (Ready b) => [b] | _ => [] end.

(** What was decoded so far. *)
Abbreviation decoded s := (decode (s_handled s) keyboard_new).

Record task_inv (T : Z) (term0 : terminal) (kb : keyboard) (s : senv) : Prop := {
  ta_queue : queue_ok (s_input s);
  ta_keys : ∃ q, try_get (KEY_QUEUE (s_input s)) = Some q ∧ aq_cap q = KEY_QUEUE_CAPACITY ∧
    aq_list q = take KEY_QUEUE_CAPACITY (ascii (decoded s).1);
  ta_kb : kb = (decoded s).2;
  ta_console : shows (kw_console (s_kernel s))
    (t_write_string (mjoin (encode_utf8 <$> (decoded s).1)) term0);
  ta_waker : ∀ k, aw_get (WAKER (s_input s)) = Some k → k = TaskWaker_new T;
  ta_env : Forall (λ i, i = T) (k_env (s_input s));
}.

Record poll_inv (T : Z) (term0 : terminal) (p : pc) (kb : keyboard) (s : senv) : Prop := {
  pi_task : task_inv T term0 kb s;
  pi_wake : kinv woken (TaskWaker_new T) (p, s_input s);
  pi_fifo : s_queued s = s_handled s ++ held p ++ scancodes (s_input s);
}.

(** The keyboard and the timer interrupts that will fall into polls. *)
Definition keys_due (l : list (option InterruptIndex)) : nat :=
  sum_list_with (λ a, match a with Some IKeyboard => 1%nat | _ => 0%nat end) l.

Definition ticks_due (l : list (option InterruptIndex)) : nat :=
  sum_list_with (λ a, match a with Some Timer => 1%nat | _ => 0%nat end) l.

(** The wake-ups of a poll, done and to come; its steps to come. *)
Definition load (s : senv) : nat := (length (k_env (s_input s)) + keys_due (s_arrivals s))%nat.

Definition work (s : senv) : nat := (length (scancodes (s_input s)) + length (s_arrivals s))%nat.

Definition clock (s : senv) : Prop :=
  0 <= tick_count (stats s) ∧ tick_count (stats s) + Z.of_nat (ticks_due (s_arrivals s)) < u64_modulus.

Lemma irq_task_inv T term0 kb s s' :
  task_inv T term0 kb s → irq_kept s s' →
  task_inv T term0 kb s' ∧ (length (k_env (s_input s')) <= S (length (k_env (s_input s))))%nat ∧
  (length (scancodes (s_input s')) <= S (length (scancodes (s_input s))))%nat ∧
  (∀ l, s_queued s = l ++ scancodes (s_input s) → s_queued s' = l ++ scancodes (s_input s')).
Proof.
  intros [T1 T2 T3 T4 T5 T6] [I1 I2 I3 _ Hin].
  assert (∀ st, s_input s' = st → queue_ok st → KEY_QUEUE st = KEY_QUEUE (s_input s) →
    (∀ k, aw_get (WAKER st) = Some k → k = TaskWaker_new T) → Forall (λ i, i = T) (k_env st) →
    task_inv T term0 kb s') as Hmk.
  { intros st <- Hq Hk Hw He. split; rewrite ?I2, ?I3, ?Hk; done. }
  destruct Hin as [[E1 E2]|(b & Ha & E2)].
  - split; [by apply (Hmk (s_input s))|]. rewrite E1, E2. split_and!; [lia..|done].
  - destruct (add_scancode_queue _ _ _ _ Ha) as [Hk Hq]. apply (add_scancode_spec note_wake) in Ha.
    destruct Ha as (_ & Hs & Hw & He). rewrite Hs, E2.
    assert (k_env (s_input s') = k_env (s_input s) ∨ k_env (s_input s') = k_env (s_input s) ++ [T]) as Henv.
    { destruct (aw_get (WAKER (s_input s))) as [k|]; [|by left]. right. rewrite (T5 k eq_refl) in He.
      by injection He as <-. }
    split_and!.
    + apply (Hmk _ eq_refl); [by apply Hq|done|by rewrite Hw|].
      destruct Henv as [->| ->]; [done|]. apply Forall_app. by repeat constructor.
    + destruct Henv as [->| ->]; [lia|]. rewrite length_app. simpl. lia.
    + rewrite length_app. simpl. lia.
    + intros l ->. by rewrite app_assoc.
Qed.

Lemma irq_poll_inv T term0 p kb s s' :
  poll_inv T term0 p kb s → irq_kept s s' → poll_inv T term0 p kb s'.
Proof.
  intros [P1 P2 P3] Hi. destruct (irq_task_inv _ _ _ _ _ P1 Hi) as (P1' & _ & _ & Hf).
  split; [done| |].
  - destruct (ik_input _ _ Hi) as [[-> _]|(b & Ha & _)]; [done|].
    eapply (kstep_kinv note_wake woken note_wake_sets note_wake_keeps); [exact P2|]. by eapply kstep_irq.
  - rewrite (ik_handled _ _ Hi), app_assoc. apply Hf. by rewrite <- app_assoc.
Qed.

Lemma arrive_inv T term0 p kb s s' :
  poll_inv T term0 p kb s → arrive s = Ok s' →
  poll_inv T term0 p kb s' ∧ (load s' <= load s)%nat ∧ (work s' <= work s)%nat.
Proof.
  intros Hp. unfold arrive, load, work. destruct (s_arrivals s) as [|a l] eqn:Ha.
  { intros [= <-]. rewrite Ha. done. }
  set (s1 := mkS _ _ _ _ _). assert (poll_inv T term0 p kb s1) as Hp1 by (by destruct Hp as [[] ? ?]).
  destruct a as [i|]; [|intros [= <-]; split; [done|]; subst s1; unfold s_input; cbn; lia].
  intros Hi. pose proof Hi as Hk. apply take_interrupt_kept in Hk. split; [by eapply irq_poll_inv|].
  destruct (irq_task_inv _ _ _ _ _ (pi_task _ _ _ _ _ Hp1) Hk) as (_ & E1 & E2 & _).
  rewrite (ik_arrivals _ _ Hk). subst s1. destruct i.
  - rewrite (timer_keeps_input _ _ Hi). unfold s_input. cbn. lia.
  - unfold s_input in *. cbn in *. lia.
Qed.

Lemma arrive_total s : clock s → ∃ s', arrive s = Ok s' ∧ clock s'.
Proof.
  intros [H0 H1]. unfold arrive. destruct (s_arrivals s) as [|a l] eqn:Ha; [exists s; split; [done|]; by split; rewrite ?Ha|].
  set (s1 := mkS _ _ _ _ _).
  destruct a as [i|]; [|exists s1; split; [done|]; split; cbn in *; lia].
  destruct (take_interrupt_total i s1) as (s' & Hs & Hb); [done|destruct i; cbn in *; lia|].
  exists s'. split; [done|]. pose proof (ik_arrivals _ _ (take_interrupt_kept _ _ _ Hs)) as E.
  unfold clock. rewrite E, Hb. subst s1. destruct i; cbn in *; lia.
Qed.
(** ** The steps of a poll *)

Definition rank (p : pc) : nat :=
  match p with
  | PStart => 3 | PRegister => 2 | PRecheck => 1 | PTake _ => 4
  | PDone (Ready _) => 3 | PDone Pending => 0
  end%nat.

Lemma pop_queue_ok st : queue_ok st → ∀ b st', pop_scancode st = Ok (b, st') → queue_ok st'.
Proof.
  intros (q & Hq & Hc & Hl) b st'. unfold pop_scancode. rewrite Hq. cbn [expect]. bstep.
  pose proof (aq_pop_ok q) as Hp. destruct (aq_list q) as [|x l] eqn:El.
  - rewrite Hp. intros [= <- <-]. exists q. by rewrite El.
  - destruct Hp as (q' & -> & Hl' & Hc'). intros [= <- <-]. exists q'.
    split; [by eapply set_scancodes_get|]. rewrite Hl', Hc'. split; [done|]. cbn [length] in Hl. lia.
Qed.

(** Everything but the waker and the queue stays. *)
Lemma set_input_task T term0 kb s st :
  task_inv T term0 kb s → queue_ok st → KEY_QUEUE st = KEY_QUEUE (s_input s) →
  (aw_get (WAKER st) = aw_get (WAKER (s_input s)) ∨ aw_get (WAKER st) = None ∨
   aw_get (WAKER st) = Some (TaskWaker_new T)) →
  k_env st = k_env (s_input s) → task_inv T term0 kb (set_input st s).
Proof.
  intros [T1 T2 T3 T4 T5 T6] Hq Hk Hw He.
  split; change (s_input (set_input st s)) with st; rewrite ?Hk, ?He; try done.
  intros k. destruct Hw as [->|[->| ->]]; [apply T5|done|by intros [= <-]].
Qed.

Lemma poll_step_inv T term0 p kb s :
  poll_inv T term0 p kb s → (∀ r, p ≠ PDone r) →
  ∃ p' st, poll_step (TaskWaker_new T) p (s_input s) = Ok (p', st) ∧
    poll_inv T term0 p' kb (set_input st s) ∧ k_env st = k_env (s_input s) ∧
    (rank p' + 4 * length (scancodes st) < rank p + 4 * length (scancodes (s_input s)))%nat.
Proof.
  intros [P1 P2 P3] Hnd.
  assert (∃ p' st, poll_step (TaskWaker_new T) p (s_input s) = Ok (p', st) ∧
    task_inv T term0 kb (set_input st s) ∧ k_env st = k_env (s_input s) ∧
    held p ++ scancodes (s_input s) = held p' ++ scancodes st ∧
    (rank p' + 4 * length (scancodes st) < rank p + 4 * length (scancodes (s_input s)))%nat)
    as (p' & st & Hp & Ht & He & Hh & Hr).
  { pose proof (ta_queue _ _ _ _ P1) as Hq.
    pose proof (pop_scancode_spec (s_input s) (queue_ok_ready _ Hq)) as Hpop.
    pose proof (pop_queue_ok _ Hq) as Hq'.
    destruct p as [| | |b|r]; cbn [poll_step]; [| | | |by destruct (Hnd r)].
    1, 3: destruct (scancodes (s_input s)) as [|c l] eqn:Hs;
      [rewrite Hpop; bstep; do 2 eexists; split; [done|]; rewrite Hs; split;
        [apply set_input_task; auto|cbn [rank held app length]; split_and!; [done..|lia]]
      |destruct Hpop as (st & Hst & Hr & Hl & Hw & Hv & Hk); rewrite Hst; bstep; do 2 eexists; split; [done|];
        rewrite Hl; split; [apply set_input_task; eauto; left; by rewrite Hw
        |cbn [rank held app length]; split_and!; [done..|lia]]].
    - do 2 eexists. split; [done|]. split;
        [|unfold scancodes; cbn [SCANCODE_QUEUE k_env rank held app]; split_and!; [done..|lia]].
      apply set_input_task; [done|done|done| |done]. right. right. apply aw_register_ok.
    - do 2 eexists. split; [done|]. split;
        [|unfold scancodes; cbn [SCANCODE_QUEUE k_env rank held app]; split_and!; [done..|lia]].
      apply set_input_task; [done|done|done| |done]. right. left. apply aw_take_ok. }
  exists p', st. split; [done|]. split; [|done]. split; [done| |].
  - eapply (kstep_kinv note_wake woken note_wake_sets note_wake_keeps); [exact P2|]. by apply kstep_poll.
  - change (s_queued (set_input st s)) with (s_queued s). rewrite P3, Hh. done.
Qed.

Lemma t_write_string_app a b t : t_write_string (a ++ b) t = t_write_string b (t_write_string a t).
Proof. unfold t_write_string. by rewrite foldl_app. Qed.

Lemma echo_inv T term0 b kb s :
  poll_inv T term0 (PDone (Ready b)) kb s →
  ∃ kb' s', echo b kb s = Ok (kb', s') ∧ poll_inv T term0 PStart kb' s' ∧
    s_arrivals s' = s_arrivals s ∧ stats s' = stats s ∧ k_env (s_input s') = k_env (s_input s) ∧
    scancodes (s_input s') = scancodes (s_input s).
Proof.
  intros [[T1 (q & Hq & Hc & Hl) T3 T4 T5 T6] [Hr _] P3]. unfold echo.
  destruct (handle_decode1 b kb (s_input s)) as [st Hh]. pose proof Hh as Hd. rewrite Hh.
  destruct (decode1 b kb) as [out kb'] eqn:Hdec.
  destruct (handle_scancode_spec _ _ _ _ _ _ q Hd Hq) as (S1 & S2 & S3 & q' & Hq' & Hc' & Hl').
  destruct (print_refines (encode_utf8 <$> out) _ _ T4) as (c & -> & Hsh). bstep.
  do 2 eexists. split; [done|]. unfold scancodes. cbn [s_input s_kernel with_console with_input kw_input].
  rewrite S1. split; [|done]. specialize (Hl' ltac:(rewrite Hl, length_take; lia)).
  split; [|split; [|done]|].
  - split; cbn [s_input s_kernel with_console with_input kw_input kw_console s_handled];
      unfold s_input; cbn [s_kernel with_console with_input kw_input]; rewrite ?S2, ?S3; try done.
    + destruct T1 as (q0 & ?). exists q0. by rewrite S1.
    + exists q'. rewrite Hl', Hl, Hc', Hc, decode_snoc, <- T3, Hdec. cbn [fst]. split; [done|]. split; [done|].
      unfold ascii. rewrite list.filter_app. apply take_take_app.
    + by rewrite decode_snoc, <- T3, Hdec.
    + rewrite decode_snoc, <- T3, Hdec. cbn [fst]. by rewrite fmap_app, join_app, t_write_string_app.
  - unfold scancodes_ready in *. cbn in *. unfold s_input. cbn. by rewrite S1.
  - cbn [s_queued s_handled held]. unfold s_input at 1. cbn. rewrite P3. unfold scancodes. rewrite S1. cbn.
    by rewrite <- app_assoc.
Qed.
(** One turn of [keypress_poll]. *)
Lemma keypress_turn T term0 p kb s s1 :
  poll_inv T term0 p kb s → (∀ r, p ≠ PDone r) → arrive s = Ok s1 →
  ∃ p' st, poll_step (TaskWaker_new T) p (s_input s1) = Ok (p', st) ∧
    poll_inv T term0 p' kb (set_input st s1) ∧ (load (set_input st s1) <= load s)%nat ∧
    (rank p' + 4 * work (set_input st s1) < rank p + 4 * work s)%nat.
Proof.
  intros Hp Hnd Ha. destruct (arrive_inv _ _ _ _ _ _ Hp Ha) as (Hp1 & Hl & Hw).
  destruct (poll_step_inv _ _ _ _ _ Hp1 Hnd) as (p' & st & Hst & Hp2 & He & Hr).
  exists p', st. split; [done|]. split; [done|]. unfold load, work in *.
  change (s_input (set_input st s1)) with st. change (s_arrivals (set_input st s1)) with (s_arrivals s1).
  rewrite He. lia.
Qed.

Lemma keypress_poll_inv fuel T term0 p kb s kb' s' :
  poll_inv T term0 p kb s → (∀ r, p ≠ PDone r) →
  keypress_poll fuel (TaskWaker_new T) p kb s = Ok (kb', s') →
  poll_inv T term0 (PDone Pending) kb' s' ∧ (load s' <= load s)%nat.
Proof.
  revert p kb s. induction fuel as [|fuel IH]; intros p kb s Hp Hnd Hk; [done|].
  cbn [keypress_poll] in Hk. apply bind_inv in Hk as (s1 & Ha & Hk).
  destruct (keypress_turn _ _ _ _ _ _ Hp Hnd Ha) as (p' & st & Hst & Hp2 & Hl & _).
  rewrite Hst in Hk. cbn [mbind outcome_bind] in Hk.
  assert (∀ p1 kb1 s2, poll_inv T term0 p1 kb1 s2 → (∀ r, p1 ≠ PDone r) → (load s2 <= load s)%nat →
    keypress_poll fuel (TaskWaker_new T) p1 kb1 s2 = Ok (kb', s') →
    poll_inv T term0 (PDone Pending) kb' s' ∧ (load s' <= load s)%nat) as Hgo.
  { intros p1 kb1 s2 H1 H2 H3 H4. destruct (IH _ _ _ H1 H2 H4) as (? & ?). split; [done|lia]. }
  destruct p' as [| | |b|[b|]]; [by eapply Hgo..| |by injection Hk as <- <-].
  destruct (echo_inv _ _ _ _ _ Hp2) as (kb2 & s2 & He & Hp3 & E1 & E2 & E3 & E4).
  rewrite He in Hk. cbn [mbind outcome_bind] in Hk.
  apply (Hgo PStart kb2 s2); [done|done| |done]. unfold load in *. by rewrite E1, E3.
Qed.

Lemma keypress_poll_total fuel T term0 p kb s :
  poll_inv T term0 p kb s → (∀ r, p ≠ PDone r) → clock s → (rank p + 4 * work s < fuel)%nat →
  ∃ kb' s', keypress_poll fuel (TaskWaker_new T) p kb s = Ok (kb', s').
Proof.
  revert p kb s. induction fuel as [|fuel IH]; intros p kb s Hp Hnd Hc Hf; [lia|].
  cbn [keypress_poll]. destruct (arrive_total s Hc) as (s1 & Ha & Hc1). rewrite Ha. bstep.
  destruct (keypress_turn _ _ _ _ _ _ Hp Hnd Ha) as (p' & st & Hst & Hp2 & _ & Hw).
  rewrite Hst. bstep. assert (clock (set_input st s1)) as Hc2 by done.
  destruct p' as [| | |b|[b|]]; [apply (IH _ kb _ Hp2); [done|done|lia]..| |by repeat eexists].
  destruct (echo_inv _ _ _ _ _ Hp2) as (kb2 & s2 & He & Hp3 & E1 & E2 & E3 & E4).
  rewrite He. bstep. apply (IH _ kb2 s2 Hp3); [done| |].
  - unfold clock in *. by rewrite E1, E2.
  - unfold work in *. rewrite E1, E4. cbn [rank] in *. lia.
Qed.
(** ** The keyboard task between its polls *)

Definition future_ok (T : Z) (term0 : terminal) (o : option keyboard) (s : senv) : Prop :=
  k_env (s_input s) = [] ∧
  match o with
  | None => try_get (SCANCODE_QUEUE (s_input s)) = None ∧ try_get (KEY_QUEUE (s_input s)) = None ∧
      aw_get (WAKER (s_input s)) = None ∧ s_queued s = [] ∧ s_handled s = [] ∧
      shows (kw_console (s_kernel s)) term0
  | Some kb => task_inv T term0 kb s ∧ s_queued s = s_handled s ++ scancodes (s_input s)
  end.

(** The task's waker is registered and there is nothing for it to do. *)
Definition parked (T : Z) (s : senv) : Prop :=
  aw_get (WAKER (s_input s)) = Some (TaskWaker_new T) ∧ scancodes (s_input s) = [].

Lemma begin_poll_inv T term0 o s :
  future_ok T term0 o s →
  ∃ kb s1, begin_poll o s = Ok (kb, s1) ∧ poll_inv T term0 PStart kb s1 ∧ k_env (s_input s1) = [] ∧
    s_arrivals s1 = s_arrivals s ∧ stats s1 = stats s.
Proof.
  intros [He Ho]. destruct o as [kb|]; cbn [begin_poll].
  - destruct Ho as [Ht Hf]. exists kb, s. split_and!; try done. split; [done| |done].
    split; [|done]. apply queue_ok_ready, Ht.
  - destruct Ho as (H1 & H2 & H3 & H4 & H5 & H6). unfold ScancodeStream_new.
    destruct (init_fresh _ (aq_new SCANCODE_QUEUE_CAPACITY) H1) as (c1 & -> & G1).
    destruct (init_fresh _ (aq_new KEY_QUEUE_CAPACITY) H2) as (c2 & -> & G2). cbn [expect]. bstep.
    destruct (aq_new_ok SCANCODE_QUEUE_CAPACITY) as [N1 N2]; [unfold SCANCODE_QUEUE_CAPACITY; lia|].
    destruct (aq_new_ok KEY_QUEUE_CAPACITY) as [M1 M2]; [unfold KEY_QUEUE_CAPACITY; lia|].
    set (st := mkK _ _ _ _). do 2 eexists. split; [done|]. split_and!; try done.
    assert (scancodes st = []) as Hsc by (unfold scancodes; cbn; by rewrite G1).
    split; [|split; [by eexists|done]|].
    + split; change (s_input (set_input st s)) with st; change (s_handled (set_input st s)) with (s_handled s);
        rewrite ?H5; try done.
      * exists (aq_new SCANCODE_QUEUE_CAPACITY). rewrite N1. split; [done|]. split; [done|]. simpl. lia.
      * exists (aq_new KEY_QUEUE_CAPACITY). by rewrite M1.
      * intros k. cbn. by rewrite H3.
      * cbn [st k_env]. rewrite He. constructor.
    + change (s_input (set_input st s)) with st. rewrite Hsc. cbn. by rewrite H4, H5.
Qed.

(** Forgetting the wake-ups handed over. *)
Lemma take_woken_task T term0 kb s : task_inv T term0 kb s → task_inv T term0 kb (take_woken s).2.
Proof. intros [T1 T2 T3 T4 T5 T6]. split; try done. Qed.

Lemma poll_keys_ok T term0 o s r f l s' :
  future_ok T term0 o s → poll_startup (TaskWaker_new T) (PrintKeypresses o) s = Ok (r, f, l, s') →
  r = false ∧ (∃ kb, f = PrintKeypresses (Some kb) ∧ future_ok T term0 (Some kb) s') ∧
  (parked T s' ∨ T ∈ l) ∧ (length l + keys_due (s_arrivals s') <= keys_due (s_arrivals s))%nat.
Proof.
  intros Ho Hp. unfold poll_startup in Hp.
  destruct (begin_poll_inv T term0 o s Ho) as (kb & s1 & Hb & Hi & He & Ha & Hs). rewrite Hb in Hp.
  apply bind_inv in Hp as ([kb0 s0] & [= <- <-] & Hp). apply bind_inv in Hp as ([kb' s2] & Hk & Hp).
  rewrite (surjective_pairing (take_woken s2)) in Hp. injection Hp as <- <- <- <-.
  destruct (keypress_poll_inv _ T term0 PStart kb s1 kb' s2 Hi ltac:(done) Hk) as (Hi2 & Hl).
  destruct Hi2 as [P1 [_ P2] P3]. cbn [fst snd] in P2. split; [done|]. split_and!.
  - exists kb'. split; [done|]. split; [done|]. split; [by apply take_woken_task|done].
  - destruct P2 as [?|?]; [by left|by right].
  - unfold load in Hl. by rewrite He, Ha in Hl.
Qed.

Lemma poll_keys_total T term0 o s :
  future_ok T term0 o s → clock s →
  ∃ r f l s', poll_startup (TaskWaker_new T) (PrintKeypresses o) s = Ok (r, f, l, s').
Proof.
  intros Ho Hc. unfold poll_startup.
  destruct (begin_poll_inv T term0 o s Ho) as (kb & s1 & -> & Hi & He & Ha & Hs).
  rewrite (bind_ok _ _ _ eq_refl). destruct (keypress_poll_total (poll_fuel s1) T term0 PStart kb s1 Hi) as (kb' & s2 & ->); [done| | |].
  - unfold clock in *. by rewrite Hs, Ha.
  - pose proof (queue_ok_length _ (ta_queue _ _ _ _ (pi_task _ _ _ _ _ Hi))).
    unfold poll_fuel, work. cbn [rank]. lia.
  - bstep. by repeat eexists.
Qed.

Definition registered (s : senv) : nat :=
  match aw_get (WAKER (s_input s)) with Some _ => 1 | None => 0 end.

(** An interrupt outside the polls. *)
Lemma startup_irq_ok T term0 o i s l s' :
  future_ok T term0 o s → startup_irq i s = Ok (l, s') →
  future_ok T term0 o s' ∧ (is_Some o → parked T s → parked T s' ∨ T ∈ l) ∧
  (length l + registered s' <= registered s)%nat ∧ s_arrivals s' = s_arrivals s.
Proof.
  intros [He Ho] Hi. unfold startup_irq in Hi. apply bind_inv in Hi as (s1 & Hi & Hl).
  rewrite (surjective_pairing (take_woken s1)) in Hl. injection Hl as <- <-.
  apply take_interrupt_kept in Hi. pose proof Hi as [I1 I2 I3 _ Hin].
  assert (s_input s1 = s_input s ∧ s_queued s1 = s_queued s ∨
    ∃ b, add_scancode note_wake b (s_input s) = Ok (None, s_input s1)) as Hin'
    by (destruct Hin as [?|(b & ? & _)]; eauto).
  split_and!; [split; [done|]| | |done].
  - destruct o as [kb|].
    + destruct Ho as [Ht Hf]. destruct (irq_task_inv _ _ _ _ _ Ht Hi) as (Ht1 & _ & _ & Hq).
      split; [by apply take_woken_task|]. cbn [take_woken snd].
      change (s_queued (set_input _ s1)) with (s_queued s1). change (s_handled (set_input _ s1)) with (s_handled s1).
      rewrite I2. by apply Hq.
    + destruct Ho as (H1 & H2 & H3 & H4 & H5 & H6).
      destruct Hin as [[E1 E2]|(b & Ha & _)]; [|by unfold add_scancode in Ha; rewrite H1 in Ha].
      unfold s_input in E1. cbn. unfold s_input, scancodes in *. rewrite E1, I2, I3, E2. done.
  - intros [kb ->] [Hw Hs]. destruct Ho as [[_ _ _ _ T5 _] _]. unfold parked.
    destruct Hin' as [[E1 _]|(b & Ha)].
    + left. cbn. unfold s_input in *. cbn. by rewrite E1.
    + right. destruct (irq_wakes note_wake woken note_wake_sets note_wake_keeps (TaskWaker_new T) b None
        (s_input s) (s_input s1) Ha (or_introl Hw)) as [E|?]; [|done].
      apply (add_scancode_spec note_wake) in Ha as (_ & Hn & _). rewrite E in Hn.
      apply (f_equal length) in Hn. rewrite length_app in Hn. simpl in Hn. lia.
  - unfold registered. cbn [take_woken snd fst]. change (s_input (set_input ?st s1)) with st. cbn [WAKER].
    destruct Hin' as [[E1 _]|(b & Ha)]; [rewrite E1, He; simpl; lia|].
    apply (add_scancode_spec note_wake) in Ha as (_ & _ & Hn & Henv). rewrite Hn.
    destruct (aw_get (WAKER (s_input s))) as [k|].
    + injection Henv as <-. rewrite He. simpl. lia.
    + rewrite Henv, He. simpl. lia.
Qed.
(** The polls and the interrupts leave the count of the tasks alone. *)
Lemma arrive_alive s s' : arrive s = Ok s' → tasks_alive (stats s') = tasks_alive (stats s).
Proof.
  unfold arrive. destruct (s_arrivals s) as [|[i|] l]; [by intros [= <-]| |by intros [= <-]].
  intros Hi. by apply take_interrupt_kept, ik_alive in Hi.
Qed.

Lemma keypress_poll_alive fuel w p kb s kb' s' :
  keypress_poll fuel w p kb s = Ok (kb', s') → tasks_alive (stats s') = tasks_alive (stats s).
Proof.
  revert p kb s. induction fuel as [|fuel IH]; intros p kb s Hk; [done|].
  cbn [keypress_poll] in Hk. apply bind_inv in Hk as (s1 & Ha & Hk). rewrite <- (arrive_alive _ _ Ha).
  apply bind_inv in Hk as ([p1 st] & _ & Hk).
  destruct p1 as [| | |b|[b|]]; [by apply IH in Hk..| |by injection Hk as <- <-].
  apply bind_inv in Hk as ([kb1 s2] & He & Hk). apply IH in Hk as ->. unfold echo in He.
  destruct (handle_scancode b kb (s_input (set_input st s1))) as [[out kb2] st2].
  by apply bind_inv in He as (c & _ & [= _ <-]).
Qed.

Lemma poll_startup_alive k f s r f' l s' :
  poll_startup k f s = Ok (r, f', l, s') → tasks_alive (stats s') = tasks_alive (stats s).
Proof.
  destruct f as [|o]; cbn [poll_startup]; [by intros [= _ _ _ <-]|]. intros Hp.
  apply bind_inv in Hp as ([kb s1] & Hb & Hp). apply bind_inv in Hp as ([kb' s2] & Hk & Hp).
  injection Hp as _ _ _ <-. cbn. apply keypress_poll_alive in Hk. cbn in Hk. rewrite Hk.
  destruct o as [kb0|]; cbn [begin_poll] in Hb; [by injection Hb as _ <-|].
  by apply bind_inv in Hb as (st & _ & [= _ <-]).
Qed.

Lemma startup_irq_alive i s l s' :
  startup_irq i s = Ok (l, s') → tasks_alive (stats s') = tasks_alive (stats s).
Proof.
  intros Hi. apply bind_inv in Hi as (s1 & Hi & [= _ <-]). by apply take_interrupt_kept, ik_alive in Hi.
Qed.
(** ** The executor's loop *)

Abbreviation World := (xworld (Q := Q) (F := startup) (Env := senv)).
Abbreviation Lstep := (lstep poll_startup startup_irq).

(** The keyboard task is there, and waits for its waker or is in the ready
    queue; [n] bounds the wake-ups queued and to come. *)
Record start_inv (T : Z) (term0 : terminal) (n : nat) (x : World) : Prop := {
  si_task : ∃ o, tasks (x_exec x) !! T = Some (mkTask T (PrintKeypresses o)) ∧
    future_ok T term0 o (x_env x) ∧ ((is_Some o ∧ parked T (x_env x)) ∨ T ∈ ids x);
  si_other : ∀ i t, tasks (x_exec x) !! i = Some t → i ≠ T → task_future t = ExampleTask;
  si_load : (length (ids x) + registered (x_env x) + keys_due (s_arrivals (x_env x)) <= n)%nat;
}.

Lemma future_ok_stats T term0 o c s : future_ok T term0 o s → future_ok T term0 o (set_stats c s).
Proof.
  intros [He Ho]. split; [done|]. destruct o as [kb|]; [|done].
  destruct Ho as [[T1 T2 T3 T4 T5 T6] Hf]. split; [by split|done].
Qed.

Lemma registered_bound s : (registered s <= 1)%nat.
Proof. unfold registered. destruct (aw_get _); lia. Qed.

Lemma turn_start_inv T term0 n x x' :
  xinv x → start_inv T term0 n x → turn poll_startup x = Ok (Some x') → start_inv T term0 n x'.
Proof.
  intros Hinv [(o & Ho & Hf & Hw) Hother Hload] Ht.
  destruct (turn_cases poll_startup poll_startup_alive x x' Hinv Ht) as (_ & id & l & Hl & Hc).
  rewrite Hl in Hw, Hload. cbn [length] in Hload.
  destruct (decide (id = T)) as [->|Hne].
  - rewrite Ho in Hc. destruct Hc as (r & t' & woken & s' & Hp & Hi & Hts & He).
    apply bind_inv in Hp as ([[[r0 f] l0] s0] & Hp & [= <- <- <- <-]).
    destruct (poll_keys_ok T term0 o _ _ _ _ _ Hf Hp) as (-> & (kb & -> & Hf') & Hw' & Hlen).
    split; rewrite ?Hi, ?Hts, ?He.
    + exists (Some kb). rewrite lookup_insert_eq. split_and!; [done|done|].
      destruct Hw' as [?|?]; [left; by split|right; apply elem_of_app; by right].
    + intros i t Hit Hni. rewrite lookup_insert_ne in Hit by done. by eapply Hother.
    + rewrite length_app. pose proof (registered_bound s0). lia.
  - assert ((is_Some o ∧ parked T (x_env x)) ∨ T ∈ l) as Hw2.
    { destruct Hw as [?|Hin]; [by left|right]. apply elem_of_cons in Hin as [|]; congruence. }
    destruct (tasks (x_exec x) !! id) as [t|] eqn:Htk.
    + destruct Hc as (r & t' & woken & s' & Hp & Hi & Hts & He). unfold poll in Hp.
      rewrite (Hother id t Htk Hne) in Hp. injection Hp as <- <- <- <-. rewrite app_nil_r in Hi.
      split; rewrite ?Hi, ?Hts, ?He.
      * exists o. rewrite lookup_delete_ne by done. split; [done|]. split; [by apply future_ok_stats|done].
      * intros i u Hu Hni. apply lookup_delete_Some in Hu as [_ Hu]. by eapply Hother.
      * unfold registered, s_input in *. cbn -[keys_due]. lia.
    + destruct Hc as (Hi & Hts & He). split; rewrite ?Hi, ?Hts, ?He; [by exists o|done|lia].
Qed.

Lemma interrupt_start_inv T term0 n i s s' :
  loop_inv s → start_inv T term0 n (l_x s) → interrupt startup_irq i s = Ok (Some s') →
  start_inv T term0 n (l_x s').
Proof.
  intros [Hx _ _] [(o & Ho & Hf & Hw) Hother Hload] Hi. unfold interrupt in Hi. destruct (l_if s); [|done].
  apply bind_inv in Hi as ([woken e] & Hirq & Hi). apply bind_inv in Hi as (q & Hq & [= <-]).
  destruct (set_queue_inv (l_x s) q woken Hx Hq) as [_ Hids].
  destruct (startup_irq_ok T term0 o i _ _ _ Hf Hirq) as (Hf' & Hp & Hl & Ha).
  cbn [l_x]. split; cbn [set_env set_queue x_exec tasks x_env];
    change (ids (set_env e (set_queue q (l_x s)))) with (ids (set_queue q (l_x s))); rewrite ?Hids.
  - exists o. split; [done|]. split; [done|]. destruct Hw as [[Hso Hpk]|Hin].
    + destruct (Hp Hso Hpk) as [?|?]; [by left|right; apply elem_of_app; by right].
    + right. apply elem_of_app. by left.
  - done.
  - rewrite length_app, Ha. lia.
Qed.

Lemma lstep_start_inv T term0 n s s' :
  loop_inv s ∧ start_inv T term0 n (l_x s) → Lstep s s' →
  loop_inv s' ∧ start_inv T term0 n (l_x s').
Proof.
  intros [Hl Hs] [Hst|i Hst].
  - split; [by eapply (loop_step_inv poll_startup poll_startup_alive)|].
    unfold loop_step in Hst. destruct (l_pc s); cbn in Hst; [|by injection Hst as <-..|done].
    apply bind_inv in Hst as (o & Ht & Hst). destruct o as [x'|]; injection Hst as <-; [|done].
    eapply turn_start_inv; [apply Hl|done|done].
  - split; [by eapply (interrupt_inv startup_irq startup_irq_alive)|by eapply interrupt_start_inv].
Qed.

(** The state [kernel_main] calls [executor.run()] in. *)
Record fresh_start (term0 : terminal) (w : World) : Prop := {
  fs_id : x_next_id w = 0;
  fs_log : x_log w = [];
  fs_alive : tasks_alive (stats (x_env w)) = 0;
  fs_input : future_ok 1 term0 None (x_env w);
}.

Lemma startup_tasks_shape term0 w :
  fresh_start term0 w →
  ∃ x c, startup_tasks w = Ok x ∧ xinv x ∧ ids x = [0; 1] ∧
    tasks (x_exec x) = <[1 := mkTask 1 (PrintKeypresses None)]> {[0 := mkTask 0 ExampleTask]} ∧
    x_env x = set_stats c (x_env w) ∧ tick_count c = tick_count (stats (x_env w)).
Proof.
  intros [F1 F2 F3 F4]. unfold startup_tasks. rewrite F1, F2. set (w0 := mkX _ _ _ _).
  assert (xinv w0) as H0 by (apply (xreach_inv poll_startup poll_startup_alive); by apply xreach_new).
  assert (ids w0 = []) as Hi0 by (apply aq_new_ok; unfold TASK_QUEUE_CAPACITY; lia).
  destruct (spawn_new ExampleTask w0 H0) as (w1 & Hs1 & H1 & Hi1 & Ht1 & Hn1 & He1);
    [done|rewrite Hi0; unfold TASK_QUEUE_CAPACITY; simpl; lia|].
  change (spawn_task ExampleTask w0 = Ok w1) in Hs1. rewrite Hs1, (bind_ok _ _ _ eq_refl). rewrite Hi0 in Hi1.
  destruct (spawn_new (PrintKeypresses None) w1 H1) as (x & Hs2 & H2 & Hi2 & Ht2 & Hn2 & He2);
    [by rewrite Hn1|rewrite Hi1; unfold TASK_QUEUE_CAPACITY; simpl; lia|].
  eexists x, _. split; [done|]. split; [done|]. change (x_next_id w0) with 0 in *. rewrite Hn1 in *.
  rewrite Hi2, Hi1, Ht2, Ht1, He2, He1. split_and!; done.
Qed.

Lemma startup_tasks_ok term0 w :
  fresh_start term0 w →
  ∃ x, startup_tasks w = Ok x ∧ xinv x ∧ start_inv 1 term0 (2 + keys_due (s_arrivals (x_env w))) x.
Proof.
  intros Hw. destruct (startup_tasks_shape term0 w Hw) as (x & c & Hx & Hinv & Hi & Ht & He & _).
  exists x. split; [done|]. split; [done|]. split; rewrite ?Ht, ?Hi, ?He.
  - exists None. rewrite lookup_insert_eq. split; [done|]. split; [apply future_ok_stats, Hw|].
    right. set_solver.
  - intros i t Hit Hne. rewrite lookup_insert_ne in Hit by done. by apply lookup_singleton_Some in Hit as [_ <-].
  - destruct (fs_input _ _ Hw) as [_ (_ & _ & F4 & _)]. unfold registered, s_input in *. cbn -[keys_due]. by rewrite F4.
Qed.

Lemma startup_reach b term0 w x s :
  fresh_start term0 w → startup_tasks w = Ok x → rtc Lstep (loop_start b x) s →
  loop_inv s ∧ start_inv 1 term0 (2 + keys_due (s_arrivals (x_env w))) (l_x s).
Proof.
  intros Hf Hx Hr. destruct (startup_tasks_ok term0 w Hf) as (x' & Hx' & Hi & Hs).
  rewrite Hx in Hx'. injection Hx' as <-.
  assert (loop_inv (loop_start b x) ∧ start_inv 1 term0 (2 + keys_due (s_arrivals (x_env w))) (l_x (loop_start b x))) as H0.
  { split; [|done]. split; cbn; [done|naive_solver..]. }
  revert H0. generalize (loop_start b x), Hr. clear Hf Hx Hi Hs Hr x. intros s0 Hr.
  induction Hr; eauto using lstep_start_inv.
Qed.

(** ** Theorems *)

Lemma keypresses_spec b term0 w x s :
  fresh_start term0 w → startup_tasks w = Ok x → rtc Lstep (loop_start b x) s →
  let e := x_env (l_x s) in
  let typed := (decode (s_handled e) keyboard_new).1 in
  s_queued e = s_handled e ++ scancodes (s_input e) ∧
  shows (kw_console (s_kernel e)) (t_write_string (mjoin (encode_utf8 <$> typed)) term0) ∧
  keys (s_input e) = take KEY_QUEUE_CAPACITY (ascii typed) ∧
  (l_pc s = PHalted → s_handled e = s_queued e ∧ l_if s = true).
Proof.
  intros Hf Hx Hr. destruct (startup_reach b term0 w x s Hf Hx Hr) as [[_ _ Hh Hidle] [(o & _ & [_ Ho] & Hw) _ _]].
  cbv zeta. set (e := x_env (l_x s)) in *.
  assert (s_queued e = s_handled e ++ scancodes (s_input e)) as Hq.
  { destruct o as [kb|]; [by destruct Ho|]. destruct Ho as (H1 & _ & _ & H4 & H5 & _).
    unfold scancodes. by rewrite H1, H4, H5. }
  split; [done|]. split_and!.
  - destruct o as [kb|]; [by destruct Ho as [[] _]|]. destruct Ho as (_ & _ & _ & _ & -> & ?). done.
  - unfold keys. destruct o as [kb|].
    + destruct Ho as [[_ (q & -> & _ & ?) _ _ _ _] _]. done.
    + destruct Ho as (_ & -> & _ & _ & -> & _). done.
  - intros Hpc. specialize (Hidle (or_intror Hpc)). rewrite Hidle in Hw.
    destruct Hw as [[_ [_ Hs]]|Hin]; [|by apply elem_of_nil in Hin]. rewrite Hq, Hs, app_nil_r. split; [done|by apply Hh].
Qed.

(** C11: typed keys reach the screen and the reader.  From the start of the
    executor with its two tasks, with interrupts on or off, whatever interrupts come in and whenever,
    between the steps of the loop or between the atomic operations of a poll:
    the scancodes the keyboard interrupt queued are, in order, those the task
    has handled followed by those in the queue; the console shows what it
    showed before, followed by the characters the handled scancodes decode to;
    the ASCII ones among them are queued for [sys_read], as far as they fit;
    and while the CPU is halted nothing queued is waiting. *)
Theorem keypresses_shown b term0 w x s :
  fresh_start term0 w → startup_tasks w = Ok x → rtc Lstep (loop_start b x) s →
  let e := x_env (l_x s) in
  let typed := (decode (s_handled e) keyboard_new).1 in
  s_queued e = s_handled e ++ scancodes (s_input e) ∧
  shows (kw_console (s_kernel e)) (t_write_string (mjoin (encode_utf8 <$> typed)) term0) ∧
  keys (s_input e) = take KEY_QUEUE_CAPACITY (ascii typed) ∧
  (l_pc s = PHalted → s_handled e = s_queued e ∧ l_if s = true).
Proof. apply keypresses_spec. Qed.

(** C12: the executor's loop does not panic.  As long as, over the whole run,
    at most 98 keyboard interrupts fall between the atomic operations of the
    polls (timer interrupts there, and any interrupts between two steps of the
    loop, are not limited), and the tick counter has not run out, the loop's
    next step goes through in every state it reaches, and so does every
    interrupt. *)
Theorem startup_never_panics b term0 w x s :
  fresh_start term0 w → startup_tasks w = Ok x → (keys_due (s_arrivals (x_env w)) <= 98)%nat →
  rtc Lstep (loop_start b x) s → clock (x_env (l_x s)) →
  (∃ o, loop_step poll_startup s = Ok o) ∧
  (∀ i, tick_count (stats (x_env (l_x s))) + 1 < u64_modulus → ∃ o, interrupt startup_irq i s = Ok o).
Proof.
  intros Hf Hx Ha Hr Hc.
  destruct (startup_reach b term0 w x s Hf Hx Hr) as [[Hinv _ _ _] [(o & Ho & Hfut & _) Hother Hload]].
  assert (length (ids (l_x s)) + registered (x_env (l_x s)) + keys_due (s_arrivals (x_env (l_x s)))
    <= TASK_QUEUE_CAPACITY)%nat as Hn by (unfold TASK_QUEUE_CAPACITY; lia). split.
  - unfold loop_step. destruct (l_pc s); [|by eexists..].
    destruct (ids (l_x s)) as [|id l] eqn:Hl; [by rewrite (turn_none poll_startup _ Hl); eexists|].
    cbn [length] in Hn. destruct (tasks (x_exec (l_x s)) !! id) as [t|] eqn:Ht.
    + assert (∃ r t' woken s', poll poll_startup (TaskWaker_new id) t (x_env (l_x s)) = Ok (r, t', woken, s') ∧
        (length woken <= keys_due (s_arrivals (x_env (l_x s))))%nat) as (r & t' & woken & s' & Hp & Hlen).
      { unfold poll. destruct (decide (id = 1)) as [->|Hne].
        - rewrite Ho in Ht. injection Ht as <-. cbn [task_future].
          destruct (poll_keys_total 1 term0 o _ Hfut Hc) as (r & f & l0 & s' & Hp).
          destruct (poll_keys_ok 1 term0 o _ _ _ _ _ Hfut Hp) as (_ & _ & _ & ?). rewrite Hp.
          do 4 eexists. split; [done|]. lia.
        - rewrite (Hother id t Ht Hne). do 4 eexists. split; [done|]. simpl. lia. }
      destruct (turn_poll poll_startup poll_startup_alive _ id l t r t' woken s' Hinv Hl Ht Hp) as (x' & -> & _);
        [lia|]. by eexists.
    + destruct (turn_stale poll_startup _ id l Hinv Hl Ht) as (x' & -> & _). by eexists.
  - intros i Hi. unfold interrupt. destruct (l_if s); [|by eexists].
    destruct (take_interrupt_total i (x_env (l_x s))) as (s1 & Hs1 & _); [apply Hc|destruct i; cbn [is_tick]; lia|].
    assert (startup_irq i (x_env (l_x s)) = Ok (take_woken s1)) as Hirq by (unfold startup_irq; by rewrite Hs1).
    rewrite Hirq. rewrite (surjective_pairing (take_woken s1)) in *.
    destruct (startup_irq_ok 1 term0 o i _ _ _ Hfut Hirq) as (_ & _ & Hl & _). bstep.
    destruct (wake_all_ok (take_woken s1).1 (task_queue (x_exec (l_x s)))) as (q & -> & _); [|by eexists].
    unfold ids in Hn. rewrite (xi_cap _ Hinv). lia.
Qed.
End startup.

(** ** Witnesses: a kernel whose keyboard types letters *)

#[local] Existing Instances list_array_queue option_cell option_waker demo_decoder demo_volatile
  demo_port_io demo_pics.

Definition demo_startup_kernel : kworld (W := TaskWaker) (E := list Z) :=
  mkKW (mkTW ts_new sched_new 1 (Fixed.mkFW Fixed.empty ∅) (mkMachine (λ _, 0) 0 0 0 0 ∅)) ∅ 1
    (mkK (A := option_waker TaskWaker) None None None []) demo_writer.

(** [bytes] are typed; the interrupts of [arrivals] fall into the polls. *)
Definition demo_start (typed : list Z) (arrivals : list (option InterruptIndex))
  : xworld (F := startup) (Env := senv) :=
  mkX exec_new 0 [] (mkS demo_startup_kernel (mkDev (mkPorts typed []) []) arrivals [] []).

Definition demo_term : terminal := mkTerm (replicate 24 (blank_row 7)) (blank_row 7) 0 7.

Lemma demo_fresh typed arrivals :
  fresh_start (QL := list_array_queue_laws) (AL := option_waker_laws _) demo_term (demo_start typed arrivals).
Proof.
  split; [done..|]. split; [done|]. split_and!; try done.
  split; try done; by_decide.
Qed.

Definition demo_started typed arrivals : xworld (F := startup) (Env := senv) :=
  value (demo_start typed arrivals) (startup_tasks (demo_start typed arrivals)).

(** The letters h and i: h arrives during the first poll, just before the
    second look at the queue. *)
Definition demo_arrivals : list (option InterruptIndex) := [None; None; Some IKeyboard].

Definition demo_at (n : nat) : loop_state (F := startup) (Env := senv) :=
  let s := loop_start true (demo_started [104; 105] demo_arrivals) in
  default s (value None (loop_steps poll_startup n s)).

Lemma demo_at_reach : rtc (lstep poll_startup startup_irq) (demo_at 0) (demo_at 7).
Proof. apply (loop_steps_reach poll_startup startup_irq 7). vm_compute. reflexivity. Qed.

Lemma keypresses_shown_witness :
  let e := x_env (l_x (demo_at 7)) in
  let typed := (decode (s_handled e) keyboard_new).1 in
  typed = [104] ∧
  s_queued e = s_handled e ++ scancodes (QL := list_array_queue_laws) (s_input e) ∧
  shows (kw_console (s_kernel e)) (t_write_string (mjoin (encode_utf8 <$> typed)) demo_term) ∧
  keys (QL := list_array_queue_laws) (s_input e) = take KEY_QUEUE_CAPACITY (ascii typed) ∧
  (l_pc (demo_at 7) = PHalted → s_handled e = s_queued e ∧ l_if (demo_at 7) = true).
Proof.
  split; [vm_compute; reflexivity|].
  apply (keypresses_shown (QL := list_array_queue_laws) (CL := option_cell_laws _)
    (AL := option_waker_laws _) (VL := demo_volatile_laws) true demo_term
    (demo_start [104; 105] demo_arrivals) (demo_started [104; 105] demo_arrivals) (demo_at 7)).
  - apply demo_fresh.
  - apply value_ok. vm_compute. reflexivity.
  - apply demo_at_reach.
Defined.

Lemma startup_never_panics_witness :
  (∃ o, loop_step poll_startup (demo_at 7) = Ok o) ∧
  (∀ i, tick_count (stats (x_env (l_x (demo_at 7)))) + 1 < u64_modulus →
     ∃ o, interrupt startup_irq i (demo_at 7) = Ok o).
Proof.
  apply (startup_never_panics (QL := list_array_queue_laws) (CL := option_cell_laws _)
    (AL := option_waker_laws _) (VL := demo_volatile_laws) true demo_term
    (demo_start [104; 105] demo_arrivals) (demo_started [104; 105] demo_arrivals) (demo_at 7)).
  - apply demo_fresh.
  - apply value_ok. vm_compute. reflexivity.
  - simpl. lia.
  - apply demo_at_reach.
  - split; vm_compute; congruence.
Defined.
