(* ===== verification/Overflow.v ===== *)
(** * The ready queue overflows

    A keyboard interrupt that falls between the registration of the waker and
    the second look at the queue wakes the task that is being polled, and the
    poll then takes the scancode itself: the wake-up stays behind in the
    executor's ready queue, and the poll goes on.  More than a hundred such
    interrupts in one poll panic the kernel, whatever is typed and whatever
    the crates behind the queues do. *)

From Stdlib Require Import ZArith Lia.
From stdpp Require Import base gmap list strings numbers relations.
From S2P Require Import Prelude Fmt FixedSizeBlock Scheduler Machine Thread Libs Keyboard Executor ExecLoop.
From S2P Require Import Vga Kernel Interrupts Startup StartupThms.

Open Scope Z_scope.

(** The operations of one turn of [poll_next] on an empty queue, with the
    interrupt before the second [pop]; and [n] such turns. *)
Definition overlap : list (option InterruptIndex) := [None; None; Some IKeyboard; None].
Definition burst (n : nat) : list (option InterruptIndex) := mjoin (replicate n overlap).

Lemma burst_S n l : burst (S n) ++ l = None :: None :: Some IKeyboard :: None :: (burst n ++ l).
Proof. done. Qed.

Section overflow.
Context {Q : ArrayQueue} {C : OnceCell aq} {A : AtomicWaker TaskWaker} {K : KeyDecoder} {V : Volatile}.
Context {IO : PortIo} {PIC : ChainedPics}.
Context {QL : ArrayQueueLaws Q} {CL : OnceCellLaws aq C} {AL : AtomicWakerLaws TaskWaker A}.
Context {VL : VolatileLaws V}.

(** The state with [l] still to arrive. *)
Definition arrives (l : list (option InterruptIndex)) (s : senv) : senv :=
  mkS (s_kernel s) (s_dev s) l (s_queued s) (s_handled s).

Lemma poll_inv_arrives T term0 p kb l s : poll_inv T term0 p kb s → poll_inv T term0 p kb (arrives l s).
Proof. intros [[] ? ?]. by split. Qed.

Lemma arrive_none l s : s_arrivals s = None :: l → arrive s = Ok (arrives l s).
Proof. intros Ha. unfold arrive. by rewrite Ha. Qed.

(** A key pressed while the waker is registered and the queue has room. *)
Lemma key_wakes T l s :
  s_arrivals s = Some IKeyboard :: l → queue_ok (s_input s) → scancodes (s_input s) = [] →
  aw_get (WAKER (s_input s)) = Some (TaskWaker_new T) →
  ∃ s' b, arrive s = Ok s' ∧ s_arrivals s' = l ∧ irq_kept (arrives l s) s' ∧ stats s' = stats s ∧
    scancodes (s_input s') = [b] ∧ k_env (s_input s') = k_env (s_input s) ++ [T].
Proof.
  intros Ha (q & Hq & Hc & _) Hs Hw. unfold arrive. rewrite Ha. fold (arrives l s).
  assert (∃ s', take_interrupt IKeyboard (arrives l s) = Ok s' ∧ stats s' = stats s ∧
    ∃ b, add_scancode note_wake b (s_input s) = Ok (None, s_input s')) as (s' & Ht & Hst & b & Hb).
  { cbn [take_interrupt]. unfold keyboard_interrupt_handler. cbn [s_dev s_kernel arrives].
    destruct (inb DATA_PORT (dev_io (s_dev s))) as [b ports]. unfold on_scancode.
    change (kw_input (s_kernel s)) with (s_input s).
    assert (∃ st, add_scancode note_wake b (s_input s) = Ok (None, st)) as [st Hb].
    { unfold add_scancode. rewrite Hq. pose proof (aq_push_ok q b) as Hp. unfold scancodes in Hs. rewrite Hq in Hs.
      rewrite Hs, Hc, bool_decide_eq_true_2 in Hp by (unfold SCANCODE_QUEUE_CAPACITY; simpl; lia).
      destruct Hp as (q' & -> & _). unfold waker_wake.
      destruct (aw_take (WAKER (set_scancodes (s_input s) q'))) as [[k|] a]; by eexists. }
    rewrite Hb. bstep. eexists. split; [done|]. split; [done|]. by exists b. }
  pose proof (take_interrupt_kept _ _ _ Ht) as Hk. exists s', b. rewrite Ht.
  pose proof (add_scancode_spec note_wake _ _ _ _ Hb) as (_ & Es & _ & Ew). rewrite Hs in Es. rewrite Hw in Ew.
  injection Ew as Ew. split_and!; try done. by rewrite (ik_arrivals _ _ Hk).
Qed.

Lemma step_poll_inv T term0 p kb s p' st :
  poll_inv T term0 p kb s → (∀ r, p ≠ PDone r) → poll_step (TaskWaker_new T) p (s_input s) = Ok (p', st) →
  poll_inv T term0 p' kb (set_input st s).
Proof.
  intros Hp Hnd Hst. destruct (poll_step_inv T term0 p kb s Hp Hnd) as (p1 & st1 & E & Hp1 & _).
  rewrite Hst in E. by injection E as -> ->.
Qed.

(** One turn: the scancode is taken, the wake-up stays. *)
Lemma overlap_turn fuel T term0 kb s l :
  poll_inv T term0 PStart kb s → scancodes (s_input s) = [] →
  s_arrivals s = None :: None :: Some IKeyboard :: None :: l →
  ∃ kb' s', keypress_poll (4 + fuel) (TaskWaker_new T) PStart kb s =
      keypress_poll fuel (TaskWaker_new T) PStart kb' s' ∧
    poll_inv T term0 PStart kb' s' ∧ scancodes (s_input s') = [] ∧ s_arrivals s' = l ∧ stats s' = stats s ∧
    k_env (s_input s') = k_env (s_input s) ++ [T].
Proof.
  intros Hp Hs Ha. change (4 + fuel)%nat with (S (S (S (S fuel)))). cbn [keypress_poll].
  rewrite (arrive_none _ _ Ha). bstep. set (s1 := arrives _ s).
  pose proof (pop_scancode_spec (s_input s) (queue_ok_ready _ (ta_queue _ _ _ _ (pi_task _ _ _ _ _ Hp)))) as Hpop.
  rewrite Hs in Hpop.
  assert (poll_step (TaskWaker_new T) PStart (s_input s1) = Ok (PRegister, s_input s)) as E1
    by (cbn [poll_step]; change (s_input s1) with (s_input s); by rewrite Hpop).
  pose proof (step_poll_inv _ _ _ _ _ _ _ (poll_inv_arrives _ _ _ _ _ _ Hp) ltac:(done) E1) as H2.
  rewrite E1. bstep. set (s2 := set_input _ s1) in *.
  rewrite (arrive_none (Some IKeyboard :: None :: l) s2) by done. bstep. set (s3 := arrives _ s2).
  cbn [poll_step]. bstep. set (st := mkK _ _ _ _).
  assert (poll_inv T term0 PRecheck kb (set_input st s3)) as H4
    by (apply (step_poll_inv _ _ PRegister); [by apply poll_inv_arrives|done|done]).
  destruct (key_wakes T (None :: l) (set_input st s3)) as (s5 & b & -> & A5 & K5 & T5 & S5 & V5);
    [done|apply (ta_queue _ _ _ _ (pi_task _ _ _ _ _ H4))|done|apply aw_register_ok|]. bstep.
  pose proof (irq_poll_inv _ _ _ _ _ _ (poll_inv_arrives _ _ _ _ (None :: l) _ H4) K5) as H5.
  pose proof (pop_scancode_spec (s_input s5) (queue_ok_ready _ (ta_queue _ _ _ _ (pi_task _ _ _ _ _ H5)))) as Hpop5.
  rewrite S5 in Hpop5. destruct Hpop5 as (st6 & E6 & _ & S6 & _ & V6 & _).
  assert (poll_step (TaskWaker_new T) PRecheck (s_input s5) = Ok (PTake b, st6)) as E6'
    by (cbn [poll_step]; by rewrite E6).
  pose proof (step_poll_inv _ _ _ _ _ _ _ H5 ltac:(done) E6') as H6. rewrite E6'. bstep.
  rewrite (arrive_none l) by done. bstep. set (s7 := arrives l _). cbn [poll_step]. bstep.
  set (st8 := mkK _ _ _ _). assert (poll_inv T term0 (PDone (Ready b)) kb (set_input st8 s7)) as H8
    by (apply (step_poll_inv _ _ (PTake b)); [by apply poll_inv_arrives|done|done]).
  destruct (echo_inv _ _ _ _ _ H8) as (kb' & s9 & -> & H9 & A9 & T9 & V9 & S9). bstep.
  exists kb', s9. split; [done|]. split; [done|]. rewrite S9, A9, T9, V9. split_and!; try done.
  cbn. rewrite V6, V5. done.
Qed.

Lemma burst_turns n fuel T term0 kb s l :
  poll_inv T term0 PStart kb s → scancodes (s_input s) = [] → s_arrivals s = burst n ++ l →
  ∃ kb' s', keypress_poll (4 * n + fuel) (TaskWaker_new T) PStart kb s =
      keypress_poll fuel (TaskWaker_new T) PStart kb' s' ∧
    poll_inv T term0 PStart kb' s' ∧ scancodes (s_input s') = [] ∧ s_arrivals s' = l ∧ stats s' = stats s ∧
    k_env (s_input s') = k_env (s_input s) ++ replicate n T.
Proof.
  revert kb s. induction n as [|n IH]; intros kb s Hp Hs Ha.
  { exists kb, s. rewrite app_nil_r. split_and!; done. }
  rewrite burst_S in Ha. replace (4 * S n + fuel)%nat with (4 + (4 * n + fuel))%nat by lia.
  destruct (overlap_turn (4 * n + fuel) T term0 kb s _ Hp Hs Ha) as (kb1 & s1 & -> & H1 & S1 & A1 & T1 & V1).
  destruct (IH kb1 s1 H1 S1 A1) as (kb2 & s2 & E & H2 & S2 & A2 & T2 & V2). exists kb2, s2.
  rewrite V2, V1, T2, T1. split_and!; try done. by rewrite <- app_assoc.
Qed.

(** Wake-ups are never taken back during a poll. *)
Lemma irq_env_grows s s' : irq_kept s s' → (length (k_env (s_input s)) <= length (k_env (s_input s')))%nat.
Proof.
  intros Hk. destruct (ik_input _ _ Hk) as [[-> _]|(b & Ha & _)]; [done|].
  apply (add_scancode_spec note_wake) in Ha as (_ & _ & _ & He).
  destruct (aw_get (WAKER (s_input s))) as [k|]; [|by rewrite He]. injection He as <-. rewrite length_app. lia.
Qed.

Lemma keypress_poll_grows fuel T term0 p kb s kb' s' :
  poll_inv T term0 p kb s → (∀ r, p ≠ PDone r) → keypress_poll fuel (TaskWaker_new T) p kb s = Ok (kb', s') →
  (length (k_env (s_input s)) <= length (k_env (s_input s')))%nat.
Proof.
  revert p kb s. induction fuel as [|fuel IH]; intros p kb s Hp Hnd Hk; [done|].
  cbn [keypress_poll] in Hk. apply bind_inv in Hk as (s1 & Ha & Hk).
  destruct (arrive_inv _ _ _ _ _ _ Hp Ha) as (Hp1 & _ & _).
  assert (length (k_env (s_input s)) <= length (k_env (s_input s1)))%nat as Hle.
  { unfold arrive in Ha. destruct (s_arrivals s) as [|[i|] l]; [by injection Ha as <-| |by injection Ha as <-].
    apply take_interrupt_kept, irq_env_grows in Ha. done. }
  destruct (poll_step_inv _ _ _ _ _ Hp1 Hnd) as (p' & st & Hst & Hp2 & He & _). rewrite Hst in Hk.
  apply bind_inv in Hk as ([p2 st2] & [= <- <-] & Hk). rewrite <- He in Hle.
  destruct p' as [| | |b|[b|]];
    [by etrans; [exact Hle|]; eapply (IH _ _ _ Hp2)..| |by injection Hk as <- <-].
  destruct (echo_inv _ _ _ _ _ Hp2) as (kb2 & s2 & Ee & Hp3 & _ & _ & E3 & _). rewrite Ee in Hk.
  cbn [mbind outcome_bind] in Hk. etrans; [exact Hle|]. etrans; [|by eapply (IH _ _ _ Hp3)]. by rewrite E3.
Qed.

Lemma begin_poll_queued o s kb s1 : begin_poll o s = Ok (kb, s1) → s_queued s1 = s_queued s.
Proof.
  destruct o; cbn [begin_poll]; [by intros [= _ <-]|]. intros Hb. by apply bind_inv in Hb as (st & _ & [= _ <-]).
Qed.

Lemma burst_length n l : length (burst n ++ l) = (4 * n + length l)%nat.
Proof. induction n as [|n IH]; [done|]. rewrite burst_S. cbn [length]. lia. Qed.

(** The first poll of the keyboard task under a burst. *)
Lemma burst_poll n l T term0 s :
  future_ok T term0 None s → clock s → s_arrivals s = burst n ++ l →
  ∃ f woken s', poll_startup (TaskWaker_new T) (PrintKeypresses None) s = Ok (false, f, woken, s') ∧
    (n <= length woken)%nat.
Proof.
  intros Hf Hc Ha. unfold poll_startup. pose proof (burst_length n l) as Hlen.
  destruct (begin_poll_inv T term0 None s Hf) as (kb & s1 & Hb & Hi & He & Ha1 & Hs).
  assert (scancodes (s_input s1) = []) as Hsc.
  { pose proof (pi_fifo _ _ _ _ _ Hi) as Hq. rewrite (begin_poll_queued _ _ _ _ Hb) in Hq.
    destruct Hf as (_ & _ & _ & _ & Hq0 & _). rewrite Hq0 in Hq. by symmetry in Hq; apply app_nil in Hq as [_ Hq]. }
  rewrite Hb, (bind_ok _ _ _ eq_refl). rewrite Ha in Ha1. set (m := (poll_fuel s1 - 4 * n)%nat).
  assert (poll_fuel s1 = 4 * n + m ∧ 4 * length l + 4 <= m)%nat as [-> Hm]
    by (unfold m, poll_fuel; rewrite Ha1, Hlen; lia).
  destruct (burst_turns n m T term0 kb s1 l Hi Hsc Ha1) as (kb2 & s2 & -> & H2 & S2 & A2 & T2 & V2).
  destruct (keypress_poll_total m T term0 PStart kb2 s2 H2) as (kb3 & s3 & E3); [done| | |].
  - destruct Hc as [C1 C2]. unfold clock. rewrite T2, Hs, A2. split; [done|]. rewrite Ha in C2.
    unfold ticks_due in *. rewrite sum_list_with_app in C2. lia.
  - unfold work. rewrite S2, A2. cbn [rank length]. lia.
  - rewrite E3. bstep. do 3 eexists. split; [done|].
    pose proof (keypress_poll_grows _ _ _ _ _ _ _ _ H2 ltac:(done) E3) as Hg. rewrite V2, length_app, length_replicate in Hg.
    cbn [take_woken fst]. lia.
Qed.

(** ** Theorem *)

(** C33: the bound is needed.  When more than a hundred keys arrive in the first
    poll of the keyboard task, each between the registration of the waker and
    the second look at the queue, the second step of the executor's loop
    panics: whatever the keys are, whatever arrives afterwards, and for every
    implementation of the queues, the cell and the waker that does what its
    documentation says. *)
Theorem ready_queue_overflow b term0 w x n l :
  fresh_start term0 w → startup_tasks w = Ok x → clock (x_env w) →
  s_arrivals (x_env w) = burst n ++ l → (TASK_QUEUE_CAPACITY < n)%nat →
  ∃ s, loop_step poll_startup (loop_start b x) = Ok (Some s) ∧
    loop_step poll_startup s = Panic "task_queue full".
Proof.
  intros Hw Hx Hc Ha Hn. destruct (startup_tasks_shape term0 w Hw) as (x' & c & Hx' & Hinv & Hi & Ht & He & Etc).
  rewrite Hx in Hx'. injection Hx' as <-. unfold loop_step. cbn [loop_start l_pc l_x l_if].
  destruct (turn_poll poll_startup poll_startup_alive x 0 [1] (mkTask 0 ExampleTask) true (mkTask 0 ExampleTask) [] (x_env x)
    Hinv Hi) as (x1 & -> & Hinv1 & Hi1 & Ht1 & He1); [by rewrite Ht|done|unfold TASK_QUEUE_CAPACITY; simpl; lia|].
  bstep. eexists. split; [done|]. cbn [l_pc l_x]. set (e1 := x_env x1) in *.
  assert (future_ok 1 term0 None e1) as Hf by (rewrite He1, He; do 2 apply future_ok_stats; apply Hw).
  assert (s_arrivals e1 = burst n ++ l ∧ clock e1) as [Ha1 Hc1].
  { rewrite He1, He. split; [done|]. destruct Hc as [C1 C2]. unfold clock. cbn in *. by rewrite Etc. }
  destruct (burst_poll n l 1 term0 e1 Hf Hc1 Ha1) as (f & woken & s' & Hp & Hl).
  assert (poll poll_startup (TaskWaker_new 1) (mkTask 1 (PrintKeypresses None)) e1 =
    Ok (false, mkTask 1 f, woken, s')) as Hp' by (unfold poll; cbn [task_future]; by rewrite Hp).
  rewrite (turn_full poll_startup x1 1 _ _ _ _ _ Hinv1 Hi1 ltac:(by rewrite Ht1, Ht) Hp'); [done|lia].
Qed.
End overflow.

(** ** Witness: 101 letters typed into the first poll *)

#[local] Existing Instances list_array_queue option_cell option_waker demo_decoder demo_volatile
  demo_port_io demo_pics.

Lemma ready_queue_overflow_witness :
  ∃ s, loop_step poll_startup (loop_start true (demo_started (replicate 101 104) (burst 101))) = Ok (Some s) ∧
    loop_step poll_startup s = Panic "task_queue full".
Proof.
  apply (ready_queue_overflow (QL := list_array_queue_laws) (CL := option_cell_laws _)
    (AL := option_waker_laws _) (VL := demo_volatile_laws) true demo_term
    (demo_start (replicate 101 104) (burst 101)) (demo_started (replicate 101 104) (burst 101)) 101 []).
  - apply demo_fresh.
  - apply value_ok. vm_compute. reflexivity.
  - split; vm_compute; congruence.
  - symmetry. apply app_nil_r.
  - vm_compute. lia.
Defined.
