(* ===== verification/TrapThms.v ===== *)
(** * Theorems about traps from ring 3

    The system call as a whole, from [int 0x80] to [iretq]; the results of
    each system call; the check of user buffers; and the end of a process by
    [sys_exit] or by a fault. *)

From Stdlib Require Import ZArith Lia.
From stdpp Require Import base gmap list strings numbers functions.
From S2P Require Import Prelude AllocMod FixedSizeBlock Scheduler Machine Thread Libs Keyboard Vga Kernel.
From S2P Require Import Paging Userland Syscall Interrupts.
From S2P Require Import ThreadInv ThreadTrap ThreadThms KernelThms UserlandThms.

Open Scope Z_scope.

(** The frame [syscall_isr] builds for the interrupted context. *)
Definition entry_frame (m : machine) (f : iframe) : SyscallFrame :=
  mkSFrame (regs m R15) (regs m R14) (regs m R13) (regs m R12) (regs m R11) (regs m R10)
    (regs m R9) (regs m R8) (regs m RDI) (regs m RSI) (regs m RBP) (regs m RBX) (regs m RDX)
    (regs m RCX) (regs m RAX) (i_rip f) (i_cs f) (i_rflags f) (i_rsp f) (i_ss f).

Lemma entry_frame_words m f :
  frame_words (entry_frame m f) = (regs m <$> isr_rest) ++ regs m RAX :: iframe_words f.
Proof. done. Qed.

(** ** Buffers *)

Lemma user_bytes_spec ptr len :
  is_u64 ptr → is_u64 len →
  user_bytes ptr len =
    if bool_decide (len <= 4096 ∧ USER_CODE_BASE <= ptr ∧ ptr + len <= USER_STACK_TOP)
    then Some (ptr, len) else None.
Proof.
  unfold is_u64, user_bytes, MAX_USER_IO, checked_add. intros Hp Hl.
  case_bool_decide as Hd.
  - destruct Hd as (H1 & H2 & H3). rewrite (proj2 (Z.ltb_ge 4096 len)) by lia.
    rewrite (proj2 (Z.ltb_lt (ptr + len) _)) by (unfold USER_STACK_TOP, u64_modulus in *; lia).
    cbn [mbind option_bind]. rewrite (proj2 (Z.ltb_ge ptr _)), (proj2 (Z.ltb_ge _ (ptr + len))) by lia.
    done.
  - destruct (4096 <? len) eqn:E1; [done|]. destruct (ptr + len <? u64_modulus) eqn:E2; [|done].
    cbn [mbind option_bind]. destruct (ptr <? USER_CODE_BASE) eqn:E3; [done|].
    destruct (USER_STACK_TOP <? ptr + len) eqn:E4; [done|]. zbool. exfalso. apply Hd. lia.
Qed.

Section traps.
Context (ctx_offset bootstrap_context yield_ret exit_ret scratch : Z).
Context {W E : Type}.
Context {Q : ArrayQueue} {C : OnceCell aq} {A : AtomicWaker W} {V : Volatile}.
Context {P : Paging} {L : PagingLaws P}.

Abbreviation Dispatch := (syscall_dispatch ctx_offset bootstrap_context yield_ret exit_ret scratch
  translate (W := W) (E := E)).
Abbreviation uworld := (uworld (W := W) (E := E)).
Abbreviation kworld := (kworld (W := W) (E := E)).

Lemma dispatch_frame frame w fr' w' :
  Dispatch frame w = Ok (Some fr', w') → fr' = set_rax (f_rax fr') frame.
Proof.
  unfold syscall_dispatch. intros He. apply bind_inv in He as (r & _ & He).
  destruct r; by simplify_eq.
Qed.

Lemma read_bytes_length walk (w : uworld) v n bytes :
  read_bytes walk w v n = Ok bytes → length bytes = n.
Proof.
  revert v bytes. induction n as [|n IH]; intros v bytes; cbn [read_bytes]; [by intros [= <-]|].
  intros He. binds. simplify_eq/=. f_equal. by eapply IH.
Qed.

(** C9: a system call that returns gives the interrupted context back
    exactly as it was but for the result in [rax].  Here [compiled] is the
    machine code of [syscall_dispatch], of which it is only assumed that, when
    it is called with the stack aligned as the ABI requires and [rdi] pointing
    at the frame, it stores the frame of the model and returns. *)
Theorem syscall_round_trip ret_addr compiled m f (w : uworld) fr' w' :
  (16 | regs m RSP + 40) → 128 <= regs m RSP → regs m RSP + 40 < u64_modulus →
  words_at (mem m) (regs m RSP) (iframe_words f) →
  Dispatch (entry_frame m f) w = Ok (Some fr', w') →
  (∀ m1, (16 | regs m1 RSP + 8) →
     words_at (mem m1) (regs m1 RDI) (frame_words (entry_frame m f)) →
     ∃ m2, compiled m1 = Ok m2 ∧ regs m2 RSP = regs m1 RSP + 8 ∧
       words_at (mem m2) (regs m1 RDI) (frame_words fr')) →
  ∃ m', syscall_isr ret_addr compiled m = Ok m' ∧
    regs m' RAX = f_rax fr' ∧ (∀ r, r ≠ RAX → r ≠ RSP → regs m' r = regs m r) ∧
    rip m' = i_rip f ∧ cs m' = i_cs f ∧ rflags m' = i_rflags f ∧
    regs m' RSP = i_rsp f ∧ ss m' = i_ss f.
Proof.
  intros H16 Hb Hc Hf Hd Hcomp. apply dispatch_frame in Hd.
  assert ((8 | regs m RSP)) as Ha.
  { destruct H16 as [q Hq]. exists (2 * q - 5). lia. }
  destruct (isr_at_call_spec ret_addr m f Ha Hb Hc Hf) as (m0 & m1 & Hr0 & Hp & Hsp & Hdi & Hw & _).
  destruct (Hcomp m1) as (m2 & Hm2 & Hsp2 & Hw2).
  { rewrite Hsp. destruct H16 as [q Hq]. exists (q - 10). lia. }
  { rewrite Hdi. by rewrite entry_frame_words. }
  rewrite Hdi, Hd in Hw2. rewrite Hsp in Hsp2.
  unfold syscall_isr, Machine.call. rewrite Hr0. bstep. rewrite Hp. bstep. rewrite Hm2. bstep.
  replace (regs m RSP - 128 + 8) with (regs m RSP - 120) in Hsp2 by lia.
  destruct (isr_exit_spec m2 ((regs m <$> isr_rest) ++ [f_rax fr']) f)
    as (m3 & Hr3 & _ & Hv & E1 & E2 & E3 & E4 & E5); rewrite ?Hsp2.
  - done.
  - exact Hw2.
  - apply Z.divide_sub_r; [done|by exists 15].
  - lia.
  - lia.
  - exists m3. split; [done|]. injection Hv as ? ? ? ? ? ? ? ? ? ? ? ? ? ? ?.
    split; [done|]. split; [|done]. intros r Hr1 Hr2. by destruct r.
Qed.

(** ** [sys_write] *)

Context {VL : VolatileLaws V}.

(** A buffer that passes the check and is mapped. *)
Lemma sys_write_shows frame con bytes t :
  f_rax frame = SYS_WRITE → is_u64 (f_rsi frame) → is_u64 (f_rdx frame) → f_rdi frame = STDOUT →
  f_rdx frame <= 4096 → USER_CODE_BASE <= f_rsi frame →
  f_rsi frame + f_rdx frame <= USER_STACK_TOP → shows con t →
  ∃ c, shows c (t_write_string (mjoin (utf8 <$> bytes)) t) ∧
    ∀ w, read_bytes translate w (f_rsi frame) (Z.to_nat (f_rdx frame)) = Ok bytes →
      kw_console (u_kernel w) = con →
      Dispatch frame w =
        Ok (Some (set_rax (f_rdx frame) frame), with_kernel (with_console c (u_kernel w)) w).
Proof.
  intros Hrax Hsi Hdx Hdi H1 H2 H3 Ht.
  destruct (console_bytes_refines bytes _ t Ht) as (c & Hc & Hs). exists c. split; [done|].
  intros w Hr Hw. unfold syscall_dispatch. rewrite Hrax. cbn [SYS_WRITE SYS_EXIT Z.eqb].
  unfold sys_write. rewrite user_bytes_spec, Hdi by done.
  pose proof (read_bytes_length _ _ _ _ _ Hr) as Hl. cbn [STDOUT Z.eqb negb].
  rewrite bool_decide_eq_true_2 by done. rewrite Hr. bstep.
  cbn [Kernel.call]. unfold console_write. rewrite Hw, Hc. bstep.
  unfold is_u64 in Hdx. by rewrite Hl, Z2Nat.id by lia.
Qed.

(** C30: [sys_write] on every branch.  A descriptor other than 1 and a buffer
    not inside the user window, longer than a page or wrapping around, are
    refused with nothing changed.  A buffer that passes and is mapped is
    shown on the console and the result is its length, which no error code
    equals. *)
Theorem sys_write_spec frame (w : uworld) :
  f_rax frame = SYS_WRITE → is_u64 (f_rsi frame) → is_u64 (f_rdx frame) →
  (f_rdi frame ≠ STDOUT → Dispatch frame w = Ok (Some (set_rax (u64_modulus - 1) frame), w)) ∧
  (f_rdi frame = STDOUT →
   ¬ (f_rdx frame <= 4096 ∧ USER_CODE_BASE <= f_rsi frame ∧
      f_rsi frame + f_rdx frame <= USER_STACK_TOP) →
   Dispatch frame w = Ok (Some (set_rax (u64_modulus - 3) frame), w)) ∧
  (∀ bytes t, f_rdi frame = STDOUT →
   f_rdx frame <= 4096 → USER_CODE_BASE <= f_rsi frame →
   f_rsi frame + f_rdx frame <= USER_STACK_TOP →
   read_bytes translate w (f_rsi frame) (Z.to_nat (f_rdx frame)) = Ok bytes →
   shows (kw_console (u_kernel w)) t →
   ∃ w', Dispatch frame w = Ok (Some (set_rax (f_rdx frame) frame), w') ∧
     shows (kw_console (u_kernel w')) (t_write_string (mjoin (utf8 <$> bytes)) t) ∧
     kw_threads (u_kernel w') = kw_threads (u_kernel w) ∧
     kw_procs (u_kernel w') = kw_procs (u_kernel w) ∧
     ∀ e, f_rdx frame ≠ errno e).
Proof.
  intros Hrax Hsi Hdx. split_and!.
  - intros Hd. unfold syscall_dispatch. rewrite Hrax. cbn [SYS_WRITE SYS_EXIT Z.eqb].
    unfold sys_write. by rewrite (proj2 (Z.eqb_neq _ _) Hd).
  - intros Hd Hn. unfold syscall_dispatch. rewrite Hrax. cbn [SYS_WRITE SYS_EXIT Z.eqb].
    unfold sys_write. rewrite user_bytes_spec, Hd by done. cbn [STDOUT Z.eqb negb].
    by rewrite bool_decide_eq_false_2.
  - intros bytes t Hd H1 H2 H3 Hr Ht.
    destruct (sys_write_shows frame _ bytes t Hrax Hsi Hdx Hd H1 H2 H3 Ht) as (c & Hs & He).
    eexists. split; [by apply He|]. split; [done|]. split; [done|]. split; [done|].
    intros e Ee. rewrite Ee in H1. destruct e; by vm_compute in H1.
Qed.

(** C31: the window of the buffer check is larger than what is mapped.  After a
    process is set up, the page between its code and its stack passes the
    check, and a [sys_write] from there faults in ring 0 and panics the
    kernel, whatever the length. *)
Theorem user_window_hole program (w : uworld) p w' frame :
  create_process_from_program ctx_offset bootstrap_context yield_ret exit_ret scratch translate
    program w = Ok (inr p, w') →
  translate (u_mapper w) 0x400000001000 = None →
  f_rax frame = SYS_WRITE → f_rdi frame = STDOUT →
  f_rsi frame = 0x400000001000 → 1 <= f_rdx frame <= 4096 →
  user_bytes (f_rsi frame) (f_rdx frame) = Some (f_rsi frame, f_rdx frame) ∧
  Dispatch frame w' = Panic "Page fault".
Proof.
  intros Hc Ht Hax Hdi Hsi Hdx.
  destruct (create_process_spec ctx_offset bootstrap_context yield_ret exit_ret scratch program w)
    as (r & w1 & Hc1 & Hr). rewrite Hc in Hc1. injection Hc1 as <- <-.
  pose proof (su_others _ _ _ _ Hr 0x400000001000 ltac:(done) ltac:(done)) as Hn. rewrite Ht in Hn.
  assert (user_bytes (f_rsi frame) (f_rdx frame) = Some (f_rsi frame, f_rdx frame)) as Hu.
  { rewrite user_bytes_spec, bool_decide_eq_true_2; [done|..]; rewrite ?Hsi;
      unfold is_u64, u64_modulus, USER_CODE_BASE, USER_STACK_TOP; lia. }
  split; [done|]. unfold syscall_dispatch. rewrite Hax. cbn [SYS_WRITE SYS_EXIT Z.eqb].
  unfold sys_write. rewrite Hu, Hdi, Hsi. cbn [STDOUT Z.eqb negb].
  destruct (Z.to_nat (f_rdx frame)) as [|n] eqn:En; [lia|]. cbn [read_bytes].
  unfold read_byte_at, phys. change (0x400000001000 mod 4096) with 0.
  change (0x400000001000 - 0) with 0x400000001000. by rewrite Hn.
Qed.

(** ** The other system calls *)

Context {QL : ArrayQueueLaws Q} {CL : OnceCellLaws aq C}.

Lemma read_byte_spec (st : kstate (W := W) (E := E)) :
  match keys st with
  | [] => read_byte st = (None, st)
  | b :: l => ∃ st', read_byte st = (Some b, st') ∧ keys st' = l ∧
      SCANCODE_QUEUE st' = SCANCODE_QUEUE st ∧ WAKER st' = WAKER st
  end.
Proof.
  unfold keys, read_byte. destruct (try_get (KEY_QUEUE st)) as [q|] eqn:Hq; [|done].
  pose proof (aq_pop_ok q) as Hp. destruct (aq_list q) as [|b l]; [by rewrite Hp|].
  destruct Hp as (q' & -> & Hl & _). eexists. split; [done|]. split; [|done].
  unfold set_keys. simpl. by rewrite (set_get _ q).
Qed.

(** C39: [sys_read] takes the oldest decoded key or reports that it would
    block; [sys_yield] returns 0 when the thread is switched back in; an
    unknown number is refused with nothing changed. *)
Theorem syscall_results frame (w : uworld) :
  (f_rax frame = SYS_READ →
   match keys (kw_input (u_kernel w)) with
   | [] => Dispatch frame w = Ok (Some (set_rax (u64_modulus - 4) frame), w)
   | b :: l => ∃ i, Dispatch frame w =
         Ok (Some (set_rax b frame), with_kernel (with_input i (u_kernel w)) w) ∧
       keys i = l ∧ SCANCODE_QUEUE i = SCANCODE_QUEUE (kw_input (u_kernel w))
   end) ∧
  (f_rax frame = SYS_YIELD →
   ∀ ts, yield_now Fixed.dealloc ctx_offset bootstrap_context yield_ret (kw_threads (u_kernel w)) = Ok ts →
   Dispatch frame w = Ok (Some (set_rax 0 frame), with_kernel (with_threads ts (u_kernel w)) w)) ∧
  (3 < f_rax frame → Dispatch frame w = Ok (Some (set_rax (u64_modulus - 6) frame), w)).
Proof.
  unfold syscall_dispatch. split_and!.
  - intros ->. cbn [SYS_WRITE SYS_EXIT SYS_READ Z.eqb Pos.eqb]. unfold sys_read. cbn [Kernel.call].
    pose proof (read_byte_spec (kw_input (u_kernel w))) as Hr.
    destruct (keys (kw_input (u_kernel w))) as [|b l].
    + rewrite Hr. bstep. destruct w as [k m f ram]. destruct k. done.
    + destruct Hr as (i & -> & Hk & Hs & _). bstep. exists i. done.
  - intros -> ts Hy. cbn [SYS_WRITE SYS_EXIT SYS_READ SYS_YIELD Z.eqb Pos.eqb].
    unfold sys_yield. cbn [Kernel.call]. rewrite Hy. done.
  - intros Hlt. unfold SYS_EXIT, SYS_WRITE, SYS_READ, SYS_YIELD.
    rewrite !(proj2 (Z.eqb_neq _ _)) by lia. done.
Qed.

(** ** The end of a process *)

Context (boot_lo boot_hi plo phi : Z).

Abbreviation Tinv := (tinv Fixed.alloc Fixed.dealloc Fixed.scribble ctx_offset bootstrap_context
  HEAP_START (HEAP_START + HEAP_SIZE) boot_lo boot_hi).

Context (Hpl : placement ctx_offset bootstrap_context HEAP_START (HEAP_START + HEAP_SIZE) boot_lo boot_hi).
Context (Hpp : priv_placement bootstrap_context HEAP_START (HEAP_START + HEAP_SIZE) boot_lo boot_hi plo phi).

(** The process is gone, its host thread is parked for the reaper, and the
    next ready thread runs, with the invariant of the threads intact.  The
    blocks still allocated are [live] without those of a thread that was
    waiting for the reaper. *)
Record ended (live : gmap Z Layout) (p next : Z) (rest : list Z) (k k' : kworld) : Prop := {
  en_procs : kw_procs k' = delete p (kw_procs k);
  en_sched : tw_sched (kw_threads k') = exited (drained (tw_sched (kw_threads k))) next rest;
  en_threads : ∃ sv, Tinv (kw_threads k') (freed (tw_sched (kw_threads k)) live) sv;
  en_running : running boot_lo boot_hi (kw_threads k');
  en_counts : pcounts (tw_stats (kw_threads k')) = pcounts (tw_stats (kw_threads (exit p 0 k).2));
}.

Lemma exit_counts_eq p (k k' : kworld) :
  kw_procs k' = kw_procs k → pcounts (tw_stats (kw_threads k')) = pcounts (tw_stats (kw_threads k)) →
  pcounts (tw_stats (kw_threads (exit p 0 k').2)) = pcounts (tw_stats (kw_threads (exit p 0 k).2)).
Proof.
  intros Hp [= Ha Hs]. unfold exit. rewrite Hp. destruct (kw_procs k !! p); unfold pcounts; simpl; congruence.
Qed.

(** What ends a process sees of the kernel is its registry, its threads and
    the process counters. *)
Lemma ended_eq live p next rest (k k' k1 : kworld) :
  kw_procs k' = kw_procs k → tw_sched (kw_threads k') = tw_sched (kw_threads k) →
  pcounts (tw_stats (kw_threads k')) = pcounts (tw_stats (kw_threads k)) →
  ended live p next rest k' k1 → ended live p next rest k k1.
Proof.
  intros Hp Hs Hc [E1 E2 E3 E4 E5]. rewrite Hp in E1. rewrite Hs in E2, E3. split; try done.
  by rewrite E5, (exit_counts_eq p k k').
Qed.

Lemma tinv_counters w live sv c :
  threads_alive c = threads_alive (tw_stats w) → Tinv w live sv → Tinv (with_stats c w) live sv.
Proof. intros Hc [I1 I2 I3 I4 I5 I6]. split; try done. simpl. by rewrite Hc. Qed.

Lemma tinv_mach w live sv g a b c d :
  Tinv w live sv → Tinv (with_mach (mkMachine g a b c d (mem (tw_mach w))) w) live sv.
Proof. intros [I1 I2 I3 I4 I5 I6]. by split. Qed.

(** The two calls both ends make. *)
Lemma end_process_spec p code (k : kworld) live sv next rest :
  Tinv (kw_threads k) live sv → trapped plo phi (tw_mach (kw_threads k)) scratch →
  ready (tw_sched (kw_threads k)) = next :: rest →
  ∃ r k1 ts, Kernel.call ctx_offset bootstrap_context yield_ret exit_ret scratch
      (CUser p) (ProcessExit p code) k = Ok (Returned r k1) ∧
    exit_thread Fixed.dealloc ctx_offset bootstrap_context exit_ret scratch (kw_threads k1) = Ok ts ∧
    ended live p next rest k (with_threads ts k1) ∧ kw_console k1 = kw_console k.
Proof.
  intros Hinv Htr Hr. cbn [Kernel.call other_user]. rewrite Z.eqb_refl. cbn [negb].
  assert (∃ b k1, exit p code k = (b, k1) ∧ exit p 0 k = (b, k1) ∧ kw_procs k1 = delete p (kw_procs k) ∧
    Tinv (kw_threads k1) live sv ∧ tw_mach (kw_threads k1) = tw_mach (kw_threads k) ∧
    tw_sched (kw_threads k1) = tw_sched (kw_threads k) ∧ kw_console k1 = kw_console k)
    as (b & k1 & -> & Hk1 & Hp & Hinv1 & Hm & Hs & Hcon).
  { unfold exit. destruct (kw_procs k !! p); eexists _, _; do 3 (split; [done|]); [|done].
    split; [by apply tinv_counters|done]. }
  rewrite <- Hm in Htr. rewrite <- Hs in Hr.
  destruct (exit_thread_trap _ _ _ _ _ exit_ret _ _ _ _ Hpl plo phi Hpp (kw_threads k1) live sv
              scratch next rest Hinv1 Htr Hr) as (ts & c & He & Hinv2 & Hrun & Hsch & _).
  eexists _, k1, ts. split; [reflexivity|]. split; [done|]. rewrite Hs in Hsch.
  split; [|done]. split; simpl; eauto; [exists sv; by rewrite <- Hs|].
  rewrite Hk1. by apply exit_thread_pcounts in He.
Qed.

Section ending.
Context (w : uworld) (live : gmap Z Layout) (sv : gmap Z sctx) (next : Z) (rest : list Z) (t : terminal).
Let k := u_kernel w.
Let p := current_process (tw_sched (kw_threads k)).
Context (Hinv : Tinv (kw_threads k) live sv) (Htr : trapped plo phi (tw_mach (kw_threads k)) scratch).
Context (Hr : ready (tw_sched (kw_threads k)) = next :: rest) (Ht : shows (kw_console k) t).

Lemma sys_exit_ends frame :
  f_rax frame = SYS_EXIT → ∃ w', Dispatch frame w = Ok (None, w') ∧
    ended live p next rest k (u_kernel w') ∧ shows (kw_console (u_kernel w')) t.
Proof.
  intros Hax. unfold syscall_dispatch. rewrite Hax. cbn [SYS_EXIT Z.eqb]. fold k p.
  destruct (end_process_spec p (as_i32 (f_rdi frame)) k live sv next rest Hinv Htr Hr)
    as (r & k1 & ts & Hc & He & Hend & Hcon).
  unfold sys_exit. fold k. rewrite Hc. bstep. rewrite He. bstep. eexists. split; [reflexivity|].
  split; [done|]. simpl. by rewrite Hcon.
Qed.

Lemma fault_ends msg report code_segment :
  p ≠ KERNEL_PID →
  let handled := fault_handler ctx_offset bootstrap_context yield_ret exit_ret scratch
    msg report code_segment k in
  if faulted_in_ring3 code_segment
  then ∃ k', handled = Ok k' ∧ ended live p next rest k k' ∧ shows (kw_console k') (t_write_string report t)
  else handled = Panic msg.
Proof.
  intros Hp. cbv zeta. unfold fault_handler.
  destruct (write_string_refines report _ t Ht) as (c & Hw & Hs). unfold write_str. rewrite Hw. bstep.
  destruct (faulted_in_ring3 code_segment); [|done].
  unfold kill_faulting_process. cbn [kw_threads with_console]. fold p.
  rewrite (proj2 (Z.eqb_neq _ _) Hp).
  destruct (end_process_spec p (-1) (with_console c k) live sv next rest Hinv Htr Hr)
    as (r & k1 & ts & Hc & He & Hend & Hcon).
  rewrite Hc. bstep. rewrite He. bstep. eexists. split; [reflexivity|]. split; [by eapply ended_eq, Hend|].
  simpl. by rewrite Hcon.
Qed.
End ending.

(** C10: however a user process ends, by [sys_exit] or by a fault in ring 3,
    only it ends.  With another thread ready, the trap, which runs on the
    privilege stack, does not panic: the process leaves the registry, its
    host thread leaves the scheduler, and the next ready thread runs with
    every other thread intact; the console shows the fault's report and
    nothing else.  A fault in ring 0 always panics. *)
Theorem user_termination (w : uworld) live sv next rest report t :
  let k := u_kernel w in
  let p := current_process (tw_sched (kw_threads k)) in
  Tinv (kw_threads k) live sv → trapped plo phi (tw_mach (kw_threads k)) scratch →
  ready (tw_sched (kw_threads k)) = next :: rest → p ≠ KERNEL_PID → shows (kw_console k) t →
  (∀ frame, f_rax frame = SYS_EXIT → ∃ w', Dispatch frame w = Ok (None, w') ∧
     ended live p next rest k (u_kernel w') ∧ shows (kw_console (u_kernel w')) t) ∧
  (∀ msg code_segment,
     let handled := fault_handler ctx_offset bootstrap_context yield_ret exit_ret scratch
       msg report code_segment k in
     if faulted_in_ring3 code_segment
     then ∃ k', handled = Ok k' ∧ ended live p next rest k k' ∧ shows (kw_console k') (t_write_string report t)
     else handled = Panic msg).
Proof.
  intros k p Hinv Htr Hr Hp Ht. split.
  - intros frame. by eapply sys_exit_ends.
  - intros msg code_segment. by eapply fault_ends.
Qed.
End traps.

(** ** Witnesses *)

Abbreviation demo_dispatch := (syscall_dispatch 16 0x1000 0x100 0x200 0x7f80
  (@translate demo_paging demo_paging_laws)).

(** A system call with an unknown number, on the privilege stack. *)
Definition demo_iframe : iframe := mkIframe 0x400000000020 0x33 0x202 0x400000003000 0x2b.

Definition demo_trap_machine : machine :=
  mkMachine (λ r, if decide (r = RSP) then 0x7fd8 else if decide (r = RAX) then 9 else 5) 0 8 2 16
    (push_words 0x8000 (reverse (iframe_words demo_iframe)) ∅).

Definition demo_compiled (m : machine) : outcome machine :=
  Ok (set_reg RSP (regs m RSP + 8)
        (Machine.set_mem (<[regs m RDI + 112 := u64_modulus - 6]> (mem m)) m)).

Lemma syscall_round_trip_witness :
  ∃ m', syscall_isr 0x300 demo_compiled demo_trap_machine = Ok m' ∧
    regs m' RAX = u64_modulus - 6 ∧
    (∀ r, r ≠ RAX → r ≠ RSP → regs m' r = regs demo_trap_machine r) ∧
    rip m' = 0x400000000020 ∧ cs m' = 0x33 ∧ rflags m' = 0x202 ∧
    regs m' RSP = 0x400000003000 ∧ ss m' = 0x2b.
Proof.
  apply (syscall_round_trip 16 0x1000 0x100 0x200 0x7f80 (L := demo_paging_laws) 0x300 demo_compiled
    demo_trap_machine demo_iframe demo_user
    (set_rax (u64_modulus - 6) (entry_frame demo_trap_machine demo_iframe)) demo_user).
  - by exists 2048.
  - by vm_compute.
  - by vm_compute.
  - repeat split; vm_compute; reflexivity.
  - reflexivity.
  - intros m1 _ Hw. eexists. split; [reflexivity|]. split; [apply fn_lookup_insert|].
    rewrite entry_frame_words in Hw.
    apply (words_at_rax _ (<[regs m1 RDI + 112 := u64_modulus - 6]> (mem m1)) _ _ _ (u64_modulus - 6))
      in Hw; [exact Hw|done|].
    intros k _. destruct (k =? regs m1 RDI + 112) eqn:E; zbool; subst;
      [apply lookup_insert_eq|by apply lookup_insert_ne].
Defined.

(** The first system call of the demo program. *)
Definition demo_created : uworld (Q := list_array_queue) (V := demo_volatile) (P := demo_paging) :=
  (value (inl EmptyString, demo_user)
     (create_process_from_program 16 0x1000 0x100 0x200 0x7f80
        (@translate demo_paging demo_paging_laws) USER_DEMO demo_user)).2.

Definition demo_syscall (rax rdi rsi rdx : Z) : SyscallFrame :=
  mkSFrame 0 0 0 0 0 0 0 0 rdi rsi 0 0 rdx 0 rax 0x400000000020 0x33 0x202 0x400000003000 0x2b.

Definition hello : list Z :=
  [104; 101; 108; 108; 111; 32; 102; 114; 111; 109; 32; 114; 105; 110; 103; 32; 51; 33; 10].

Lemma sys_write_spec_witness :
  ∃ w', demo_dispatch (demo_syscall 1 1 0x40000000002d 19) demo_created =
      Ok (Some (demo_syscall 19 1 0x40000000002d 19), w') ∧
    shows (kw_console (u_kernel w')) (t_write_string (mjoin (utf8 <$> hello)) demo_terminal) ∧
    kw_threads (u_kernel w') = kw_threads (u_kernel demo_created) ∧
    kw_procs (u_kernel w') = kw_procs (u_kernel demo_created) ∧
    ∀ e, 19 ≠ errno e.
Proof.
  apply (sys_write_spec 16 0x1000 0x100 0x200 0x7f80 (L := demo_paging_laws)
    (VL := demo_volatile_laws) (demo_syscall 1 1 0x40000000002d 19) demo_created).
  - reflexivity.
  - by vm_compute.
  - by vm_compute.
  - reflexivity.
  - by vm_compute.
  - by vm_compute.
  - by vm_compute.
  - vm_compute. reflexivity.
  - replace (kw_console (u_kernel demo_created)) with demo_writer by (vm_compute; reflexivity).
    apply demo_shows.
Defined.

Lemma demo_created_ok :
  create_process_from_program 16 0x1000 0x100 0x200 0x7f80
    (@translate demo_paging demo_paging_laws) USER_DEMO demo_user = Ok (inr 1, demo_created).
Proof.
  destruct (create_process_spec 16 0x1000 0x100 0x200 0x7f80 (L := demo_paging_laws) USER_DEMO demo_user)
    as (r & w & Hc & _).
  assert (result_of (create_process_from_program 16 0x1000 0x100 0x200 0x7f80
    (@translate demo_paging demo_paging_laws) USER_DEMO demo_user) = Some (inr 1)) as Hr
    by (vm_compute; reflexivity).
  unfold demo_created. rewrite Hc in Hr |- *. by injection Hr as ->.
Qed.

Lemma user_window_hole_witness :
  user_bytes 0x400000001000 1 = Some (0x400000001000, 1) ∧
  demo_dispatch (demo_syscall 1 1 0x400000001000 1) demo_created = Panic "Page fault".
Proof.
  apply (user_window_hole 16 0x1000 0x100 0x200 0x7f80 (L := demo_paging_laws) USER_DEMO demo_user 1
    demo_created (demo_syscall 1 1 0x400000001000 1)).
  - apply demo_created_ok.
  - reflexivity.
  - reflexivity.
  - reflexivity.
  - reflexivity.
  - cbn. lia.
Defined.

(** Two keys have been decoded. *)
Definition demo_typed : uworld (Q := list_array_queue) (V := demo_volatile) (P := demo_paging) :=
  with_kernel (with_input (mkK (Q := list_array_queue) (C := option_cell _) (A := option_waker unit)
    None (Some (mkLQ 100 [97; 98])) None tt) demo_kernel) demo_user.

Lemma syscall_results_witness :
  ∃ i, demo_dispatch (demo_syscall 2 0 0 0) demo_typed =
      Ok (Some (demo_syscall 97 0 0 0), with_kernel (with_input i (u_kernel demo_typed)) demo_typed) ∧
    keys (QL := list_array_queue_laws) i = [98] ∧
    SCANCODE_QUEUE i = SCANCODE_QUEUE (kw_input (u_kernel demo_typed)).
Proof.
  apply (proj1 (syscall_results 16 0x1000 0x100 0x200 0x7f80 (L := demo_paging_laws)
    (QL := list_array_queue_laws) (CL := option_cell_laws _) (demo_syscall 2 0 0 0) demo_typed)).
  reflexivity.
Defined.

(** The host thread of process 3 has trapped onto the privilege stack. *)
Definition demo_trap_threads : tworld Fixed.fworld :=
  with_mach (mkMachine (λ r, if decide (r = RSP) then 0x7f00 else 0) 0 8 2 16
    (mem (tw_mach demo_switched))) demo_switched.

Definition demo_trapped : uworld (Q := list_array_queue) (V := demo_volatile) (P := demo_paging) :=
  with_kernel (with_threads demo_trap_threads demo_hosted) demo_user.

Lemma demo_priv : priv_placement 0x1000 HEAP_START (HEAP_START + HEAP_SIZE) 0x2000 0x4000 0x6000 0x8000.
Proof. split; unfold apart, HEAP_START, HEAP_SIZE, u64_modulus; lia. Qed.

Abbreviation demo_tinv := (tinv Fixed.alloc Fixed.dealloc Fixed.scribble 16 0x1000
  HEAP_START (HEAP_START + HEAP_SIZE) 0x2000 0x4000).

Lemma demo_switched_inv : ∃ live sv, demo_tinv demo_switched live sv.
Proof.
  destruct (reachable_good _ _ _ _ _ 0x100 0x200 _ _ _ _ demo_placement demo_boot demo_switched)
    as [(live & sv & Hinv) _].
  - apply booted_good, demo_booted.
  - eapply rtc_r; [apply demo_spawned_reachable|]. right. apply switch_yield, demo_switch_ok.
  - exists live, sv. exact Hinv.
Qed.

Lemma demo_trapped_inv : ∃ live sv, demo_tinv demo_trap_threads live sv.
Proof.
  destruct demo_switched_inv as (live & sv & Hinv). exists live, sv.
  unfold demo_trap_threads. apply tinv_mach. exact Hinv.
Qed.

Lemma demo_trapped_sp : regs (tw_mach (kw_threads (u_kernel demo_trapped))) RSP = 0x7f00.
Proof. reflexivity. Qed.

Lemma user_termination_witness :
  ∃ live,
  (∀ frame, f_rax frame = SYS_EXIT → ∃ w', demo_dispatch frame demo_trapped = Ok (None, w') ∧
     ended 16 0x1000 0x2000 0x4000 live 3 0 [] (u_kernel demo_trapped) (u_kernel w') ∧
     shows (kw_console (u_kernel w')) demo_terminal) ∧
  (∀ msg code_segment,
     let handled := fault_handler 16 0x1000 0x100 0x200 0x7f80 msg hello code_segment
       (u_kernel demo_trapped) in
     if faulted_in_ring3 code_segment
     then ∃ k', handled = Ok k' ∧ ended 16 0x1000 0x2000 0x4000 live 3 0 [] (u_kernel demo_trapped) k' ∧
       shows (kw_console k') (t_write_string hello demo_terminal)
     else handled = Panic msg).
Proof.
  destruct demo_trapped_inv as (live & sv & Hinv).
  assert (current_process (tw_sched (kw_threads (u_kernel demo_trapped))) = 3) as Hp
    by (vm_compute; reflexivity).
  exists live. rewrite <- Hp.
  apply (user_termination 16 0x1000 0x100 0x200 0x7f80 (L := demo_paging_laws)
    (VL := demo_volatile_laws) 0x2000 0x4000 0x6000 0x8000 demo_placement demo_priv demo_trapped
    live sv 0 [] hello demo_terminal Hinv).
  - split; rewrite ?demo_trapped_sp; [by exists 4064|lia|lia|by exists 4080].
  - vm_compute. reflexivity.
  - rewrite Hp. done.
  - apply demo_shows.
Defined.
