(* ===== verification/UserExec.v ===== *)
(** * Running user programs

    The instructions of the hand-assembled programs of src/src/userland.rs,
    decoded from the bytes in the code page and executed in ring 3, with the
    kernel's trap handling in between: a system call runs [syscall_isr] and
    [syscall_dispatch] on the privilege stack, a fault runs its handler. *)

From Stdlib Require Import ZArith Lia.
From stdpp Require Import base gmap list strings numbers functions.
From S2P Require Import Prelude AllocMod FixedSizeBlock Scheduler Machine Thread Libs Keyboard Vga Kernel.
From S2P Require Import Paging Gdt Userland Syscall Interrupts.

Open Scope Z_scope.

(** ** Decoding *)

Inductive uinstr :=
| MovImm (r : reg) (v : Z)       (* mov r, imm *)
| MovMem (b : reg) (v : Z)       (* mov qword [b], imm *)
| Lea (r : reg) (disp : Z)       (* lea r, [rip + disp] *)
| Xor (d s : reg)                (* xor d, s *)
| IntN (n : Z)                   (* int n *)
| Hlt
| Jmp (rel : Z).                 (* jmp rel8 *)

Definition reg_of (n : Z) : reg :=
  if n =? 0 then RAX else if n =? 1 then RCX else if n =? 2 then RDX else if n =? 3 then RBX
  else if n =? 4 then RSP else if n =? 5 then RBP else if n =? 6 then RSI else RDI.

(** A little-endian number. *)
Fixpoint le_value (bytes : list Z) : Z :=
  match bytes with [] => 0 | b :: bytes => b + 256 * le_value bytes end.

Fixpoint le_bytes (n : nat) (v : Z) : list Z :=
  match n with O => [] | S n => v mod 256 :: le_bytes n (v / 256) end.

(** Sign extension of [n] bytes to 64 bits. *)
Definition sign_extend (n : nat) (v : Z) : Z :=
  let bits := 8 * Z.of_nat n in
  (if v <? 2 ^ (bits - 1) then v else v - 2 ^ bits) mod u64_modulus.

Definition imm (n : nat) (bytes : list Z) : option Z :=
  if (n <=? length bytes)%nat then Some (sign_extend n (le_value (take n bytes))) else None.

(** The three fields of a ModRM byte. *)
Definition modrm (b : Z) : Z * Z * Z := (b / 64, (b / 8) mod 8, b mod 8).

(** Opcodes with the prefix that makes the operands 64 bits wide. *)
Definition decode_wide (bytes : list Z) : option (uinstr * Z) :=
  match bytes with
  | op :: rest =>
      if (0xb8 <=? op) && (op <=? 0xbf) then
        v ← imm 8 rest; Some (MovImm (reg_of (op - 0xb8)) v, 10)
      else match rest with
      | b :: rest =>
          let '(m, r, rm) := modrm b in
          if (op =? 0xc7) && (r =? 0) then
            v ← imm 4 rest;
            if m =? 3 then Some (MovImm (reg_of rm) v, 7)
            else if (m =? 0) && negb (rm =? 4) && negb (rm =? 5) then Some (MovMem (reg_of rm) v, 7)
            else None
          else if (op =? 0x8d) && (m =? 0) && (rm =? 5) then
            v ← imm 4 rest; Some (Lea (reg_of r) v, 7)
          else if (op =? 0x31) && (m =? 3) then Some (Xor (reg_of rm) (reg_of r), 3)
          else None
      | [] => None
      end
  | [] => None
  end.

(** An instruction and its length; [None] is outside the subset. *)
Definition decode (bytes : list Z) : option (uinstr * Z) :=
  match bytes with
  | b :: rest =>
      if b =? 0x48 then decode_wide rest
      else if b =? 0xf4 then Some (Hlt, 1)
      else if b =? 0xcd then n ← head rest; Some (IntN n, 2)
      else if b =? 0xeb then v ← imm 1 rest; Some (Jmp v, 2)
      else None
  | [] => None
  end.

(** [rflags] after a logical operation: carry and overflow clear, parity, zero
    and sign from the result. *)
Definition parity (v : Z) : bool :=
  negb (Z.odd (foldr (λ i n, n + (if Z.testbit v (Z.of_nat i) then 1 else 0)) 0 (seq 0 8))).

Definition logic_flags (v f : Z) : Z :=
  Z.lor (Z.ldiff f 0x8c5)
    ((if parity v then 0x4 else 0) + (if v =? 0 then 0x40 else 0) + (if Z.testbit v 63 then 0x80 else 0)).

Section user_exec.
Context (ctx_offset bootstrap_context yield_ret exit_ret scratch : Z).
Context {W E : Type}.
Context {Q : ArrayQueue} {C : OnceCell aq} {A : AtomicWaker W} {V : Volatile} {P : Paging}.
(** The page tables as the kernel and as ring 3 see them. *)
Context (walk user_walk : mapper → Z → option (Z * Z)).
(** The privilege stack and the code segment of the handlers, the return
    address of the call in [syscall_isr], and the stack the compiled handlers
    use before they reach [exit_thread]. *)
Context (top kernel_cs isr_ret depth : Z).
(** The addresses of the handlers, and the message they print on a fault. *)
Context (handler_addr : Handler → Z) (report : list Z).

Abbreviation uworld := (uworld (W := W) (E := E)).

Definition mach (w : uworld) : machine := tw_mach (kw_threads (u_kernel w)).

Definition set_mach (m : machine) (w : uworld) : uworld :=
  with_kernel (with_threads (with_mach m (kw_threads (u_kernel w))) (u_kernel w)) w.

(** The mapped bytes at [v], at most [n] of them. *)
Fixpoint fetch (w : uworld) (v : Z) (n : nat) : list Z :=
  match n with
  | O => []
  | S n =>
      match phys user_walk (u_mapper w) v with
      | Some a => u_ram w a :: fetch w (v + 1) n
      | None => []
      end
  end.

(** After a step the program runs on, or its thread has given up the CPU. *)
Inductive uresult :=
| Runs (w : uworld)
| Leaves (w : uworld).

(** [frame: &mut SyscallFrame] at address [a] *)
Fixpoint load_words (a : Z) (n : nat) (m : machine) : outcome (list Z) :=
  match n with
  | O => Ok []
  | S n => v ← load a m; vs ← load_words (a + 8) n m; Ok (v :: vs)
  end.

Definition load_frame (a : Z) (m : machine) : outcome SyscallFrame :=
  vs ← load_words a 20 m;
  match vs with
  | [r15; r14; r13; r12; r11; r10; r9; r8; rdi; rsi; rbp; rbx; rdx; rcx; rax; ip; c; fl; sp; s] =>
      Ok (mkSFrame r15 r14 r13 r12 r11 r10 r9 r8 rdi rsi rbp rbx rdx rcx rax ip c fl sp s)
  | _ => Undef
  end.

(** From [int 0x80] to the call of [syscall_dispatch] in [syscall_isr]. *)
Definition syscall_enter (m : machine) : outcome machine :=
  m ← trap_entry top kernel_cs (handler_addr HSyscall) None m;
  m ← run isr_entry m;
  push isr_ret m.

(** [int 0x80]: [syscall_isr] on the privilege stack, around
    [syscall_dispatch].  If the dispatch switched threads, the rest of the
    handler belongs to a later run of this one. *)
Definition syscall_trap (w : uworld) : outcome uresult :=
  m1 ← syscall_enter (mach w);
  frame ← load_frame (regs m1 RDI) m1;
  '(r, w') ← syscall_dispatch ctx_offset bootstrap_context yield_ret exit_ret scratch walk frame
               (set_mach (set_reg RSP (regs m1 RSP - depth) m1) w);
  match r with
  | None => Ok (Leaves w')
  | Some frame' =>
      if current (tw_sched (kw_threads (u_kernel w'))) =? current (tw_sched (kw_threads (u_kernel w)))
      then
        m ← store (regs m1 RDI + 112) (f_rax frame') (mach w');
        m ← run isr_exit (set_reg RSP (regs m1 RSP + 8) m);
        Ok (Runs (set_mach m w'))
      else Ok (Leaves w')
  end.

(** A fault: the handler on the privilege stack, which kills the process. *)
Definition fault_trap (h : Handler) (msg : string) (code : Z) (w : uworld) : outcome uresult :=
  m ← trap_entry top kernel_cs (handler_addr h) (Some code) (mach w);
  k ← fault_handler ctx_offset bootstrap_context yield_ret exit_ret scratch msg report (cs (mach w))
        (u_kernel (set_mach (set_reg RSP (regs m RSP - depth) m) w));
  Ok (Leaves (with_kernel k w)).

Definition gpf_trap : Z → uworld → outcome uresult := fault_trap HGpf "General protection fault".
Definition page_fault_trap : Z → uworld → outcome uresult := fault_trap HPageFault "Page fault".

(** One instruction in ring 3, from the machine state after the fetch. *)
Definition user_exec (i : uinstr) (next : Z) (w : uworld) : outcome uresult :=
  let m := mach w in
  let on m := Ok (Runs (set_mach m w)) in
  match i with
  | MovImm r v => on (set_reg r v (set_rip next m))
  | Lea r d => on (set_reg r (wrapping_add next d) (set_rip next m))
  | Xor d s =>
      let v := Z.lxor (regs m d) (regs m s) in
      on (mkMachine (<[d := v]> (regs m)) next (cs m) (logic_flags v (rflags m)) (ss m) (mem m))
  | Jmp d => on (set_rip (wrapping_add next d) m)
  | MovMem b v =>
      match copy_bytes user_walk (u_mapper w) (regs m b) (le_bytes 8 v) (u_ram w) with
      | Ok ram => Ok (Runs (set_mach (set_rip next m) (mkUW (u_kernel w) (u_mapper w) (u_frames w) ram)))
      | _ => page_fault_trap 6 w
      end
  | IntN n =>
      match user_int n with
      | Some HSyscall => syscall_trap (set_mach (set_rip next m) w)
      | Some _ => Undef
      | None => gpf_trap (8 * n + 2) w
      end
  | Hlt => gpf_trap 0 w
  end.

(** Bytes outside the decoded subset are [Undef]. *)
Definition user_step (w : uworld) : outcome uresult :=
  match fetch w (rip (mach w)) 15 with
  | [] => page_fault_trap 0x14 w
  | bytes =>
      match decode bytes with
      | Some (i, len) => user_exec i (wrapping_add (rip (mach w)) len) w
      | None => Undef
      end
  end.

(** Until the program leaves the CPU; [Diverge] when the fuel is not enough. *)
Fixpoint user_run (fuel : nat) (w : uworld) : outcome uworld :=
  match fuel with
  | O => Diverge
  | S fuel => r ← user_step w; match r with Runs w => user_run fuel w | Leaves w => Ok w end
  end.
End user_exec.
