(* ===== verification/UserExecThms.v ===== *)
(** * The user programs, end to end

    The programs of src/src/userland.rs run to their end: the first prints its
    message through [sys_write] and ends by [sys_exit], the other two are
    killed by the fault they cause.  Every step is decoded from the bytes of
    the code page, and every trap goes through the assembly of
    src/src/syscall.rs and the privilege stack of src/src/gdt.rs. *)

From Stdlib Require Import ZArith Lia.
From stdpp Require Import base gmap list strings numbers functions.
From S2P Require Import Prelude AllocMod FixedSizeBlock Scheduler Machine Thread Libs Keyboard Vga Kernel.
From S2P Require Import Paging Gdt Userland Syscall Interrupts UserExec.
From S2P Require Import ThreadInv ThreadTrap ThreadThms KernelThms UserlandThms TrapThms.

Open Scope Z_scope.

(** The context a trap saves. *)
Definition interrupted (m : machine) : iframe :=
  mkIframe (rip m) (cs m) (rflags m) (regs m RSP) (ss m).

Lemma load_words_ok vs a m :
  (8 | a) → words_at (mem m) a vs → load_words a (length vs) m = Ok vs.
Proof.
  revert a. induction vs as [|v vs IH]; intros a Ha; [done|]. intros [Hv Hvs].
  cbn [length load_words]. unfold load. rewrite aligned_mod, Hv by done. bstep.
  rewrite IH; [done| |done]. apply Z.divide_add_r; [done|by exists 1].
Qed.

Lemma load_frame_ok f a m : (8 | a) → words_at (mem m) a (frame_words f) → load_frame a m = Ok f.
Proof.
  intros Ha Hw. unfold load_frame. change 20%nat with (length (frame_words f)).
  rewrite load_words_ok by done. bstep. by destruct f.
Qed.

(** ** Gates and selectors *)

(** Ring 3 can enter the kernel by an [int] instruction through the system
    call gate and no other; every gate but the double fault's stays on the
    stack it finds; and the selectors the descriptor table hands out are told
    apart by the test of the fault handlers. *)
Lemma ring3_gates {G : GdtApi} {GL : GdtLaws G} :
  (∀ n h, user_int n = Some h ↔ n = SYSCALL_VECTOR ∧ h = HSyscall) ∧
  (∀ n g, IDT !! n = Some g → (g_ist g = Some DOUBLE_FAULT_IST_INDEX ↔ n = DOUBLE_FAULT_VECTOR)) ∧
  (∃ s, selectors = Ok s ∧ faulted_in_ring3 (user_code s) = true ∧ faulted_in_ring3 (user_data s) = true ∧
    faulted_in_ring3 (kernel_code s) = false ∧ faulted_in_ring3 (kernel_data s) = false).
Proof.
  split_and!.
  - intros n h. unfold user_int. destruct (IDT !! n) as [g|] eqn:Hg.
    + unfold IDT in Hg. rewrite !lookup_insert_Some in Hg. naive_solver.
    + split; [done|]. intros [-> _]. done.
  - intros n g Hg. unfold IDT in Hg. rewrite !lookup_insert_Some in Hg. naive_solver.
  - destruct GDT_ok as [t Ht]. unfold selectors. rewrite Ht. by eexists.
Qed.

Section user_exec_thms.
Context (ctx_offset bootstrap_context yield_ret exit_ret scratch : Z).
Context {W E : Type}.
Context {Q : ArrayQueue} {C : OnceCell aq} {A : AtomicWaker W} {V : Volatile}.
Context {VL : VolatileLaws V} {P : Paging} {L : PagingLaws P}.
Context (user_walk : mapper → Z → option (Z * Z)).
Context (top kernel_cs isr_ret depth : Z) (handler_addr : Handler → Z) (report : list Z).

Abbreviation uworld := (uworld (W := W) (E := E)).
Abbreviation Dispatch := (syscall_dispatch ctx_offset bootstrap_context yield_ret exit_ret scratch
  translate (W := W) (E := E)).
Abbreviation Step := (user_step ctx_offset bootstrap_context yield_ret exit_ret scratch translate
  user_walk top kernel_cs isr_ret depth handler_addr report (W := W) (E := E)).
Abbreviation Exec := (user_exec ctx_offset bootstrap_context yield_ret exit_ret scratch translate
  user_walk top kernel_cs isr_ret depth handler_addr report (W := W) (E := E)).
Abbreviation Run := (user_run ctx_offset bootstrap_context yield_ret exit_ret scratch translate
  user_walk top kernel_cs isr_ret depth handler_addr report (W := W) (E := E)).
Abbreviation Trap := (syscall_trap ctx_offset bootstrap_context yield_ret exit_ret scratch translate
  top kernel_cs isr_ret depth handler_addr (W := W) (E := E)).

(** ** Fetching *)

Lemma read_bytes_app walk (w : uworld) v n n' l :
  read_bytes walk w v (n + n') = Ok l →
  read_bytes walk w v n = Ok (take n l) ∧ read_bytes walk w (v + Z.of_nat n) n' = Ok (drop n l).
Proof.
  revert v l. induction n as [|n IH]; intros v l; cbn [read_bytes Nat.add].
  { rewrite Z.add_0_r. by rewrite drop_0. }
  intros He. apply bind_inv in He as (b & -> & He). apply bind_inv in He as (bs & Hb & He).
  injection He as <-. destruct (IH (v + 1) bs Hb) as [-> H2]. bstep. split; [done|].
  replace (v + Z.of_nat (S n)) with (v + 1 + Z.of_nat n) by lia. done.
Qed.

(** The part of a program at an offset. *)
Lemma read_bytes_slice walk (w : uworld) v program off n :
  read_bytes walk w v (length program) = Ok program → (off + n <= length program)%nat →
  read_bytes walk w (v + Z.of_nat off) n = Ok (take n (drop off program)).
Proof.
  intros Hr Hl. replace (length program) with (off + (n + (length program - off - n)))%nat in Hr by lia.
  apply read_bytes_app in Hr as [_ Hr]. by apply read_bytes_app in Hr as [Hr _].
Qed.

Context (Hring3 : ∀ m q, ring3 m q → user_walk m q = translate m q).

Lemma read_fetch (w : uworld) base off bytes k :
  (4096 | base) → ring3 (u_mapper w) base →
  0 <= off → off + Z.of_nat (length bytes) <= 4096 →
  read_bytes translate w (base + off) (length bytes) = Ok bytes →
  fetch user_walk w (base + off) (length bytes + k) =
    bytes ++ fetch user_walk w (base + off + Z.of_nat (length bytes)) k.
Proof.
  intros Hb Hu. revert off. induction bytes as [|b bytes IH]; intros off H0 Hl Hr.
  { cbn [length Nat.add app]. by rewrite Z.add_0_r. }
  cbn [length] in *. cbn [read_bytes] in Hr. apply bind_inv in Hr as (c & Hc & Hr).
  apply bind_inv in Hr as (bs & Hbs & Hr). injection Hr as -> ->.
  cbn [Nat.add fetch app]. unfold read_byte_at, phys in *. rewrite page_offset in * by (done || lia).
  replace (base + off - off) with base in * by lia. rewrite Hring3 by done.
  destruct (translate (u_mapper w) base) as [[frame flags]|]; [|done]. injection Hc as ->. f_equal.
  rewrite <- Z.add_assoc, IH by (done || lia || by rewrite Z.add_assoc). f_equal. f_equal. lia.
Qed.

(** A program in the code page. *)
Record loaded (program : list Z) (w : uworld) : Prop := {
  ld_ring3 : ring3 (u_mapper w) USER_CODE_BASE;
  ld_bytes : read_bytes translate w USER_CODE_BASE (length program) = Ok program;
  ld_size : (length program <= 4096)%nat;
}.

Lemma read_bytes_kernel walk (w : uworld) k v n :
  read_bytes walk (with_kernel k w) v n = read_bytes walk w v n.
Proof.
  revert v. induction n as [|n IH]; intros v; [done|]. cbn [read_bytes]. by rewrite IH.
Qed.

Lemma loaded_kernel program w k : loaded program w → loaded program (with_kernel k w).
Proof. intros [H1 H2 H3]. split; [done| |done]. by rewrite read_bytes_kernel. Qed.

(** What [create_process_from_program] leaves in the code page. *)
Lemma created_loaded program w p w' :
  create_process_from_program ctx_offset bootstrap_context yield_ret exit_ret scratch translate
    program w = Ok (inr p, w') → loaded program w'.
Proof.
  intros Hc. destruct (create_process_spec ctx_offset bootstrap_context yield_ret exit_ret scratch
    program w) as (r & w1 & Hc1 & Hr). rewrite Hc in Hc1. injection Hc1 as <- <-.
  split; [apply (su_code _ _ _ _ Hr)|apply (su_program _ _ _ _ Hr)|].
  unfold create_process_from_program in Hc. destruct (4096 <? _) eqn:Hlen; [done|]. zbool. lia.
Qed.

(** One step, when the bytes at [rip] are those of an instruction. *)
Lemma user_step_at program w off n i :
  loaded program w → rip (mach w) = USER_CODE_BASE + Z.of_nat off →
  (off + n <= length program)%nat → (0 < n <= 15)%nat →
  (∀ l, decode (take n (drop off program) ++ l) = Some (i, Z.of_nat n)) →
  Step w = Exec i (USER_CODE_BASE + Z.of_nat (off + n)) w.
Proof.
  intros [H3 Hb Hs] Hrip Hl Hn Hd. unfold user_step. rewrite Hrip.
  pose proof (read_bytes_slice _ _ _ _ off n Hb Hl) as Hr.
  set (bs := take n (drop off program)) in *.
  assert (length bs = n) as Hlen by (unfold bs; rewrite length_take, length_drop; lia).
  replace 15%nat with (length bs + (15 - n))%nat by lia. rewrite <- Hlen in Hr.
  rewrite (read_fetch w USER_CODE_BASE (Z.of_nat off) bs) by (done || lia || by exists 17179869184).
  specialize (Hd (fetch user_walk w (USER_CODE_BASE + Z.of_nat off + Z.of_nat (length bs)) (15 - n))).
  destruct bs as [|b bs]; [simpl in Hlen; lia|]. cbn [app] in *. rewrite Hd.
  rewrite wrapping_add_ok by (unfold USER_CODE_BASE, u64_modulus; lia). f_equal. lia.
Qed.

(** ** Traps *)

Context (boot_lo boot_hi plo : Z).

Abbreviation Tinv := (tinv Fixed.alloc Fixed.dealloc Fixed.scribble ctx_offset bootstrap_context
  HEAP_START (HEAP_START + HEAP_SIZE) boot_lo boot_hi).

Context (Hpl : placement ctx_offset bootstrap_context HEAP_START (HEAP_START + HEAP_SIZE) boot_lo boot_hi).
Context (Hpp : priv_placement bootstrap_context HEAP_START (HEAP_START + HEAP_SIZE) boot_lo boot_hi plo top).

(** The privilege stack is aligned and has room for the saved context, for
    what the handlers use, and for the switch away. *)
Record stack_room : Prop := {
  sr_top : (16 | top);
  sr_depth : 0 <= depth ∧ (8 | depth);
  sr_room : plo + 224 <= top - depth;
  sr_scratch : (8 | scratch) ∧ top - 48 - depth <= scratch ∧ scratch + 8 <= top;
}.

Context (Hroom : stack_room).

Lemma top_u64 : is_u64 top.
Proof. destruct Hpp as [_ _ _ B]. unfold is_u64, u64_modulus in *. lia. Qed.

(** A trap on the privilege stack disturbs no suspended thread. *)
Lemma tinv_trap w live sv m :
  Tinv w live sv → (∀ k, k < plo ∨ top <= k → mem m !! k = mem (tw_mach w) !! k) →
  Tinv (with_mach m w) live sv.
Proof.
  intros Hinv Hm. pose proof Hinv as [I1 I2 I3 I4 I5 I6]. split; try done.
  intros i Hi. destruct (I5 i Hi) as (c & Hc & Hh). exists c. split; [done|].
  destruct (qk_ready _ _ I3 i Hi) as [_ Hv]. cbn [with_mach tw_sched tw_mach] in *.
  by eapply trap_holds.
Qed.

Lemma trapped_here m n :
  regs m RSP = top - n → 48 <= n <= 168 → (8 | n) →
  trapped plo top (set_reg RSP (regs m RSP - depth) m) scratch.
Proof.
  intros Hsp Hn Hn8. destruct Hroom as [[q Hq] [D1 D2] R [S1 S2]].
  assert (regs (set_reg RSP (regs m RSP - depth) m) RSP = top - n - depth) as Hs
    by (cbn [regs set_reg]; by rewrite fn_lookup_insert, Hsp).
  split; rewrite ?Hs; [|lia..|done].
  apply Z.divide_sub_r; [apply Z.divide_sub_r; [|done]|done]. exists (2 * q). lia.
Qed.

(** From [int 0x80] to the call of [syscall_dispatch]. *)
Lemma syscall_entry m :
  ∃ m2, syscall_enter top kernel_cs isr_ret handler_addr m = Ok m2 ∧
    regs m2 RSP = top - 168 ∧ regs m2 RDI = top - 160 ∧
    load_frame (top - 160) m2 = Ok (entry_frame m (interrupted m)) ∧
    words_at (mem m2) (top - 160) (frame_words (entry_frame m (interrupted m))) ∧
    (∀ k, k < plo ∨ top <= k → mem m2 !! k = mem m !! k).
Proof.
  destruct Hroom as [[q Hq] [D1 D2] R [S1 S2]], Hpp as [_ _ _ B]. pose proof top_u64 as Hu.
  destruct (trap_entry_spec top kernel_cs (handler_addr HSyscall) None m)
    as (m0 & H0 & Hsp & Hr & _ & _ & Hw & Hm); [done|by exists q|lia|].
  change (len8 (trap_words None m)) with 40 in *.
  destruct (isr_at_call_spec isr_ret m0 (interrupted m)) as (m1 & m2 & H1 & H2 & Hsp2 & Hdi & Hw2 & Hm2);
    rewrite ?Hsp; [exists (2 * q - 5); lia|lia|lia|exact Hw|].
  rewrite Hsp in *.
  assert (∀ r, r ≠ RSP → regs m0 r = regs m r) as Hall by done.
  assert (words_at (mem m2) (top - 160) (frame_words (entry_frame m (interrupted m)))) as Hfr.
  { rewrite entry_frame_words. replace (top - 160) with (top - 40 - 120) by lia.
    replace (regs m <$> isr_rest) with (regs m0 <$> isr_rest); [rewrite <- (Hall RAX) by done; exact Hw2|].
    unfold isr_rest. cbn [fmap list_fmap]. by rewrite !Hall by done. }
  exists m2. unfold syscall_enter. rewrite H0. bstep. rewrite H1. bstep. split_and!; try done; [lia|lia| |].
  - apply load_frame_ok; [exists (2 * q - 20); lia|done].
  - intros k Hk. rewrite Hm2 by lia. apply Hm. lia.
Qed.

(** The return path, from the frame on the privilege stack. *)
Lemma syscall_leave m m3 v :
  regs m3 RSP = top - 160 →
  words_at (mem m3) (top - 160) (frame_words (set_rax v (entry_frame m (interrupted m)))) →
  ∃ m4, run isr_exit m3 = Ok m4 ∧ mem m4 = mem m3 ∧ regs m4 RAX = v ∧
    (∀ r, r ≠ RAX → regs m4 r = regs m r) ∧ interrupted m4 = interrupted m.
Proof.
  intros Hsp Hw. destruct Hroom as [[q Hq] [D1 D2] R [S1 S2]], Hpp as [_ _ _ B]. pose proof top_u64 as Hu.
  destruct (isr_exit_spec m3 ((regs m <$> isr_rest) ++ [v]) (interrupted m))
    as (m4 & H4 & Hm4 & Hv & E1 & E2 & E3 & E4 & E5); rewrite ?Hsp.
  - done.
  - exact Hw.
  - exists (2 * q - 20). lia.
  - lia.
  - unfold is_u64 in Hu. lia.
  - injection Hv as ? ? ? ? ? ? ? ? ? ? ? ? ? ? ?. exists m4. split_and!; try done.
    + intros r Hr. by destruct r.
    + unfold interrupted. by rewrite E1, E2, E3, E4, E5.
Qed.

(** A system call that returns: the program goes on after [int 0x80] with its
    registers as they were, but for the result in [rax]. *)
Lemma syscall_trap_returns w v k1 :
  let m := mach w in
  let frame := entry_frame m (interrupted m) in
  (∀ m', Dispatch frame (set_mach m' w) = Ok (Some (set_rax v frame), set_mach m' (with_kernel k1 w))) →
  tw_sched (kw_threads k1) = tw_sched (kw_threads (u_kernel w)) →
  ∃ m', Trap w = Ok (Runs (set_mach m' (with_kernel k1 w))) ∧
    regs m' RAX = v ∧ (∀ r, r ≠ RAX → regs m' r = regs m r) ∧
    interrupted m' = interrupted m ∧
    (∀ k, k < plo ∨ top <= k → mem m' !! k = mem m !! k).
Proof.
  intros m frame Hd Hs. destruct Hroom as [[q Hq] [D1 D2] R [S1 S2]], Hpp as [_ _ _ B].
  pose proof top_u64 as Hu.
  destruct (syscall_entry m) as (m2 & H2 & Hsp & Hdi & Hl & Hw & Hm).
  unfold syscall_trap. fold m. rewrite H2. bstep.
  rewrite Hdi, Hl. bstep. fold frame. rewrite Hd. bstep. cbn [set_mach with_kernel u_kernel with_threads kw_threads with_mach tw_sched].
  rewrite Hs, Z.eqb_refl. change (mach (set_mach ?m ?w)) with m. unfold store.
  rewrite aligned_mod by (exists (2 * q - 6); lia). bstep. rewrite Hsp.
  set (m3 := set_reg RSP (top - 168 + 8) _).
  destruct (syscall_leave m m3 v) as (m4 & H4 & Hm4 & Hv & Hr & Hi).
  - unfold m3. cbn [set_reg regs]. rewrite fn_lookup_insert. lia.
  - unfold frame in Hw. rewrite entry_frame_words in Hw.
    apply (words_at_rax _ (mem m3) _ _ _ v) in Hw; [exact Hw|done|]. intros k _. cbn [m3 set_reg set_mem mem].
    destruct (k =? top - 160 + 112) eqn:Ek; zbool; subst; [apply lookup_insert_eq|by apply lookup_insert_ne].
  - rewrite H4. bstep. exists m4. split_and!; try done. intros k Hk. rewrite Hm4.
    cbn [m3 set_reg set_mem mem]. rewrite lookup_insert_ne by lia. by apply Hm.
Qed.

(** ** The end of a program *)

(** A program about to run in ring 3 on the host thread of process [p]. *)
Record launched (program : list Z) (p next : Z) (rest : list Z) (t : terminal)
    (live : gmap Z Layout) (sv : gmap Z sctx) (w : uworld) : Prop := {
  la_code : loaded program w;
  la_rip : rip (mach w) = USER_CODE_BASE;
  la_ring3 : faulted_in_ring3 (cs (mach w)) = true;
  la_tinv : Tinv (kw_threads (u_kernel w)) live sv;
  la_ready : ready (tw_sched (kw_threads (u_kernel w))) = next :: rest;
  la_pid : current_process (tw_sched (kw_threads (u_kernel w))) = p ∧ p ≠ KERNEL_PID;
  la_shows : shows (kw_console (u_kernel w)) t;
}.

Abbreviation Ended := (ended ctx_offset bootstrap_context boot_lo boot_hi).

Section ends.
Context (w : uworld) (live : gmap Z Layout) (sv : gmap Z sctx) (p next : Z) (rest : list Z) (t : terminal).
Context (Hinv : Tinv (kw_threads (u_kernel w)) live sv).
Context (Hr : ready (tw_sched (kw_threads (u_kernel w))) = next :: rest).
Context (Hp : current_process (tw_sched (kw_threads (u_kernel w))) = p).
Context (Ht : shows (kw_console (u_kernel w)) t).

Lemma exit_trap_ends :
  regs (mach w) RAX = SYS_EXIT →
  ∃ w', Trap w = Ok (Leaves w') ∧ Ended live p next rest (u_kernel w) (u_kernel w') ∧
    shows (kw_console (u_kernel w')) t.
Proof.
  intros Hax. destruct (syscall_entry (mach w)) as (m2 & H2 & Hsp & Hdi & Hl & _ & Hm).
  unfold syscall_trap. rewrite H2. bstep. rewrite Hdi, Hl. bstep.
  set (m3 := set_reg RSP _ _).
  destruct (sys_exit_ends _ _ yield_ret exit_ret scratch boot_lo boot_hi plo top Hpl Hpp
    (set_mach m3 w) live sv next rest t) with (frame := entry_frame (mach w) (interrupted (mach w)))
    as (w' & Hd & Hend & Hs); try done.
  - by apply tinv_trap.
  - by eapply trapped_here; [exact Hsp|lia|exists 21].
  - rewrite Hd. bstep. exists w'. split; [done|]. split; [|done]. rewrite <- Hp. by eapply ended_eq, Hend.
Qed.

Lemma fault_trap_ends h msg code :
  faulted_in_ring3 (cs (mach w)) = true → p ≠ KERNEL_PID →
  ∃ w', fault_trap ctx_offset bootstrap_context yield_ret exit_ret scratch top kernel_cs depth
      handler_addr report h msg code w = Ok (Leaves w') ∧
    Ended live p next rest (u_kernel w) (u_kernel w') ∧
    shows (kw_console (u_kernel w')) (t_write_string report t).
Proof.
  intros Hcs Hk. destruct Hroom as [Htop [D1 D2] R [S1 S2]]. pose proof top_u64 as Hu.
  pose proof (pp_bounds _ _ _ _ _ _ _ Hpp) as B.
  destruct (trap_entry_spec top kernel_cs (handler_addr h) (Some code) (mach w))
    as (m0 & H0 & Hsp & _ & _ & _ & _ & Hm); [done|done|lia|].
  change (len8 (trap_words (Some code) (mach w))) with 48 in *.
  unfold fault_trap. rewrite H0. bstep. set (m3 := set_reg RSP _ _).
  assert (Tinv (kw_threads (u_kernel (set_mach m3 w))) live sv) as Hinv'
    by (apply tinv_trap; [done|]; intros k Hk'; apply Hm; lia).
  assert (trapped plo top m3 scratch) as Htr by (by eapply trapped_here; [exact Hsp|lia|exists 6]).
  rewrite <- Hp in Hk.
  pose proof (fault_ends _ _ yield_ret exit_ret scratch boot_lo boot_hi plo top Hpl Hpp
    (set_mach m3 w) live sv next rest t Hinv' Htr Hr Ht msg report (cs (mach w)) Hk) as Hf.
  cbv zeta in Hf. rewrite Hcs in Hf.
  destruct Hf as (k' & -> & Hend & Hs). bstep. eexists. split; [done|].
  split; [|done]. rewrite <- Hp. by eapply ended_eq, Hend.
Qed.
End ends.

(** ** The programs *)

Lemma run_on n w w1 : Step w = Ok (Runs w1) → Run (S n) w = Run n w1.
Proof. intros H. cbn [user_run]. by rewrite H. Qed.

Lemma run_off n w w1 : Step w = Ok (Leaves w1) → Run (S n) w = Ok w1.
Proof. intros H. cbn [user_run]. by rewrite H. Qed.

(** The next instruction of a program, decoded. *)
Ltac user_step_with program off n :=
  let i := eval vm_compute in (decode (take n (drop off program))) in
  match i with
  | Some (?i, _) => rewrite (user_step_at program _ off n i); [|repeat (done || apply loaded_kernel)|done|simpl; lia|lia|done]
  end.

(** The registers of the demo program at its first system call. *)
Lemma demo_first_call w n :
  loaded USER_DEMO w → rip (mach w) = USER_CODE_BASE →
  ∃ m, Run (5 + n) w = (r ← Trap (set_mach m w); match r with Runs w => Run n w | Leaves w => Ok w end) ∧
    regs m RAX = SYS_WRITE ∧ regs m RDI = STDOUT ∧ regs m RSI = USER_CODE_BASE + 45 ∧
    regs m RDX = 19 ∧ rip m = USER_CODE_BASE + 30 ∧ cs m = cs (mach w) ∧ mem m = mem (mach w).
Proof.
  intros Hl Hrip. cbn [Nat.add].
  erewrite run_on; [|user_step_with USER_DEMO 0%nat 7%nat; reflexivity].
  erewrite run_on; [|user_step_with USER_DEMO 7%nat 7%nat; reflexivity].
  erewrite run_on; [|user_step_with USER_DEMO 14%nat 7%nat; reflexivity].
  erewrite run_on; [|user_step_with USER_DEMO 21%nat 7%nat; reflexivity].
  cbn [user_run]. user_step_with USER_DEMO 28%nat 2%nat. cbn [user_exec].
  change (user_int 0x80) with (Some HSyscall). cbv iota.
  eexists. split; [reflexivity|]. done.
Qed.

Lemma demo_second_call w n :
  loaded USER_DEMO w → rip (mach w) = USER_CODE_BASE + 30 →
  ∃ m, Run (3 + n) w = (r ← Trap (set_mach m w); match r with Runs w => Run n w | Leaves w => Ok w end) ∧
    regs m RAX = SYS_EXIT ∧ mem m = mem (mach w).
Proof.
  intros Hl Hrip. cbn [Nat.add].
  erewrite run_on; [|user_step_with USER_DEMO 30%nat 7%nat; reflexivity].
  erewrite run_on; [|user_step_with USER_DEMO 37%nat 3%nat; reflexivity].
  cbn [user_run]. user_step_with USER_DEMO 40%nat 2%nat. cbn [user_exec].
  change (user_int 0x80) with (Some HSyscall). cbv iota. eexists. split; [reflexivity|]. done.
Qed.

(** The first system call prints the message. *)
Lemma demo_write w m t :
  loaded USER_DEMO w → shows (kw_console (u_kernel w)) t →
  regs m RAX = SYS_WRITE → regs m RDI = STDOUT → regs m RSI = USER_CODE_BASE + 45 → regs m RDX = 19 →
  ∃ c m', shows c (t_write_string hello t) ∧
    Trap (set_mach m w) = Ok (Runs (set_mach m' (with_kernel (with_console c (u_kernel w)) w))) ∧
    interrupted m' = interrupted m ∧ (∀ k, k < plo ∨ top <= k → mem m' !! k = mem m !! k).
Proof.
  intros Hl Ht H1 H2 H3 H4. set (frame := entry_frame m (interrupted m)).
  destruct (sys_write_shows ctx_offset bootstrap_context yield_ret exit_ret scratch (W := W) (E := E)
    frame (kw_console (u_kernel w)) hello t H1) as (c & Hs & Hd);
    try done; cbn [frame entry_frame f_rsi f_rdx]; rewrite ?H3, ?H4; try done.
  assert (read_bytes translate w (USER_CODE_BASE + 45) 19 = Ok hello) as Hr
    by exact (read_bytes_slice _ _ _ _ 45 19 (ld_bytes _ _ Hl) ltac:(simpl; lia)).
  destruct (syscall_trap_returns (set_mach m w) 19 (u_kernel (set_mach m (with_kernel
    (with_console c (u_kernel w)) w)))) as (m' & He & _ & _ & Hi & Hm); [|done|].
  { intros m1. change (mach (set_mach m w)) with m. fold frame.
    rewrite (Hd (set_mach m1 (set_mach m w))); [by rewrite <- H4| |done].
    cbn [frame entry_frame f_rsi f_rdx]. rewrite H3, H4. unfold set_mach. by rewrite !read_bytes_kernel. }
  exists c, m'. split; [by change hello with (mjoin (utf8 <$> hello))|]. done.
Qed.

(** The demo program, from its first instruction to its end.  It prints
    exactly its message and exits; its process is gone, its host thread has
    left the scheduler and the next ready thread runs, with every other thread
    intact. *)
Lemma demo_program_runs w live sv p next rest t n :
  launched USER_DEMO p next rest t live sv w →
  ∃ w', Run (8 + n) w = Ok w' ∧
    shows (kw_console (u_kernel w')) (t_write_string hello t) ∧
    Ended live p next rest (u_kernel w) (u_kernel w').
Proof.
  intros [Hl Hrip _ Hinv Hr [Hp _] Ht]. change (8 + n)%nat with (5 + (3 + n))%nat.
  destruct (demo_first_call w (3 + n) Hl Hrip) as (m & -> & H1 & H2 & H3 & H4 & Hip & _ & Hm).
  destruct (demo_write w m t Hl Ht H1 H2 H3 H4) as (c & m' & Hs & -> & Hi & Hm'). bstep.
  set (w1 := set_mach m' (with_kernel (with_console c (u_kernel w)) w)).
  destruct (demo_second_call w1 n) as (m2 & -> & Hax & Hm2).
  { by do 2 apply loaded_kernel. }
  { rewrite <- Hip. by injection Hi. }
  destruct (exit_trap_ends (set_mach m2 w1) live sv p next rest (t_write_string hello t))
    as (w' & He & Hend & Hs'); try done.
  { apply (tinv_trap (kw_threads (u_kernel w))); [done|]. intros k Hk. by rewrite Hm2, Hm', Hm. }
  rewrite He. bstep. exists w'. split; [done|]. split; [done|]. by eapply ended_eq, Hend.
Qed.

(** the two faulting programs are killed without a panic, by the write to
    an unmapped page and by the privileged instruction: the fault is reported
    on the console, the process is gone, and the next ready thread runs. *)
Lemma crash_programs_end w live sv p next rest t n program :
  launched program p next rest t live sv w →
  (program = CRASH_PF_DEMO ∧ user_walk (u_mapper w) 0x500000000000 = None) ∨ program = CRASH_GPF_DEMO →
  ∃ w', Run (2 + n) w = Ok w' ∧
    shows (kw_console (u_kernel w')) (t_write_string report t) ∧
    Ended live p next rest (u_kernel w) (u_kernel w').
Proof.
  intros [Hl Hrip Hcs Hinv Hr [Hp Hk] Ht] [[-> Hn]| ->]; cbn [Nat.add].
  - erewrite run_on; [|user_step_with CRASH_PF_DEMO 0%nat 10%nat; reflexivity].
    set (w1 := set_mach _ w).
    destruct (fault_trap_ends w1 live sv p next rest t) with (h := HPageFault)
      (msg := "Page fault"%string) (code := 6) as (w' & He & Hend & Hs); try done.
    { by apply (tinv_trap (kw_threads (u_kernel w))). }
    exists w'. split; [|split; [done|by eapply ended_eq, Hend]]. apply run_off.
    user_step_with CRASH_PF_DEMO 10%nat 7%nat. cbn [user_exec le_bytes copy_bytes].
    unfold write_byte_at, phys. change (regs (mach w1) RAX) with 0x500000000000.
    change (0x500000000000 mod 4096) with 0. rewrite Z.sub_0_r. cbn [w1 set_mach with_kernel u_mapper].
    rewrite Hn. exact He.
  - destruct (fault_trap_ends w live sv p next rest t Hinv Hr Hp Ht HGpf "General protection fault" 0 Hcs Hk)
      as (w' & He & Hend & Hs).
    exists w'. split; [|done]. apply run_off. user_step_with CRASH_GPF_DEMO 0%nat 1%nat. exact He.
Qed.

(** ** The privilege stack is shared *)

(** C32: every trap from ring 3 starts at the top of the one privilege stack.
    If a thread is switched away inside a system call and another thread then
    makes one, the second call's frame takes the place of the first's: when
    the first thread is resumed and returns from [syscall_isr], it continues
    with the registers and the program counter of the second. *)
Theorem privilege_stack_shared first second :
  ∃ m1 m2, syscall_enter top kernel_cs isr_ret handler_addr first = Ok m1 ∧
    syscall_enter top kernel_cs isr_ret handler_addr second = Ok m2 ∧
    ∀ m, regs m RSP = regs m1 RSP + 8 → mem m = mem m2 →
      ∃ m', run isr_exit m = Ok m' ∧ interrupted m' = interrupted second ∧
        ∀ r, regs m' r = regs second r.
Proof.
  destruct (syscall_entry first) as (m1 & H1 & Hsp & _).
  destruct (syscall_entry second) as (m2 & H2 & _ & _ & _ & Hw & _).
  exists m1, m2. split; [done|]. split; [done|]. intros m Hm Hmem.
  destruct (syscall_leave second m (regs second RAX)) as (m' & Hr & _ & Hax & Hregs & Hi).
  { lia. }
  { by rewrite Hmem. }
  exists m'. split; [done|]. split; [done|]. intros r. destruct (decide (r = RAX)) as [->|]; auto.
Qed.
End user_exec_thms.

(** ** Witnesses *)

(** The host thread of process 3 in ring 3, with a program set up for it. *)
Definition demo_ring3_threads : tworld Fixed.fworld :=
  with_mach (mkMachine (λ r, if decide (r = RSP) then USER_STACK_TOP else 0) USER_CODE_BASE 0x33 0x202 0x2b
    (mem (tw_mach demo_switched))) demo_switched.

Definition demo_loaded (program : list Z) :
    uworld (Q := list_array_queue) (V := demo_volatile) (P := demo_paging) :=
  (value (inl EmptyString, demo_user)
     (create_process_from_program 16 0x1000 0x100 0x200 0x7f80
        (@translate demo_paging demo_paging_laws) program demo_user)).2.

Definition demo_launch (program : list Z) :
    uworld (Q := list_array_queue) (V := demo_volatile) (P := demo_paging) :=
  with_kernel (with_threads demo_ring3_threads demo_hosted) (demo_loaded program).

(** Ring 3 reaches the pages whose entry has the user bit. *)
Definition demo_user_walk (m : gmap Z (Z * Z)) (page : Z) : option (Z * Z) :=
  match m !! page with Some a => if Z.testbit a.2 2 then Some a else None | None => None end.

Lemma demo_user_walk_ok m q :
  ring3 (PagingLaws := demo_paging_laws) m q →
  demo_user_walk m q = translate (PagingLaws := demo_paging_laws) m q.
Proof. intros (a & Ha & Hb). unfold demo_user_walk. by rewrite Ha, Hb. Qed.

Lemma demo_room : stack_room 0x7f80 0x8000 256 0x6000.
Proof. split; [by exists 2048|split; [lia|by exists 32]|lia|split; [by exists 4080|lia]]. Qed.

Lemma demo_loaded_ok program :
  result_of (create_process_from_program 16 0x1000 0x100 0x200 0x7f80
    (@translate demo_paging demo_paging_laws) program demo_user) = Some (inr 1) →
  loaded (L := demo_paging_laws) program (demo_launch program).
Proof.
  intros Hr. unfold demo_launch. apply loaded_kernel. unfold demo_loaded.
  destruct (create_process_from_program _ _ _ _ _ _ program demo_user) as [[r w]| | |] eqn:Hc; try done.
  injection Hr as ->. by eapply created_loaded.
Qed.

Lemma demo_ring3_inv : ∃ live sv, demo_tinv demo_ring3_threads live sv.
Proof.
  destruct demo_switched_inv as (live & sv & Hinv). exists live, sv.
  unfold demo_ring3_threads. apply tinv_mach. exact Hinv.
Qed.

Lemma demo_launched program live sv :
  loaded (L := demo_paging_laws) program (demo_launch program) →
  demo_tinv demo_ring3_threads live sv →
  launched (L := demo_paging_laws) 16 0x1000 0x2000 0x4000 program 3 0 [] demo_terminal live sv
    (demo_launch program).
Proof.
  intros Hl Hinv. split; [done|reflexivity|reflexivity|exact Hinv|vm_compute; reflexivity| |].
  - split; [vm_compute; reflexivity|done].
  - apply demo_shows.
Qed.

(** Two threads of one program inside system calls. *)
Definition demo_user_machine (ip : Z) : machine :=
  mkMachine (λ r, if decide (r = RSP) then USER_STACK_TOP else ip) ip 0x33 0x202 0x2b ∅.

Lemma privilege_stack_shared_witness :
  ∃ m1 m2, syscall_enter 0x8000 8 0x500 (λ _, 0x600) (demo_user_machine 0x400000000010) = Ok m1 ∧
    syscall_enter 0x8000 8 0x500 (λ _, 0x600) (demo_user_machine 0x400000000020) = Ok m2 ∧
    ∀ m, regs m RSP = regs m1 RSP + 8 → mem m = mem m2 →
      ∃ m', run isr_exit m = Ok m' ∧
        interrupted m' = interrupted (demo_user_machine 0x400000000020) ∧
        ∀ r, regs m' r = regs (demo_user_machine 0x400000000020) r.
Proof.
  apply (privilege_stack_shared 0x1000 0x7f80 0x8000 8 0x500 256 (λ _, 0x600) 0x2000 0x4000 0x6000
    demo_priv demo_room (demo_user_machine 0x400000000010) (demo_user_machine 0x400000000020)).
Defined.
