(* ===== verification/Irq.v ===== *)
(** * Interrupts while code runs

    The timer and the keyboard can interrupt the CPU between any two
    instructions that run with interrupts enabled.  This file gives the
    delivery of an interrupt in ring 3, which goes through the privilege
    stack, and in ring 0, which stays on the interrupted thread's stack, and
    shows that the interrupted code cannot tell: in ring 3 its registers and
    memory come back, in ring 0 the interrupt is one of the things a thread
    may compute, so that what ThreadThms.v and DemosThms.v say of every
    computation holds with interrupts in it.

    The handlers of src/src/interrupts.rs are [extern "x86-interrupt"]
    functions: compiled code that saves the registers it uses and ends by
    [iretq].  [body] is what is assumed of it. *)

From Stdlib Require Import ZArith Lia.
From stdpp Require Import base gmap list strings numbers functions relations.
From S2P Require Import Prelude AllocMod FixedSizeBlock Scheduler Machine Thread Libs Keyboard Vga Kernel.
From S2P Require Import Paging Gdt Userland Syscall Interrupts UserExec.
From S2P Require Import ThreadInv ThreadTrap ThreadThms KernelThms UserlandThms TrapThms UserExecThms.

Open Scope Z_scope.

(** The interrupt flag. *)
Definition interrupts_on (m : machine) : bool := Z.testbit (rflags m) 9.

(** The gates of the two interrupts. *)
Definition irq_gate (i : InterruptIndex) : Handler :=
  match i with Timer => HTimer | IKeyboard => HKeyboard end.

Lemma irq_gate_ok i : g_handler <$> IDT !! as_u8 i = Some (irq_gate i).
Proof. by destruct i. Qed.

Section irq.
Context {W E : Type} (wake : W → E → outcome E).
Context {Q : ArrayQueue} {C : OnceCell aq} {A : AtomicWaker W} {V : Volatile} {P : Paging}.
Context {IO : PortIo} {PIC : ChainedPics}.
(** The privilege stack, the code segment and addresses of the handlers, and
    the stack a compiled handler uses. *)
Context (top kernel_cs depth : Z) (handler_addr : Handler → Z).

Abbreviation uworld := (uworld (W := W) (E := E)).
Abbreviation kworld := (kworld (W := W) (E := E)).

(** A compiled handler up to its [iretq]. *)
Record body (m m' : machine) : Prop := {
  bd_regs : ∀ r, regs m' r = regs m r;
  bd_mem : ∀ k, k < regs m RSP - depth ∨ regs m RSP <= k → mem m' !! k = mem m !! k;
}.

(** The controllers hand an interrupt to the CPU. *)
Definition raise (i : InterruptIndex) (d : devices) : devices :=
  mkDev (dev_io d) (accept (as_u8 i) (PICS d)).

Inductive irq_ring3 (i : InterruptIndex) : uworld * devices → uworld * devices → Prop :=
| irq_ring3_intro w d m1 m2 m3 k' d' :
    interrupts_on (mach w) = true →
    trap_entry top kernel_cs (handler_addr (irq_gate i)) None (mach w) = Ok m1 →
    irq_handler wake i (u_kernel w) (raise i d) = Ok (k', d') →
    body m1 m2 → exec Iretq m2 = Ok m3 →
    irq_ring3 i (w, d) (set_mach m3 (with_kernel k' w), d').

Inductive irq_ring0 (i : InterruptIndex) : kworld * devices → kworld * devices → Prop :=
| irq_ring0_intro w d m1 m2 m3 w' d' :
    interrupts_on (tw_mach (kw_threads w)) = true →
    kernel_trap_entry kernel_cs (handler_addr (irq_gate i)) None (tw_mach (kw_threads w)) = Ok m1 →
    irq_handler wake i w (raise i d) = Ok (w', d') →
    body m1 m2 → exec Iretq m2 = Ok m3 →
    irq_ring0 i (w, d) (with_threads (with_mach m3 (kw_threads w')) w', d').

(** ** The handlers *)

(** What an interrupt does to the kernel: one more tick, or the scancode at
    the keyboard's port queued. *)
Definition irq_effect (i : InterruptIndex) (d : devices) (k k' : kworld) : Prop :=
  match i with
  | Timer => k' = with_counters (λ s, set_ticks (wrapping_add (tick_count s) 1) s) k
  | IKeyboard => ∃ warning st,
      add_scancode wake (inb DATA_PORT (dev_io d)).1 (kw_input k) = Ok (warning, st) ∧ k' = with_input st k
  end.

(** When the handler does not panic: the tick counter has not reached the end
    of its range; the executor takes the wake-up. *)
Definition irq_ok (i : InterruptIndex) (k : kworld) : Prop :=
  match i with
  | Timer => tick_count (tw_stats (kw_threads k)) + 1 < u64_modulus
  | IKeyboard => ∀ wk, (aw_take (WAKER (kw_input k))).1 = Some wk →
      ∃ e, wake wk (k_env (kw_input k)) = Ok e
  end.

Lemma irq_handler_effect i k d k' d' :
  irq_handler wake i k d = Ok (k', d') →
  irq_effect i d k k' ∧ PICS d' = notify_end_of_interrupt (as_u8 i) (PICS d).
Proof.
  destruct i; cbn [irq_handler irq_effect].
  - unfold timer_interrupt_handler, kernel_tick, tick. intros H. binds.
    repeat match goal with x : _ * _ |- _ => destruct x end. by simplify_eq/=.
  - unfold keyboard_interrupt_handler, on_scancode. destruct (inb DATA_PORT (dev_io d)) as [b ports].
    intros H. binds. repeat match goal with x : _ * _ |- _ => destruct x end. simplify_eq/=. eauto.
Qed.

Lemma irq_handler_total i k d : irq_ok i k → ∃ k' d', irq_handler wake i k d = Ok (k', d').
Proof.
  destruct i; cbn [irq_handler irq_ok]; intros Hok.
  - unfold timer_interrupt_handler, kernel_tick, tick. rewrite add_u64_ok by done. bstep. eauto.
  - unfold keyboard_interrupt_handler, on_scancode, add_scancode.
    destruct (inb DATA_PORT (dev_io d)) as [b ports].
    destruct (try_get (SCANCODE_QUEUE (kw_input k))) as [q|]; [|bstep; eauto].
    destruct (aq_push q b) as [q'|]; [|bstep; eauto].
    unfold waker_wake. cbn [set_scancodes WAKER k_env].
    destruct (aw_take (WAKER (kw_input k))) as [[wk|] a]; cbn [fst] in Hok; [|bstep; eauto].
    destruct (Hok wk eq_refl) as (e & ->). bstep. eauto.
Qed.

(** ** In and out again *)

Section round_trip.
Context (Hd : 0 <= depth).

Lemma irq_round_trip sp handler new_ss m m1 m2 :
  let a := sp - sp mod 16 in
  is_u64 sp → 48 <= a → sp + 40 < u64_modulus →
  push_frame sp kernel_cs handler new_ss None m = Ok m1 → body m1 m2 →
  ∃ m3, exec Iretq m2 = Ok m3 ∧ (∀ r, regs m3 r = regs m r) ∧ interrupted m3 = interrupted m ∧
    ∀ k, k < a - 40 - depth ∨ a <= k → mem m3 !! k = mem m !! k.
Proof.
  intros a Hu Hb Hh Hp [B1 B2].
  destruct (push_frame_spec sp kernel_cs handler new_ss None m Hu Hb)
    as (m1' & Hp' & Hsp & Hr & _ & _ & _ & Hw & Hm). fold a in Hsp, Hw, Hm.
  rewrite Hp in Hp'. injection Hp' as <-. change (len8 (trap_words None m)) with 40 in *.
  assert (regs m2 RSP = a - 40) as Hsp2 by (by rewrite B1).
  assert (sp - 16 < a <= sp) as Hab by (unfold a; pose proof (Z.mod_pos_bound sp 16); lia).
  destruct (run_iretq m2 (interrupted m)) as (m3 & H3 & Hm3 & E1 & E2 & E3 & E4 & E5 & E6);
    rewrite ?Hsp2; [|destruct (round_down_divide sp 16) as [q Hq]; [lia|exists (2 * q - 5); unfold a; lia]|lia|lia|].
  { eapply words_at_same; [|exact Hw]. intros k Hk. apply B2. lia. }
  exists m3. split; [done|]. split_and!.
  - intros r. destruct (decide (r = RSP)) as [->|Hne]; [done|]. by rewrite E6, B1, Hr.
  - unfold interrupted. by rewrite E1, E2, E3, E4, E5.
  - intros k Hk. rewrite Hm3, B2 by lia. apply Hm. lia.
Qed.

(** ** Ring 3 *)

Context {PL : ChainedPicsLaws PIC}.
Context (plo : Z) (Htop : (16 | top)) (Hroom : 0 <= plo ∧ plo + 48 + depth <= top).
Context (Hhi : top + 40 < u64_modulus).

Lemma top_facts : is_u64 top ∧ top - top mod 16 = top.
Proof.
  rewrite (proj2 (Z.mod_divide top 16 ltac:(lia)) Htop). split; [unfold is_u64|]; lia.
Qed.

Lemma irq_ring3_spec i w d w' d' :
  irq_ring3 i (w, d) (w', d') →
  interrupted (mach w') = interrupted (mach w) ∧ (∀ r, regs (mach w') r = regs (mach w) r) ∧
  (∀ k, k < plo ∨ top <= k → mem (mach w') !! k = mem (mach w) !! k) ∧
  (in_service (PICS d) = [] → in_service (PICS d') = []) ∧
  ∃ k, irq_effect i d (u_kernel w) k ∧ w' = set_mach (mach w') (with_kernel k w).
Proof.
  destruct top_facts as [Hu Hal]. intros Hi. inversion Hi as [? ? m1 m2 m3 k' ? _ H1 Hh Hb H3]; subst.
  destruct (irq_round_trip top _ _ _ _ _ Hu ltac:(lia) ltac:(lia) H1 Hb) as (m & Hm & R1 & R2 & R3).
  rewrite H3 in Hm. injection Hm as <-. destruct (irq_handler_effect _ _ _ _ _ Hh) as [He Hp].
  split_and!; try done.
  - intros k Hk. apply R3. rewrite Hal. lia.
  - intros Hs. rewrite Hp. apply notify_ok. cbn [raise PICS]. by rewrite accept_ok, Hs.
  - exists k'. split; [|done]. by destruct i.
Qed.

Lemma irq_ring3_delivered i w d :
  interrupts_on (mach w) = true → irq_ok i (u_kernel w) → ∃ w' d', irq_ring3 i (w, d) (w', d').
Proof.
  intros Hif Hok. destruct top_facts as [Hu Hal].
  destruct (trap_entry_spec top kernel_cs (handler_addr (irq_gate i)) None (mach w))
    as (m1 & H1 & _); [done|done|lia|].
  destruct (irq_round_trip top _ _ _ _ m1 Hu ltac:(lia) ltac:(lia) H1) as (m3 & H3 & _); [by split|].
  destruct (irq_handler_total i (u_kernel w) (raise i d) Hok) as (k' & d' & Hh).
  eexists _, _. by eapply irq_ring3_intro.
Qed.

(** C13: an interrupt that hits a program in ring 3 is invisible to it.  It is
    delivered whenever the program runs with interrupts enabled and the
    controllers have none in service; whatever the compiled handler does on
    the privilege stack, the program continues at the same instruction with
    the same registers, flags and memory, the kernel's threads, processes and
    console are as they were, and the only trace is the tick or the queued
    scancode.  No interrupt stays in service. *)
Theorem irq_transparent i w d :
  interrupts_on (mach w) = true → in_service (PICS d) = [] → irq_ok i (u_kernel w) →
  (∃ w' d', irq_ring3 i (w, d) (w', d')) ∧
  ∀ w' d', irq_ring3 i (w, d) (w', d') →
    interrupted (mach w') = interrupted (mach w) ∧ (∀ r, regs (mach w') r = regs (mach w) r) ∧
    (∀ k, k < plo ∨ top <= k → mem (mach w') !! k = mem (mach w) !! k) ∧
    in_service (PICS d') = [] ∧
    ∃ k, irq_effect i d (u_kernel w) k ∧ w' = set_mach (mach w') (with_kernel k w).
Proof.
  intros Hif Hs Hok. split; [by apply irq_ring3_delivered|]. intros w' d' Hi.
  destruct (irq_ring3_spec _ _ _ _ _ Hi) as (H1 & H2 & H3 & H4 & H5). split_and!; auto.
Qed.

(** ** Ring 0 *)

Context (ctx_offset bootstrap_context boot_lo boot_hi : Z).
Context (Hpl : placement ctx_offset bootstrap_context HEAP_START (HEAP_START + HEAP_SIZE) boot_lo boot_hi).

Abbreviation Tinv := (tinv Fixed.alloc Fixed.dealloc Fixed.scribble ctx_offset bootstrap_context
  HEAP_START (HEAP_START + HEAP_SIZE) boot_lo boot_hi).
Abbreviation Computes := (computes Fixed.alloc Fixed.dealloc Fixed.scribble ctx_offset bootstrap_context
  HEAP_START (HEAP_START + HEAP_SIZE) boot_lo boot_hi).

(** What the handlers leave of the kernel's threads. *)
Lemma irq_effect_threads i d (k k' : kworld) :
  irq_effect i d k k' →
  tw_sched (kw_threads k') = tw_sched (kw_threads k) ∧ tw_heap (kw_threads k') = tw_heap (kw_threads k) ∧
  tw_next_id (kw_threads k') = tw_next_id (kw_threads k) ∧
  threads_alive (tw_stats (kw_threads k')) = threads_alive (tw_stats (kw_threads k)).
Proof. destruct i; [by intros ->|by intros (? & ? & _ & ->)]. Qed.

(** Writes below the stack pointer of the running thread, on its own stack,
    are a computation of it. *)
Lemma own_stack_computes w live sv w' :
  let sp := regs (tw_mach w) RSP in
  let bottom := stack_lo boot_lo (tw_sched w) (current (tw_sched w)) in
  Tinv w live sv → running boot_lo boot_hi w →
  tw_sched w' = tw_sched w → tw_heap w' = tw_heap w → tw_next_id w' = tw_next_id w →
  threads_alive (tw_stats w') = threads_alive (tw_stats w) →
  regs (tw_mach w') RSP = sp →
  (∀ k, k < bottom ∨ sp <= k → mem (tw_mach w') !! k = mem (tw_mach w) !! k) →
  Computes w w'.
Proof.
  intros sp bottom Hinv Hrun Es Eh En Ea Er Hm. pose proof Hinv as [I1 I2 I3 _ _ _].
  pose proof Hrun as [R1 R2 R3]. split; try done.
  - intros j k Hj Hk. apply Hm. destruct (qk_ready _ _ I3 j Hj) as [Hne Hv].
    pose proof (qk_current _ _ I3) as Hc. pose proof (ga_live _ _ _ _ I1) as Hl.
    destruct (stacks_apart _ _ _ _ _ _ Hpl _ _ Hl I2 _ I3 j _ Hv Hc Hne) as [A1 _].
    pose proof (ctx_off_stack _ _ _ _ _ _ Hpl _ _ Hl I2 _ I3 j _ Hv Hc) as A2.
    unfold sp, bottom. lia.
  - split; rewrite ?Es, ?Er; done.
  - rewrite Eh. eauto.
Qed.

(** C14: an interrupt in the kernel.  On a thread with room on its stack it is
    delivered, and it is one of the computations [computes] allows a thread:
    so whatever ThreadThms.v shows of every reachable state and DemosThms.v of
    the demos holds with interrupts at any point between scheduler calls.  The
    thread itself continues with its registers, flags and live stack. *)
Theorem irq_computes i (w : kworld) d live sv :
  let ts := kw_threads w in
  let m := tw_mach ts in
  Tinv ts live sv → running boot_lo boot_hi ts →
  stack_lo boot_lo (tw_sched ts) (current (tw_sched ts)) + 64 + depth <= regs m RSP →
  interrupts_on m = true → in_service (PICS d) = [] → irq_ok i w →
  (∃ w' d', irq_ring0 i (w, d) (w', d')) ∧
  ∀ w' d', irq_ring0 i (w, d) (w', d') →
    Computes ts (kw_threads w') ∧
    interrupted (tw_mach (kw_threads w')) = interrupted m ∧
    (∀ r, regs (tw_mach (kw_threads w')) r = regs m r) ∧
    (∀ k, regs m RSP <= k → mem (tw_mach (kw_threads w')) !! k = mem m !! k) ∧
    in_service (PICS d') = [] ∧
    ∃ k, irq_effect i d w k ∧ w' = with_threads (with_mach (tw_mach (kw_threads w')) (kw_threads k)) k.
Proof.
  intros ts m Hinv Hrun Hst Hif Hs Hok. pose proof Hinv as [I1 I2 I3 _ _ _]. pose proof Hrun as [R1 R2 R3].
  pose proof (stack_bounds _ _ _ _ _ _ Hpl _ _ (ga_live _ _ _ _ I1) I2 _ I3 _ (qk_current _ _ I3)) as [B1 B2].
  fold ts m in R1, R2, R3. set (sp := regs m RSP) in *.
  assert (is_u64 sp) as Hu by (unfold is_u64, u64_modulus in *; lia).
  assert (sp - 16 < sp - sp mod 16 <= sp) as Hab by (pose proof (Z.mod_pos_bound sp 16); lia).
  split.
  - destruct (push_frame_spec sp kernel_cs (handler_addr (irq_gate i)) (ss m) None m)
      as (m1 & H1 & _); [done|lia|].
    destruct (irq_round_trip sp _ _ _ _ m1 Hu ltac:(lia) ltac:(lia) H1) as (m3 & H3 & _); [by split|].
    destruct (irq_handler_total i w (raise i d) Hok) as (k' & d' & Hh).
    eexists _, _. by eapply irq_ring0_intro.
  - intros w' d' Hi. inversion Hi as [? ? m1 m2 m3 k' ? _ H1 Hh Hb H3]; subst.
    destruct (irq_round_trip sp _ _ _ _ _ Hu ltac:(lia) ltac:(lia) H1 Hb) as (m4 & Hm & T1 & T2 & T3).
    rewrite H3 in Hm. injection Hm as <-. destruct (irq_handler_effect _ _ _ _ _ Hh) as [He Hp].
    destruct (irq_effect_threads _ _ _ _ He) as (E1 & E2 & E3 & E4).
    assert (∀ k, k < sp - 56 - depth ∨ sp <= k → mem m3 !! k = mem m !! k) as Hmem
      by (intros k Hk; apply T3; lia).
    split_and!; try done.
    + eapply own_stack_computes; try done. intros k Hk. apply Hmem. fold ts m sp in Hk. lia.
    + intros k Hk. apply Hmem. lia.
    + rewrite Hp. apply notify_ok. cbn [raise PICS]. by rewrite accept_ok, Hs.
    + exists k'. split; [|done]. by destruct i.
Qed.
End round_trip.
End irq.

(** ** Witnesses *)

Abbreviation demo_devices := (devices (IO := demo_port_io) (PIC := demo_pics)).

(** The keyboard holds the scancode of the letter a; no interrupt is in
    service. *)
Definition demo_dev : demo_devices := mkDev (IO := demo_port_io) (PIC := demo_pics) (mkPorts [0x1e] []) [].

Definition demo_wake (_ : unit) (e : unit) : outcome unit := Ok e.

Lemma demo_irq_ok i : irq_ok demo_wake i (u_kernel (demo_launch USER_DEMO)).
Proof. destruct i; [reflexivity|]. intros wk _. by eexists. Qed.

Lemma irq_transparent_witness :
  (∃ w' d', irq_ring3 demo_wake 0x8000 8 256 (λ _, 0x600) IKeyboard (demo_launch USER_DEMO, demo_dev) (w', d')) ∧
  ∀ w' d', irq_ring3 demo_wake 0x8000 8 256 (λ _, 0x600) IKeyboard (demo_launch USER_DEMO, demo_dev) (w', d') →
    let w := demo_launch USER_DEMO in
    interrupted (mach w') = interrupted (mach w) ∧ (∀ r, regs (mach w') r = regs (mach w) r) ∧
    (∀ k, k < 0x6000 ∨ 0x8000 <= k → mem (mach w') !! k = mem (mach w) !! k) ∧
    PICS d' = [] ∧
    ∃ k, irq_effect demo_wake IKeyboard demo_dev (u_kernel w) k ∧ w' = set_mach (mach w') (with_kernel k w).
Proof.
  apply (irq_transparent (Q := list_array_queue) (C := option_cell _) (A := option_waker _)
    (V := demo_volatile) (P := demo_paging) (IO := demo_port_io) demo_wake 0x8000 8 256 (λ _, 0x600) ltac:(lia) (PL := demo_pics_laws) 0x6000
    ltac:(by exists 2048) ltac:(lia) ltac:(done) IKeyboard (demo_launch USER_DEMO) demo_dev).
  - reflexivity.
  - reflexivity.
  - apply demo_irq_ok.
Defined.

(** The spawned thread of ThreadThms.v, deep enough in its stack and with
    interrupts enabled. *)
Definition demo_irq_threads : tworld Fixed.fworld :=
  with_mach (mkMachine (regs (tw_mach demo_switched)) 0x5000 8 0x202 0 (mem (tw_mach demo_switched))) demo_switched.

Definition demo_irq_kernel : kworld (Q := list_array_queue) (V := demo_volatile) :=
  with_threads demo_irq_threads demo_hosted.

Lemma demo_irq_running : running 0x2000 0x4000 demo_irq_threads.
Proof. split; [apply Z.mod_divide; [done|]; vm_compute; reflexivity|vm_compute; discriminate..]. Qed.

Lemma irq_computes_witness :
  let d := demo_dev in
  let ts := demo_irq_threads in
  (∃ w' d', irq_ring0 demo_wake 8 256 (λ _, 0x600) Timer (demo_irq_kernel, d) (w', d')) ∧
  ∀ w' d', irq_ring0 demo_wake 8 256 (λ _, 0x600) Timer (demo_irq_kernel, d) (w', d') →
    computes Fixed.alloc Fixed.dealloc Fixed.scribble 16 0x1000 HEAP_START (HEAP_START + HEAP_SIZE)
      0x2000 0x4000 ts (kw_threads w') ∧
    interrupted (tw_mach (kw_threads w')) = interrupted (tw_mach ts) ∧
    (∀ r, regs (tw_mach (kw_threads w')) r = regs (tw_mach ts) r) ∧
    (∀ k, regs (tw_mach ts) RSP <= k → mem (tw_mach (kw_threads w')) !! k = mem (tw_mach ts) !! k) ∧
    PICS d' = [] ∧
    ∃ k, irq_effect demo_wake Timer d demo_irq_kernel k ∧
      w' = with_threads (with_mach (tw_mach (kw_threads w')) (kw_threads k)) k.
Proof.
  cbv zeta. destruct demo_switched_inv as (live & sv & Hinv).
  apply (irq_computes (Q := list_array_queue) (C := option_cell _) (A := option_waker _)
    (V := demo_volatile) (IO := demo_port_io) demo_wake 8 256 (λ _, 0x600) ltac:(lia)
    (PL := demo_pics_laws) 16 0x1000 0x2000 0x4000 demo_placement Timer demo_irq_kernel demo_dev live sv).
  - apply (tinv_mach _ _ _ _ demo_switched). exact Hinv.
  - apply demo_irq_running.
  - vm_compute. discriminate.
  - reflexivity.
  - reflexivity.
  - reflexivity.
Defined.
