(* ===== verification/UserIrq.v ===== *)
(** * The demo program under interrupts

    Interrupts may hit the demo program of src/src/userland.rs between any two
    of its instructions.  Whatever the interleaving, the program is never
    stuck, executes the same eight instructions and ends the same way. *)

From Stdlib Require Import ZArith Lia.
From stdpp Require Import base gmap list strings numbers functions relations.
From S2P Require Import Prelude AllocMod FixedSizeBlock Scheduler Machine Thread Libs Keyboard Vga Kernel.
From S2P Require Import Paging Gdt Userland Syscall Interrupts UserExec.
From S2P Require Import ThreadInv ThreadTrap ThreadThms KernelThms UserlandThms TrapThms UserExecThms Irq.

Open Scope Z_scope.

(** Logical operations leave the interrupt flag alone. *)
Lemma logic_flags_if g a c v f s w :
  interrupts_on (mkMachine g a c (logic_flags v f) s w) = Z.testbit f 9.
Proof.
  unfold interrupts_on, logic_flags. cbn [rflags]. rewrite Z.lor_spec, Z.ldiff_spec.
  change (Z.testbit 0x8c5 9) with false. rewrite andb_true_r.
  destruct (parity v), (v =? 0), (Z.testbit v 63); apply orb_false_r.
Qed.

Section user_irq.
Context (ctx_offset bootstrap_context yield_ret exit_ret scratch : Z).
Context {W E : Type} (wake : W → E → outcome E).
Context {Q : ArrayQueue} {C : OnceCell aq} {A : AtomicWaker W} {V : Volatile}.
Context {VL : VolatileLaws V} {P : Paging} {L : PagingLaws P}.
Context {IO : PortIo} {PIC : ChainedPics} {PL : ChainedPicsLaws PIC}.
Context (user_walk : mapper → Z → option (Z * Z)).
Context (top kernel_cs isr_ret depth : Z) (handler_addr : Handler → Z) (report : list Z).

Abbreviation uworld := (uworld (W := W) (E := E)).
Abbreviation Step := (user_step ctx_offset bootstrap_context yield_ret exit_ret scratch translate
  user_walk top kernel_cs isr_ret depth handler_addr report (W := W) (E := E)).
Abbreviation Irq := (irq_ring3 wake top kernel_cs depth handler_addr).

(** Runs of a program in ring 3, with the instructions counted and interrupts
    anywhere in between. *)
Inductive isteps (x : uworld * devices) : nat → uworld * devices → Prop :=
| isteps_refl : isteps x 0 x
| isteps_irq n i y z : isteps x n y → Irq i y z → isteps x n z
| isteps_user n w d w' : isteps x n (w, d) → Step w = Ok (Runs w') → isteps x (S n) (w', d).

(** The offsets of the demo program's instructions, and the registers it has
    set before each. *)
Definition demo_offset (n : nat) : Z := default 42 ([0; 7; 14; 21; 28; 30; 37; 40] !! n).

Definition demo_regs (n : nat) (m : machine) : Prop :=
  ((1 <= n <= 4)%nat → regs m RAX = SYS_WRITE) ∧ ((2 <= n <= 4)%nat → regs m RDI = STDOUT) ∧
  ((3 <= n <= 4)%nat → regs m RSI = USER_CODE_BASE + 45) ∧ ((n = 4)%nat → regs m RDX = 19) ∧
  ((6 <= n)%nat → regs m RAX = SYS_EXIT).

Context (boot_lo boot_hi plo : Z).
Context (Hring3 : ∀ m q, ring3 m q → user_walk m q = translate m q).
Context (Hpl : placement ctx_offset bootstrap_context HEAP_START (HEAP_START + HEAP_SIZE) boot_lo boot_hi).
Context (Hpp : priv_placement bootstrap_context HEAP_START (HEAP_START + HEAP_SIZE) boot_lo boot_hi plo top).
Context (Hroom : stack_room scratch top depth plo).

Abbreviation Tinv := (tinv Fixed.alloc Fixed.dealloc Fixed.scribble ctx_offset bootstrap_context
  HEAP_START (HEAP_START + HEAP_SIZE) boot_lo boot_hi).
Abbreviation Ended := (ended ctx_offset bootstrap_context boot_lo boot_hi).

(** The program before its [n]th instruction; the kernel is [k0] but for
    ticks, scancodes, the console and the CPU. *)
Record at_instr (n : nat) (live : gmap Z Layout) (sv : gmap Z sctx) (t : terminal)
    (k0 : kworld (W := W) (E := E)) (w : uworld) : Prop := {
  ai_code : loaded USER_DEMO w;
  ai_rip : rip (mach w) = USER_CODE_BASE + demo_offset n;
  ai_regs : demo_regs n (mach w);
  ai_if : interrupts_on (mach w) = true;
  ai_tinv : Tinv (kw_threads (u_kernel w)) live sv;
  ai_sched : tw_sched (kw_threads (u_kernel w)) = tw_sched (kw_threads k0);
  ai_procs : kw_procs (u_kernel w) = kw_procs k0;
  ai_counts : pcounts (tw_stats (kw_threads (u_kernel w))) = pcounts (tw_stats (kw_threads k0));
  ai_shows : shows (kw_console (u_kernel w)) (if (n <=? 4)%nat then t else t_write_string hello t);
}.

Section points.
Context (live : gmap Z Layout) (sv : gmap Z sctx) (t : terminal) (k0 : kworld (W := W) (E := E)).

Abbreviation At n w := (at_instr n live sv t k0 w).

Lemma at_instr_irq n i w d w' d' : At n w → Irq i (w, d) (w', d') → At n w'.
Proof.
  intros [H1 H2 H3 Hf H4 H5 H6 H6' H7] Hi. destruct Hroom as [T [D _] R _], Hpp as [_ _ _ B].
  destruct (irq_ring3_spec wake top kernel_cs depth handler_addr D plo T ltac:(lia) ltac:(lia) _ _ _ _ _ Hi)
    as (E1 & E2 & E3 & _ & k & Hk & Hw). rewrite Hw.
  assert (kw_procs k = kw_procs (u_kernel w) ∧ kw_console k = kw_console (u_kernel w) ∧
    pcounts (tw_stats (kw_threads k)) = pcounts (tw_stats (kw_threads (u_kernel w)))) as (Ep & Ec & Et)
    by (destruct i; [by rewrite Hk|by destruct Hk as (? & ? & _ & ->)]).
  destruct (irq_effect_threads _ _ _ _ _ Hk) as (Es & Eh & En & Ea).
  split.
  - by do 2 apply loaded_kernel.
  - change (mach (set_mach ?m _)) with m. rewrite <- H2. by injection E1.
  - unfold demo_regs. change (mach (set_mach ?m _)) with m. by rewrite !E2.
  - unfold interrupts_on in *. change (mach (set_mach ?m _)) with m. rewrite <- Hf. by injection E1 as _ _ ->.
  - pose proof H4 as [I1 I2 I3 I4 I5 I6].
    split; cbn [set_mach with_kernel with_threads with_mach u_kernel kw_threads tw_sched tw_heap tw_mach
      tw_stats tw_next_id]; rewrite ?Es, ?Eh, ?En, ?Ea; try done.
    intros j Hj. destruct (I5 j Hj) as (c & Hc & Hh). exists c. split; [done|].
    destruct (qk_ready _ _ I3 j Hj) as [_ Hv]. by eapply trap_holds.
  - cbn [set_mach with_kernel with_threads with_mach u_kernel kw_threads tw_sched]. by rewrite Es.
  - cbn [set_mach with_kernel with_threads u_kernel kw_procs]. by rewrite Ep.
  - rewrite <- H6', <- Et. done.
  - cbn [set_mach with_kernel with_threads u_kernel kw_console]. by rewrite Ec.
Qed.

(** The instruction at a point, decoded from the code page. *)
Lemma demo_decodes n off len i w :
  At n w → demo_offset n = Z.of_nat off → (off + len <= 64)%nat → (0 < len <= 15)%nat →
  (∀ l, decode (take len (drop off USER_DEMO) ++ l) = Some (i, Z.of_nat len)) →
  Step w = user_exec ctx_offset bootstrap_context yield_ret exit_ret scratch translate user_walk top kernel_cs
    isr_ret depth handler_addr report i (USER_CODE_BASE + Z.of_nat (off + len)) w.
Proof.
  intros H Ho Hl Hn Hd. eapply user_step_at; [done|apply (ai_code _ _ _ _ _ _ H)| |done|done|done].
  rewrite (ai_rip _ _ _ _ _ _ H). by rewrite Ho.
Qed.

(** A step that only touches registers. *)
Lemma at_instr_mach n n' w m :
  At n w → mem m = mem (mach w) → rip m = USER_CODE_BASE + demo_offset n' → demo_regs n' m →
  interrupts_on m = interrupts_on (mach w) → ((n <=? 4)%nat = (n' <=? 4)%nat) → At n' (set_mach m w).
Proof.
  intros [H1 H2 H3 Hf H4 H5 H6 H6' H7] Hm Hr Hg Hi Hn. split; try done.
  - by apply loaded_kernel.
  - by rewrite <- Hf.
  - apply (tinv_trap ctx_offset bootstrap_context top boot_lo boot_hi plo Hpl Hpp); [done|].
    intros k _. by rewrite Hm.
  - by rewrite <- Hn.
Qed.

(** The seven instructions before the last one; the fifth is the system call
    that prints. *)
Ltac reg_step n off len H :=
  let i := eval vm_compute in (decode (take len (drop off USER_DEMO))) in
  match i with
  | Some (?i, _) =>
      eexists; split;
      [rewrite (demo_decodes n off len i _ H); [reflexivity|done|lia|lia|done]
      |apply (at_instr_mach n (S n)); [exact H|done|done| |first [done|apply logic_flags_if]|done];
       destruct (ai_regs _ _ _ _ _ _ H) as (G1 & G2 & G3 & G4 & G5);
       split_and!; intros ?; first [lia|reflexivity|apply G1; lia|apply G2; lia|apply G3; lia|apply G5; lia]]
  end.

Lemma demo_advances n w : At n w → (n < 7)%nat → ∃ w', Step w = Ok (Runs w') ∧ At (S n) w'.
Proof.
  intros H Hn. destruct n as [|[|[|[|[|[|[|n]]]]]]]; [..|lia].
  - reg_step 0%nat 0%nat 7%nat H.
  - reg_step 1%nat 7%nat 7%nat H.
  - reg_step 2%nat 14%nat 7%nat H.
  - reg_step 3%nat 21%nat 7%nat H.
  - destruct (ai_regs _ _ _ _ _ _ H) as (G1 & G2 & G3 & G4 & _).
    rewrite (demo_decodes 4 28 2 (IntN 0x80) _ H) by (done || lia). cbn [user_exec].
    change (user_int 0x80) with (Some HSyscall). cbv iota. set (m := set_rip _ _).
    pose proof H as [H1 H2 H3 Hf H4 H5 H6 H6' H7].
    destruct (demo_write ctx_offset bootstrap_context yield_ret exit_ret scratch top kernel_cs isr_ret depth
      handler_addr boot_lo boot_hi plo Hpp Hroom w m t H1 H7) as (c & m' & Hs & He & Hi & Hm);
      [apply G1; lia|apply G2; lia|apply G3; lia|by apply G4|].
    eexists. split; [exact He|]. split; try done.
    + by do 2 apply loaded_kernel.
    + change (rip m' = rip m). by injection Hi.
    + split_and!; intros ?; lia.
    + change (Z.testbit (rflags m') 9 = true). injection Hi as _ _ -> _ _. exact Hf.
    + by apply (tinv_trap ctx_offset bootstrap_context top boot_lo boot_hi plo Hpl Hpp (kw_threads (u_kernel w))).
  - reg_step 5%nat 30%nat 7%nat H.
  - reg_step 6%nat 37%nat 3%nat H.
Qed.

Context (p next : Z) (rest : list Z).
Context (Hr : ready (tw_sched (kw_threads k0)) = next :: rest).
Context (Hp : current_process (tw_sched (kw_threads k0)) = p).

(** The last one, which ends the process. *)
Lemma demo_leaves w :
  At 7 w → ∃ w', Step w = Ok (Leaves w') ∧
    shows (kw_console (u_kernel w')) (t_write_string hello t) ∧ Ended live p next rest k0 (u_kernel w').
Proof.
  intros H. rewrite (demo_decodes 7 40 2 (IntN 0x80) _ H) by (done || lia). cbn [user_exec].
  change (user_int 0x80) with (Some HSyscall). cbv iota. pose proof H as [H1 H2 (_ & _ & _ & _ & G5) Hf H4 H5 H6 H6' H7].
  destruct (exit_trap_ends ctx_offset bootstrap_context yield_ret exit_ret scratch top kernel_cs isr_ret depth
    handler_addr boot_lo boot_hi plo Hpl Hpp Hroom (set_mach (set_rip (USER_CODE_BASE + Z.of_nat (40 + 2)) (mach w)) w)
    live sv p next rest (t_write_string hello t)) as (w' & He & Hend & Hs); try done.
  - by apply (tinv_trap ctx_offset bootstrap_context top boot_lo boot_hi plo Hpl Hpp (kw_threads (u_kernel w))).
  - cbn [set_mach with_kernel with_threads with_mach u_kernel kw_threads tw_sched]. by rewrite H5.
  - cbn [set_mach with_kernel with_threads with_mach u_kernel kw_threads tw_sched]. by rewrite H5.
  - apply G5. lia.
  - exists w'. split; [done|]. split; [done|]. by eapply ended_eq, Hend.
Qed.

End points.

Lemma launched_at w live sv p next rest t :
  launched ctx_offset bootstrap_context boot_lo boot_hi USER_DEMO p next rest t live sv w →
  interrupts_on (mach w) = true → at_instr 0 live sv t (u_kernel w) w.
Proof.
  intros [H1 H2 _ H4 _ _ H7] Hf. split; try done. split_and!; intros ?; lia.
Qed.

Lemma isteps_at w d n w' d' live sv t k0 :
  at_instr 0 live sv t k0 w → isteps (w, d) n (w', d') → (n <= 7)%nat →
  at_instr n live sv t k0 w' ∧ (in_service (PICS d) = [] → in_service (PICS d') = []).
Proof.
  intros H0 Hs. remember (w', d') as y eqn:Ey. revert w' d' Ey.
  induction Hs as [|n i [w1 d1] z Hs IH Hi|n w1 d1 w2 Hs IH Hu]; intros w' d' Ey Hn.
  - by injection Ey as <- <-.
  - subst z. destruct (IH w1 d1 eq_refl Hn) as [Ha Hd]. split; [by eapply at_instr_irq|].
    destruct Hroom as [T [D _] R _], Hpp as [_ _ _ B].
    destruct (irq_ring3_spec wake top kernel_cs depth handler_addr D plo T ltac:(lia) ltac:(lia) _ _ _ _ _ Hi)
      as (_ & _ & _ & Hx & _). auto.
  - injection Ey as <- <-. destruct (IH w1 d1 eq_refl ltac:(lia)) as [Ha Hd]. split; [|done].
    destruct (demo_advances _ _ _ _ n w1 Ha ltac:(lia)) as (w3 & Hw3 & Ha'). congruence.
Qed.

(** C8: the demo program under interrupts.  However the timer and the keyboard
    interleave with it, the program executes the same eight instructions: it
    is never stuck, interrupts stay enabled and none is left in service, the
    message is printed once, and the eighth instruction ends the process and
    hands the CPU to the next thread. *)
Theorem demo_under_interrupts w d live sv p next rest t n w' d' :
  launched ctx_offset bootstrap_context boot_lo boot_hi USER_DEMO p next rest t live sv w →
  interrupts_on (mach w) = true → in_service (PICS d) = [] → isteps (w, d) n (w', d') →
  (n <= 7)%nat ∧ interrupts_on (mach w') = true ∧ in_service (PICS d') = [] ∧
  ((n < 7)%nat → ∃ w2, Step w' = Ok (Runs w2)) ∧
  (n = 7%nat → ∃ w2, Step w' = Ok (Leaves w2) ∧
     shows (kw_console (u_kernel w2)) (t_write_string hello t) ∧
     Ended live p next rest (u_kernel w) (u_kernel w2)).
Proof.
  intros Hl Hf Hd Hs. pose proof (launched_at _ _ _ _ _ _ _ Hl Hf) as H0. pose proof Hl as [_ _ _ _ Hr [Hp _] _].
  assert (n <= 7)%nat as Hn.
  { remember (w', d') as y eqn:Ey. revert w' d' Ey.
    induction Hs as [|n i [w1 d1] z Hs IH Hi|n w1 d1 w2 Hs IH Hu]; intros w' d' Ey; [lia|eauto|].
    pose proof (IH _ _ eq_refl) as Hle. destruct (decide (n = 7)%nat) as [->|]; [|lia].
    destruct (isteps_at _ _ _ _ _ _ _ _ _ H0 Hs Hle) as [Ha _].
    destruct (demo_leaves _ _ _ _ p next rest Hr Hp w1 Ha) as (w3 & Hw3 & _). congruence. }
  destruct (isteps_at _ _ _ _ _ _ _ _ _ H0 Hs Hn) as [Ha Hd']. split_and!; auto.
  - apply (ai_if _ _ _ _ _ _ Ha).
  - intros Hlt. destruct (demo_advances _ _ _ _ _ _ Ha Hlt) as (w2 & Hw2 & _). eauto.
  - intros ->. by apply (demo_leaves live sv t).
Qed.
End user_irq.

(** ** Witness: the demo program, interrupted by the keyboard before its first
    instruction *)

Abbreviation demo_isteps := (isteps 16 0x1000 0x100 0x200 0x7f80 demo_wake
  (L := demo_paging_laws) demo_user_walk 0x8000 8 0x500 256 (λ _, 0x600) hello).
Abbreviation demo_ustep := (user_step 16 0x1000 0x100 0x200 0x7f80
  (@translate demo_paging demo_paging_laws) demo_user_walk 0x8000 8 0x500 256 (λ _, 0x600) hello).

Lemma demo_under_interrupts_witness :
  ∃ w' (d' : demo_devices), demo_isteps (demo_launch USER_DEMO, demo_dev) 0 (w', d') ∧
    interrupts_on (mach w') = true ∧ PICS d' = [] ∧ ∃ w2, demo_ustep w' = Ok (Runs w2).
Proof.
  destruct demo_ring3_inv as (live & sv & Hinv).
  destruct (irq_ring3_delivered (Q := list_array_queue) (C := option_cell _) (A := option_waker _)
    (V := demo_volatile) (P := demo_paging) (IO := demo_port_io) (PIC := demo_pics) demo_wake 0x8000 8 256 (λ _, 0x600) ltac:(lia) 0x6000 ltac:(by exists 2048)
    ltac:(lia) ltac:(done) IKeyboard (demo_launch USER_DEMO) demo_dev) as (w' & d' & Hi);
    [reflexivity|apply demo_irq_ok|].
  assert (demo_isteps (demo_launch USER_DEMO, demo_dev) 0 (w', d')) as Hs
    by (eapply isteps_irq; [apply isteps_refl|exact Hi]).
  exists w', d'. split; [exact Hs|].
  destruct (demo_under_interrupts 16 0x1000 0x100 0x200 0x7f80 demo_wake (VL := demo_volatile_laws)
    (L := demo_paging_laws) (PL := demo_pics_laws) demo_user_walk 0x8000 8 0x500 256 (λ _, 0x600) hello
    0x2000 0x4000 0x6000 demo_user_walk_ok demo_placement demo_priv demo_room
    (demo_launch USER_DEMO) demo_dev live sv 3 0 [] demo_terminal 0 w' d') as (_ & H1 & H2 & H3 & _).
  - apply demo_launched; [|exact Hinv]. apply demo_loaded_ok. vm_compute. reflexivity.
  - reflexivity.
  - reflexivity.
  - exact Hs.
  - split; [exact H1|]. split; [exact H2|]. apply H3. lia.
Defined.
