(* ===== verification/TrapFlags.v ===== *)
(** * The interrupt flag across a thread switch

    [switch_context] of src/src/thread.rs saves and restores the callee-saved
    registers but not [rflags], and the gates of src/src/interrupts.rs clear
    the interrupt flag.  So a thread that is switched to from inside a trap
    does not get its own interrupt flag back: it continues with interrupts
    disabled. *)

From Stdlib Require Import ZArith Lia.
From stdpp Require Import base gmap list strings numbers functions.
From S2P Require Import Prelude AllocMod FixedSizeBlock Scheduler Machine Thread Libs Keyboard Vga Kernel.
From S2P Require Import Paging Gdt Userland Syscall Interrupts UserExec.
From S2P Require Import ThreadInv ThreadTrap ThreadThms KernelThms UserlandThms TrapThms UserExecThms Irq.

Open Scope Z_scope.

(** ** Instructions *)

Lemma store_flags a v m m' : store a v m = Ok m' → rflags m' = rflags m.
Proof. unfold store. destruct (_ =? _); [|done]. by intros [= <-]. Qed.

Lemma push_flags v m m' : push v m = Ok m' → rflags m' = rflags m.
Proof. unfold push. intros H. by apply store_flags in H. Qed.

Lemma pop_flags m v m' : pop m = Ok (v, m') → rflags m' = rflags m.
Proof. unfold pop. intros H. binds. by simplify_eq. Qed.

Create HintDb flags.
#[local] Hint Resolve store_flags push_flags pop_flags : flags.

(** Only [iretq] loads the flags. *)
Lemma run_flags code m m' : Iretq ∉ code → run code m = Ok m' → rflags m' = rflags m.
Proof.
  revert m. induction code as [|i code IH]; intros m Hi; [by intros [= <-]|].
  apply not_elem_of_cons in Hi as [Hi Hc]. cbn [run]. intros H. apply bind_inv in H as (m1 & He & Hr).
  rewrite (IH m1 Hc Hr). destruct i; cbn [exec] in He; try done; eauto with flags; binds;
    repeat match goal with x : _ * _ |- _ => destruct x end; simplify_eq/=; eauto with flags.
Qed.

Lemma push_frame_flags sp kernel_cs handler new_ss code m m' :
  push_frame sp kernel_cs handler new_ss code m = Ok m' → interrupts_on m' = false.
Proof.
  unfold push_frame, interrupts_on. intros H. binds. injection H as <-. cbn [rflags]. rewrite Z.ldiff_spec.
  change (Z.testbit 0x14300 9) with true. apply andb_false_r.
Qed.

(** ** The thread calls *)

Section flags.
Context (ctx_offset bootstrap_context yield_ret exit_ret scratch : Z).

Lemma call_switch_flags ret prev next m m' : call_switch ret prev next m = Ok m' → rflags m' = rflags m.
Proof.
  unfold call_switch. intros H. apply bind_inv in H as (m1 & Hp & Hr).
  apply run_flags in Hr; [|by_decide]. apply push_flags in Hp. by rewrite Hr, Hp.
Qed.

Abbreviation Flags ts := (rflags (tw_mach ts)).
Abbreviation tworld := (tworld Fixed.fworld).

Lemma drain_reaper_mach (w w' : tworld) :
  drain_reaper Fixed.dealloc w = Ok w' → tw_mach w' = tw_mach w.
Proof.
  unfold drain_reaper, drop_thread. destruct (reaper (tw_sched w)); intros H; binds; by simplify_eq.
Qed.

Lemma yield_now_flags (w w' : tworld) :
  yield_now Fixed.dealloc ctx_offset bootstrap_context yield_ret w = Ok w' → Flags w' = Flags w.
Proof.
  unfold yield_now. intros H. apply bind_inv in H as (w1 & Hd & H). apply drain_reaper_mach in Hd.
  apply bind_inv in H as ([[[prev next] s]|] & _ & H); [|simplify_eq; by rewrite Hd].
  apply bind_inv in H as (m & Hm & H). simplify_eq. apply call_switch_flags in Hm.
  cbn [with_mach tw_mach]. by rewrite Hm, Hd.
Qed.

Lemma exit_thread_flags (w w' : tworld) :
  exit_thread Fixed.dealloc ctx_offset bootstrap_context exit_ret scratch w = Ok w' → Flags w' = Flags w.
Proof.
  unfold exit_thread. intros H. apply bind_inv in H as (w1 & Hd & H). apply drain_reaper_mach in Hd.
  apply bind_inv in H as ([next s] & _ & H). apply bind_inv in H as (m1 & Hs & H).
  apply bind_inv in H as (m & Hm & H). simplify_eq. apply call_switch_flags in Hm. apply store_flags in Hs.
  cbn [with_mach tw_mach]. by rewrite Hm, Hs, Hd.
Qed.

(** ** The system calls *)

Context {W E : Type}.
Context {Q : ArrayQueue} {C : OnceCell aq} {A : AtomicWaker W} {V : Volatile} {P : Paging}.
Context (walk : mapper → Z → option (Z * Z)).
Context (top kernel_cs isr_ret depth : Z) (handler_addr : Handler → Z) (report : list Z).

Abbreviation uworld := (uworld (W := W) (E := E)).
Abbreviation kworld := (kworld (W := W) (E := E)).
Abbreviation Call := (Kernel.call ctx_offset bootstrap_context yield_ret exit_ret scratch
  (W := W) (E := E)).

Definition kresult_world (r : kresult) : kworld := match r with Returned _ k => k | NoReturn k => k end.

(** The requests a system call makes. *)
Lemma call_flags caller req (k : kworld) r :
  match req with ThreadSpawn _ _ => False | _ => True end →
  Call caller req k = Ok r → Flags (kw_threads (kresult_world r)) = Flags (kw_threads k).
Proof.
  intros Hreq. destruct req; try done; cbn [Kernel.call].
  - destruct (negb _); [by intros [= <-]|]. unfold create, Process_new, register. cbn. by intros [= <-].
  - destruct (other_user _ _); [by intros [= <-]|]. unfold exit.
    destruct (kw_procs k !! _); by intros [= <-].
  - destruct (other_user _ _); by intros [= <-].
  - destruct (negb _); by intros [= <-].
  - intros H. apply bind_inv in H as (ts & Hy & H). simplify_eq. by apply yield_now_flags in Hy.
  - intros H. apply bind_inv in H as (ts & Hy & H). simplify_eq. by apply exit_thread_flags in Hy.
  - by intros [= <-].
  - intros H. binds. by simplify_eq.
  - by intros [= <-].
  - destruct (read_byte _). by intros [= <-].
  - unfold console_write. intros H. binds. by simplify_eq.
Qed.

Lemma dispatch_flags frame (w : uworld) fr w' :
  syscall_dispatch ctx_offset bootstrap_context yield_ret exit_ret scratch walk frame w = Ok (fr, w') →
  rflags (mach w') = rflags (mach w).
Proof.
  unfold syscall_dispatch. intros H. apply bind_inv in H as (r & Hr & H).
  assert (w' = match r with SReturn _ w => w | SGone w => w end) as -> by (destruct r; by simplify_eq).
  clear H. revert Hr. unfold sys_exit, sys_write, sys_read, sys_yield.
  repeat match goal with |- context [if ?b then _ else _] => destruct b end.
  - intros H. apply bind_inv in H as (x & Hc & H). apply call_flags in Hc; [|done].
    destruct x; [|by simplify_eq]. apply bind_inv in H as (ts & He & H). simplify_eq.
    apply exit_thread_flags in He. unfold mach in *. cbn in *. congruence.
  - by intros [= <-].
  - destruct (user_bytes _ _) as [[ptr len]|]; [|by intros [= <-]]. intros H.
    apply bind_inv in H as (bytes & _ & H). apply bind_inv in H as (x & Hc & H).
    apply call_flags in Hc; [|done]. destruct x as [[] ?|]; by simplify_eq.
  - intros H. apply bind_inv in H as (x & Hc & H). apply call_flags in Hc; [|done].
    destruct x as [[ | |[]| | | | | | | | ] ?|]; by simplify_eq.
  - intros H. apply bind_inv in H as (x & Hc & H). apply call_flags in Hc; [|done].
    destruct x as [[] ?|]; by simplify_eq.
  - by intros [= <-].
Qed.

Lemma fault_handler_flags msg cs (k k' : kworld) :
  fault_handler ctx_offset bootstrap_context yield_ret exit_ret scratch msg report cs k = Ok k' →
  Flags (kw_threads k') = Flags (kw_threads k).
Proof.
  unfold fault_handler, kill_faulting_process. intros H. apply bind_inv in H as (c & _ & H).
  destruct (faulted_in_ring3 cs); [|done]. destruct (_ =? _); [done|].
  apply bind_inv in H as (r & Hc & H). apply call_flags in Hc; [|done].
  destruct r; [|by simplify_eq]. apply bind_inv in H as (ts & He & H). simplify_eq.
  apply exit_thread_flags in He. cbn in *. congruence.
Qed.

(** C34: a thread switched to from a trap runs with interrupts disabled.  When
    a system call or a fault of a user program gives up the CPU, the thread
    that continues does so with the interrupt flag clear, however it was
    suspended: its flags are not part of the saved context. *)
Theorem trap_switch_interrupts_off (w w' : uworld) :
  syscall_trap ctx_offset bootstrap_context yield_ret exit_ret scratch walk top kernel_cs isr_ret depth
    handler_addr w = Ok (Leaves w') ∨
  (∃ h msg code, fault_trap ctx_offset bootstrap_context yield_ret exit_ret scratch top kernel_cs depth
    handler_addr report h msg code w = Ok (Leaves w')) →
  interrupts_on (mach w') = false.
Proof.
  intros [H|(h & msg & code & H)].
  - unfold syscall_trap, syscall_enter in H. apply bind_inv in H as (m3 & Hm & H).
    apply bind_inv in Hm as (m1 & H1 & Hm). apply bind_inv in Hm as (m2 & H2 & H3).
    apply bind_inv in H as (frame & _ & H). apply bind_inv in H as ([r w1] & Hd & H).
    apply dispatch_flags in Hd. apply push_frame_flags in H1. apply run_flags in H2; [|by_decide].
    apply push_flags in H3. change (rflags (mach (set_mach ?m _))) with (rflags m) in Hd. cbn [set_reg rflags] in Hd.
    assert (w1 = w') as <- by (destruct r; [case_match; [|by simplify_eq]; binds|]; by simplify_eq).
    unfold interrupts_on in *. by rewrite Hd, H3, H2.
  - unfold fault_trap in H. apply bind_inv in H as (m & H1 & H). apply bind_inv in H as (k & Hk & H).
    simplify_eq. apply push_frame_flags in H1. apply fault_handler_flags in Hk.
    unfold interrupts_on, mach in *. cbn [with_kernel u_kernel set_mach with_threads kw_threads with_mach tw_mach
      set_reg rflags] in *. by rewrite Hk.
Qed.
End flags.

(** ** Witness: the demo program at its last system call *)

Definition demo_exit_machine : machine :=
  mkMachine (λ r, if decide (r = RSP) then USER_STACK_TOP else 0) (USER_CODE_BASE + 42) 0x33 0x202 0x2b
    (mem (tw_mach demo_ring3_threads)).

Lemma trap_switch_interrupts_off_witness :
  let w := set_mach demo_exit_machine (demo_launch USER_DEMO) in
  interrupts_on (mach w) = true ∧
  ∃ w', syscall_trap 16 0x1000 0x100 0x200 0x7f80 (@translate demo_paging demo_paging_laws)
      0x8000 8 0x500 256 (λ _, 0x600) w = Ok (Leaves w') ∧
    current (tw_sched (kw_threads (u_kernel w'))) = BOOTSTRAP_ID ∧ interrupts_on (mach w') = false.
Proof.
  cbv zeta. split; [reflexivity|]. destruct demo_ring3_inv as (live & sv & Hinv).
  destruct (exit_trap_ends 16 0x1000 0x100 0x200 0x7f80 (L := demo_paging_laws)
    0x8000 8 0x500 256 (λ _, 0x600) 0x2000 0x4000 0x6000 demo_placement demo_priv demo_room
    (set_mach demo_exit_machine (demo_launch USER_DEMO)) live sv 3 0 [] demo_terminal)
    as (w' & He & [_ E2 _ _] & _).
  - cbn [set_mach with_kernel u_kernel with_threads kw_threads demo_launch].
    unfold demo_exit_machine. apply tinv_mach. exact Hinv.
  - vm_compute. reflexivity.
  - vm_compute. reflexivity.
  - apply demo_shows.
  - reflexivity.
  - exists w'. split; [exact He|]. split.
    + rewrite E2. apply (exited_shape (drained _) 0 []).
    + apply (trap_switch_interrupts_off 16 0x1000 0x100 0x200 0x7f80 (@translate demo_paging demo_paging_laws)
        0x8000 8 0x500 256 (λ _, 0x600) hello (set_mach demo_exit_machine (demo_launch USER_DEMO)) w').
      left. exact He.
Defined.
