(* ===== verification/Demos.v ===== *)
(** * The boot-time demos

    src/src/demos.rs: [threading_demo] with its two workers, as a transition
    system over the threads of Thread.v, and [userland_demo], which runs a
    ring-3 process from its creation to its end, as a function.  The log lines
    of the demos are left out: the logger (Logger.v) shares no state with
    them. *)

From Stdlib Require Import ZArith Lia.
From stdpp Require Import base gmap list strings numbers functions relations.
From S2P Require Import Prelude AllocMod FixedSizeBlock Scheduler Machine Thread ThreadInv ThreadThms.
From S2P Require Import Libs Keyboard Vga Kernel Paging Gdt Userland Syscall Interrupts UserExec.

Open Scope Z_scope.

(** ** [threading_demo] *)

Section threading.
Context {H : Type}.
Context (alloc : H → Layout → outcome (Z * H)).
Context (dealloc : H → Z → Layout → outcome H).
Context (scribble : H → Z → Z → H).
Context {spec : GlobalAllocSpec H alloc dealloc scribble}.
Context (ctx_offset bootstrap_context yield_ret exit_ret lo hi boot_lo boot_hi : Z).
(** The addresses of the two functions. *)
Context (worker_a worker_b : Z).

Abbreviation Computes := (computes alloc dealloc scribble ctx_offset bootstrap_context lo hi boot_lo boot_hi).

(** What a thread of the demo does between two calls into the scheduler: it
    logs, and interrupts come in; of the counters only the ticks move, and
    nothing is allocated or freed. *)
Definition works (w w1 : tworld H) : Prop :=
  Computes w w1 ∧ (∃ n, tw_stats w1 = set_ticks n (tw_stats w)) ∧ tw_heap w1 = tw_heap w.

(** A worker calls [yield_now] once and then [exit_thread]. *)
Definition worker_yields : nat := 1.

(** The state: the threads, and the calls of [yield_now] each worker still has
    before its [exit_thread]. *)
Definition demo_state : Type := tworld H * gmap Z nat.

(** The two spawns. *)
Definition threading_spawn (w : tworld H) : outcome demo_state :=
  '(a, w) ← spawn_kernel alloc scribble ctx_offset worker_a w;
  '(b, w) ← spawn_kernel alloc scribble ctx_offset worker_b w;
  Ok (w, <[b := worker_yields]> {[a := worker_yields]}).

(** One turn of the running thread, up to its next call into the scheduler:
    the loop of [threading_demo] on the bootstrap thread, or a worker.  No
    other thread is ready while the demo runs. *)
Inductive demo_step : demo_state → demo_state → Prop :=
| step_loop w w1 w' left :
    current (tw_sched w) = BOOTSTRAP_ID → 0 < ready_count (tw_sched w) →
    works w w1 → yield_now dealloc ctx_offset bootstrap_context yield_ret w1 = Ok w' →
    demo_step (w, left) (w', left)
| step_yield w w1 w' left n :
    current (tw_sched w) ≠ BOOTSTRAP_ID → left !! current (tw_sched w) = Some (S n) →
    works w w1 → yield_now dealloc ctx_offset bootstrap_context yield_ret w1 = Ok w' →
    demo_step (w, left) (w', <[current (tw_sched w) := n]> left)
| step_exit w w1 w' left scratch :
    current (tw_sched w) ≠ BOOTSTRAP_ID → left !! current (tw_sched w) = Some 0%nat →
    works w w1 →
    (8 | scratch) → regs (tw_mach w1) RSP <= scratch →
    scratch + 8 <= stack_hi boot_hi (tw_sched w1) (current (tw_sched w1)) →
    exit_thread dealloc ctx_offset bootstrap_context exit_ret scratch w1 = Ok w' →
    demo_step (w, left) (w', delete (current (tw_sched w)) left).

(** The loop ends on the bootstrap thread with nothing ready. *)
Definition demo_done (x : demo_state) : Prop :=
  current (tw_sched x.1) = BOOTSTRAP_ID ∧ ready_count (tw_sched x.1) = 0.
End threading.

(** ** [userland_demo] *)

Section userland_demo.
Context (ctx_offset bootstrap_context yield_ret exit_ret scratch : Z).
Context {W E : Type}.
Context {Q : ArrayQueue} {C : OnceCell aq} {A : AtomicWaker W} {V : Volatile} {P : Paging}.
Context (walk user_walk : mapper → Z → option (Z * Z)).
Context (top kernel_cs isr_ret depth : Z) (handler_addr : Handler → Z) (report : list Z).
Context (user_code user_data : Z) (r_ss r_rsp r_cs r_rip : reg).
(** The address of [user_thread_entry]. *)
Context (user_entry_fn : Z).

Abbreviation uworld := (uworld (W := W) (E := E)).

Definition yield_user (w : uworld) : outcome uworld :=
  ts ← yield_now Fixed.dealloc ctx_offset bootstrap_context yield_ret (kw_threads (u_kernel w));
  Ok (with_kernel (with_threads ts (u_kernel w)) w).

(** A host thread from its first instruction until it leaves the CPU. *)
Definition host_thread (fuel : nat) (w : uworld) : outcome uworld :=
  k ← user_thread_entry ctx_offset bootstrap_context yield_ret exit_ret scratch
        user_code user_data r_ss r_rsp r_cs r_rip (u_kernel w);
  user_run ctx_offset bootstrap_context yield_ret exit_ret scratch walk user_walk
    top kernel_cs isr_ret depth handler_addr report fuel (with_kernel k w).

(** [while thread::ready_count() > 0 { thread::yield_now() }] with the threads
    it yields to.  A thread other than the bootstrap one is a host thread at
    its entry; any other point of it is not covered. *)
Fixpoint drive (fuel : nat) (w : uworld) : outcome uworld :=
  match fuel with
  | O => Diverge
  | S fuel =>
      let ts := kw_threads (u_kernel w) in
      if current (tw_sched ts) =? BOOTSTRAP_ID then
        if 0 <? ready_count (tw_sched ts) then w ← yield_user w; drive fuel w else Ok w
      else if rip (tw_mach ts) =? user_entry_fn then w ← host_thread fuel w; drive fuel w
      else Undef
  end.

(** A process from the spawn of its host thread until that has been reaped. *)
Definition run_process (fuel : nat) (pid : Z) (w : uworld) : outcome uworld :=
  k ← spawn_user_thread ctx_offset user_entry_fn pid (u_kernel w);
  w ← drive fuel (with_kernel k w);
  yield_user w.

(** The error message, or the id of the process that ran. *)
Definition userland_demo (fuel : nat) (w : uworld) : outcome ((string + Z) * uworld) :=
  '(r, w) ← create_demo_process ctx_offset bootstrap_context yield_ret exit_ret scratch walk w;
  match r with
  | inl e => Ok (inl e, w)
  | inr pid =>
      w ← run_process fuel pid w;
      Ok (inr pid, w)
  end.
End userland_demo.
