(* ===== verification/Keeps.v ===== *)
(** * What processes and demos leave alone

    Frame lemmas: thread switches, the kernel's services, a ring-3 program
    whatever it does, and the two boot-time demos leave the count of the
    executor's tasks alone, and, as long as the keyboard task has not
    started, the input queues. *)

From Stdlib Require Import ZArith Lia.
From stdpp Require Import base gmap list strings numbers relations.
From S2P Require Import Prelude AllocMod FixedSizeBlock Scheduler Machine Thread ThreadInv ThreadThms.
From S2P Require Import Libs Keyboard Vga Kernel Paging Gdt Userland Syscall Interrupts UserExec Demos.

Open Scope Z_scope.

(** ** Threads *)

Record tkept {H} (w w' : tworld H) : Prop := {
  tk_tasks : tasks_alive (tw_stats w') = tasks_alive (tw_stats w);
  tk_next : tw_next_id w' = tw_next_id w;
}.

Section threads.
Context {H : Type}.
Context (alloc : H → Layout → outcome (Z * H)).
Context (dealloc : H → Z → Layout → outcome H).
Context (scribble : H → Z → Z → H).
Context (ctx_offset bootstrap_context yield_ret exit_ret : Z).

Lemma drain_kept (w w' : tworld H) : drain_reaper dealloc w = Ok w' → tkept w w'.
Proof.
  unfold drain_reaper. destruct (reaper (tw_sched w)); [|by intros [= <-]].
  intros Hd. by apply bind_inv in Hd as (h1 & _ & (h2 & _ & [= <-])%bind_inv).
Qed.

Lemma yield_kept (w w' : tworld H) :
  yield_now dealloc ctx_offset bootstrap_context yield_ret w = Ok w' → tkept w w'.
Proof.
  intros Hy. apply bind_inv in Hy as (w1 & Hd & Hy). apply drain_kept in Hd as [D1 D2].
  apply bind_inv in Hy as ([[[p n] s]|] & _ & Hy); [|by injection Hy as <-].
  by apply bind_inv in Hy as (m & _ & [= <-]).
Qed.

Lemma exit_kept scratch (w w' : tworld H) :
  exit_thread dealloc ctx_offset bootstrap_context exit_ret scratch w = Ok w' → tkept w w'.
Proof.
  intros He. apply bind_inv in He as (w1 & Hd & He). apply drain_kept in Hd as [D1 D2].
  apply bind_inv in He as ([n s] & _ & He). apply bind_inv in He as (m & _ & He).
  by apply bind_inv in He as (m' & _ & [= <-]).
Qed.

Lemma box_new_kept l (w : tworld H) p w' : box_new alloc scribble l w = Ok (p, w') → tkept w w'.
Proof.
  intros Hb. apply bind_inv in Hb as ([a h] & _ & Hb). destruct (a =? 0); [done|]. by injection Hb as <- <-.
Qed.

(** [spawn] also takes an id. *)
Lemma spawn_kept entry process (w : tworld H) id w' :
  spawn alloc scribble ctx_offset entry process w = Ok (id, w') →
  tasks_alive (tw_stats w') = tasks_alive (tw_stats w) ∧ tw_next_id w' = wrapping_add (tw_next_id w) 1.
Proof.
  intros Hs. apply bind_inv in Hs as ([[[i sp] st] w1] & Hk & Hs).
  apply bind_inv in Hk as ([a w0] & Hb & Hk). apply box_new_kept in Hb as [B1 B2].
  apply bind_inv in Hk as (t & _ & Hk). apply bind_inv in Hk as (sp1 & _ & Hk).
  apply bind_inv in Hk as (m1 & _ & Hk). apply bind_inv in Hk as ([sp2 m2] & _ & [= <- <- <- <-]).
  apply bind_inv in Hs as ([b w2] & Hb & Hs). apply box_new_kept in Hb as [C1 C2].
  apply bind_inv in Hs as (m & _ & Hs). apply bind_inv in Hs as (? & _ & [= <- <-]).
  cbn in *. rewrite C1, C2, B1, B2. done.
Qed.

(** [threading_demo] *)
Context {spec : GlobalAllocSpec H alloc dealloc scribble} (lo hi boot_lo boot_hi : Z).
Context (worker_a worker_b : Z).

Lemma demo_step_kept x y :
  demo_step alloc dealloc scribble ctx_offset bootstrap_context yield_ret exit_ret lo hi boot_lo boot_hi x y →
  tkept x.1 y.1.
Proof.
  intros Hst. destruct Hst as [w w1 w' left _ _ [Hc [[n Hn] _]] Hy|w w1 w' left k _ _ [Hc [[n Hn] _]] Hy
    |w w1 w' left scratch _ _ [Hc [[n Hn] _]] _ _ _ Hy]; cbn [fst];
    [apply yield_kept in Hy as [Y1 Y2]..|apply exit_kept in Hy as [Y1 Y2]];
    (split; [by rewrite Y1, Hn|by rewrite Y2, (cp_next _ _ _ _ _ _ _ _ _ _ _ Hc)]).
Qed.

Lemma demo_steps_kept n x y :
  nsteps (demo_step alloc dealloc scribble ctx_offset bootstrap_context yield_ret exit_ret
    lo hi boot_lo boot_hi) n x y → tkept x.1 y.1.
Proof.
  induction 1 as [x|n x y z Hst _ [I1 I2]]; [by split|].
  apply demo_step_kept in Hst as [S1 S2]. split; congruence.
Qed.

Lemma threading_spawn_kept w st :
  threading_spawn alloc scribble ctx_offset worker_a worker_b w = Ok st →
  tasks_alive (tw_stats st.1) = tasks_alive (tw_stats w) ∧
  tw_next_id st.1 = wrapping_add (wrapping_add (tw_next_id w) 1) 1.
Proof.
  intros Hs. apply bind_inv in Hs as ([a w1] & Ha & Hs). apply bind_inv in Hs as ([b w2] & Hb & [= <-]).
  apply spawn_kept in Ha as [A1 A2]. apply spawn_kept in Hb as [B1 B2]. cbn [fst].
  rewrite B1, B2, A1, A2. done.
Qed.
End threads.

(** ** The kernel *)

Section kernel.
Context (ctx_offset bootstrap_context yield_ret exit_ret scratch : Z).
Context {W E : Type}.
Context {Q : ArrayQueue} {C : OnceCell aq} {A : AtomicWaker W} {V : Volatile} {P : Paging}.
Context (walk user_walk : mapper → Z → option (Z * Z)).
Context (top kernel_cs isr_ret depth : Z) (handler_addr : Handler → Z) (report : list Z).
Context (user_code user_data : Z) (r_ss r_rsp r_cs r_rip : reg) (user_entry_fn : Z).

Abbreviation kworld := (kworld (W := W) (E := E)).
Abbreviation uworld := (uworld (W := W) (E := E)).

Record kept (k k' : kworld) : Prop := {
  ke_tasks : tasks_alive (tw_stats (kw_threads k')) = tasks_alive (tw_stats (kw_threads k));
  ke_input : kw_input k' = kw_input k;
}.

#[export] Instance kept_preorder : PreOrder kept.
Proof.
  split; [by intros k|]. intros k1 k2 k3 [A1 A2] [B1 B2]. split; congruence.
Qed.

(** The keyboard task has not started. *)
Definition no_keys (k : kworld) : Prop := try_get (KEY_QUEUE (kw_input k)) = None.

Lemma kept_no_keys k k' : kept k k' → no_keys k → no_keys k'.
Proof. intros [_ Hi]. unfold no_keys. by rewrite Hi. Qed.

Lemma kept_threads (k : kworld) ts : tkept (kw_threads k) ts → kept k (with_threads ts k).
Proof. intros [T1 _]. by split. Qed.

Lemma kept_console (k : kworld) c : kept k (with_console c k).
Proof. by split. Qed.

Definition result_world (r : kresult (W := W) (E := E)) : kworld :=
  match r with Returned _ k | NoReturn k => k end.

Lemma call_kept c request (k : kworld) r :
  Kernel.call ctx_offset bootstrap_context yield_ret exit_ret scratch c request k = Ok r → no_keys k →
  kept k (result_world r).
Proof.
  intros Hc Hk. destruct request; cbn [Kernel.call] in Hc;
    try (case_match; [by injection Hc as <-|]); try (by injection Hc as <-).
  - unfold exit in Hc. destruct (kw_procs k !! p); by injection Hc as <-.
  - apply bind_inv in Hc as ([t ts] & Hs & [= <-]). apply spawn_kept in Hs as [S1 _]. by split.
  - apply bind_inv in Hc as (ts & Hy & [= <-]). by apply kept_threads, (yield_kept _ _ _ _ _ _ Hy).
  - apply bind_inv in Hc as (ts & Hy & [= <-]). by apply kept_threads, (exit_kept _ _ _ _ _ _ _ Hy).
  - by apply bind_inv in Hc as (m & _ & [= <-]).
  - unfold no_keys in Hk. unfold read_byte in Hc. rewrite Hk in Hc. by injection Hc as <-.
  - apply bind_inv in Hc as ([n k'] & Hw & [= <-]).
    apply bind_inv in Hw as (c' & _ & [= <- <-]). apply kept_console.
Qed.
(** ** Ring-3 programs *)

Abbreviation Dispatch := (syscall_dispatch ctx_offset bootstrap_context yield_ret exit_ret scratch walk
  (W := W) (E := E)).

Definition sresult_kernel (r : sresult (W := W) (E := E)) : kworld :=
  match r with SReturn _ w | SGone w => u_kernel w end.

(** A system call built from one request. *)
Lemma request_kept c request (w : uworld) (f : kresult → outcome sresult) r :
  (∀ x y, f x = Ok y → kept (result_world x) (sresult_kernel y)) →
  (x ← Kernel.call ctx_offset bootstrap_context yield_ret exit_ret scratch c request (u_kernel w); f x)
    = Ok r → no_keys (u_kernel w) → kept (u_kernel w) (sresult_kernel r).
Proof.
  intros Hf Hr Hk. apply bind_inv in Hr as (x & Hc & Hr).
  etrans; [by eapply call_kept|by apply Hf].
Qed.

Lemma dispatch_kept frame (w : uworld) r w' :
  Dispatch frame w = Ok (r, w') → no_keys (u_kernel w) → kept (u_kernel w) (u_kernel w').
Proof.
  intros Hd Hk. unfold syscall_dispatch in Hd. apply bind_inv in Hd as (sr & Hs & Hd).
  assert (u_kernel w' = sresult_kernel sr) as -> by (destruct sr; by injection Hd as _ <-). clear Hd.
  assert (∀ x y, (match x with
      | NoReturn k => Ok (SGone (with_kernel k w))
      | Returned _ k =>
          ts ← exit_thread Fixed.dealloc ctx_offset bootstrap_context exit_ret scratch (kw_threads k);
          Ok (SGone (with_kernel (with_threads ts k) w))
      end : outcome sresult) = Ok y → kept (result_world x) (sresult_kernel y)) as Hexit.
  { intros [a k|k] y Hy; [|by injection Hy as <-]. apply bind_inv in Hy as (ts & He & [= <-]).
    by apply kept_threads, (exit_kept _ _ _ _ _ _ _ He). }
  destruct (f_rax frame =? SYS_EXIT); [eapply request_kept; [exact Hexit|exact Hs|done]|].
  destruct (f_rax frame =? SYS_WRITE); [|destruct (f_rax frame =? SYS_READ);
    [|destruct (f_rax frame =? SYS_YIELD); [|by injection Hs as <-]]].
  - unfold sys_write in Hs. repeat (case_match; try (by injection Hs as <-)).
    apply bind_inv in Hs as (bytes & _ & Hs). eapply request_kept; [|exact Hs|done].
    intros x y Hy. destruct x as [[| |[|]| | | | | | | |]|]; by injection Hy as <-.
  - eapply request_kept; [|exact Hs|done]. intros x y Hy. destruct x as [[| |[|]| | | | | | | |]|]; by injection Hy as <-.
  - eapply request_kept; [|exact Hs|done]. intros x y Hy. destruct x as [[| |[|]| | | | | | | |]|]; by injection Hy as <-.
Qed.

Definition uresult_kernel (r : uresult (W := W) (E := E)) : kworld :=
  match r with Runs w | Leaves w => u_kernel w end.

Lemma kept_mach m (w : uworld) : kept (u_kernel w) (u_kernel (set_mach m w)).
Proof. by split. Qed.

Lemma syscall_trap_kept (w : uworld) r :
  syscall_trap ctx_offset bootstrap_context yield_ret exit_ret scratch walk top kernel_cs isr_ret depth
    handler_addr w = Ok r → no_keys (u_kernel w) → kept (u_kernel w) (uresult_kernel r).
Proof.
  intros Ht Hk. apply bind_inv in Ht as (m & _ & Ht). apply bind_inv in Ht as (fr & _ & Ht).
  apply bind_inv in Ht as ([o w1] & Hd & Ht). apply dispatch_kept in Hd; [|done].
  assert (kept (u_kernel w) (u_kernel w1)) as Hw1 by (etrans; [by apply kept_mach|exact Hd]).
  destruct o as [fr'|]; [|by injection Ht as <-]. destruct (_ =? _); [|by injection Ht as <-].
  apply bind_inv in Ht as (m1 & _ & Ht). apply bind_inv in Ht as (m2 & _ & [= <-]).
  etrans; [done|apply kept_mach].
Qed.

Lemma fault_trap_kept h msg code (w : uworld) r :
  fault_trap ctx_offset bootstrap_context yield_ret exit_ret scratch top kernel_cs depth handler_addr report
    h msg code w = Ok r → no_keys (u_kernel w) → kept (u_kernel w) (uresult_kernel r).
Proof.
  intros Ht Hk. apply bind_inv in Ht as (m & _ & Ht). apply bind_inv in Ht as (k & Hf & [= <-]).
  cbn [uresult_kernel with_kernel u_kernel]. unfold fault_handler in Hf. apply bind_inv in Hf as (c & _ & Hf).
  destruct (faulted_in_ring3 _); [|done]. unfold kill_faulting_process in Hf. destruct (_ =? _); [done|].
  apply bind_inv in Hf as (x & Hc & Hf). apply call_kept in Hc; [|done].
  assert (kept (u_kernel w) (result_world x)) as Hx by (etrans; [|exact Hc]; by split).
  destruct x as [a k'|k']; [|by injection Hf as <-]. apply bind_inv in Hf as (ts & He & [= <-]).
  etrans; [done|]. by apply kept_threads, (exit_kept _ _ _ _ _ _ _ He).
Qed.

Abbreviation Run := (user_run ctx_offset bootstrap_context yield_ret exit_ret scratch walk user_walk
  top kernel_cs isr_ret depth handler_addr report (W := W) (E := E)).

Lemma user_step_kept (w : uworld) r :
  user_step ctx_offset bootstrap_context yield_ret exit_ret scratch walk user_walk top kernel_cs isr_ret depth
    handler_addr report w = Ok r → no_keys (u_kernel w) → kept (u_kernel w) (uresult_kernel r).
Proof.
  intros Hs Hk. unfold user_step in Hs.
  destruct (fetch _ _ _ _) as [|b bs]; [by eapply fault_trap_kept|].
  destruct (decode _) as [[i len]|]; [|done].
  destruct i; cbn [user_exec] in Hs; try (by injection Hs as <-).
  - destruct (copy_bytes _ _ _ _ _); [by injection Hs as <-|by eapply fault_trap_kept..].
  - destruct (user_int _) as [[]|]; try done; [|by eapply fault_trap_kept].
    apply syscall_trap_kept in Hs; [|done]. etrans; [apply kept_mach|exact Hs].
  - by eapply fault_trap_kept.
Qed.

(** Whatever a program does until it leaves the CPU. *)
Lemma user_run_kept fuel (w w' : uworld) :
  Run fuel w = Ok w' → no_keys (u_kernel w) → kept (u_kernel w) (u_kernel w').
Proof.
  revert w. induction fuel as [|fuel IH]; intros w Hr Hk; [done|].
  cbn [user_run] in Hr. apply bind_inv in Hr as (r & Hs & Hr). apply user_step_kept in Hs; [|done].
  destruct r as [w1|w1]; cbn [uresult_kernel] in Hs; [|by injection Hr as <-].
  etrans; [done|]. apply IH; [done|by eapply kept_no_keys].
Qed.

(** ** [userland_demo] *)

Lemma create_kept program (w : uworld) r w' :
  create_process_from_program ctx_offset bootstrap_context yield_ret exit_ret scratch walk program w
    = Ok (r, w') → no_keys (u_kernel w) → kept (u_kernel w) (u_kernel w').
Proof.
  intros Hc Hk. unfold create_process_from_program in Hc. destruct (_ <? _); [by injection Hc as <- <-|].
  apply bind_inv in Hc as ([[[e|] m] f] & _ & Hc); [by injection Hc as <- <-|].
  apply bind_inv in Hc as (ram & _ & Hc).
  apply bind_inv in Hc as ([[[e|] m'] f'] & _ & Hc); [by injection Hc as <- <-|].
  apply bind_inv in Hc as (a & _ & Hc). apply bind_inv in Hc as (b & _ & Hc).
  apply bind_inv in Hc as (x & Hx & Hc). apply call_kept in Hx; [|done].
  destruct x as [[]|]; by injection Hc as <- <-.
Qed.

Lemma yield_user_kept (w w' : uworld) :
  yield_user ctx_offset bootstrap_context yield_ret w = Ok w' → kept (u_kernel w) (u_kernel w').
Proof.
  intros Hy. apply bind_inv in Hy as (ts & Hy & [= <-]). by apply kept_threads, (yield_kept _ _ _ _ _ _ Hy).
Qed.

Lemma drive_kept fuel (w w' : uworld) :
  drive ctx_offset bootstrap_context yield_ret exit_ret scratch walk user_walk top kernel_cs isr_ret depth
    handler_addr report user_code user_data r_ss r_rsp r_cs r_rip user_entry_fn fuel w = Ok w' →
  no_keys (u_kernel w) → kept (u_kernel w) (u_kernel w').
Proof.
  revert w. induction fuel as [|fuel IH]; intros w Hd Hk; [done|]. cbn [drive] in Hd.
  destruct (_ =? BOOTSTRAP_ID).
  - destruct (0 <? _); [|by injection Hd as <-]. apply bind_inv in Hd as (w1 & Hy & Hd).
    apply yield_user_kept in Hy. etrans; [done|]. apply IH; [done|by eapply kept_no_keys].
  - destruct (_ =? user_entry_fn); [|done]. apply bind_inv in Hd as (w1 & Hh & Hd).
    assert (kept (u_kernel w) (u_kernel w1)) as Hw1.
    { apply bind_inv in Hh as (k & He & Hr). unfold user_thread_entry in He.
      apply bind_inv in He as (x & Hx & He). apply call_kept in Hx; [|done].
      assert (kept (u_kernel w) k) as Hwk.
      { destruct x as [[| | | |[sn|]| | | | | |]|]; try done. apply bind_inv in He as (m & _ & [= <-]).
        etrans; [exact Hx|by split]. }
      etrans; [exact Hwk|]. apply user_run_kept in Hr; [done|by eapply kept_no_keys]. }
    etrans; [done|]. apply IH; [done|by eapply kept_no_keys].
Qed.

Lemma run_process_kept fuel pid (w w' : uworld) :
  run_process ctx_offset bootstrap_context yield_ret exit_ret scratch walk user_walk top kernel_cs isr_ret
    depth handler_addr report user_code user_data r_ss r_rsp r_cs r_rip user_entry_fn fuel pid w = Ok w' →
  no_keys (u_kernel w) → kept (u_kernel w) (u_kernel w').
Proof.
  intros Hd Hk. apply bind_inv in Hd as (k & Hs & Hd). apply bind_inv in Hs as ([t ts] & Hs & [= <-]).
  apply bind_inv in Hd as (w2 & Hdr & Hy).
  assert (kept (u_kernel w) (with_threads ts (u_kernel w))) as H1 by (apply spawn_kept in Hs as [S1 _]; by split).
  etrans; [exact H1|]. etrans; [|by apply yield_user_kept in Hy].
  apply drive_kept in Hdr; [done|by eapply kept_no_keys].
Qed.

Lemma userland_demo_kept fuel (w w' : uworld) r :
  userland_demo ctx_offset bootstrap_context yield_ret exit_ret scratch walk user_walk top kernel_cs isr_ret
    depth handler_addr report user_code user_data r_ss r_rsp r_cs r_rip user_entry_fn fuel w = Ok (r, w') →
  no_keys (u_kernel w) → kept (u_kernel w) (u_kernel w').
Proof.
  intros Hd Hk. apply bind_inv in Hd as ([e w1] & Hc & Hd). apply create_kept in Hc; [|done].
  destruct e as [msg|p]; [by injection Hd as <- <-|]. apply bind_inv in Hd as (w2 & Hr & [= <- <-]).
  etrans; [done|]. apply run_process_kept in Hr; [done|by eapply kept_no_keys].
Qed.
End kernel.
