(* ===== verification/DemosThms.v ===== *)
(** * Theorems about the boot-time demos

    [threading_demo] ends after a bounded number of context switches with
    every worker gone; a process whose program ends by itself is run to its end
    and reaped, and [userland_demo], whose program is one of these, leaves the
    kernel as it found it, with the message on the screen. *)

From Stdlib Require Import ZArith Lia.
From stdpp Require Import base gmap list list_numbers strings numbers functions relations.
From S2P Require Import Prelude AllocMod FixedSizeBlock Scheduler Machine Thread ThreadInv ThreadThms.
From S2P Require Import Libs Keyboard Vga Kernel Paging Gdt Userland Syscall Interrupts UserExec Demos.
From S2P Require Import ThreadTrap KernelThms UserlandThms TrapThms UserExecThms.

Open Scope Z_scope.

(** ** [threading_demo] *)

(** The turns all workers have left. *)
Definition weight (left : gmap Z nat) : nat := sum_list_with (λ p : Z * nat, S p.2) (map_to_list left).

Lemma weight_delete left i n :
  left !! i = Some n → weight left = (S n + weight (delete i left))%nat.
Proof.
  intros Hi. unfold weight. rewrite <- (insert_delete_id left i n) at 1 by done.
  by rewrite map_to_list_insert by apply lookup_delete_eq.
Qed.

Lemma weight_insert left i n :
  weight (<[i := n]> left) = (S n + weight (delete i left))%nat.
Proof.
  rewrite (weight_delete _ i n) by apply lookup_insert_eq. by rewrite delete_insert_eq.
Qed.

Section threading.
Context {H : Type}.
Context (alloc : H → Layout → outcome (Z * H)).
Context (dealloc : H → Z → Layout → outcome H).
Context (scribble : H → Z → Z → H).
Context {spec : GlobalAllocSpec H alloc dealloc scribble}.
Context (ctx_offset bootstrap_context yield_ret exit_ret lo hi boot_lo boot_hi : Z).
Context (worker_a worker_b : Z).
Context (Hpl : placement ctx_offset bootstrap_context lo hi boot_lo boot_hi).

Abbreviation Tinv := (tinv alloc dealloc scribble ctx_offset bootstrap_context lo hi boot_lo boot_hi).
Abbreviation Running := (running boot_lo boot_hi).
Abbreviation Good := (good alloc dealloc scribble ctx_offset bootstrap_context lo hi boot_lo boot_hi).
Abbreviation Computes := (computes alloc dealloc scribble ctx_offset bootstrap_context lo hi boot_lo boot_hi).
Abbreviation Yield := (yield_now dealloc ctx_offset bootstrap_context yield_ret).
Abbreviation Exit := (exit_thread dealloc ctx_offset bootstrap_context exit_ret).
Abbreviation Step := (demo_step alloc dealloc scribble ctx_offset bootstrap_context yield_ret exit_ret
  lo hi boot_lo boot_hi).
Abbreviation Works := (works alloc dealloc scribble ctx_offset bootstrap_context lo hi boot_lo boot_hi).
Abbreviation State := (demo_state (H := H)).

(** The threads the scheduler has, running or ready. *)
Definition present (s : ThreadScheduler) : list Z := current s :: ready s.

(** The bootstrap thread is there, and the others are the workers that have
    turns left. *)
Record demo_inv (x : State) : Prop := {
  di_good : Good x.1;
  di_boot : BOOTSTRAP_ID ∈ present (tw_sched x.1);
  di_left : ∀ i, is_Some (x.2 !! i) ↔ i ≠ BOOTSTRAP_ID ∧ i ∈ present (tw_sched x.1);
}.

Definition measure (x : State) : nat :=
  2 * weight x.2 + (if current (tw_sched x.1) =? BOOTSTRAP_ID then 1 else 0).

Lemma good_computes w w' : Good w → Computes w w' → Good w'.
Proof.
  intros [(live & sv & Hinv) _] Hc. destruct (computes_inv _ _ _ _ _ _ _ _ _ w w' live sv Hinv Hc)
    as (live' & Hinv'). split; [eauto|apply Hc].
Qed.

(** A yield with another thread ready. *)
Lemma yield_rotates w next rest :
  Good w → ready (tw_sched w) = next :: rest →
  ∃ w', Yield w = Ok w' ∧ Good w' ∧ tw_sched w' = rotated (drained (tw_sched w)) next rest.
Proof.
  intros [(live & sv & Hinv) Hrun] Hr.
  destruct (yield_now_spec _ _ _ _ _ yield_ret _ _ _ _ Hpl w live sv Hinv Hrun) as (w' & Hy & Hrun' & Hm).
  rewrite Hr in Hm. destruct Hm as (Hinv' & Hs & _). exists w'. split; [done|]. split; [|done].
  split; eauto.
Qed.

Lemma exit_leaves w next rest scratch :
  Good w → ready (tw_sched w) = next :: rest →
  (8 | scratch) → regs (tw_mach w) RSP <= scratch →
  scratch + 8 <= stack_hi boot_hi (tw_sched w) (current (tw_sched w)) →
  ∃ w', Exit scratch w = Ok w' ∧ Good w' ∧ tw_sched w' = exited (drained (tw_sched w)) next rest.
Proof.
  intros [(live & sv & Hinv) Hrun] Hr S1 S2 S3.
  destruct (exit_thread_spec _ _ _ _ _ exit_ret _ _ _ _ Hpl w live sv next rest scratch Hinv Hrun Hr
    S1 S2 S3) as (w' & He & Hrun' & Hinv' & Hs & _).
  exists w'. split; [done|]. split; [|done]. split; eauto.
Qed.

Lemma present_rotated s next rest :
  ready s = next :: rest → ∀ i, i ∈ present (rotated (drained s) next rest) ↔ i ∈ present s.
Proof. intros Hr i. unfold present, rotated. simpl. rewrite Hr. set_solver. Qed.

Lemma present_exited s next rest n :
  queue_ok s n → ready s = next :: rest →
  ∀ i, i ∈ present (exited (drained s) next rest) ↔ i ≠ current s ∧ i ∈ present s.
Proof.
  intros Hq Hr i. unfold present. destruct (exited_shape (drained s) next rest) as [-> ->].
  assert (i ∈ ready s → i ≠ current s) as Hne by (intros Hi; apply (qk_ready _ _ Hq i Hi)).
  rewrite Hr in *. rewrite (elem_of_cons (next :: rest)). naive_solver.
Qed.

(** Another thread is ready whenever a worker runs. *)
Lemma worker_not_alone x :
  demo_inv x → current (tw_sched x.1) ≠ BOOTSTRAP_ID → ∃ next rest, ready (tw_sched x.1) = next :: rest.
Proof.
  intros [_ Hb _] Hc. unfold present in Hb. apply elem_of_cons in Hb as [|Hb]; [congruence|].
  destruct (ready (tw_sched x.1)) as [|next rest]; [by apply elem_of_nil in Hb|eauto].
Qed.

Lemma demo_step_inv x y : demo_inv x → Step x y → demo_inv y ∧ (measure y < measure x)%nat.
Proof.
  intros Hx Hst. pose proof Hx as [Hg Hb Hl]. destruct Hst as
    [w w1 w' left Hc Hn [Hcp _] Hy|w w1 w' left n Hc Hi [Hcp _] Hy
    |w w1 w' left scratch Hc Hi [Hcp _] S1 S2 S3 Hy];
    cbn [fst snd] in *; pose proof (good_computes _ _ Hg Hcp) as Hg1; pose proof (cp_sched _ _ _ _ _ _ _ _ _ _ _ Hcp) as Hs.
  - destruct (ready (tw_sched w)) as [|next rest] eqn:Hr; [unfold ready_count in Hn; rewrite Hr in Hn; done|].
    destruct (yield_rotates w1 next rest Hg1) as (w2 & Hy2 & Hg2 & Hs2); [by rewrite Hs|].
    rewrite Hy in Hy2. injection Hy2 as <-. rewrite Hs in Hs2.
    pose proof (present_rotated _ next rest Hr) as Hp. rewrite <- Hs2 in Hp.
    split; [split; [done|by apply Hp|intros i; by rewrite Hl, Hp]|].
    unfold measure. cbn [fst snd]. rewrite Hc, Hs2. cbn [rotated current].
    destruct Hg as [(live & sv & Hinv) _].
    destruct (qk_ready _ _ (ti_queue _ _ _ _ _ _ _ _ _ _ _ _ Hinv) next) as [Hne _]; [rewrite Hr; left|].
    rewrite Hc in Hne. rewrite (proj2 (Z.eqb_neq _ _) Hne). simpl. lia.
  - destruct (worker_not_alone _ Hx Hc) as (next & rest & Hr). cbn [fst] in Hr.
    destruct (yield_rotates w1 next rest Hg1) as (w2 & Hy2 & Hg2 & Hs2); [by rewrite Hs|].
    rewrite Hy in Hy2. injection Hy2 as <-. rewrite Hs in Hs2.
    pose proof (present_rotated _ next rest Hr) as Hp. rewrite <- Hs2 in Hp. split; [split|].
    + done.
    + by apply Hp.
    + intros i. cbn [fst snd]. rewrite Hp, <- Hl, lookup_insert_is_Some'.
      split; [intros [<-|?]; eauto|auto].
    + unfold measure. cbn [fst snd]. rewrite weight_insert, (weight_delete left _ _ Hi).
      rewrite (proj2 (Z.eqb_neq _ _) Hc). destruct (_ =? _); lia.
  - destruct (worker_not_alone _ Hx Hc) as (next & rest & Hr). cbn [fst] in Hr.
    destruct (exit_leaves w1 next rest scratch Hg1) as (w2 & Hy2 & Hg2 & Hs2); [by rewrite Hs|done..|].
    rewrite Hy in Hy2. injection Hy2 as <-. rewrite Hs in Hs2.
    destruct Hg as [(live & sv & Hinv) _].
    pose proof (present_exited _ next rest _ (ti_queue _ _ _ _ _ _ _ _ _ _ _ _ Hinv) Hr) as Hp.
    rewrite <- Hs2 in Hp. split; [split|].
    + done.
    + by apply Hp.
    + intros i. cbn [fst snd]. rewrite Hp, lookup_delete_is_Some, Hl. naive_solver.
    + unfold measure. cbn [fst snd]. rewrite (weight_delete left _ _ Hi).
      rewrite (proj2 (Z.eqb_neq _ _) Hc). destruct (_ =? _); lia.
Qed.

(** ** Progress *)

(** Moving the stack pointer is a computation. *)
Lemma computes_sp w sp :
  (8 | sp) → stack_lo boot_lo (tw_sched w) (current (tw_sched w)) + 56 <= sp →
  sp <= stack_hi boot_hi (tw_sched w) (current (tw_sched w)) →
  Computes w (with_mach (set_reg RSP sp (tw_mach w)) w).
Proof.
  intros H8 Hlo Hhi. assert (regs (set_reg RSP sp (tw_mach w)) RSP = sp) as Hsp by apply fn_lookup_insert.
  split; eauto. split; cbn [with_mach tw_mach tw_sched]; by rewrite Hsp.
Qed.

Lemma works_self w : Running w → Works w w.
Proof.
  intros Hr. split; [split; eauto|]. split; [|done]. exists (tick_count (tw_stats w)). by destruct (tw_stats w).
Qed.

(** A worker can always make room for the frame of [exit_thread]. *)
Lemma room_to_exit w :
  Good w → current (tw_sched w) ≠ BOOTSTRAP_ID →
  ∃ w1 scratch, Works w w1 ∧ (8 | scratch) ∧ regs (tw_mach w1) RSP <= scratch ∧
    scratch + 8 <= stack_hi boot_hi (tw_sched w1) (current (tw_sched w1)).
Proof.
  intros [(live & sv & Hinv) [R1 R2 R3]] Hc.
  destruct (valid_cases ctx_offset bootstrap_context boot_lo boot_hi (tw_sched w) _
    (ti_queue _ _ _ _ _ _ _ _ _ _ _ _ Hinv) (current (tw_sched w))
    (qk_current _ _ (ti_queue _ _ _ _ _ _ _ _ _ _ _ _ Hinv))) as [(? & _)|(t & _ & _ & _ & _ & _ & El & Eh)];
    [done|].
  destruct (decide (regs (tw_mach w) RSP + 8 <= stack_hi boot_hi (tw_sched w) (current (tw_sched w)))).
  - exists w, (regs (tw_mach w) RSP). split; [by apply works_self|]. split; [done|lia].
  - set (sp := regs (tw_mach w) RSP - 8). exists (with_mach (set_reg RSP sp (tw_mach w)) w), sp.
    assert (8 | sp) by (apply Z.divide_sub_r; [done|by exists 1]).
    split; [split; [apply computes_sp; [done|unfold sp; rewrite ?El, ?Eh in *; unfold STACK_SIZE in *; lia
      |unfold sp; lia]|split; [|done]; exists (tick_count (tw_stats w)); by destruct w as [? [] ? ? ?]]|].
    split; [done|]. cbn [with_mach tw_mach tw_sched set_reg regs]. rewrite fn_lookup_insert. unfold sp. lia.
Qed.

Lemma demo_progress x : demo_inv x → demo_done x ∨ ∃ y, Step x y.
Proof.
  intros Hx. pose proof Hx as [Hg Hb Hl]. destruct x as [w left]. cbn [fst snd] in *.
  destruct (decide (current (tw_sched w) = BOOTSTRAP_ID)) as [Hc|Hc].
  - destruct (ready (tw_sched w)) as [|next rest] eqn:Hr.
    { left. split; [done|]. unfold ready_count. cbn [fst]. by rewrite Hr. }
    right. destruct (yield_rotates w next rest Hg Hr) as (w' & Hy & _). exists (w', left).
    eapply step_loop; [done|unfold ready_count; rewrite Hr; simpl; lia|apply works_self, Hg|done].
  - right. destruct (worker_not_alone _ Hx Hc) as (next & rest & Hr). cbn [fst] in Hr.
    destruct (proj2 (Hl (current (tw_sched w)))) as [[|n] Hn]; [split; [done|left]|..].
    + destruct (room_to_exit w Hg Hc) as (w1 & scratch & Hcp & S1 & S2 & S3).
      destruct (exit_leaves w1 next rest scratch (good_computes _ _ Hg (proj1 Hcp))) as (w' & Hy & _); try done.
      { by rewrite (cp_sched _ _ _ _ _ _ _ _ _ _ _ (proj1 Hcp)). }
      eexists. by eapply step_exit.
    + destruct (yield_rotates w next rest Hg Hr) as (w' & Hy & _).
      eexists. eapply step_yield; [done|done|apply works_self, Hg|done].
Qed.

Lemma demo_run_inv x y n :
  demo_inv x → nsteps Step n x y → demo_inv y ∧ (n + measure y <= measure x)%nat.
Proof.
  intros Hx Hn. induction Hn as [x|n x y z Hst Hn IH]; [auto|].
  destruct (demo_step_inv x y Hx Hst) as [Hy ?]. destruct (IH Hy) as [? ?]. split; [done|lia].
Qed.

Lemma demo_done_empty x :
  demo_inv x → demo_done x →
  x.2 = ∅ ∧ threads (tw_sched x.1) = ∅ ∧ ready (tw_sched x.1) = [] ∧
  threads_alive (tw_stats x.1) = parked (tw_sched x.1).
Proof.
  intros [[(live & sv & Hinv) _] _ Hl] [Hc Hr]. pose proof Hinv as [_ _ Hq Ha _ _].
  assert (ready (tw_sched x.1) = []) as Hnil.
  { unfold ready_count in Hr. destruct (ready (tw_sched x.1)); [done|]. simpl in Hr. lia. }
  assert (threads (tw_sched x.1) = ∅) as Ht.
  { apply map_empty. intros i. destruct (threads (tw_sched x.1) !! i) as [t|] eqn:Hi; [|done].
    destruct (qk_all _ _ Hq i) as [->|Hin]; [eauto| |rewrite Hnil in Hin; by apply elem_of_nil in Hin].
    rewrite Hc, (bootstrap_untracked _ _ Hq) in Hi. done. }
  split_and!; [|done|done|].
  - apply map_empty. intros i. apply eq_None_not_Some. rewrite Hl. intros [Hne Hi]. unfold present in Hi.
    rewrite Hc, Hnil in Hi. by apply list_elem_of_singleton in Hi.
  - rewrite Ha, Ht, map_size_empty, Z.add_0_l. unfold parked. by destruct (reaper _).
Qed.

Lemma spawn_adds entry w id w' :
  Good w → tw_next_id w + 1 < u64_modulus →
  spawn_kernel alloc scribble ctx_offset entry w = Ok (id, w') →
  Good w' ∧ id = tw_next_id w ∧ tw_next_id w' = tw_next_id w + 1 ∧ 1 <= id ∧
  current (tw_sched w') = current (tw_sched w) ∧ ready (tw_sched w') = ready (tw_sched w) ++ [id].
Proof.
  intros Hg Hn Hsp. pose proof Hg as [(live & sv & Hinv) _].
  assert (Good w') as Hg' by
    (apply (step_good _ _ _ _ _ yield_ret exit_ret _ _ _ _ Hpl w w' Hg); left; by eapply quiet_spawn).
  unfold spawn_kernel in Hsp.
  destruct (spawn_spec _ _ _ _ _ _ _ _ _ Hpl entry KERNEL_PID w live sv Hinv Hn)
    as [He|(w1 & t & He & Hid & _ & _ & Hs & _ & _ & (Hnx & _) & _)]; [congruence|].
  rewrite Hsp in He. injection He as -> <-. rewrite Hs.
  split_and!; try done; [apply Hinv|]. simpl. by rewrite Hid.
Qed.

Lemma threading_spawn_inv w st :
  Good w → current (tw_sched w) = BOOTSTRAP_ID → ready (tw_sched w) = [] →
  tw_next_id w + 2 < u64_modulus →
  threading_spawn alloc scribble ctx_offset worker_a worker_b w = Ok st →
  demo_inv st ∧ measure st = 9%nat.
Proof.
  intros Hg Hc Hr Hn Hsp. unfold threading_spawn in Hsp.
  apply bind_inv in Hsp as ([a w1] & Ha & Hsp). apply bind_inv in Hsp as ([b w2] & Hb & Hsp).
  injection Hsp as <-.
  destruct (spawn_adds _ _ _ _ Hg ltac:(lia) Ha) as (Hg1 & Ea & En & Ha1 & Ec1 & Er1).
  destruct (spawn_adds _ _ _ _ Hg1 ltac:(lia) Hb) as (Hg2 & Eb & _ & Hb1 & Ec2 & Er2).
  assert (present (tw_sched w2) = [BOOTSTRAP_ID; a; b]) as Hp
    by (unfold present; by rewrite Er2, Er1, Hr, Ec2, Ec1, Hc).
  assert (a ≠ b) as Hab by lia. unfold BOOTSTRAP_ID in *.
  split; [split; cbn [fst snd]|].
  - done.
  - rewrite Hp. left.
  - intros i. unfold BOOTSTRAP_ID. rewrite Hp, lookup_insert_is_Some', lookup_singleton_is_Some, !elem_of_cons.
    split; [intros [<-|<-]; split; auto; lia|].
    intros [Hi [?|[->|[->|Hi']]]]; auto; [done|by apply elem_of_nil in Hi'].
  - unfold measure. cbn [fst snd]. rewrite Ec2, Ec1, Hc, weight_insert.
    rewrite delete_id by (by rewrite lookup_singleton_ne).
    unfold weight. by rewrite map_to_list_singleton.
Qed.

Lemma threading_spawn_total w :
  Good w → tw_next_id w + 2 < u64_modulus →
  threading_spawn alloc scribble ctx_offset worker_a worker_b w = Panic "memory allocation failed" ∨
  ∃ st, threading_spawn alloc scribble ctx_offset worker_a worker_b w = Ok st.
Proof.
  intros Hg Hn. unfold threading_spawn.
  assert (∀ w entry, Good w → tw_next_id w + 1 < u64_modulus →
    spawn_kernel alloc scribble ctx_offset entry w = Panic "memory allocation failed" ∨
    ∃ id w', spawn_kernel alloc scribble ctx_offset entry w = Ok (id, w')) as Hs.
  { intros w0 entry [(live & sv & Hinv) _] Hn0. unfold spawn_kernel.
    destruct (spawn_spec _ _ _ _ _ _ _ _ _ Hpl entry KERNEL_PID w0 live sv Hinv Hn0)
      as [->|(w1 & t & -> & _)]; eauto. }
  destruct (Hs w worker_a Hg ltac:(lia)) as [->|(a & w1 & Ha)]; [by left|]. rewrite Ha. bstep.
  destruct (spawn_adds _ _ _ _ Hg ltac:(lia) Ha) as (Hg1 & _ & En & _).
  destruct (Hs w1 worker_b Hg1 ltac:(lia)) as [->|(b & w2 & ->)]; [by left|]. right. by eexists.
Qed.

End threading.

(** ** [userland_demo] *)

Section userland_demo.
Context (ctx_offset bootstrap_context yield_ret exit_ret scratch : Z).
Context {W E : Type}.
Context {Q : ArrayQueue} {C : OnceCell aq} {A : AtomicWaker W} {V : Volatile}.
Context {VL : VolatileLaws V} {P : Paging} {L : PagingLaws P}.
Context (user_walk : mapper → Z → option (Z * Z)).
Context (top kernel_cs isr_ret depth : Z) (handler_addr : Handler → Z) (report : list Z).
Context (user_code user_data : Z) (r_ss r_rsp r_cs r_rip : reg) (user_entry_fn : Z).
Context (boot_lo boot_hi plo : Z).
Context (Hring3 : ∀ m q, ring3 m q → user_walk m q = translate m q).
Context (Hpl : placement ctx_offset bootstrap_context HEAP_START (HEAP_START + HEAP_SIZE) boot_lo boot_hi).
Context (Hpp : priv_placement bootstrap_context HEAP_START (HEAP_START + HEAP_SIZE) boot_lo boot_hi plo top).
Context (Hroom : stack_room scratch top depth plo).
Context (Hregs : NoDup [RSP; r_ss; r_rsp; r_cs; r_rip]) (Hcode : faulted_in_ring3 user_code = true).

Abbreviation uworld := (uworld (W := W) (E := E)).
Abbreviation Tinv := (tinv Fixed.alloc Fixed.dealloc Fixed.scribble ctx_offset bootstrap_context
  HEAP_START (HEAP_START + HEAP_SIZE) boot_lo boot_hi).
Abbreviation Running := (running boot_lo boot_hi).
Abbreviation Ended := (ended ctx_offset bootstrap_context boot_lo boot_hi).
Abbreviation Host := (host_thread ctx_offset bootstrap_context yield_ret exit_ret scratch translate user_walk
  top kernel_cs isr_ret depth handler_addr report user_code user_data r_ss r_rsp r_cs r_rip
  (W := W) (E := E)).
Abbreviation Drive := (drive ctx_offset bootstrap_context yield_ret exit_ret scratch translate user_walk
  top kernel_cs isr_ret depth handler_addr report user_code user_data r_ss r_rsp r_cs r_rip user_entry_fn
  (W := W) (E := E)).
Abbreviation Process := (run_process ctx_offset bootstrap_context yield_ret exit_ret scratch translate
  user_walk top kernel_cs isr_ret depth handler_addr report user_code user_data r_ss r_rsp r_cs r_rip
  user_entry_fn (W := W) (E := E)).
Abbreviation Demo := (userland_demo ctx_offset bootstrap_context yield_ret exit_ret scratch translate
  user_walk top kernel_cs isr_ret depth handler_addr report user_code user_data r_ss r_rsp r_cs r_rip
  user_entry_fn (W := W) (E := E)).

(** Writing to the running thread's own stack disturbs no suspended thread. *)
Lemma tinv_own_stack w live sv m :
  Tinv w live sv → Running w →
  (∀ j, j < regs (tw_mach w) RSP - 56 ∨ regs (tw_mach w) RSP <= j → mem m !! j = mem (tw_mach w) !! j) →
  Tinv (with_mach m w) live sv.
Proof.
  intros Hinv [R1 R2 R3] Hm. pose proof Hinv as [I1 I2 I3 I4 I5 I6]. split; try done.
  pose proof (ga_live _ _ _ _ I1) as Hlive. cbn [with_mach tw_sched tw_mach]. intros i Hi.
  destruct (I5 i Hi) as (c & Hc & Hh). exists c. split; [done|].
  destruct (qk_ready _ _ I3 i Hi) as [Hne Hv]. pose proof (qk_current _ _ I3) as Hcur.
  destruct (stacks_apart _ _ _ _ _ _ Hpl _ _ Hlive I2 _ I3 i _ Hv Hcur Hne) as [A1 _].
  pose proof (ctx_off_stack _ _ _ _ _ _ Hpl _ _ Hlive I2 _ I3 i _ Hv Hcur) as A2.
  pose proof Hh as [_ Hl _ _ _]. eapply holds_mono; [done| |exact Hh]. intros k Hk. apply Hm. lia.
Qed.

(** A program that ends by itself within eight steps, having written [out];
    [ok] is what it needs of the page tables. *)
Definition program_ends (program : list Z) (ok : mapper → Prop) (out : list Z) : Prop :=
  ∀ (w : uworld) live sv p next rest t n,
    launched ctx_offset bootstrap_context boot_lo boot_hi program p next rest t live sv w → ok (u_mapper w) →
    ∃ w', user_run ctx_offset bootstrap_context yield_ret exit_ret scratch translate user_walk top kernel_cs isr_ret
        depth handler_addr report (8 + n) w = Ok w' ∧
      shows (kw_console (u_kernel w')) (t_write_string out t) ∧
      Ended live p next rest (u_kernel w) (u_kernel w').

Lemma user_demo_ends : program_ends USER_DEMO (λ _, True) hello.
Proof.
  intros w live sv p next rest t n Hl _.
  exact (demo_program_runs ctx_offset bootstrap_context yield_ret exit_ret scratch user_walk top kernel_cs isr_ret depth
    handler_addr report Hring3 boot_lo boot_hi plo Hpl Hpp Hroom w live sv p next rest t n Hl).
Qed.

(** The write to the unmapped page, and the privileged instruction. *)
Lemma crash_demos_end program ok :
  (program = CRASH_PF_DEMO ∧ ∀ m, ok m → user_walk m 0x500000000000 = None) ∨ program = CRASH_GPF_DEMO →
  program_ends program ok report.
Proof.
  intros Hc w live sv p next rest t n Hl Hok.
  apply (crash_programs_end ctx_offset bootstrap_context yield_ret exit_ret scratch user_walk top kernel_cs isr_ret depth
    handler_addr report Hring3 boot_lo boot_hi plo Hpl Hpp Hroom w live sv p next rest t (6 + n) program Hl).
  destruct Hc as [[-> Hn]| ->]; [left; auto|by right].
Qed.

(** The kernel's threads when the demo starts: the bootstrap thread alone. *)
Record bootstrap_alone (w : uworld) (live : gmap Z Layout) (sv : gmap Z sctx) : Prop := {
  ba_tinv : Tinv (kw_threads (u_kernel w)) live sv;
  ba_running : Running (kw_threads (u_kernel w));
  ba_current : current (tw_sched (kw_threads (u_kernel w))) = BOOTSTRAP_ID;
  ba_ready : ready (tw_sched (kw_threads (u_kernel w))) = [];
  ba_next : tw_next_id (kw_threads (u_kernel w)) + 1 < u64_modulus;
}.

Abbreviation Threads w := (kw_threads (u_kernel w)).

Section process.
Context (program : list Z) (ok : mapper → Prop) (out : list Z) (Hends : program_ends program ok out).

(** The host thread of a process, from its entry to its end. *)
Lemma host_thread_ends w live sv p next rest t n pr :
  let k := u_kernel w in
  Tinv (kw_threads k) live sv → Running (kw_threads k) →
  ready (tw_sched (kw_threads k)) = next :: rest →
  current_process (tw_sched (kw_threads k)) = p → p ≠ KERNEL_PID →
  kw_procs k !! p = Some pr → user_entry pr = USER_CODE_BASE →
  loaded program w → ok (u_mapper w) → shows (kw_console k) t →
  ∃ w', Host (8 + n) w = Ok w' ∧
    shows (kw_console (u_kernel w')) (t_write_string out t) ∧ Ended live p next rest k (u_kernel w').
Proof.
  intros k Hinv Hrun Hr Hp Hp0 Hpr He Hl Hok Ht. pose proof Hinv as [I1 I2 I3 _ _ _].
  pose proof (stack_bounds _ _ _ _ _ _ Hpl _ _ (ga_live _ _ _ _ I1) I2 _ I3 _ (qk_current _ _ I3)) as B.
  pose proof Hrun as [R1 R2 R3].
  destruct (user_thread_entry_spec ctx_offset bootstrap_context yield_ret exit_ret scratch
    user_code user_data r_ss r_rsp r_cs r_rip k pr Hregs R1) as (m & Hentry & E1 & _ & E3 & _ & _ & Hm);
    [lia|by rewrite Hp|].
  unfold host_thread. fold k. rewrite Hentry. bstep.
  destruct (Hends (with_kernel (with_threads (with_mach m (kw_threads k)) k) w) live sv p next rest t n)
    as (w' & Hrun' & Hs & Hend); [|done|].
  - split; try done.
    + by apply loaded_kernel.
    + unfold mach. cbn. by rewrite E1.
    + unfold mach. cbn. by rewrite E3.
    + apply (tinv_own_stack (kw_threads k)); [done|done|]. intros j Hj. apply Hm. lia.
  - exists w'. split; [done|]. split; [done|]. by eapply ended_eq, Hend.
Qed.

(** The host thread as the scheduler sees it: spawned on an empty queue,
    switched to, gone, and reaped. *)
Lemma host_blocks (s : ThreadScheduler) (live : gmap Z Layout) t :
  live !! kt_stack t = None → live !! kt_box t = None →
  delete (kt_box t) (delete (kt_stack t)
    (freed (spawned s t) (<[kt_box t := box_layout]> (<[kt_stack t := stack_layout]> live)))) = freed s live.
Proof.
  intros H1 H2. apply map_eq. intros i. unfold freed, spawned. cbn [reaper].
  destruct (reaper s); rewrite !lookup_delete, !lookup_insert; repeat case_decide; subst; done.
Qed.

Lemma host_scheduled (s : ThreadScheduler) n t :
  queue_ok s n → 1 <= n → kt_id t = n → current s = BOOTSTRAP_ID → ready s = [] →
  let s1 := rotated (drained (spawned s t)) n [] in
  let s2 := exited (drained s1) BOOTSTRAP_ID [] in
  ready s1 = [BOOTSTRAP_ID] ∧ current_process s1 = kt_process t ∧ threads s1 !! n = Some t ∧
  reaper s2 = Some t ∧ drained s2 = mkTS (threads s) [] BOOTSTRAP_ID None.
Proof.
  intros Hq Hn Hid Hc Hr s1 s2. destruct (fresh_id s n Hq Hn) as (F1 & _).
  assert (n ≠ BOOTSTRAP_ID) as Hne by (unfold BOOTSTRAP_ID; lia).
  assert (threads s1 !! n = Some t) as Ht by (unfold s1; simpl; rewrite Hid; apply lookup_insert_eq).
  split; [unfold s1; simpl; by rewrite Hc|]. split.
  { unfold current_process. change (current s1) with n. by rewrite (proj2 (Z.eqb_neq _ _) Hne), Ht. }
  split; [done|]. unfold s2, exited. change (current (drained s1)) with n.
  rewrite (proj2 (Z.eqb_neq _ _) Hne). split; [done|]. unfold drained, s1. simpl.
  by rewrite Hid, delete_insert_id.
Qed.

(** The loop, once the host thread is spawned: switch to it, run it, and find
    the queue empty. *)
Lemma drive_ends w ts live sv t p pr term n :
  bootstrap_alone w live sv → p ≠ KERNEL_PID → kw_procs (u_kernel w) !! p = Some pr →
  user_entry pr = USER_CODE_BASE → loaded program w → ok (u_mapper w) → shows (kw_console (u_kernel w)) term →
  spawn Fixed.alloc Fixed.scribble ctx_offset user_entry_fn p (Threads w) = Ok (t, ts) →
  ∃ w' sv', Drive (10 + n) (with_kernel (with_threads ts (u_kernel w)) w) = Ok w' ∧
    shows (kw_console (u_kernel w')) (t_write_string out term) ∧
    kw_procs (u_kernel w') = delete p (kw_procs (u_kernel w)) ∧
    pcounts (tw_stats (Threads w')) = pcounts (tw_stats (kw_threads (exit p 0 (u_kernel w)).2)) ∧
    Running (Threads w') ∧ current (tw_sched (Threads w')) = BOOTSTRAP_ID ∧
    ready (tw_sched (Threads w')) = [] ∧
    drained (tw_sched (Threads w')) = mkTS (threads (tw_sched (Threads w))) [] BOOTSTRAP_ID None ∧
    ∃ live', Tinv (Threads w') live' sv' ∧
      freed (tw_sched (Threads w')) live' = freed (tw_sched (Threads w)) live.
Proof.
  intros [Hinv Hrun Hc Hr Hn] Hp Hpr He Hl Hok Ht Hsp. pose proof Hinv as [_ _ I3 _ _ I6].
  destruct (spawn_spec _ _ _ _ _ _ _ _ _ Hpl user_entry_fn p _ live sv Hinv Hn)
    as [Hx|(ts' & th & Hx & Hid & Hpid & _ & Hs & Hreg & _ & (Hnx & Hf1 & Hf2) & Hinv1)]; [congruence|].
  rewrite Hsp in Hx. injection Hx as -> <-. set (i := tw_next_id (Threads w)) in *.
  destruct (fresh_id _ _ I3 I6) as (_ & _ & F3). rewrite Hc in F3.
  assert (Running ts) as Hrun1 by (apply (spawn_running _ _ (Threads w) ts th); [done|done|rewrite Hid; congruence|done]).
  assert (ready (tw_sched ts) = [i]) as Hr1 by (rewrite Hs; simpl; by rewrite Hr, Hid).
  destruct (yield_now_spec _ _ _ _ _ yield_ret _ _ _ _ Hpl ts _ _ Hinv1 Hrun1) as (ts2 & Hy & Hrun2 & Hm).
  rewrite Hr1 in Hm. destruct Hm as (Hinv2 & Hs2 & c & Hci & Hres & _).
  rewrite lookup_insert_eq in Hci. injection Hci as <-. rewrite Hs in Hs2, Hinv2.
  destruct (host_scheduled _ i th I3 I6 Hid Hc Hr) as (Hr2 & Hcp & _ & Hrp & Hdr).
  rewrite <- Hs2 in Hr2, Hcp, Hrp, Hdr.
  destruct (host_thread_ends (with_kernel (with_threads ts2 (u_kernel w)) w) _ _ p BOOTSTRAP_ID [] term n pr
    Hinv2 Hrun2 Hr2) as (w3 & Hw3 & Hsh & [E1 E2 [sv3 E3] E4 E5]); try done; [exact (eq_trans Hcp Hpid)|by apply loaded_kernel|].
  cbn [with_kernel with_threads u_kernel kw_threads] in E1, E2, E3.
  destruct (exited_shape (drained (tw_sched ts2)) BOOTSTRAP_ID []) as [X1 X2]. rewrite <- E2 in X1, X2, Hrp, Hdr.
  exists w3, sv3. split; [|split; [done|split; [done|split; [|split; [done|split; [done|split; [done|split; [done|]]]]]]]].
  - change (10 + n)%nat with (S (S (S (7 + n)))). cbn [drive with_kernel with_threads u_kernel kw_threads].
    assert (current (tw_sched ts) = BOOTSTRAP_ID) as -> by (by rewrite Hs).
    assert (ready_count (tw_sched ts) = 1) as -> by (unfold ready_count; by rewrite Hr1).
    cbn [Z.eqb Z.ltb Z.compare]. rewrite Z.eqb_refl. unfold yield_user. cbn [with_kernel with_threads u_kernel kw_threads].
    rewrite Hy. bstep. cbn [with_kernel with_threads u_kernel kw_threads].
    assert (current (tw_sched ts2) = i) as -> by (by rewrite Hs2).
    rewrite (proj2 (Z.eqb_neq i _)) by congruence. rewrite (rs_rip _ _ Hres). cbn [sc_ra]. rewrite Z.eqb_refl.
    change (S (7 + n)) with (8 + n)%nat. setoid_rewrite Hw3. bstep. cbn [drive].
    rewrite X2, Z.eqb_refl. unfold ready_count. by rewrite X1.
  - rewrite E5. apply exit_counts_eq; [done|]. cbn [with_kernel with_threads u_kernel kw_threads].
    by rewrite (yield_now_pcounts _ _ _ _ _ _ Hy), (spawn_pcounts _ _ _ _ _ _ _ _ Hsp).
  - eexists. split; [exact E3|]. unfold freed at 1. rewrite Hrp. unfold freed at 1. rewrite Hs2. cbn [rotated drained reaper].
    by apply host_blocks.
Qed.

(** A process from its spawn to the reaped thread. *)
Lemma run_process_spec w live sv p pr term n :
  bootstrap_alone w live sv → p ≠ KERNEL_PID → kw_procs (u_kernel w) !! p = Some pr →
  user_entry pr = USER_CODE_BASE → loaded program w → ok (u_mapper w) → shows (kw_console (u_kernel w)) term →
  (Process (10 + n) p w = Panic "memory allocation failed" ∧
   spawn Fixed.alloc Fixed.scribble ctx_offset user_entry_fn p (Threads w) = Panic "memory allocation failed") ∨
  ∃ w' sv', Process (10 + n) p w = Ok w' ∧
    shows (kw_console (u_kernel w')) (t_write_string out term) ∧
    kw_procs (u_kernel w') = delete p (kw_procs (u_kernel w)) ∧
    pcounts (tw_stats (Threads w')) = pcounts (tw_stats (kw_threads (exit p 0 (u_kernel w)).2)) ∧
    tw_sched (Threads w') = mkTS (threads (tw_sched (Threads w))) [] BOOTSTRAP_ID None ∧
    Tinv (Threads w') (freed (tw_sched (Threads w)) live) sv' ∧ Running (Threads w').
Proof.
  intros Hba Hp Hpr He Hl Hok Ht. unfold run_process, spawn_user_thread.
  destruct (spawn Fixed.alloc Fixed.scribble ctx_offset user_entry_fn p (Threads w)) as [[t ts]|msg| |] eqn:Hsp.
  2-4: left; destruct (spawn_spec _ _ _ _ _ _ _ _ _ Hpl user_entry_fn p _ live sv (ba_tinv _ _ _ Hba)
    (ba_next _ _ _ Hba)) as [Hx|(ts' & th & Hx & _)]; rewrite Hsp in Hx; by simplify_eq/=.
  right. bstep. destruct (drive_ends w ts live sv t p pr term n Hba Hp Hpr He Hl Hok Ht Hsp)
    as (w2 & sv2 & -> & Hs & Hpr2 & Hcn & Hrun2 & Hc2 & Hr2 & Hd & live2 & Hinv2 & Hf).
  bstep. destruct (yield_now_spec _ _ _ _ _ yield_ret _ _ _ _ Hpl (Threads w2) live2 sv2 Hinv2 Hrun2)
    as (ts3 & Hy & Hrun3 & Hm). rewrite Hr2 in Hm. destruct Hm as (Hinv3 & _ & Hs3).
  unfold yield_user. rewrite Hy. bstep. eexists _, sv2. split; [reflexivity|].
  cbn [with_kernel with_threads u_kernel kw_threads kw_console kw_procs]. split; [done|]. split; [done|].
  split; [by rewrite (yield_now_pcounts _ _ _ _ _ _ Hy)|]. split; [by rewrite Hs3, Hd|]. split; [|done].
  by rewrite Hf in Hinv3.
Qed.
End process.

(** The kernel right after the process has been set up. *)
Lemma created_alone program w p w1 live sv :
  bootstrap_alone w live sv → process_set_up program w p w1 → bootstrap_alone w1 live sv.
Proof.
  intros [Hinv Hrun Hc Hr Hn] Hw1. pose proof (su_kernel _ _ _ _ Hw1) as Hk.
  destruct Hrun. split; rewrite Hk; try done. by apply tinv_counters.
Qed.

Lemma userland_demo_spec w live sv term n :
  bootstrap_alone w live sv → shows (kw_console (u_kernel w)) term →
  kw_next_pid (u_kernel w) ≠ KERNEL_PID → kw_procs (u_kernel w) !! kw_next_pid (u_kernel w) = None →
  (∃ e w', Demo (10 + n) w = Ok (inl e, w') ∧ u_kernel w' = u_kernel w) ∨
  Demo (10 + n) w = Panic "memory allocation failed" ∨
  ∃ w' sv', Demo (10 + n) w = Ok (inr (kw_next_pid (u_kernel w)), w') ∧
    shows (kw_console (u_kernel w')) (t_write_string hello term) ∧
    kw_procs (u_kernel w') = kw_procs (u_kernel w) ∧
    tw_sched (Threads w') = mkTS (threads (tw_sched (Threads w))) [] BOOTSTRAP_ID None ∧
    Tinv (Threads w') (freed (tw_sched (Threads w)) live) sv' ∧ Running (Threads w').
Proof.
  intros Hba Ht Hp Hfresh. unfold userland_demo, create_demo_process.
  destruct (create_process_spec ctx_offset bootstrap_context yield_ret exit_ret scratch USER_DEMO w)
    as (r & w1 & Hcr & Hw1). rewrite Hcr. bstep.
  destruct r as [e|p]; [left; eauto|right]. pose proof (created_loaded _ _ _ _ _ _ _ _ _ Hcr) as Hl.
  pose proof (created_alone _ _ _ _ _ _ Hba Hw1) as Hba1.
  pose proof (su_pid _ _ _ _ Hw1) as ->. pose proof (su_kernel _ _ _ _ Hw1) as Hk.
  set (p := kw_next_pid (u_kernel w)) in *.
  destruct (run_process_spec USER_DEMO (λ _, True) hello user_demo_ends w1 live sv p
    (mkProcess p None USER_CODE_BASE USER_STACK_TOP PReady) term n Hba1 Hp)
    as [[-> _]|(w2 & sv2 & -> & Hs & Hpr & _ & Hsc & Hinv & Hrun)]; try done; [..|by left|right].
  { rewrite Hk. apply lookup_insert_eq. }
  { by rewrite Hk. }
  bstep. exists w2, sv2. split; [done|]. split; [done|].
  split; [rewrite Hpr, Hk; simpl; by apply delete_insert_id|]. rewrite Hk in Hsc, Hinv. done.
Qed.

(** With frames for the process and heap for its thread, it does complete. *)
Lemma userland_demo_runs w live sv term n :
  bootstrap_alone w live sv → shows (kw_console (u_kernel w)) term →
  kw_next_pid (u_kernel w) ≠ KERNEL_PID → kw_procs (u_kernel w) !! kw_next_pid (u_kernel w) = None →
  (8 <= length (free_frames (u_frames w)))%nat →
  (∀ q, q = USER_CODE_BASE ∨ q = USER_STACK_BASE → translate (u_mapper w) q = None ∧ small (u_mapper w) q) →
  (∀ p ts, tw_heap ts = tw_heap (Threads w) →
     spawn Fixed.alloc Fixed.scribble ctx_offset user_entry_fn p ts ≠ Panic "memory allocation failed") →
  ∃ w', Demo (10 + n) w = Ok (inr (kw_next_pid (u_kernel w)), w') ∧
    shows (kw_console (u_kernel w')) (t_write_string hello term).
Proof.
  intros Hba Ht Hp Hfresh Hf Hq Hsp. unfold userland_demo, create_demo_process.
  destruct (create_process_succeeds ctx_offset bootstrap_context yield_ret exit_ret scratch USER_DEMO w)
    as (p & w1 & Hcr & Hw1); [done..|]. rewrite Hcr. bstep.
  pose proof (created_loaded _ _ _ _ _ _ _ _ _ Hcr) as Hl. pose proof (created_alone _ _ _ _ _ _ Hba Hw1) as Hba1.
  pose proof (su_pid _ _ _ _ Hw1) as ->. pose proof (su_kernel _ _ _ _ Hw1) as Hk.
  set (p := kw_next_pid (u_kernel w)) in *.
  destruct (run_process_spec USER_DEMO (λ _, True) hello user_demo_ends w1 live sv p
    (mkProcess p None USER_CODE_BASE USER_STACK_TOP PReady) term n Hba1 Hp)
    as [[_ Hx]|(w2 & sv2 & -> & Hs & _)]; try done.
  - rewrite Hk. apply lookup_insert_eq.
  - by rewrite Hk.
  - exfalso. revert Hx. apply Hsp. by rewrite Hk.
  - bstep. by exists w2.
Qed.

(** C7: the ring-3 demo as a whole.  Started on the bootstrap thread alone, it
    either reports an error with the kernel unchanged, or runs out of heap
    when it spawns the host thread, or completes: the process has printed its
    message and nothing else, the registry and the scheduler are as they were,
    and every heap block of the host thread is free again. *)
Theorem userland_demo_completes w live sv term n :
  bootstrap_alone w live sv → shows (kw_console (u_kernel w)) term →
  kw_next_pid (u_kernel w) ≠ KERNEL_PID → kw_procs (u_kernel w) !! kw_next_pid (u_kernel w) = None →
  (∃ e w', Demo (10 + n) w = Ok (inl e, w') ∧ u_kernel w' = u_kernel w) ∨
  Demo (10 + n) w = Panic "memory allocation failed" ∨
  ∃ w' sv', Demo (10 + n) w = Ok (inr (kw_next_pid (u_kernel w)), w') ∧
    shows (kw_console (u_kernel w')) (t_write_string hello term) ∧
    kw_procs (u_kernel w') = kw_procs (u_kernel w) ∧
    tw_sched (Threads w') = mkTS (threads (tw_sched (Threads w))) [] BOOTSTRAP_ID None ∧
    Tinv (Threads w') (freed (tw_sched (Threads w)) live) sv' ∧ Running (Threads w').
Proof. apply userland_demo_spec. Qed.
End userland_demo.

(** ** Witnesses *)

Abbreviation demo_threading := (threading_spawn Fixed.alloc Fixed.scribble 16 0x5000 0x5100).

Definition demo_workers : demo_state := value (demo_boot, ∅) (demo_threading demo_boot).

Abbreviation demo_turn := (demo_step Fixed.alloc Fixed.dealloc Fixed.scribble 16 0x1000 0x100 0x200
  HEAP_START (HEAP_START + HEAP_SIZE) 0x2000 0x4000).


Abbreviation demo_userland := (userland_demo 16 0x1000 0x100 0x200 0x7f80
  (@translate demo_paging demo_paging_laws) demo_user_walk 0x8000 8 0x500 256 (λ _, 0x600) hello
  0x33 0x2b RAX RCX RDX RBX 0x5000).

Lemma demo_alone : ∃ live sv, bootstrap_alone (P := demo_paging) 16 0x1000 0x2000 0x4000 demo_user live sv.
Proof.
  destruct (booted_good _ _ _ 16 0x1000 _ _ _ _ _ demo_booted) as [(live & sv & Hinv) Hrun].
  exists live, sv. by split.
Qed.

Lemma userland_demo_completes_witness :
  ∃ live w' sv', demo_userland 10 demo_user = Ok (inr 1, w') ∧
    shows (kw_console (u_kernel w')) (t_write_string hello demo_terminal) ∧
    kw_procs (u_kernel w') = ∅ ∧
    tw_sched (kw_threads (u_kernel w')) = ts_new ∧
    demo_tinv (kw_threads (u_kernel w')) live sv' ∧ running 0x2000 0x4000 (kw_threads (u_kernel w')).
Proof.
  destruct demo_alone as (live & sv & Halone). exists live.
  assert (result_of (demo_userland 10 demo_user) = Some (inr 1)) as Hr by (vm_compute; reflexivity).
  destruct (userland_demo_completes 16 0x1000 0x100 0x200 0x7f80 (VL := demo_volatile_laws)
    (L := demo_paging_laws) demo_user_walk 0x8000 8 0x500 256 (λ _, 0x600) hello 0x33 0x2b
    RAX RCX RDX RBX 0x5000 0x2000 0x4000 0x6000 demo_user_walk_ok demo_placement demo_priv demo_room
    ltac:(by_decide) eq_refl demo_user live sv demo_terminal 0 Halone demo_shows ltac:(done) eq_refl)
    as [(e & w' & He & _)|[He|(w' & sv' & He & H)]].
  - discriminate (eq_trans (eq_sym Hr) (f_equal result_of He)).
  - discriminate (eq_trans (eq_sym Hr) (f_equal result_of He)).
  - exists w', sv'. split; [exact He|exact H].
Defined.
