(* ===== verification/DemoHeap.v ===== *)
(** * [threading_demo] state by state

    With the scheduler as initialised, [threading_demo] goes through seven
    states of the scheduler, one after each switch, whatever the workers and
    the interrupts do in between; and with the heap as the smoke test leaves
    it, it is known which blocks are out in each of them.  So no [spawn] up to
    the end of the boot runs out of memory. *)

From Stdlib Require Import ZArith Lia.
From stdpp Require Import base gmap list strings numbers relations.
From S2P Require Import Prelude AllocMod FixedSizeBlock HeapProg HeapDemo Scheduler Machine Thread ThreadInv.
From S2P Require Import ThreadHeap ThreadThms Demos DemosThms.

Open Scope Z_scope.

(** The workers' threads on the heap after the smoke test. *)
Definition worker_blocks (r : Fixed.fref) (id : Z) : KernelThread :=
  let '(stack, box, _) := spawn_ref r in mkThread id KERNEL_PID box stack.

Definition ref_a : Fixed.fref := (spawn_ref sample_ref).2.
Definition thread_a : KernelThread := worker_blocks sample_ref 1.
Definition thread_b : KernelThread := worker_blocks ref_a 2.
Definition ref_ab : Fixed.fref := (spawn_ref ref_a).2.

Definition live_ab : gmap Z Layout := with_thread thread_b (with_thread thread_a ∅).

(** The scheduler and the calls the workers have left after each switch. *)
Definition stage (k : nat) : ThreadScheduler * gmap Z nat :=
  let both := <[2 := thread_b]> {[1 := thread_a]} in
  match k with
  | 0%nat => (mkTS both [1; 2] 0 None, <[2 := 1%nat]> {[1 := 1%nat]})
  | 1%nat => (mkTS both [2; 0] 1 None, <[2 := 1%nat]> {[1 := 1%nat]})
  | 2%nat => (mkTS both [0; 1] 2 None, <[2 := 1%nat]> {[1 := 0%nat]})
  | 3%nat => (mkTS both [1; 2] 0 None, <[2 := 0%nat]> {[1 := 0%nat]})
  | 4%nat => (mkTS both [2; 0] 1 None, <[2 := 0%nat]> {[1 := 0%nat]})
  | 5%nat => (mkTS {[2 := thread_b]} [0] 2 (Some thread_a), {[2 := 0%nat]})
  | _ => (mkTS ∅ [] 0 (Some thread_b), ∅)
  end.

(** The blocks out, and the reference: the first worker's blocks come back
    when the second one exits. *)
Definition stage_live (k : nat) : gmap Z Layout :=
  if (k <=? 5)%nat then live_ab else without_thread thread_a live_ab.

Definition stage_ref (k : nat) : Fixed.fref :=
  if (k <=? 5)%nat then ref_ab else drop_ref thread_a ref_ab.

Lemma stages_have_room :
  has_room sample_ref = true ∧ has_room ref_a = true ∧ has_room (stage_ref 6) = true.
Proof. vm_compute. done. Qed.

(** The blocks of the first worker are out. *)
Lemma thread_a_out :
  live_ab !! kt_stack thread_a = Some stack_layout ∧
  delete (kt_stack thread_a) live_ab !! kt_box thread_a = Some box_layout.
Proof. vm_compute. done. Qed.

(** From here on only the equations above matter. *)
#[local] Opaque sample_ref.

Section demo_heap.
Context (ctx_offset bootstrap_context yield_ret exit_ret boot_lo boot_hi worker_a worker_b : Z).
Context (Hpl : placement ctx_offset bootstrap_context HEAP_START (HEAP_START + HEAP_SIZE) boot_lo boot_hi).

Abbreviation Implements := (Fixed.implements HEAP_START (HEAP_START + HEAP_SIZE)).
Abbreviation State := (demo_state (H := Fixed.fworld)).
Abbreviation Step := (demo_step Fixed.alloc Fixed.dealloc Fixed.scribble ctx_offset bootstrap_context
  yield_ret exit_ret HEAP_START (HEAP_START + HEAP_SIZE) boot_lo boot_hi).
Abbreviation Inv := (demo_inv Fixed.alloc Fixed.dealloc Fixed.scribble ctx_offset bootstrap_context
  HEAP_START (HEAP_START + HEAP_SIZE) boot_lo boot_hi).
Abbreviation Good := (good Fixed.alloc Fixed.dealloc Fixed.scribble ctx_offset bootstrap_context
  HEAP_START (HEAP_START + HEAP_SIZE) boot_lo boot_hi).
Abbreviation Spawn := (threading_spawn Fixed.alloc Fixed.scribble ctx_offset worker_a worker_b).

Record at_stage (k : nat) (x : State) : Prop := {
  as_inv : Inv x;
  as_stage : (tw_sched x.1, x.2) = stage k;
  as_heap : Implements (tw_heap x.1) (stage_live k) (stage_ref k);
}.

(** ** The spawns *)

Lemma spawn_kernel_fits entry (w : tworld Fixed.fworld) live r :
  Good w → tw_next_id w + 1 < u64_modulus → Implements (tw_heap w) live r → has_room r = true →
  ∃ w', spawn_kernel Fixed.alloc Fixed.scribble ctx_offset entry w = Ok (tw_next_id w, w') ∧ Good w' ∧
    tw_next_id w' = tw_next_id w + 1 ∧
    tw_sched w' = spawned (tw_sched w) (worker_blocks r (tw_next_id w)) ∧
    Implements (tw_heap w') (with_thread (worker_blocks r (tw_next_id w)) live) (spawn_ref r).2.
Proof.
  intros Hg Hn Hi Hroom. pose proof Hg as [(lv & sv & Hinv) _].
  pose proof (has_room_fits ctx_offset entry KERNEL_PID w live r Hi Hroom) as Hfit.
  destruct (spawn_spec _ _ _ _ _ _ _ _ _ Hpl entry KERNEL_PID w lv sv Hinv Hn) as [E|(w' & t & E & _)]; [done|].
  destruct (spawn_adds Fixed.alloc Fixed.dealloc Fixed.scribble ctx_offset bootstrap_context yield_ret exit_ret
    HEAP_START (HEAP_START + HEAP_SIZE) boot_lo boot_hi Hpl entry w _ _ Hg Hn E) as (Hg' & _ & Hn' & _).
  exists w'. split; [exact E|]. split; [done|]. split; [done|].
  unfold has_room, worker_blocks in *. destruct (spawn_ref r) as [[stack box] r'] eqn:Hr.
  apply andb_prop in Hroom as [R1%negb_true_iff%Z.eqb_neq R2%negb_true_iff%Z.eqb_neq].
  by apply (spawn_ref_ok ctx_offset entry KERNEL_PID w live r stack box r' Hi Hr).
Qed.

Lemma threading_spawn_stage w :
  Good w → tw_sched w = ts_new → tw_next_id w = 1 → Implements (tw_heap w) ∅ sample_ref →
  ∃ st, Spawn w = Ok st ∧ at_stage 0 st.
Proof.
  intros Hg Hs Hn Hi. destruct stages_have_room as (R1 & R2 & _).
  destruct (spawn_kernel_fits worker_a w ∅ sample_ref Hg ltac:(by rewrite Hn) Hi R1) as (w1 & E1 & G1 & N1 & S1 & I1).
  rewrite Hn in *. change (1 + 1) with 2 in N1. fold ref_a thread_a in I1, S1.
  destruct (spawn_kernel_fits worker_b w1 _ ref_a G1 ltac:(by rewrite N1) I1 R2) as (w2 & E2 & G2 & N2 & S2 & I2).
  rewrite N1 in *. fold ref_ab thread_b live_ab in I2, S2. assert (Spawn w = Ok (w2, <[2 := worker_yields]> {[1 := worker_yields]})) as Hsp.
  { unfold threading_spawn. rewrite E1. bstep. by rewrite E2. }
  eexists. split; [exact Hsp|]. destruct (threading_spawn_inv Fixed.alloc Fixed.dealloc Fixed.scribble ctx_offset
    bootstrap_context yield_ret exit_ret HEAP_START (HEAP_START + HEAP_SIZE) boot_lo boot_hi worker_a worker_b Hpl w _
    Hg ltac:(by rewrite Hs) ltac:(by rewrite Hs) ltac:(by rewrite Hn) Hsp) as [Hinv _].
  split; [done| |exact I2]. cbn [fst snd]. by rewrite S2, S1, Hs.
Qed.

(** ** The switches *)

Abbreviation Works := (works Fixed.alloc Fixed.dealloc Fixed.scribble ctx_offset bootstrap_context
  HEAP_START (HEAP_START + HEAP_SIZE) boot_lo boot_hi).

Lemma works_good w w1 : Good w → Works w w1 → Good w1 ∧ tw_sched w1 = tw_sched w ∧ tw_heap w1 = tw_heap w.
Proof.
  intros Hg (Hc & _ & Hh). split; [by eapply good_computes|]. split; [|done].
  by apply (cp_sched _ _ _ _ _ _ _ _ _ _ _ Hc).
Qed.

Lemma yield_stage w w1 w' next rest live r :
  Good w → Works w w1 → yield_now Fixed.dealloc ctx_offset bootstrap_context yield_ret w1 = Ok w' →
  ready (tw_sched w) = next :: rest → reaper (tw_sched w) = None → Implements (tw_heap w) live r →
  tw_sched w' = rotated (drained (tw_sched w)) next rest ∧ Implements (tw_heap w') live r.
Proof.
  intros Hg Hw Hy Hr Hn Hi. destruct (works_good w w1 Hg Hw) as (Hg1 & Hs1 & Hh1).
  destruct (yield_rotates Fixed.alloc Fixed.dealloc Fixed.scribble ctx_offset bootstrap_context yield_ret
    HEAP_START (HEAP_START + HEAP_SIZE) boot_lo boot_hi Hpl w1 next rest Hg1) as (w2 & Hy2 & _ & Hs2); [by rewrite Hs1|].
  rewrite Hy in Hy2. injection Hy2 as <-. split; [by rewrite Hs2, Hs1|].
  destruct (yield_drains _ _ _ _ _ Hy) as (w3 & Hd & ->). rewrite <- Hh1 in Hi.
  pose proof (drain_ref _ _ _ _ Hi Hd) as H. rewrite Hs1, Hn in H. by rewrite H.
Qed.

Lemma exit_stage w w1 w' scratch next rest live r :
  Good w → Works w w1 → exit_thread Fixed.dealloc ctx_offset bootstrap_context exit_ret scratch w1 = Ok w' →
  (8 | scratch) → regs (tw_mach w1) RSP <= scratch →
  scratch + 8 <= stack_hi boot_hi (tw_sched w1) (current (tw_sched w1)) →
  ready (tw_sched w) = next :: rest → Implements (tw_heap w) live r →
  tw_sched w' = exited (drained (tw_sched w)) next rest ∧
  match reaper (tw_sched w) with
  | None => Implements (tw_heap w') live r
  | Some t => live !! kt_stack t = Some stack_layout → delete (kt_stack t) live !! kt_box t = Some box_layout →
      Implements (tw_heap w') (without_thread t live) (drop_ref t r)
  end.
Proof.
  intros Hg Hw Hy S1 S2 S3 Hr Hi. destruct (works_good w w1 Hg Hw) as (Hg1 & Hs1 & Hh1).
  destruct (exit_leaves Fixed.alloc Fixed.dealloc Fixed.scribble ctx_offset bootstrap_context exit_ret
    HEAP_START (HEAP_START + HEAP_SIZE) boot_lo boot_hi Hpl w1 next rest scratch Hg1) as (w2 & Hy2 & _ & Hs2); [by rewrite Hs1|done..|].
  rewrite Hy in Hy2. injection Hy2 as <-. split; [by rewrite Hs2, Hs1|].
  destruct (exit_drains _ _ _ _ _ _ Hy) as (w3 & Hd & ->). rewrite <- Hh1 in Hi.
  pose proof (drain_ref _ _ _ _ Hi Hd) as H. rewrite Hs1 in H. destruct (reaper (tw_sched w)); [done|by rewrite H].
Qed.

Lemma stage_step k x y : at_stage k x → Step x y → (k <= 5)%nat ∧ at_stage (S k) y.
Proof.
  intros [Hinv Hst Hh] Hstep.
  destruct (demo_step_inv Fixed.alloc Fixed.dealloc Fixed.scribble ctx_offset bootstrap_context yield_ret exit_ret
    HEAP_START (HEAP_START + HEAP_SIZE) boot_lo boot_hi Hpl x y Hinv Hstep) as [Hinv' _].
  pose proof (di_good _ _ _ _ _ _ _ _ _ _ Hinv) as Hg.
  cut ((k <= 5)%nat ∧ (tw_sched y.1, y.2) = stage (S k) ∧
    Implements (tw_heap y.1) (stage_live (S k)) (stage_ref (S k))); [intros (? & ? & ?); split; [done|by split]|].
  clear Hinv Hinv'. destruct Hstep as [w w1 w' left Hc Hn Hw Hy|w w1 w' left n Hc Hi Hw Hy
    |w w1 w' left scratch Hc Hi Hw S1 S2 S3 Hy]; cbn [fst snd] in *;
    destruct k as [|[|[|[|[|[|k]]]]]]; injection Hst as Hs Hl; rewrite ?Hs, ?Hl in *; try (by vm_compute in Hi);
    try done; (split; [lia|]).
  1-2: destruct (yield_stage w w1 w' 1 [2] _ _ Hg Hw Hy ltac:(by rewrite Hs) ltac:(by rewrite Hs) Hh) as [Hs' Hh'];
    rewrite Hs', Hs; done.
  - destruct (yield_stage w w1 w' 2 [0] _ _ Hg Hw Hy ltac:(by rewrite Hs) ltac:(by rewrite Hs) Hh) as [-> Hh'].
    vm_compute in Hi. injection Hi as <-. by rewrite Hs.
  - destruct (yield_stage w w1 w' 0 [1] _ _ Hg Hw Hy ltac:(by rewrite Hs) ltac:(by rewrite Hs) Hh) as [-> Hh'].
    vm_compute in Hi. injection Hi as <-. by rewrite Hs.
  - destruct (exit_stage w w1 w' scratch 2 [0] _ _ Hg Hw Hy S1 S2 S3 ltac:(by rewrite Hs) Hh) as [-> Hh'].
    rewrite Hs in *. split; [reflexivity|exact Hh'].
  - destruct (exit_stage w w1 w' scratch 0 [] _ _ Hg Hw Hy S1 S2 S3 ltac:(by rewrite Hs) Hh) as [-> Hh'].
    rewrite Hs in *. destruct thread_a_out. split; [reflexivity|by apply Hh'].
Qed.

Lemma stage_done k x : at_stage k x → demo_done x → (6 <= k)%nat.
Proof.
  intros [_ Hst _] [Hc Hr]. destruct k as [|[|[|[|[|[|k]]]]]]; injection Hst as Hs _; rewrite Hs in *; first [done|lia].
Qed.
End demo_heap.
