(* ===== verification/Boot.v ===== *)
(** * Boot

    The part of [kernel_main] in src/src/main.rs that brings up the CPU and
    memory: [init] of src/src/lib.rs with [gdt::init] and [init_idt],
    [create_example_mapping] of src/src/memory.rs, and [init_heap]. *)

From Stdlib Require Import ZArith Lia.
From stdpp Require Import base gmap list strings numbers.
From S2P Require Import Prelude AllocMod FreeList LinkedList FixedSizeBlock Machine Scheduler Thread.
From S2P Require Import Libs Keyboard Vga Kernel Paging Gdt Interrupts.

Open Scope Z_scope.

(** ** [apogee::init] *)

(** The descriptor-table registers, the segment registers [init] writes, and
    the interrupt flag. *)
Record cpu {G : GdtApi} {PIC : ChainedPics} := mkCpu {
  gdtr : option gdt_table;
  c_cs : Z;
  tr : Z;
  idtr : option (gmap Z Gate);
  c_pics : pics;
  c_if : bool;
}.

Section init.
Context {G : GdtApi} {PIC : ChainedPics}.

(** [gdt::init]; loading a selector that is not in the table faults. *)
Definition gdt_init (c : cpu) : outcome cpu :=
  '(t, s) ← GDT;
  Ok (mkCpu G PIC (Some t) (kernel_code s) (tss_selector s) (idtr c) (c_pics c) (c_if c)).

Definition init_idt (c : cpu) : outcome cpu :=
  Ok (mkCpu G PIC (gdtr c) (c_cs c) (tr c) (Some IDT) (c_pics c) (c_if c)).

Definition init_pics (c : cpu) : outcome cpu :=
  Ok (mkCpu G PIC (gdtr c) (c_cs c) (tr c) (idtr c) (pics_initialize (c_pics c)) (c_if c)).

Definition enable_interrupts (c : cpu) : outcome cpu :=
  Ok (mkCpu G PIC (gdtr c) (c_cs c) (tr c) (idtr c) (c_pics c) true).

(** The calls of [init], in order. *)
Definition init_steps : list (cpu → outcome cpu) := [gdt_init; init_idt; init_pics; enable_interrupts].

Fixpoint run_steps (steps : list (cpu → outcome cpu)) (c : cpu) : outcome cpu :=
  match steps with
  | [] => Ok c
  | f :: steps => c ← f c; run_steps steps c
  end.

Definition init : cpu → outcome cpu := run_steps init_steps.
End init.

(** ** Memory *)

Section memory.
Context {P : Paging}.

Definition create_example_mapping (page : Z) (m : mapper) (f : frames) : outcome (mapper * frames) :=
  let frame := 0xb8000 in
  let flags := Z.lor PRESENT WRITABLE in
  match map_to m f page frame flags with
  | (Some _, _, _) => Panic "map_to failed"
  | (None, m, f) => Ok (m, f)
  end.

(** [kernel_main] between the page table and the banner. *)
Definition boot_memory (m : mapper) (f : frames) (heap : Fixed.fworld)
  : outcome (mapper * frames * Fixed.fworld) :=
  zero ← virt_addr_new 0;
  let page := page_containing zero in
  '(m, f) ← create_example_mapping page m f;
  '(r, m, f, heap) ← init_heap m f heap;
  match r with
  | Some _ => Panic "heap initialization failed"
  | None => Ok (m, f, heap)
  end.
End memory.

(** ** Theorems *)

Lemma init_ok {G : GdtApi} {L : GdtLaws G} {PIC : ChainedPics} (c : cpu) :
  ∃ c2, init c = Ok c2 ∧ c_if c2 = true ∧ idtr c2 = Some IDT ∧ c_pics c2 = pics_initialize (c_pics c).
Proof.
  destruct GDT_ok as [t Ht]. unfold init, init_steps. cbn [run_steps]. unfold gdt_init at 1.
  rewrite Ht. by eexists.
Qed.

(** [init] sets up the CPU, and in the right order: whatever prefix of it
    has run, interrupts are on only if the descriptor tables, the task
    state segment and the interrupt controllers are, so no interrupt finds the
    CPU without a handler. *)
Theorem init_order {G : GdtApi} {L : GdtLaws G} {PIC : ChainedPics} (c : cpu) n c' :
  c_if c = false → run_steps (take n init_steps) c = Ok c' →
  (c_if c' = true → is_Some (gdtr c') ∧ c_cs c' = 0x08 ∧ tr c' = 0x18 ∧
     idtr c' = Some IDT ∧ c_pics c' = pics_initialize (c_pics c)) ∧
  ∃ c2, init c = Ok c2 ∧ c_if c2 = true.
Proof.
  intros Hif Hr. split; [|destruct (init_ok c) as (c2 & ? & ? & _); eauto]. destruct GDT_ok as [t Ht].
  unfold init_steps in Hr. destruct n as [|[|[|[|n]]]]; cbn [take run_steps] in Hr;
    [|unfold gdt_init at 1 in Hr; rewrite Ht in Hr..]; cbn in Hr;
    [injection Hr as <-; congruence|injection Hr as <-; simpl; congruence..|].
  replace (take n []) with (@nil (cpu → outcome cpu)) in Hr by (by destruct n).
  injection Hr as <-. simpl. eauto.
Qed.

(** Memory after boot.  With page zero and the heap's pages unmapped and
    enough distinct frames free, boot gets through: page zero shows the text
    buffer, every heap page has a frame of its own, and the allocator owns the
    whole heap with nothing handed out. *)
Lemma boot_memory_ready {P : Paging} {L : PagingLaws P} m f mem0 :
  NoDup (free_frames f) → (103 <= length (free_frames f))%nat →
  (∀ p, p = 0 ∨ p ∈ heap_pages → translate m p = None ∧ small m p) →
  ∃ m' f' w' fs, boot_memory m f (Fixed.mkFW Fixed.empty mem0) = Ok (m', f', w') ∧
    translate m' 0 = Some (0xb8000, Z.lor PRESENT WRITABLE) ∧
    length fs = 25%nat ∧ NoDup fs ∧ (∀ a, a ∈ fs → a ∈ free_frames f) ∧
    (∀ i a, fs !! i = Some a →
       translate m' (HEAP_START + 4096 * Z.of_nat i) = Some (a, Z.lor PRESENT WRITABLE)) ∧
    (∀ q, q ≠ 0 → q ∉ heap_pages → translate m' q = translate m q) ∧
    Fixed.implements HEAP_START (HEAP_START + HEAP_SIZE) w' ∅ (Fixed.ref_init HEAP_START HEAP_SIZE).
Proof.
  intros Hnd Hl Hp. unfold boot_memory. rewrite virt_addr_new_ok by lia. bstep.
  rewrite page_containing_ok by lia. change (0 - 0 mod 4096) with 0. unfold create_example_mapping.
  destruct (Hp 0 (or_introl eq_refl)) as [H0 H0s].
  pose proof (map_to_ok m f 0 0xb8000 (Z.lor PRESENT WRITABLE)) as Hr.
  pose proof (map_result_success _ _ _ _ _ _ _ Hr H0 H0s ltac:(lia)) as Hok.
  destruct Hr as [(n & Hn & Hff) Hsm _ He].
  destruct (map_to m f 0 0xb8000 (Z.lor PRESENT WRITABLE)) as [[e m1] f1]. cbn [fst snd] in *.
  subst e. bstep. destruct He as (_ & He & _).
  assert (0 ∉ heap_pages) as Hnz by by_decide.
  destruct (init_heap_succeeds m1 f1 mem0) as (m' & f' & w' & fs & -> & Hfl & Hfn & Hfi & Hft & Ho & Hga).
  - rewrite Hff. by eapply sublist_NoDup, sublist_drop.
  - rewrite Hff, length_drop. lia.
  - intros p Hin. destruct (Hp p (or_intror Hin)) as [Hp1 Hp2]. split; [|auto].
    rewrite He. destruct (p =? 0) eqn:E; [|done]. apply Z.eqb_eq in E as ->. done.
  - bstep. exists m', f', w', fs. split_and!; try done.
    + by rewrite Ho, He.
    + intros a Ha. apply Hfi in Ha. rewrite Hff in Ha. rewrite <- (take_drop n (free_frames f)).
      apply elem_of_app. by right.
    + intros q Hq Hqh. rewrite Ho, He by done. by rewrite (proj2 (Z.eqb_neq q 0)).
Qed.

(** What boot costs: at most three frames for the example mapping and four for
    each page of the heap. *)
Lemma boot_memory_cost {P : Paging} {L : PagingLaws P} m f h m' f' h' :
  boot_memory m f h = Ok (m', f', h') →
  (∀ q, small m q → small m' q) ∧ (length (free_frames f) <= length (free_frames f') + 103)%nat.
Proof.
  unfold boot_memory. rewrite virt_addr_new_ok by lia. bstep. unfold create_example_mapping. intros Hb.
  apply bind_inv in Hb as ([m1 f1] & He & Hb). apply bind_inv in Hb as ([[[r m2] f2] h2] & Hi & Hb).
  destruct r; [done|]. injection Hb as <- <- <-. destruct (init_heap_cost _ _ _ _ _ _ Hi) as [S2 L2].
  set (page := page_containing 0) in *.
  destruct (map_to_ok m f page 0xb8000 (Z.lor PRESENT WRITABLE)) as [(n & Hn & Hf) Hs _ _].
  destruct (map_to m f page 0xb8000 (Z.lor PRESENT WRITABLE)) as [[[e|] m3] f3]; [done|]. injection He as <- <-.
  cbn [fst snd] in *. split; [auto|]. rewrite Hf, length_drop in L2. lia.
Qed.

(** ** Witnesses *)

Definition demo_reset : cpu (G := demo_gdt) (PIC := demo_pics) :=
  mkCpu demo_gdt demo_pics None 0 0 None [] false.

Lemma init_order_witness :
  ∃ c', run_steps (take 4 init_steps) demo_reset = Ok c' ∧ c_if c' = true ∧
    (c_if c' = true → is_Some (gdtr c') ∧ c_cs c' = 0x08 ∧ tr c' = 0x18 ∧
       idtr c' = Some IDT ∧ c_pics c' = pics_initialize (c_pics demo_reset)).
Proof.
  eexists. split; [reflexivity|]. split; [reflexivity|].
  apply (init_order (L := demo_gdt_laws) demo_reset 4).
  - reflexivity.
  - reflexivity.
Defined.

Definition demo_boot_frames : list Z := (λ i, 0x100000 + 4096 * Z.of_nat i) <$> seq 0 110.

Lemma boot_memory_ready_witness :
  ∃ m' f' w' fs, boot_memory (P := demo_paging) ∅ demo_boot_frames (Fixed.mkFW Fixed.empty ∅) = Ok (m', f', w') ∧
    m' !! 0 = Some (0xb8000, Z.lor PRESENT WRITABLE) ∧
    length fs = 25%nat ∧ NoDup fs ∧ (∀ a, a ∈ fs → a ∈ demo_boot_frames) ∧
    (∀ i a, fs !! i = Some a →
       m' !! (HEAP_START + 4096 * Z.of_nat i) = Some (a, Z.lor PRESENT WRITABLE)) ∧
    (∀ q, q ≠ 0 → q ∉ heap_pages → m' !! q = (∅ : gmap Z (Z * Z)) !! q) ∧
    Fixed.implements HEAP_START (HEAP_START + HEAP_SIZE) w' ∅ (Fixed.ref_init HEAP_START HEAP_SIZE).
Proof.
  apply (boot_memory_ready (L := demo_paging_laws) ∅ demo_boot_frames ∅).
  - by_decide.
  - simpl. lia.
  - done.
Defined.
