(* ===== verification/Main.v ===== *)
(** * The kernel's main function

    [kernel_main] and [print_banner] of src/src/main.rs, on top of the other
    files: the descriptor tables and interrupts (Boot.v), the page tables and
    the frame allocator (FramePaging.v), the heap (Paging.v), the console
    (Vga.v), the demos (HeapDemo.v, Demos.v), and the executor with its two
    startup tasks (Startup.v). *)

From Stdlib Require Import ZArith Lia.
From stdpp Require Import base gmap list strings numbers relations.
From S2P Require Import Prelude Fmt AllocMod FixedSizeBlock HeapProg HeapDemo FrameAlloc Scheduler Machine Thread.
From S2P Require Import Libs Keyboard Executor ExecLoop Vga Paging FramePaging Gdt Kernel Userland Syscall.
From S2P Require Import Interrupts Startup UserExec Demos Boot.

Open Scope Z_scope.

(** ** The banner *)

Definition BANNER_ART : string :=
  "
 ________  ________  ________  ________  _______   _______      
|\   __  \|\   __  \|\   __  \|\   ____\|\  ___ \ |\  ___ \     
\ \  \|\  \ \  \|\  \ \  \|\  \ \  \___|\ \   __/|\ \   __/|    
 \ \   __  \ \   ____\ \  \\\  \ \  \  __\ \  \_|/_\ \  \_|/__  
  \ \  \ \  \ \  \___|\ \  \\\  \ \  \|\  \ \  \_|\ \ \  \_|\ \ 
   \ \__\ \__\ \__\    \ \_______\ \_______\ \_______\ \_______\
    \|__|\|__|\|__|     \|_______|\|_______|\|_______|\|_______|
".

(** [println!]: the pieces of the message and a newline. *)
Definition println (pieces : list (list Z)) : console_op := OPrint (pieces ++ [newline]).

(** The boot information: the regions of the memory map, the offset at which
    physical memory is mapped. *)
Record BootInfo {api : PhysApi} := mkInfo {
  bi_map : list MemoryRegion;
  physical_memory_offset : Z;
}.

Definition print_banner {api : PhysApi} (boot_info : BootInfo) : list console_op :=
  let PAGE_SIZE := 4096 in
  let heap_kib := HEAP_SIZE / 1024 in
  let heap_pages := HEAP_SIZE / PAGE_SIZE in
  let memory_regions := Z.of_nat (length (bi_map boot_info)) in
  [ OSetColor Brown Black;
    println [bytes BANNER_ART];
    println [bytes "apogee x86_64 kernel"];
    OResetColor;
    println [];
    println [bytes "> heap storage: "; fmt_dec heap_kib; bytes " KiB ("; fmt_dec heap_pages; bytes " pages)"];
    println [bytes "> heap start: "; fmt_hex HEAP_START; bytes "  phys offset: ";
             fmt_hex (physical_memory_offset boot_info)];
    println [bytes "> memory map: "; fmt_dec memory_regions; bytes " regions  paging: enabled"];
    println [bytes "> allocator: fixed-size blocks  async executor: ready"];
    println [] ].

(** ** [kernel_main] *)

Section main.
Context {G : GdtApi} {PIC : ChainedPics} {IO : PortIo}.
Context {Q : ArrayQueue} {C : OnceCell aq} {A : AtomicWaker TaskWaker} {K : KeyDecoder} {V : Volatile}.
Context {api : PhysApi} {laws : PhysLaws api} {M : MapperApi}.
(** Placement of code and data, and the MMU, as in Demos.v. *)
Context (ctx_offset bootstrap_context yield_ret exit_ret scratch : Z).
Context (lo hi boot_lo boot_hi worker_a worker_b : Z).
Context (walk user_walk : page_tables → Z → option (Z * Z)).
Context (top kernel_cs isr_ret depth : Z) (handler_addr : Handler → Z) (report : list Z).
Context (user_code user_data : Z) (r_ss r_rsp r_cs r_rip : reg) (user_entry_fn : Z).
(** The physical address in CR3. *)
Context (cr3 : Z).

#[local] Existing Instance monotonic_paging.

Abbreviation kworld := (kworld (W := TaskWaker) (E := list Z)).
Abbreviation uworld := (uworld (W := TaskWaker) (E := list Z)).
Abbreviation demo_state := (demo_state (H := Fixed.fworld)).

(** What the bootloader hands over: the CPU, the kernel's statics, physical
    memory, the ports. *)
Record boot_state := mkBoot {
  b_cpu : cpu;
  b_kernel : kworld;
  b_ram : Z → Z;
  b_io : io;
}.

Definition with_heap_of (h : Fixed.fworld) (k : kworld) : kworld :=
  with_threads (with_heap h (kw_threads k)) k.

(** Up to [threading_demo]. *)
Definition bring_up (boot_info : BootInfo) (Hmap : map_ok (bi_map boot_info)) (b : boot_state)
  : outcome (cpu * uworld) :=
  let k := b_kernel b in
  c ← Boot.init (b_cpu b);
  phys_mem_offset ← virt_addr_new (physical_memory_offset boot_info);
  mapper ← memory_init cr3 phys_mem_offset;
  let frame_allocator := boot_init (bi_map boot_info) Hmap in
  '(mapper, frame_allocator, heap) ← boot_memory mapper frame_allocator (tw_heap (kw_threads k));
  console ← console_run (print_banner boot_info) (kw_console k);
  '(_, heap) ← fixed_run_prog sample_heap_allocations heap;
  Ok (c, mkUW (with_console console (with_heap_of heap k)) mapper frame_allocator (b_ram b)).

(** What the test kernels do instead, up to their tests: no example mapping,
    no banner. *)
Definition heap_bring_up (boot_info : BootInfo) (Hmap : map_ok (bi_map boot_info)) (c : cpu) (k : kworld)
  : outcome (cpu * kworld * mapper * frames) :=
  c ← Boot.init c;
  phys_mem_offset ← virt_addr_new (physical_memory_offset boot_info);
  mapper ← memory_init cr3 phys_mem_offset;
  let frame_allocator := boot_init (bi_map boot_info) Hmap in
  '(r, mapper, frame_allocator, heap) ← init_heap mapper frame_allocator (tw_heap (kw_threads k));
  match r with
  | Some _ => Panic "heap initialization failed"
  | None => Ok (c, with_heap_of heap k, mapper, frame_allocator)
  end.

(** The executor's world when [CoopExecutor::new()] is called; [arrivals] are
    the interrupts that will fall into its polls. *)
Definition executor_start (c : cpu) (ports : io) (arrivals : list (option InterruptIndex)) (w : uworld)
  : xworld (F := startup) (Env := senv) :=
  mkX exec_new 0 [] (mkS (u_kernel w) (mkDev ports (c_pics c)) arrivals [] []).

(** Where [kernel_main] is. *)
Inductive main_state :=
| MEntry (b : boot_state)
| MThreading (c : cpu) (ports : io) (w : uworld) (st : demo_state)
| MUserland (c : cpu) (ports : io) (w : uworld)
| MExecutor (c : cpu) (x : xworld (F := startup) (Env := senv))
| MPanicked (msg : string).

Abbreviation Spawn := (threading_spawn Fixed.alloc Fixed.scribble ctx_offset worker_a worker_b).
Abbreviation Step := (demo_step Fixed.alloc Fixed.dealloc Fixed.scribble ctx_offset bootstrap_context
  yield_ret exit_ret lo hi boot_lo boot_hi).
Abbreviation Userland := (userland_demo ctx_offset bootstrap_context yield_ret exit_ret scratch walk user_walk
  top kernel_cs isr_ret depth handler_addr report user_code user_data r_ss r_rsp r_cs r_rip user_entry_fn
  (W := TaskWaker) (E := list Z)).

(** The boot, with the spawns of [threading_demo]. *)
Definition start_threading (boot_info : BootInfo) (Hmap : map_ok (bi_map boot_info)) (b : boot_state)
  : outcome (cpu * uworld * demo_state) :=
  '(c, w) ← bring_up boot_info Hmap b;
  st ← Spawn (kw_threads (u_kernel w));
  Ok (c, w, st).

(** [userland_demo], whose error is only logged, and the startup tasks. *)
Definition finish_startup (fuel : nat) (c : cpu) (ports : io) (arrivals : list (option InterruptIndex))
  (w : uworld) : outcome (xworld (F := startup) (Env := senv)) :=
  '(_, w) ← Userland fuel w;
  startup_tasks (executor_start c ports arrivals w).

(** Ten turns are enough for the demo of [userland_demo]. *)
Inductive main_step (boot_info : BootInfo) (Hmap : map_ok (bi_map boot_info)) : main_state → main_state → Prop :=
| main_boot b c w st :
    start_threading boot_info Hmap b = Ok (c, w, st) →
    main_step boot_info Hmap (MEntry b) (MThreading c (b_io b) w st)
| main_boot_panic b msg :
    start_threading boot_info Hmap b = Panic msg → main_step boot_info Hmap (MEntry b) (MPanicked msg)
| main_threads c ports w st st' :
    Step st st' → main_step boot_info Hmap (MThreading c ports w st) (MThreading c ports w st')
| main_threads_done c ports w st :
    demo_done st →
    main_step boot_info Hmap (MThreading c ports w st)
      (MUserland c ports (with_kernel (with_threads st.1 (u_kernel w)) w))
| main_executor fuel c ports arrivals w x :
    (10 <= fuel)%nat → finish_startup fuel c ports arrivals w = Ok x →
    main_step boot_info Hmap (MUserland c ports w) (MExecutor c x)
| main_executor_panic fuel c ports arrivals w msg :
    (10 <= fuel)%nat → finish_startup fuel c ports arrivals w = Panic msg →
    main_step boot_info Hmap (MUserland c ports w) (MPanicked msg).
End main.
