(* ===== verification/MainThms.v ===== *)
(** * What [kernel_main] reaches

    From what the bootloader hands over, on a machine with enough memory,
    [kernel_main] gets to the executor's loop in a bounded number of steps:
    the bootstrap thread is alone, the banner and the message of the ring-3
    demo are on the screen, and the executor has its two startup tasks on a
    kernel in the state StartupThms.v starts from. *)

From Stdlib Require Import ZArith Lia.
From stdpp Require Import base gmap list strings numbers relations.
From S2P Require Import Prelude Fmt AllocMod FixedSizeBlock HeapProg HeapDemo FrameAlloc Scheduler Machine Thread.
From S2P Require Import ThreadInv ThreadThms ThreadTrap Libs Keyboard Executor ExecLoop Vga Paging FramePaging Gdt.
From S2P Require Import Kernel Userland Syscall Interrupts Startup StartupThms UserExec UserExecThms Demos Keeps.
From S2P Require Import ThreadHeap TrapThms UserlandThms DemosThms DemoHeap Boot Main.

Open Scope Z_scope.

Section main.
Context {G : GdtApi} {GL : GdtLaws G} {PIC : ChainedPics} {IO : PortIo}.
Context {Q : ArrayQueue} {C : OnceCell aq} {A : AtomicWaker TaskWaker} {K : KeyDecoder} {V : Volatile}.
Context {QL : ArrayQueueLaws Q} {CL : OnceCellLaws aq C} {AL : AtomicWakerLaws TaskWaker A}.
Context {VL : VolatileLaws V}.
Context {api : PhysApi} {laws : PhysLaws api} {M : MapperApi} {ML : MapperLaws M}.
Context (ctx_offset bootstrap_context yield_ret exit_ret scratch : Z).
Context (boot_lo boot_hi plo worker_a worker_b : Z).
Context (user_walk : page_tables → Z → option (Z * Z)).
Context (top kernel_cs isr_ret depth : Z) (handler_addr : Handler → Z) (report : list Z).
Context (user_code user_data : Z) (r_ss r_rsp r_cs r_rip : reg) (user_entry_fn : Z).
Context (cr3 : Z).
Context (Hring3 : ∀ m q, m_ring3 m q → user_walk m q = m_translate m q).
Context (Hpl : placement ctx_offset bootstrap_context HEAP_START (HEAP_START + HEAP_SIZE) boot_lo boot_hi).
Context (Hpp : priv_placement bootstrap_context HEAP_START (HEAP_START + HEAP_SIZE) boot_lo boot_hi plo top).
Context (Hroom : stack_room scratch top depth plo).
Context (Hregs : NoDup [RSP; r_ss; r_rsp; r_cs; r_rip]) (Hcode : faulted_in_ring3 user_code = true).

#[local] Existing Instance monotonic_paging.
#[local] Existing Instance monotonic_paging_laws.

Abbreviation kworld := (kworld (W := TaskWaker) (E := list Z)).
Abbreviation uworld := (uworld (W := TaskWaker) (E := list Z)).
Abbreviation Threads w := (kw_threads (u_kernel w)).
Abbreviation Main := (main_step ctx_offset bootstrap_context yield_ret exit_ret scratch HEAP_START
  (HEAP_START + HEAP_SIZE) boot_lo boot_hi worker_a worker_b m_translate user_walk top kernel_cs isr_ret depth
  handler_addr report user_code user_data r_ss r_rsp r_cs r_rip user_entry_fn cr3).
Abbreviation Demo_inv := (demo_inv Fixed.alloc Fixed.dealloc Fixed.scribble ctx_offset bootstrap_context
  HEAP_START (HEAP_START + HEAP_SIZE) boot_lo boot_hi).
Abbreviation Good := (good Fixed.alloc Fixed.dealloc Fixed.scribble ctx_offset bootstrap_context
  HEAP_START (HEAP_START + HEAP_SIZE) boot_lo boot_hi).
Abbreviation Alone := (bootstrap_alone ctx_offset bootstrap_context boot_lo boot_hi).
Abbreviation Implements := (Fixed.implements HEAP_START (HEAP_START + HEAP_SIZE)).
Abbreviation Stage := (at_stage ctx_offset bootstrap_context boot_lo boot_hi).

(** The input statics before the keyboard task has started. *)
Definition input_fresh (k : kworld) : Prop :=
  let st := kw_input k in
  try_get (SCANCODE_QUEUE st) = None ∧ try_get (KEY_QUEUE st) = None ∧ aw_get (WAKER st) = None ∧
  k_env st = [].

(** What the bootloader hands over: the statics as initialised, the console
    showing [t], the bootstrap thread on its stack, enough usable frames, and
    page tables with page zero and the heap unmapped. *)
Record handed_over (info : BootInfo) (t : terminal) (b : boot_state) : Prop := {
  ho_sched : tw_sched (kw_threads (b_kernel b)) = ts_new;
  ho_stats : threads_alive (tw_stats (kw_threads (b_kernel b))) = 0 ∧
    tasks_alive (tw_stats (kw_threads (b_kernel b))) = 0;
  ho_next : tw_next_id (kw_threads (b_kernel b)) = 1;
  ho_heap : ∃ mem0, tw_heap (kw_threads (b_kernel b)) = Fixed.mkFW Fixed.empty mem0;
  ho_run : running boot_lo boot_hi (kw_threads (b_kernel b));
  ho_procs : kw_procs (b_kernel b) = ∅ ∧ kw_next_pid (b_kernel b) = 1;
  ho_input : input_fresh (b_kernel b);
  ho_console : shows (kw_console (b_kernel b)) t;
  ho_frames : NoDup (usable_frames (bi_map info)) ∧ (103 <= length (usable_frames (bi_map info)))%nat;
  ho_offset : 0 <= physical_memory_offset info ∧ 0 <= cr3 ∧ physical_memory_offset info + cr3 < 2 ^ 47;
  ho_pages : ∀ p, p = 0 ∨ p ∈ heap_pages →
    let m := offset_page_table_new (physical_memory_offset info + cr3) (physical_memory_offset info) in
    m_translate m p = None ∧ m_small m p;
}.

(** Room for the demos: eight more frames, and the pages of the user process
    unmapped. *)
Record roomy (info : BootInfo) : Prop := {
  ro_frames : (111 <= length (usable_frames (bi_map info)))%nat;
  ro_pages : ∀ p, p = USER_CODE_BASE ∨ p = USER_STACK_BASE →
    let m := offset_page_table_new (physical_memory_offset info + cr3) (physical_memory_offset info) in
    m_translate m p = None ∧ m_small m p;
}.

(** The terminal with the banner on it. *)
Definition with_banner (info : BootInfo) (t : terminal) : terminal := foldl (flip t_do) t (print_banner info).

Lemma console_run_refines ops self t :
  shows self t → ∃ self', console_run ops self = Ok self' ∧ shows self' (foldl (flip t_do) t ops).
Proof.
  revert self t. induction ops as [|op ops IH]; intros self t Ht; [by exists self|].
  cbn [console_run]. destruct (console_do_refines op self t Ht) as (self1 & -> & Ht1). bstep. by apply IH.
Qed.

(** ** Up to the threads *)

(** What is left for the user process. *)
Definition process_room (w : uworld) : Prop :=
  (8 <= length (free_frames (u_frames w)))%nat ∧
  ∀ q, q = USER_CODE_BASE ∨ q = USER_STACK_BASE → translate (u_mapper w) q = None ∧ small (u_mapper w) q.

Record brought_up (info : BootInfo) (t : terminal) (w : uworld) : Prop := {
  bu_booted : booted Fixed.alloc Fixed.dealloc Fixed.scribble HEAP_START (HEAP_START + HEAP_SIZE)
    boot_lo boot_hi (Threads w);
  bu_heap : Implements (tw_heap (Threads w)) ∅ sample_ref;
  bu_tasks : tasks_alive (tw_stats (Threads w)) = 0;
  bu_procs : kw_procs (u_kernel w) = ∅ ∧ kw_next_pid (u_kernel w) = 1;
  bu_input : input_fresh (u_kernel w);
  bu_console : shows (kw_console (u_kernel w)) (with_banner info t);
  bu_room : process_room w;
}.

Lemma bring_up_ok info Hmap t b :
  handed_over info t b → roomy info →
  ∃ c w, bring_up cr3 info Hmap b = Ok (c, w) ∧ c_if c = true ∧ brought_up info t w.
Proof.
  intros [H1 [H2 H2'] H3 (mem0 & H4) H5 H6 H7 H8 [H9 H10] (H11 & H12 & H13) H14] [R1 R2]. unfold bring_up.
  destruct (init_ok (b_cpu b)) as (c & -> & Hif & _). bstep.
  rewrite virt_addr_new_ok by lia. bstep. unfold memory_init, active_level_4_table.
  rewrite add_u64_ok by (unfold u64_modulus; lia). bstep. rewrite m_virt_addr_new_ok by lia. bstep.
  rewrite H4. destruct (boot_memory_ready (P := monotonic_paging) (L := monotonic_paging_laws)
    (offset_page_table_new (physical_memory_offset info + cr3) (physical_memory_offset info))
    (boot_init (bi_map info) Hmap) mem0)
    as (m' & f' & heap & fs & Hb & _ & _ & _ & _ & _ & Hfar & Himp).
  - cbn. by rewrite boot_init_free.
  - cbn. by rewrite boot_init_free.
  - exact H14.
  - pose proof (boot_memory_cost _ _ _ _ _ _ Hb) as [Hsm Hlen].
    rewrite Hb. bstep. destruct (console_run_refines (print_banner info) _ _ H8) as (con & -> & Hcon). bstep.
    destruct (sample_boot_ok heap Himp) as (s & heap' & -> & Hheap & _). bstep.
    do 2 eexists. split; [done|]. split; [done|]. split; try done.
    + split; try done; [exists ∅; by exists sample_ref|by destruct H5].
    + split; [cbn in *; rewrite boot_init_free in Hlen; lia|]. intros q Hq. destruct (R2 q Hq) as [T S].
      split; [|by apply Hsm]. cbn [u_mapper]. rewrite Hfar; [done|by destruct Hq as [-> | ->]|].
      destruct Hq as [-> | ->]; by_decide.
Qed.

(** ** The stages *)

(** The bootstrap thread is alone again, with nothing of the rest changed. *)
Record between (info : BootInfo) (t : terminal) (w : uworld) : Prop := {
  bw_alone : ∃ live sv, Alone w live sv;
  bw_heap : ∃ live, Implements (tw_heap (Threads w)) live (stage_ref 6);
  bw_tasks : tasks_alive (tw_stats (Threads w)) = 0;
  bw_procs : kw_procs (u_kernel w) = ∅ ∧ kw_next_pid (u_kernel w) = 1;
  bw_input : input_fresh (u_kernel w);
  bw_console : shows (kw_console (u_kernel w)) (with_banner info t);
  bw_room : process_room w;
}.

(** The screen when the executor starts. *)
Definition greeted (info : BootInfo) (t : terminal) : terminal := t_write_string hello (with_banner info t).

(** The state of the executor's loop when it starts. *)
Definition executor_ready (info : BootInfo) (t : terminal) (x : xworld (F := startup) (Env := senv)) : Prop :=
  ∃ w0, fresh_start (greeted info t) w0 ∧ startup_tasks w0 = Ok x.

Definition main_inv (info : BootInfo) (t : terminal) (b : boot_state) (s : main_state) : Prop :=
  match s with
  | MEntry b' => b' = b
  | MThreading c _ w st => c_if c = true ∧ brought_up info t w ∧ (∃ k, (k <= 6)%nat ∧ Stage k st) ∧
      tasks_alive (tw_stats st.1) = 0 ∧ tw_next_id st.1 = 3 ∧ (measure st <= 9)%nat
  | MUserland _ _ w => between info t w
  | MExecutor _ x => executor_ready info t x
  | MPanicked _ => False
  end.

Definition main_rank (s : main_state) : nat :=
  match s with
  | MEntry _ => 12
  | MThreading _ _ _ st => 2 + measure st
  | MUserland _ _ _ => 1
  | _ => 0
  end%nat.

Lemma start_threading_ok info Hmap t b :
  handed_over info t b → roomy info →
  ∃ c w st, start_threading ctx_offset worker_a worker_b cr3 info Hmap b = Ok (c, w, st) ∧
    main_inv info t b (MThreading c (b_io b) w st).
Proof.
  intros Hb Hro. unfold start_threading.
  destruct (bring_up_ok info Hmap t b Hb Hro) as (c & w & -> & Hif & Hu). bstep.
  pose proof Hu as [Hbt Hheap Hta _ _ _ _].
  pose proof (booted_good _ _ _ ctx_offset bootstrap_context _ _ _ _ _ Hbt) as Hg. pose proof Hbt as [B1 _ B3 _ _].
  destruct (threading_spawn_stage ctx_offset bootstrap_context yield_ret exit_ret boot_lo boot_hi worker_a worker_b Hpl
    (Threads w) Hg B1 B3 Hheap) as (st & Hst & Hs0).
  rewrite Hst. bstep. exists c, w, st. split; [done|].
  destruct (threading_spawn_inv Fixed.alloc Fixed.dealloc Fixed.scribble ctx_offset bootstrap_context
    yield_ret exit_ret HEAP_START (HEAP_START + HEAP_SIZE) boot_lo boot_hi worker_a worker_b Hpl (Threads w) st Hg) as [_ Hm];
    [by rewrite B1|by rewrite B1|by rewrite B3|done|].
  apply threading_spawn_kept in Hst as [S1 S2]. split_and!; try done.
  - exists 0%nat. split; [lia|done].
  - by rewrite S1.
  - by rewrite S2, B3.
  - rewrite Hm. lia.
Qed.

(** From the end of [threading_demo]. *)
Lemma threads_done_between info t b c ports w st :
  main_inv info t b (MThreading c ports w st) → demo_done st →
  between info t (with_kernel (with_threads st.1 (u_kernel w)) w).
Proof.
  intros (_ & [_ _ _ U3 U4 U5 U6] & (k & Hk & Hs) & H1 & H2 & _) Hd.
  pose proof Hs as [[[(live & sv & Hti) Hrun] _ _] _ Hh]. pose proof Hd as [Hcur Hr]. split; try done.
  - exists live, sv. split; try done.
    + unfold ready_count in Hr. cbn. destruct (ready (tw_sched st.1)); [done|]. simpl in Hr. lia.
    + cbn. by rewrite H2.
  - exists (stage_live k). pose proof (stage_done _ _ _ _ _ _ Hs Hd) as H6.
    by replace k with 6%nat in * by lia.
Qed.

Lemma executor_start_fresh c ports arrivals w w' term :
  tasks_alive (tw_stats (Threads w)) = 0 → input_fresh (u_kernel w) → kept (u_kernel w) (u_kernel w') →
  shows (kw_console (u_kernel w')) term → fresh_start term (executor_start c ports arrivals w').
Proof.
  intros W2 (I1 & I2 & I3 & I4) [K1 K2] Hs. split; try done; [by rewrite <- W2|].
  unfold future_ok, s_input. cbn. by rewrite K2.
Qed.

Lemma finish_startup_ok fuel info t c ports arrivals w :
  between info t w → (10 <= fuel)%nat →
  ∃ x, finish_startup ctx_offset bootstrap_context yield_ret exit_ret scratch m_translate user_walk top
    kernel_cs isr_ret depth handler_addr report user_code user_data r_ss r_rsp r_cs r_rip user_entry_fn
    fuel c ports arrivals w = Ok x ∧ executor_ready info t x.
Proof.
  intros [(live & sv & Hal) (lv & Hh) W2 [W3 W4] W5 W6 [W7 W8]] Hfuel. unfold finish_startup.
  replace fuel with (10 + (fuel - 10))%nat by lia.
  destruct (userland_demo_runs ctx_offset bootstrap_context yield_ret exit_ret scratch
    (P := monotonic_paging) (L := monotonic_paging_laws) user_walk top kernel_cs isr_ret depth handler_addr
    report user_code user_data r_ss r_rsp r_cs r_rip user_entry_fn boot_lo boot_hi plo Hring3 Hpl Hpp Hroom
    Hregs Hcode w live sv (with_banner info t) (fuel - 10) Hal W6) as (w' & Hd & Hs); [by rewrite W4| |done|done| |].
  - by rewrite W3, lookup_empty.
  - intros p ts Hts. destruct stages_have_room as (_ & _ & Hro). rewrite <- Hts in Hh.
    by apply (has_room_fits ctx_offset user_entry_fn p ts lv (stage_ref 6)).
  - change (@translate monotonic_paging monotonic_paging_laws) with m_translate in Hd. rewrite Hd. bstep.
    apply userland_demo_kept in Hd; [|apply W5].
    pose proof (executor_start_fresh c ports arrivals w w' (greeted info t) W2 W5 Hd Hs) as Hf.
    destruct (startup_tasks_ok _ _ Hf) as (x & Hx & _). exists x. split; [done|]. by eexists.
Qed.

Lemma main_step_inv info Hmap t b s s' :
  handed_over info t b → roomy info → main_inv info t b s → Main info Hmap s s' →
  main_inv info t b s' ∧ (main_rank s' < main_rank s)%nat.
Proof.
  intros Hb Hro Hs Hst. destruct Hst as [b' c w st Hr|b' msg Hr|c ports w st st' Hd|c ports w st Hd
    |fuel c ports arrivals w x Hf Hr|fuel c ports arrivals w msg Hf Hr].
  1-2: assert (b' = b) as -> by exact Hs;
    destruct (start_threading_ok info Hmap t b Hb Hro) as (c' & w' & st' & E & Hi); rewrite Hr in E; try done.
  - injection E as <- <- <-. split; [done|]. destruct Hi as (_ & _ & _ & _ & _ & ?). cbn [main_rank]. lia.
  - destruct Hs as (H1 & H2 & (k & Hk & Hs) & H4 & H5 & H6).
    destruct (stage_step ctx_offset bootstrap_context yield_ret exit_ret boot_lo boot_hi Hpl _ _ _ Hs Hd) as [Hk' Hs'].
    destruct (demo_step_inv Fixed.alloc Fixed.dealloc Fixed.scribble ctx_offset bootstrap_context yield_ret
      exit_ret HEAP_START (HEAP_START + HEAP_SIZE) boot_lo boot_hi Hpl _ _ (as_inv _ _ _ _ _ _ Hs) Hd) as [_ Hm].
    apply demo_step_kept in Hd as [D1 D2]. split; [|cbn [main_rank]; lia].
    split_and!; [done|done|exists (S k); split; [lia|done]|by rewrite D1|by rewrite D2|lia].
  - split; [by eapply threads_done_between|cbn; lia].
  - split; [|cbn; lia]. destruct (finish_startup_ok fuel info t c ports arrivals w Hs Hf) as (x' & E & Hx).
    rewrite Hr in E. by injection E as <-.
  - destruct (finish_startup_ok fuel info t c ports arrivals w Hs Hf) as (x' & E & Hx). congruence.
Qed.

Lemma main_steps_inv info Hmap t b n s s' :
  handed_over info t b → roomy info → main_inv info t b s → nsteps (Main info Hmap) n s s' →
  main_inv info t b s' ∧ (n + main_rank s' <= main_rank s)%nat.
Proof.
  intros Hb Hro Hs Hst. induction Hst as [s|n s s1 s2 Hst _ IH]; [auto|].
  destruct (main_step_inv info Hmap t b s s1 Hb Hro Hs Hst) as [H1 Hlt].
  destruct (IH H1) as [? ?]. split; [done|lia].
Qed.

Lemma main_progress info Hmap t b s :
  handed_over info t b → roomy info → main_inv info t b s →
  match s with MExecutor _ _ => True | _ => ∃ s', Main info Hmap s s' end.
Proof.
  intros Hb Hro Hs. destruct s as [b'|c ports w st|c ports w|c x|msg]; try done.
  - assert (b' = b) as -> by exact Hs.
    destruct (start_threading_ok info Hmap t b Hb Hro) as (c & w & st & E & _). eexists. by eapply main_boot.
  - destruct Hs as (_ & _ & (k & _ & Hs) & _).
    destruct (demo_progress Fixed.alloc Fixed.dealloc Fixed.scribble ctx_offset bootstrap_context yield_ret
      exit_ret HEAP_START (HEAP_START + HEAP_SIZE) boot_lo boot_hi Hpl st (as_inv _ _ _ _ _ _ Hs)) as [Hd|[st' Hd]];
      eexists; [by eapply main_threads_done|by eapply main_threads].
  - destruct (finish_startup_ok 10 info t c ports [] w Hs ltac:(lia)) as (x & E & _).
    eexists. by eapply main_executor.
Qed.

Lemma main_reaches info Hmap t b s :
  handed_over info t b → roomy info → main_inv info t b s → ∃ c x, rtc (Main info Hmap) s (MExecutor c x).
Proof.
  intros Hb Hro. remember (main_rank s) as n eqn:Hn. revert s Hn.
  induction (lt_wf n) as [n _ IH]. intros s -> Hs. pose proof (main_progress info Hmap t b s Hb Hro Hs) as Hp.
  assert ((∃ s', Main info Hmap s s') → ∃ c x, rtc (Main info Hmap) s (MExecutor c x)) as Hgo.
  { intros [s' Hst]. destruct (main_step_inv info Hmap t b s s' Hb Hro Hs Hst) as [Hs' Hlt].
    destruct (IH _ Hlt s' eq_refl Hs') as (c & x & Hr). exists c, x. by eapply rtc_l. }
  destruct s as [b'|c ports w st|c ports w|c x|msg]; auto. exists c, x. apply rtc_refl.
Qed.

(** ** Theorem *)

(** C1: the kernel comes up.  From what the bootloader hands over, on a machine
    with 111 usable frames and page zero, the heap and the user process's pages
    unmapped, [kernel_main]
    reaches the executor's loop; whatever the interrupts and the workers do
    meanwhile, it makes at most twelve steps on the way (the boot, the context
    switches of the threading demo, the ring-3 demo), is never stuck and never
    panics: the heap has room for every thread.  From then on, whichever way
    the demos left the interrupt flag and whatever interrupts come in, the
    screen shows what it showed before the boot, the banner, the greeting of
    the ring-3 process, and then exactly the characters typed, in order; and
    whenever the CPU is halted, interrupts are on and every key typed so far
    has been handled. *)
Theorem kernel_main_comes_up info Hmap t b :
  handed_over info t b → roomy info →
  (∃ c x, rtc (Main info Hmap) (MEntry b) (MExecutor c x)) ∧
  ∀ n s, nsteps (Main info Hmap) n (MEntry b) s →
    (n <= 12)%nat ∧
    match s with
    | MExecutor c x =>
        ∀ e l, rtc (lstep poll_startup startup_irq) (loop_start e x) l →
          let env := x_env (l_x l) in
          let typed := (StartupThms.decode (s_handled env) keyboard_new).1 in
          s_queued env = s_handled env ++ scancodes (s_input env) ∧
          shows (kw_console (s_kernel env))
            (t_write_string (mjoin (encode_utf8 <$> typed)) (t_write_string hello (with_banner info t))) ∧
          (l_pc l = PHalted → s_handled env = s_queued env ∧ l_if l = true)
    | MPanicked _ => False
    | _ => ∃ s', Main info Hmap s s'
    end.
Proof.
  intros Hb Hro. split; [by apply (main_reaches info Hmap t b)|]. intros n s Hst.
  destruct (main_steps_inv info Hmap t b n (MEntry b) s Hb Hro eq_refl Hst) as [Hs Hn].
  split; [cbn [main_rank] in Hn; lia|]. pose proof (main_progress info Hmap t b s Hb Hro Hs) as Hp.
  destruct s as [b'|c ports w st|c ports w|c x|msg]; try done.
  destruct Hs as (w0 & Hf & Hx).
  intros e l Hl. destruct (keypresses_spec e (greeted info t) w0 x l Hf Hx Hl) as (? & ? & _ & ?). done.
Qed.
End main.

(** ** Witness: a machine with one usable region of 256 frames *)

#[local] Existing Instances demo_gdt demo_pics demo_port_io list_array_queue option_cell option_waker
  demo_decoder demo_volatile demo_mapper demo_laws.

Definition demo_info : BootInfo (api := demo_api) := mkInfo demo_api [(0x100000, 0x200000, true)] 0x10000000.

Lemma demo_info_map : map_ok (api := demo_api) (bi_map demo_info).
Proof. repeat constructor; simpl; unfold phys_limit; try lia. by exists 256. Qed.

Definition demo_entry : boot_state :=
  mkBoot demo_reset
    (mkKW (mkTW ts_new sched_new 1 (Fixed.mkFW Fixed.empty ∅) demo_machine) ∅ 1
       (mkK (A := option_waker TaskWaker) None None None []) demo_writer)
    (λ _, 0) (mkPorts [] []).

Lemma demo_handed_over :
  handed_over (AL := option_waker_laws _) (ML := demo_mapper_laws) 0x2000 0x4000 0x1000
    demo_info demo_term demo_entry.
Proof.
  split; try done.
  - by exists ∅.
  - split; [by exists 0x600|vm_compute; congruence..].
  - split; try done; by_decide.
  - split; [by_decide|vm_compute; lia].
Qed.

Lemma demo_ring3_walk m q :
  m_ring3 (MapperLaws := demo_mapper_laws) m q →
  demo_user_walk m q = m_translate (MapperLaws := demo_mapper_laws) m q.
Proof. apply demo_user_walk_ok. Qed.

Abbreviation demo_main := (main_step 16 0x1000 0x100 0x200 0x7f80 HEAP_START (HEAP_START + HEAP_SIZE)
  0x2000 0x4000 0x5000 0x5100 (m_translate (MapperLaws := demo_mapper_laws)) demo_user_walk 0x8000 8 0x500 256
  (λ _, 0x600) hello 0x33 0x2b RAX RCX RDX RBX 0x5200 0x1000).

Lemma demo_roomy : roomy (ML := demo_mapper_laws) 0x1000 demo_info.
Proof. split; [vm_compute; lia|done]. Qed.

Lemma kernel_main_comes_up_witness :
  ∃ c x, rtc (demo_main demo_info demo_info_map) (MEntry demo_entry) (MExecutor c x).
Proof.
  apply (kernel_main_comes_up (GL := demo_gdt_laws) (QL := list_array_queue_laws) (CL := option_cell_laws _)
    (AL := option_waker_laws _) (VL := demo_volatile_laws) (ML := demo_mapper_laws)
    16 0x1000 0x100 0x200 0x7f80 0x2000 0x4000 0x6000 0x5000 0x5100 demo_user_walk 0x8000 8 0x500 256
    (λ _, 0x600) hello 0x33 0x2b RAX RCX RDX RBX 0x5200 0x1000 demo_ring3_walk demo_placement demo_priv
    demo_room ltac:(by_decide) eq_refl demo_info demo_info_map demo_term demo_entry).
  - apply demo_handed_over.
  - apply demo_roomy.
Defined.
