(* ===== verification/FaultRecovery.v ===== *)
(** * The fault-recovery tests

    src/tests/fault_recovery_pf.rs and src/tests/fault_recovery_gpf.rs: test
    kernels of their own, which bring up the heap, run a process that faults
    in ring 3, and report to the exit device whether the kernel survived it
    with the process gone.  On a machine with enough memory both report
    success. *)

From Stdlib Require Import ZArith Lia.
From stdpp Require Import base gmap list strings numbers.
From S2P Require Import Prelude Fmt AllocMod FixedSizeBlock FrameAlloc Scheduler Machine Thread ThreadInv ThreadHeap ThreadThms.
From S2P Require Import ThreadTrap Libs Keyboard Executor Vga Logger TestRunner Paging FramePaging Gdt Kernel KernelThms.
From S2P Require Import Userland UserlandThms Syscall Interrupts UserExec UserExecThms TrapThms Demos DemosThms.
From S2P Require Import StartupThms Boot Main MainThms.

Open Scope Z_scope.

Section recovery.
Context {G : GdtApi} {PIC : ChainedPics} {IO : PortIo} {SP : SerialPort} {MX : SpinMutex port}.
Context {Q : ArrayQueue} {C : OnceCell aq} {A : AtomicWaker TaskWaker} {V : Volatile}.
Context {api : PhysApi} {laws : PhysLaws api} {M : MapperApi}.
(** Placement of code and data, and the MMU, as in Main.v. *)
Context (ctx_offset bootstrap_context yield_ret exit_ret scratch : Z).
Context (walk user_walk : page_tables → Z → option (Z * Z)).
Context (top kernel_cs isr_ret depth : Z) (handler_addr : Handler → Z) (report : list Z).
Context (user_code user_data : Z) (r_ss r_rsp r_cs r_rip : reg) (user_entry_fn cr3 : Z).

#[local] Existing Instance monotonic_paging.

Abbreviation kworld := (kworld (W := TaskWaker) (E := list Z)).
Abbreviation uworld := (uworld (W := TaskWaker) (E := list Z)).
Abbreviation hworld := (hworld (T := kworld)).

Definition processes (w : uworld) : Z := processes_alive (tw_stats (kw_threads (u_kernel w))).

(** From [before_alive] to the second assertion. *)
Definition recover (fuel : nat) (program : list Z) (w : uworld) : outcome uworld :=
  let before_alive := processes w in
  '(r, w) ← create_process_from_program ctx_offset bootstrap_context yield_ret exit_ret scratch walk program w;
  match r with
  | inl _ => Panic "failed to create crash-demo process"
  | inr pid =>
      w ← run_process ctx_offset bootstrap_context yield_ret exit_ret scratch walk user_walk top kernel_cs isr_ret
            depth handler_addr report user_code user_data r_ss r_rsp r_cs r_rip user_entry_fn fuel pid w;
      _ ← rust_assert (processes w =? before_alive) "crashed process should have been reaped from the scheduler";
      _ ← rust_assert (negb (is_registered pid (u_kernel w)))
            "crashed process should have been removed from the registry";
      Ok w
  end.

(** [kernel_main] of the two tests: [name] is what it prints first, [program]
    the one it loads.  A panic goes to the panic handler. *)
Definition fault_recovery (fuel : nat) (name : string) (program : list Z) (boot_info : BootInfo)
  (Hmap : map_ok (bi_map boot_info)) (c : cpu) (ram : Z → Z) (format : string → list Z) (w : hworld)
  : hresult (T := kworld) :=
  match heap_bring_up cr3 boot_info Hmap c (h_state w) with
  | Ok (_, k, m, f) =>
      hthen (print_serial [bytes name ++ [9]] (mkH k (h_log w) (h_io w))) (λ w,
      match recover fuel program (mkUW k m f ram) with
      | Ok w' =>
          hthen (println_serial [bytes "[ok]"] (mkH (u_kernel w') (h_log w) (h_io w))) (λ w,
          HOn (exit_qemu Success w))
      | Panic msg => test_panic_handler (format msg) w
      | _ => HStuck
      end)
  | Panic msg => test_panic_handler (format msg) w
  | _ => HStuck
  end.

Definition fault_recovery_pf (fuel : nat) :=
  fault_recovery fuel "fault_recovery_pf::page_fault_kills_ring3_process..." CRASH_PF_DEMO.

Definition fault_recovery_gpf (fuel : nat) :=
  fault_recovery fuel "fault_recovery_gpf::general_protection_fault_kills_ring3_process..." CRASH_GPF_DEMO.
End recovery.

(** The heap as booted has room for a thread. *)
Lemma boot_heap_room : has_room (Fixed.ref_init HEAP_START HEAP_SIZE) = true.
Proof. vm_compute. reflexivity. Qed.

(** ** Both tests succeed *)

Section passes.
Context {G : GdtApi} {GL : GdtLaws G} {PIC : ChainedPics} {IO : PortIo}.
Context {SP : SerialPort} {SL : SerialPortLaws SP} {MX : SpinMutex port} {MXL : SpinMutexLaws port MX}.
Context {Q : ArrayQueue} {C : OnceCell aq} {A : AtomicWaker TaskWaker} {V : Volatile} {VL : VolatileLaws V}.
Context {AL : AtomicWakerLaws TaskWaker A}.
Context {api : PhysApi} {laws : PhysLaws api} {M : MapperApi} {ML : MapperLaws M}.
Context (ctx_offset bootstrap_context yield_ret exit_ret scratch boot_lo boot_hi plo : Z).
Context (user_walk : page_tables → Z → option (Z * Z)).
Context (top kernel_cs isr_ret depth : Z) (handler_addr : Handler → Z) (report : list Z).
Context (user_code user_data : Z) (r_ss r_rsp r_cs r_rip : reg) (user_entry_fn cr3 : Z).
(** The MMU in ring 3: what the tables map for user code is reachable, what
    they do not map is not. *)
Context (Hring3 : ∀ m q, m_ring3 m q → user_walk m q = m_translate m q).
Context (Hunmapped : ∀ m q, m_translate m q = None → user_walk m q = None).
Context (Hpl : placement ctx_offset bootstrap_context HEAP_START (HEAP_START + HEAP_SIZE) boot_lo boot_hi).
Context (Hpp : priv_placement bootstrap_context HEAP_START (HEAP_START + HEAP_SIZE) boot_lo boot_hi plo top).
Context (Hroom : stack_room scratch top depth plo).
Context (Hregs : NoDup [RSP; r_ss; r_rsp; r_cs; r_rip]) (Hcode : faulted_in_ring3 user_code = true).

#[local] Existing Instance monotonic_paging.
#[local] Existing Instance monotonic_paging_laws.

Abbreviation kworld := (kworld (W := TaskWaker) (E := list Z)).
Abbreviation uworld := (uworld (W := TaskWaker) (E := list Z)).
Abbreviation hworld := (hworld (T := kworld)).
Abbreviation hresult := (hresult (T := kworld)).
Abbreviation Recover := (recover ctx_offset bootstrap_context yield_ret exit_ret scratch translate user_walk top
  kernel_cs isr_ret depth handler_addr report user_code user_data r_ss r_rsp r_cs r_rip user_entry_fn).
Abbreviation Test := (fault_recovery ctx_offset bootstrap_context yield_ret exit_ret scratch translate user_walk top
  kernel_cs isr_ret depth handler_addr report user_code user_data r_ss r_rsp r_cs r_rip user_entry_fn cr3).
Abbreviation Pf := (fault_recovery_pf ctx_offset bootstrap_context yield_ret exit_ret scratch translate user_walk top
  kernel_cs isr_ret depth handler_addr report user_code user_data r_ss r_rsp r_cs r_rip user_entry_fn cr3).
Abbreviation Gpf := (fault_recovery_gpf ctx_offset bootstrap_context yield_ret exit_ret scratch translate user_walk top
  kernel_cs isr_ret depth handler_addr report user_code user_data r_ss r_rsp r_cs r_rip user_entry_fn cr3).
Abbreviation Alone := (bootstrap_alone ctx_offset bootstrap_context boot_lo boot_hi).
Abbreviation Implements := (Fixed.implements HEAP_START (HEAP_START + HEAP_SIZE)).

(** The pages that must be unmapped: the two of a user process, and the one
    the first program writes to. *)
Definition user_pages : list Z := [USER_CODE_BASE; USER_STACK_BASE; 0x500000000000].

(** After the bring-up: the bootstrap thread alone on a fresh heap. *)
Record at_test (t : terminal) (w : uworld) : Prop := {
  at_alone : ∃ live sv, Alone w live sv;
  at_heap : Implements (tw_heap (kw_threads (u_kernel w))) ∅ (Fixed.ref_init HEAP_START HEAP_SIZE);
  at_procs : kw_procs (u_kernel w) = ∅ ∧ kw_next_pid (u_kernel w) = 1 ∧ is_u64 (processes w);
  at_console : shows (kw_console (u_kernel w)) t;
  at_frames : (8 <= length (free_frames (u_frames w)))%nat;
  at_pages : ∀ q, q ∈ user_pages → translate (u_mapper w) q = None ∧ small (u_mapper w) q;
}.

Lemma recover_ok program w t n :
  at_test t w → program = CRASH_PF_DEMO ∨ program = CRASH_GPF_DEMO →
  ∃ w', Recover (10 + n) program w = Ok w' ∧ shows (kw_console (u_kernel w')) (t_write_string report t).
Proof.
  intros [(live & sv & Hba) Hh (Hp1 & Hp2 & Hu) Ht Hf Hq] Hprog. unfold recover.
  destruct (create_process_succeeds ctx_offset bootstrap_context yield_ret exit_ret scratch program w)
    as (p & w1 & Hc & Hw1); [by destruct Hprog as [-> | ->]|done| |].
  { intros q [-> | ->]; apply Hq; unfold user_pages; set_solver. }
  rewrite Hc. bstep. pose proof (created_loaded _ _ _ _ _ _ _ _ _ Hc) as Hl.
  pose proof (created_alone _ _ _ _ _ _ _ _ _ _ Hba Hw1) as Hba1.
  pose proof (su_pid _ _ _ _ Hw1) as ->. pose proof (su_kernel _ _ _ _ Hw1) as Hk. rewrite Hp2 in *.
  assert (program_ends (W := TaskWaker) (E := list Z) ctx_offset bootstrap_context yield_ret exit_ret scratch user_walk
    top kernel_cs isr_ret depth handler_addr report boot_lo boot_hi program (λ m, m_translate m 0x500000000000 = None)
    report) as Hends.
  { eapply crash_demos_end; eauto. destruct Hprog as [-> | ->]; [left; auto|by right]. }
  destruct (run_process_spec (P := monotonic_paging) ctx_offset bootstrap_context yield_ret exit_ret scratch user_walk top kernel_cs isr_ret
    depth handler_addr report user_code user_data r_ss r_rsp r_cs r_rip user_entry_fn boot_lo boot_hi Hpl Hregs Hcode
    program _ report Hends w1 live sv 1 (mkProcess 1 None USER_CODE_BASE USER_STACK_TOP PReady) t n Hba1)
    as [[_ Hs]|(w2 & sv2 & E & Hs & Hpr & Hcn & _)]; try done.
  - rewrite Hk. cbn. rewrite Hp2. apply lookup_insert_eq.
  - destruct (Hq 0x500000000000) as [Hn _]; [unfold user_pages; set_solver|].
    cbn. rewrite <- Hn. by apply (su_others _ _ _ _ Hw1).
  - by rewrite Hk.
  - exfalso. revert Hs. eapply has_room_fits; [|apply boot_heap_room]. rewrite Hk. exact Hh.
  - setoid_rewrite E. bstep. assert (processes w2 = processes w) as Ea.
    { unfold processes. injection Hcn as Hcn _. rewrite Hcn, Hk. unfold exit. cbn. rewrite Hp2, lookup_insert_eq. cbn.
      unfold is_u64, processes in Hu. unfold wrapping_sub, wrapping_add. rewrite Zminus_mod_idemp_l.
      rewrite Z.mod_small; lia. }
    assert (is_registered 1 (u_kernel w2) = false) as Er
      by (unfold is_registered, snapshot; by rewrite Hpr, lookup_delete_eq).
    rewrite Ea, Z.eqb_refl, Er. cbn [rust_assert negb]. bstep. by exists w2.
Qed.

(** The bring-up of the test kernels: the heap is fresh, its pages and their
    tables are all it took. *)
Lemma heap_bring_up_spec info Hmap t b :
  handed_over boot_lo boot_hi cr3 info t b →
  let m0 := offset_page_table_new (physical_memory_offset info + cr3) (physical_memory_offset info) in
  ∃ c h m f, heap_bring_up cr3 info Hmap (b_cpu b) (b_kernel b) = Ok (c, with_heap_of h (b_kernel b), m, f) ∧
    Implements h ∅ (Fixed.ref_init HEAP_START HEAP_SIZE) ∧
    (∀ q, q ∉ heap_pages → translate m q = translate m0 q) ∧ (∀ q, small m0 q → small m q) ∧
    (length (usable_frames (bi_map info)) <= length (free_frames f) + 100)%nat.
Proof.
  intros [_ _ _ (mem0 & H4) _ _ _ _ [H9 H10] (H11 & H12 & H13) H14]. unfold heap_bring_up.
  destruct (init_ok (b_cpu b)) as (c & -> & _). bstep.
  rewrite virt_addr_new_ok by lia. bstep. unfold memory_init, active_level_4_table.
  rewrite add_u64_ok by (unfold u64_modulus; lia). bstep. rewrite m_virt_addr_new_ok by lia. bstep. rewrite H4.
  set (m0 := offset_page_table_new _ _) in *.
  destruct (init_heap_succeeds (P := monotonic_paging) (L := monotonic_paging_laws) m0 (boot_init (bi_map info) Hmap) mem0)
    as (m & f & h & fs & Hi & _ & _ & _ & _ & Hfar & Himp).
  { cbn. by rewrite boot_init_free. }
  { cbn. rewrite boot_init_free. lia. }
  { intros p Hp. apply H14. by right. }
  destruct (init_heap_cost _ _ _ _ _ _ Hi) as [Hsm Hlen]. cbn in Hlen. rewrite boot_init_free in Hlen.
  rewrite Hi. bstep. by exists c, h, m, f.
Qed.

(** What the bootloader hands over, with room for a process. *)
Record test_handed_over (info : BootInfo) (t : terminal) (b : boot_state) : Prop := {
  th_boot : handed_over boot_lo boot_hi cr3 info t b;
  th_frames : (108 <= length (usable_frames (bi_map info)))%nat;
  th_alive : is_u64 (processes_alive (tw_stats (kw_threads (b_kernel b))));
  th_pages : ∀ q, q ∈ user_pages →
    let m := offset_page_table_new (physical_memory_offset info + cr3) (physical_memory_offset info) in
    m_translate m q = None ∧ m_small m q;
}.

Lemma heap_bring_up_ok info Hmap t b :
  test_handed_over info t b →
  ∃ c k m f, heap_bring_up cr3 info Hmap (b_cpu b) (b_kernel b) = Ok (c, k, m, f) ∧ at_test t (mkUW k m f (b_ram b)).
Proof.
  intros [Hho Hf Ha Hu]. destruct (heap_bring_up_spec info Hmap t b Hho) as (c & h & m & f & Hup & Himp & Hfar & Hsm & Hlen).
  destruct Hho as [H1 [H2 _] H3 _ H5 H6 _ H8 _ _ _]. do 4 eexists. split; [exact Hup|].
  assert (booted Fixed.alloc Fixed.dealloc Fixed.scribble HEAP_START (HEAP_START + HEAP_SIZE) boot_lo boot_hi
    (with_heap h (kw_threads (b_kernel b)))) as Hb.
  { split; try done; [exists ∅; by exists (Fixed.ref_init HEAP_START HEAP_SIZE)|by destruct H5]. }
  destruct (booted_good _ _ _ ctx_offset bootstrap_context _ _ _ _ _ Hb) as [(live & sv & Hinv) Hrun]. split; try done.
  - exists live, sv. split; try done; cbn; [by rewrite H1..|by rewrite H3].
  - by destruct H6.
  - cbn in *. lia.
  - intros q Hq. destruct (Hu q Hq) as [T S]. split; [|by apply Hsm]. cbn [u_mapper]. rewrite Hfar; [done|].
    unfold user_pages in Hq. revert Hq. rewrite !elem_of_cons, elem_of_nil. intros [-> |[-> |[-> |[]]]]; by_decide.
Qed.

(** The test named [name] has printed its verdict and written the exit code
    for success, and nothing else, to the exit device; the screen shows the
    report of the fault and nothing else new. *)
Definition succeeds (name : string) (t : terminal) (w : hworld) (r : hresult) : Prop :=
  ∃ w', r = HOn w' ∧ h_io w' = outl EXIT_PORT 0x10 (h_io w) ∧
    printed w' = printed w ++ bytes name ++ [9] ++ bytes "[ok]" ++ newline ∧
    shows (kw_console (h_state w')) (t_write_string report t).

Lemma fault_recovery_ok name program info Hmap t b format (w : hworld) n :
  test_handed_over info t b → free w → h_state w = b_kernel b →
  Forall plain (bytes name) → program = CRASH_PF_DEMO ∨ program = CRASH_GPF_DEMO →
  succeeds name t w (Test (10 + n) name program info Hmap (b_cpu b) (b_ram b) format w).
Proof.
  intros Hb Hf Hw Hname Hprog. destruct (heap_bring_up_ok info Hmap t b Hb) as (c & k & m & f & Hup & Hat).
  unfold fault_recovery. rewrite Hw, Hup.
  destruct (print_serial_ok [bytes name ++ [9]] (mkH k (h_log w) (h_io w)) Hf) as (w1 & -> & F1 & P1 & S1 & I1).
  { repeat constructor. apply Forall_app. split; [done|]. by repeat constructor. }
  cbn [hthen]. destruct (recover_ok program _ t n Hat Hprog) as (w2 & -> & Hs).
  destruct (println_serial_ok [bytes "[ok]"] (mkH (u_kernel w2) (h_log w1) (h_io w1)) F1)
    as (w3 & -> & F3 & P3 & S3 & I3); [by repeat constructor|]. cbn [hthen].
  eexists. split; [done|]. cbn [exit_qemu h_io h_state exit_code_u32]. rewrite I3, S3. cbn [h_io h_state]. rewrite I1.
  split; [done|]. split; [|done].
  change (printed (exit_qemu Success w3)) with (printed w3). rewrite P3.
  change (printed (mkH (u_kernel w2) (h_log w1) (h_io w1))) with (printed w1). rewrite P1.
  cbn [mjoin list_join]. by rewrite ?app_nil_r, <- ?app_assoc.
Qed.

(** C25: the fault-recovery tests pass.  On a machine with enough memory, each
    of the two test kernels runs its faulting process, from the set-up over
    the fault in ring 3 to the reaped host thread: the kernel survives, both
    assertions hold, and the test reports success. *)
Theorem fault_recovery_passes info Hmap t b format (w : hworld) n :
  test_handed_over info t b → free w → h_state w = b_kernel b →
  succeeds "fault_recovery_pf::page_fault_kills_ring3_process..." t w
    (Pf (10 + n) info Hmap (b_cpu b) (b_ram b) format w) ∧
  succeeds "fault_recovery_gpf::general_protection_fault_kills_ring3_process..." t w
    (Gpf (10 + n) info Hmap (b_cpu b) (b_ram b) format w).
Proof. intros Hb Hf Hw. split; apply fault_recovery_ok; auto; by_decide. Qed.
End passes.

(** ** Witness: the machine of MainThms.v with a silent serial port *)

#[local] Existing Instances demo_gdt demo_pics demo_port_io list_array_queue option_cell option_waker
  demo_volatile demo_mapper demo_laws demo_port flag_mutex.

Definition demo_test : hworld (SP := demo_port) (T := kworld (W := TaskWaker) (E := list Z) (Q := list_array_queue)) :=
  mkH (b_kernel demo_entry) (mkLog ([], false) 0) (mkPorts [] []).

Lemma demo_unmapped m q : m_translate (MapperLaws := demo_mapper_laws) m q = None → demo_user_walk m q = None.
Proof. intros Hq. cbn in Hq. unfold demo_user_walk. by rewrite Hq. Qed.

Lemma demo_test_handed_over :
  test_handed_over (AL := option_waker_laws _) (ML := demo_mapper_laws) 0x2000 0x4000 0x1000
    demo_info demo_term demo_entry.
Proof. split; [apply demo_handed_over|vm_compute; lia|done|done]. Qed.

Lemma fault_recovery_passes_witness :
  ∃ w', fault_recovery_pf 16 0x1000 0x100 0x200 0x7f80 (@translate _ (monotonic_paging_laws (laws := demo_laws) (ML := demo_mapper_laws)))
      demo_user_walk 0x8000 8 0x500 256 (λ _, 0x600) hello 0x33 0x2b RAX RCX RDX RBX 0x5200 0x1000 10
      demo_info demo_info_map (b_cpu demo_entry) (b_ram demo_entry) bytes demo_test = HOn w' ∧
    h_io w' = mkPorts [] [(0xf4, 0x10)].
Proof.
  destruct (fault_recovery_passes (GL := demo_gdt_laws) (SL := demo_port_laws) (MXL := flag_mutex_laws _)
    (VL := demo_volatile_laws) (AL := option_waker_laws _) (ML := demo_mapper_laws)
    16 0x1000 0x100 0x200 0x7f80 0x2000 0x4000 0x6000 demo_user_walk 0x8000 8 0x500 256
    (λ _, 0x600) hello 0x33 0x2b RAX RCX RDX RBX 0x5200 0x1000 demo_ring3_walk demo_unmapped demo_placement demo_priv
    demo_room ltac:(by_decide) eq_refl demo_info demo_info_map demo_term demo_entry bytes demo_test 0)
    as [(w' & E & I & _) _].
  - apply demo_test_handed_over.
  - reflexivity.
  - reflexivity.
  - exists w'. split; [exact E|exact I].
Defined.
