(* ===== verification/Tests.v ===== *)
(** * The kernel's unit tests

    The remaining test functions under src/src, each on the state of the test
    kernel, and [test_kernel_main] of src/src/lib.rs, which brings up the CPU
    and the heap and runs all tests through the harness of TestRunner.v.  No
    interrupt arrives during a test, and the log lines of the code under test
    are left out, except in the tests that are about them. *)

From Stdlib Require Import ZArith Lia.
From stdpp Require Import base gmap list strings numbers.
From S2P Require Import Prelude Fmt AllocMod FixedSizeBlock FrameAlloc Scheduler Machine Thread Vga Libs Keyboard.
From S2P Require Import Executor Logger TestRunner TestsAlloc Paging FramePaging Gdt Kernel Userland Syscall.
From S2P Require Import Interrupts Boot Main.

Open Scope Z_scope.

#[export] Instance caller_eq_dec : EqDecision Caller.
Proof. solve_decision. Defined.
#[export] Instance process_state_eq_dec : EqDecision ProcessState.
Proof. solve_decision. Defined.
#[export] Instance snapshot_eq_dec : EqDecision ProcessSnapshot.
Proof. solve_decision. Defined.
#[export] Instance sys_error_eq_dec : EqDecision SysError.
Proof. solve_decision. Defined.
#[export] Instance service_eq_dec : EqDecision ServiceId.
Proof. solve_decision. Defined.
#[export] Instance scheduler_stats_eq_dec : EqDecision SchedulerStats.
Proof. solve_decision. Defined.
#[export] Instance memory_stats_eq_dec : EqDecision MemoryStats.
Proof. solve_decision. Defined.
#[export] Instance response_eq_dec : EqDecision Response.
Proof. solve_decision. Defined.

Definition is_some {A} (o : option A) : bool := match o with Some _ => true | None => false end.
Definition is_none {A} (o : option A) : bool := negb (is_some o).

(** ** scheduler.rs: on counters of their own *)

Module SchedulerTests.

Definition test_new_scheduler_is_zeroed : outcome unit :=
  let s := sched_new in
  _ ← assert_eq (ticks s) 0;
  _ ← assert_eq (threads_alive s) 0;
  _ ← assert_eq (threads_spawned s) 0;
  _ ← assert_eq (tasks_alive s) 0;
  _ ← assert_eq (tasks_spawned s) 0;
  assert_eq (tasks_completed s) 0.

Definition test_tick_increments_counter : outcome unit :=
  '(_, s) ← tick sched_new;
  '(_, s) ← tick s;
  '(_, s) ← tick s;
  assert_eq (ticks s) 3.

Definition test_thread_spawn_and_exit_balance : outcome unit :=
  let s := note_thread_spawned (note_thread_spawned sched_new) in
  _ ← assert_eq (threads_alive s) 2;
  _ ← assert_eq (threads_spawned s) 2;
  let s := note_thread_exited s in
  _ ← assert_eq (threads_alive s) 1;
  assert_eq (threads_spawned s) 2.

Definition test_process_spawn_and_exit_balance : outcome unit :=
  let s := note_process_spawned (note_process_spawned sched_new) in
  _ ← assert_eq (processes_alive s) 2;
  _ ← assert_eq (processes_spawned s) 2;
  let s := note_process_exited s in
  _ ← assert_eq (processes_alive s) 1;
  assert_eq (processes_spawned s) 2.

Definition test_task_spawn_and_complete_balance : outcome unit :=
  let s := note_task_spawned (note_task_spawned sched_new) in
  _ ← assert_eq (tasks_alive s) 2;
  _ ← assert_eq (tasks_spawned s) 2;
  let s := note_task_completed s in
  _ ← assert_eq (tasks_alive s) 1;
  _ ← assert_eq (tasks_completed s) 1;
  assert_eq (tasks_spawned s) 2.

Definition tests : list (string * outcome unit) :=
  [ ("test_new_scheduler_is_zeroed", test_new_scheduler_is_zeroed);
    ("test_tick_increments_counter", test_tick_increments_counter);
    ("test_thread_spawn_and_exit_balance", test_thread_spawn_and_exit_balance);
    ("test_process_spawn_and_exit_balance", test_process_spawn_and_exit_balance);
    ("test_task_spawn_and_complete_balance", test_task_spawn_and_complete_balance) ]%string.
End SchedulerTests.

(** ** Constants: syscall.rs, userland.rs, gdt.rs, interrupts.rs, serial.rs, lib.rs *)

Module ConstantTests.

(** [size_of::<SyscallFrame>()]: the fields are words, laid out in order. *)
Definition test_syscall_frame_layout_is_120_plus_40_bytes : outcome unit :=
  let frame := mkSFrame 0 0 0 0 0 0 0 0 0 0 0 0 0 0 0 0 0 0 0 0 in
  assert_eq (8 * Z.of_nat (length (frame_words frame))) 160.

Definition test_user_buffer_validation_rejects_out_of_range : outcome unit :=
  _ ← assert (is_none (user_bytes 0x1000 1));
  _ ← assert (is_none (user_bytes (USER_STACK_TOP - 1) 2));
  _ ← assert (is_none (user_bytes USER_CODE_BASE (MAX_USER_IO + 1)));
  assert (is_none (user_bytes (u64_modulus - 1) 2)).

Definition test_user_addresses_are_page_aligned_and_distinct : outcome unit :=
  _ ← assert_eq (USER_CODE_BASE mod 4096) 0;
  _ ← assert_eq (USER_STACK_BASE mod 4096) 0;
  _ ← assert_eq (USER_STACK_TOP mod 4096) 0;
  _ ← assert (USER_STACK_BASE <? USER_STACK_TOP);
  assert_ne USER_CODE_BASE USER_STACK_BASE.

Definition test_user_demo_fits_in_a_page : outcome unit :=
  let len := Z.of_nat (length USER_DEMO) in
  _ ← assert (len <=? 4096);
  assert (19 <=? len).

Definition test_double_fault_ist_index_zero : outcome unit := assert_eq DOUBLE_FAULT_IST_INDEX 0%nat.
Definition test_ist_index_within_bounds : outcome unit := assert (DOUBLE_FAULT_IST_INDEX <? 7)%nat.
Definition test_ist_stack_size_is_20_kib : outcome unit := assert_eq IST_STACK_SIZE 20480.

(** [SegmentSelector::rpl]: the low two bits. *)
Definition rpl (selector : Z) : Z := Z.land selector 3.

Definition test_user_selectors_have_rpl3 {G : GdtApi} : outcome unit :=
  s ← selectors;
  _ ← assert_eq (rpl (user_code s)) 3;
  _ ← assert_eq (rpl (user_data s)) 3;
  assert_eq (rpl (kernel_code s)) 0.

Definition test_pic_offsets_are_standard : outcome unit :=
  _ ← assert_eq PIC_1_OFFSET 32;
  assert_eq PIC_2_OFFSET 40.

Definition test_interrupt_index_values : outcome unit :=
  _ ← assert_eq (as_u8 Timer) PIC_1_OFFSET;
  assert_eq (as_u8 IKeyboard) (PIC_1_OFFSET + 1).

Definition test_syscall_vector_value : outcome unit := assert_eq SYSCALL_VECTOR 0x80.

Definition test_serial_port_base_address : outcome unit := assert_eq SERIAL_PORT_BASE 0x3F8.
Definition test_serial_port_base_valid_range : outcome unit := assert (0 <? SERIAL_PORT_BASE).
Definition test_serial_port_base_standard_com1 : outcome unit := assert_eq SERIAL_PORT_BASE 0x3F8.

Definition test_log_level_tags : outcome unit :=
  _ ← assert_eq (tag LTrace) (bytes "TRC");
  _ ← assert_eq (tag LDebug) (bytes "DBG");
  _ ← assert_eq (tag LInfo) (bytes "INF");
  _ ← assert_eq (tag LWarn) (bytes "WRN");
  assert_eq (tag LError) (bytes "ERR").

Definition test_qemu_exit_code_values : outcome unit :=
  _ ← assert_eq (exit_code_u32 Success) 0x10;
  assert_eq (exit_code_u32 Failed) 0x11.

Definition test_qemu_exit_codes_are_distinct : outcome unit := assert_ne Success Failed.

Definition test_scancode_queue_capacity_constant : outcome unit :=
  assert (32 <=? SCANCODE_QUEUE_CAPACITY)%nat.

Definition test_request_service_mapping : outcome unit :=
  _ ← assert_eq (service ProcessCount) SProcess;
  _ ← assert_eq (service ThreadYield) SThread;
  _ ← assert_eq (service SchedulerStatsReq) SScheduler;
  _ ← assert_eq (service MemoryStatsReq) SMemory;
  _ ← assert_eq (service TimerTicks) STimer;
  _ ← assert_eq (service InputReadByte) SInput;
  assert_eq (service (ConsoleWrite (bytes "x"))) SConsole.
End ConstantTests.

(** ** Tests on the state of the kernel *)

Section state.
Context {G : GdtApi} {PIC : ChainedPics} {IO : PortIo} {SP : SerialPort} {MX : SpinMutex port}.
Context {Q : ArrayQueue} {C : OnceCell aq} {A : AtomicWaker TaskWaker} {V : Volatile}.
Context {api : PhysApi} {laws : PhysLaws api} {M : MapperApi}.
(** Placement of code and data, as in Kernel.v; the code of [ping_thread] and
    of [dummy]; the static buffer of the free-list tests; CR3; the formatted
    message of the breakpoint handler. *)
Context (ctx_offset bootstrap_context yield_ret exit_ret scratch : Z).
Context (ping_thread dummy test_heap cr3 : Z) (report : list Z).

#[local] Existing Instance monotonic_paging.

Abbreviation kworld := (kworld (W := TaskWaker) (E := list Z)).

(** The kernel, and the statics the tests count in. *)
Record tstate := mkT {
  t_kernel : kworld;
  t_next_task : Z;
  SWITCH_HITS : Z;
  COUNT : Z;
  RAN : bool;
}.

Definition on_kernel (k : kworld) (s : tstate) : tstate :=
  mkT k (t_next_task s) (SWITCH_HITS s) (COUNT s) (RAN s).

Definition t_threads (s : tstate) : tworld Fixed.fworld := kw_threads (t_kernel s).
Definition on_threads (ts : tworld Fixed.fworld) (s : tstate) : tstate :=
  on_kernel (with_threads ts (t_kernel s)) s.

Definition set_hits (n : Z) (s : tstate) : tstate :=
  mkT (t_kernel s) (t_next_task s) n (COUNT s) (RAN s).

(** A test that touches no state. *)
Definition pure_test (t : string * outcome unit) : string * (tstate → outcome tstate) :=
  (t.1, λ s, _ ← t.2; Ok s).

(** *** process.rs *)

Definition test_kernel_pid_is_zero : outcome unit := assert_eq KERNEL_PID 0.

Definition test_new_pids_unique_and_skip_zero (s : tstate) : outcome tstate :=
  let '(a, k) := ProcessId_new (t_kernel s) in
  let '(b, k) := ProcessId_new k in
  _ ← assert_ne a b;
  _ ← assert (1 <=? a);
  _ ← assert (a <? b);
  _ ← assert_ne a KERNEL_PID;
  Ok (on_kernel k s).

(** [SCHEDULER] *)
Definition counters (k : kworld) : Scheduler := tw_stats (kw_threads k).

Definition test_process_register_and_exit_round_trip (s : tstate) : outcome tstate :=
  let k := t_kernel s in
  let before_alive := processes_alive (counters k) in
  let before_spawned := processes_spawned (counters k) in
  entry ← virt_addr_new 0x400000000000;
  stack_top ← virt_addr_new 0x400000003000;
  let '(p, k) := Process_new entry stack_top k in
  let id := pid p in
  let '(registered, k) := register_process p k in
  _ ← assert_eq registered id;
  _ ← assert_eq (processes_alive (counters k)) (before_alive + 1);
  _ ← assert_eq (processes_spawned (counters k)) (before_spawned + 1);
  snap ← expect (process_snapshot id k) "registered process should be visible";
  _ ← assert_eq (snap_pid snap) id;
  _ ← assert_eq (snap_user_entry snap) 0x400000000000;
  _ ← assert_eq (snap_user_stack_top snap) 0x400000003000;
  _ ← assert_eq (snap_state snap) PReady;
  let '(_, k) := exit_process id 0 k in
  _ ← assert_eq (processes_alive (counters k)) before_alive;
  _ ← assert_eq (processes_spawned (counters k)) (before_spawned + 1);
  _ ← assert (is_none (process_snapshot id k));
  Ok (on_kernel k s).

(** *** kernel/mod.rs *)

(** [KERNEL.call] of a request that comes back. *)
Definition kernel_call (caller : Caller) (request : Request) (k : kworld) : outcome (Response * kworld) :=
  r ← Kernel.call ctx_offset bootstrap_context yield_ret exit_ret scratch caller request k;
  match r with Returned r k => Ok (r, k) | NoReturn _ => Undef end.

Definition create (entry stack_top : Z) (k : kworld) : outcome (Z * kworld) :=
  entry ← virt_addr_new entry;
  stack_top ← virt_addr_new stack_top;
  '(r, k) ← kernel_call CKernel (ProcessCreate entry stack_top) k;
  match r with RProcess p => Ok (p, k) | _ => Panic "unexpected create response" end.

Definition test_process_lifecycle_through_call (s : tstate) : outcome tstate :=
  let k := t_kernel s in
  let before := process_count k in
  '(p, k) ← create 0x400000000000 0x400000003000 k;
  _ ← assert_eq (process_count k) (before + 1);
  _ ← assert (is_some (process_snapshot p k));
  '(response, k) ← kernel_call (CUser p) (ProcessExit p 7) k;
  _ ← assert_eq response ROk;
  _ ← assert_eq (process_count k) before;
  _ ← assert (is_none (process_snapshot p k));
  Ok (on_kernel k s).

Definition test_user_cannot_exit_another_process (s : tstate) : outcome tstate :=
  '(first, k) ← create 0x400000000000 0x400000003000 (t_kernel s);
  '(second, k) ← create 0x400000000000 0x400000003000 k;
  '(response, k) ← kernel_call (CUser first) (ProcessExit second 0) k;
  _ ← assert_eq response (RErr Denied);
  _ ← assert (is_some (process_snapshot second k));
  let '(_, k) := exit_process first 0 k in
  let '(_, k) := exit_process second 0 k in
  Ok (on_kernel k s).

Definition test_user_cannot_create_processes (s : tstate) : outcome tstate :=
  entry ← virt_addr_new 0x400000000000;
  stack_top ← virt_addr_new 0x400000003000;
  '(response, k) ← kernel_call (CUser KERNEL_PID) (ProcessCreate entry stack_top) (t_kernel s);
  _ ← assert_eq response (RErr Denied);
  Ok (on_kernel k s).

Definition timer_ticks (k : kworld) : outcome (Z * kworld) :=
  '(r, k) ← kernel_call CKernel TimerTicks k;
  match r with RTicks n => Ok (n, k) | _ => Panic "timer request failed" end.

Definition test_memory_and_timer_requests (s : tstate) : outcome tstate :=
  '(r, k) ← kernel_call CKernel MemoryStatsReq (t_kernel s);
  memory ← match r with RMemory m => Ok m | _ => Panic "memory stats request failed" end;
  _ ← assert_eq (ms_heap_size memory) HEAP_SIZE;
  _ ← assert (ms_heap_free memory <=? ms_heap_size memory);
  '(ticks, k) ← timer_ticks k;
  '(again, k) ← timer_ticks k;
  _ ← assert (ticks <=? again);
  Ok (on_kernel k s).

(** *** thread.rs *)

Abbreviation Spawn := (Thread.spawn Fixed.alloc Fixed.scribble ctx_offset).
Abbreviation Yield := (yield_now Fixed.dealloc ctx_offset bootstrap_context yield_ret).
Abbreviation Exit := (exit_thread Fixed.dealloc ctx_offset bootstrap_context exit_ret scratch).

Definition test_thread_ids_are_unique_and_skip_zero (s : tstate) : outcome tstate :=
  let '(a, ts) := ThreadId_new (t_threads s) in
  let '(b, ts) := ThreadId_new ts in
  _ ← assert_ne a b;
  _ ← assert (1 <=? a);
  _ ← assert (a <? b);
  _ ← assert_ne a BOOTSTRAP_ID;
  Ok (on_threads ts s).

(** The thread is not boxed here, and [process] is its tag; its stack is freed
    when the test ends. *)
Definition test_kernel_thread_initial_state_and_stack_setup (s : tstate) : outcome tstate :=
  let process := KERNEL_PID in
  '(_, sp, base, ts) ← KernelThread_new Fixed.alloc Fixed.scribble dummy (t_threads s);
  _ ← assert_eq process KERNEL_PID;
  _ ← assert (base <? sp);
  base_end ← add_u64 base STACK_SIZE;
  _ ← assert (sp <=? base_end);
  _ ← assert_eq (sp mod 8) 0;
  h ← Fixed.dealloc (tw_heap ts) base stack_layout;
  Ok (on_threads (with_heap h ts) s).

(** Dropping a [ThreadScheduler] drops its threads. *)
Fixpoint drop_threads (l : list KernelThread) (ts : tworld Fixed.fworld) : outcome (tworld Fixed.fworld) :=
  match l with
  | [] => Ok ts
  | t :: l => ts ← drop_thread Fixed.dealloc t ts; drop_threads l ts
  end.

(** A scheduler of the test's own: the global one is put back. *)
Definition test_scheduler_spawn_inserts_and_queues (s : tstate) : outcome tstate :=
  let global := tw_sched (t_threads s) in
  '(id, ts) ← Spawn dummy KERNEL_PID (with_sched ts_new (t_threads s));
  let sched := tw_sched ts in
  _ ← assert_eq (thread_count sched) 1;
  _ ← assert_eq (ready_count sched) 1;
  _ ← assert_eq (head (ready sched)) (Some id);
  ts ← drop_threads ((map_to_list (threads sched)).*2) ts;
  Ok (on_threads (with_sched global ts) s).

(** [ping_thread], from where it is up to its next switch: it starts at its
    first instruction, and after its yield it is where [yield_now] returns. *)
Definition ping_turn (s : tstate) : outcome tstate :=
  let s' := set_hits (wrapping_add (SWITCH_HITS s) 1) s in
  let ip := rip (tw_mach (t_threads s)) in
  if ip =? ping_thread then ts ← Yield (t_threads s'); Ok (on_threads ts s')
  else if ip =? yield_ret then ts ← Exit (t_threads s'); Ok (on_threads ts s')
  else Undef.

(** Until the test's own thread is back. *)
Fixpoint others (fuel : nat) (s : tstate) : outcome tstate :=
  if current (tw_sched (t_threads s)) =? BOOTSTRAP_ID then Ok s
  else match fuel with O => Diverge | S fuel => s ← ping_turn s; others fuel s end.

(** [yield_now()] in the test. *)
Definition test_yield (s : tstate) : outcome tstate :=
  ts ← Yield (t_threads s); others 1 (on_threads ts s).

Definition test_yield_round_trips_through_spawned_thread (s : tstate) : outcome tstate :=
  let s := set_hits 0 s in
  '(_, ts) ← Spawn ping_thread KERNEL_PID (t_threads s);
  s ← test_yield (on_threads ts s);
  _ ← assert_eq (SWITCH_HITS s) 1;
  s ← test_yield s;
  _ ← assert_eq (SWITCH_HITS s) 2;
  s ← test_yield s;
  let sched := tw_sched (t_threads s) in
  _ ← assert_eq (thread_count sched) 0;
  _ ← assert_eq (ready_count sched) 0;
  _ ← assert (is_none (reaper sched));
  _ ← assert_eq (current sched) BOOTSTRAP_ID;
  Ok s.

(** *** task/mod.rs and task/executor.rs *)

(** The async blocks of the tests: [async {}], and those that count. *)
Inductive block := BEmpty | BCount | BRan.

#[local] Instance tstate_stats : HasStats tstate := {|
  stats s := counters (t_kernel s);
  set_stats c s := on_threads (with_stats c (t_threads s)) s;
  stats_set c s := eq_refl;
|}.

Definition poll_block (_ : TaskWaker) (b : block) (s : tstate) : outcome (bool * block * list Z * tstate) :=
  let s := match b with
           | BEmpty => s
           | BCount => mkT (t_kernel s) (t_next_task s) (SWITCH_HITS s) (wrapping_add (COUNT s) 1) (RAN s)
           | BRan => mkT (t_kernel s) (t_next_task s) (SWITCH_HITS s) (COUNT s) true
           end in
  Ok (true, b, [], s).

(** A test with an executor of its own; the counter of the ids is global. *)
Definition new_executor (s : tstate) : xworld (F := block) (Env := tstate) := mkX exec_new (t_next_task s) [] s.

Definition leave (x : xworld (F := block) (Env := tstate)) : tstate :=
  let s := x_env x in mkT (t_kernel s) (x_next_id x) (SWITCH_HITS s) (COUNT s) (RAN s).

Definition test_task_ids_are_unique_and_monotonic (s : tstate) : outcome tstate :=
  let '(a, x) := TaskId_new (new_executor s) in
  let '(b, x) := TaskId_new x in
  let '(c, x) := TaskId_new x in
  _ ← assert_ne a b;
  _ ← assert_ne b c;
  _ ← assert (a <? b);
  _ ← assert (b <? c);
  Ok (leave x).

Definition test_task_carries_its_id (s : tstate) : outcome tstate :=
  let '(task, x) := Task_new BEmpty (new_executor s) in
  let reported := task_id task in
  _ ← assert_eq reported (task_id task);
  Ok (leave x).

(** The no-op waker is never called. *)
Definition test_task_runs_future_side_effects (s : tstate) : outcome tstate :=
  let s := mkT (t_kernel s) (t_next_task s) (SWITCH_HITS s) (COUNT s) false in
  let '(task, x) := Task_new BRan (new_executor s) in
  '(ready, _, _, s) ← poll poll_block (TaskWaker_new 0) task (leave x);
  _ ← assert_eq ready true;
  _ ← assert (RAN s);
  Ok s.

Definition test_new_executor_has_no_tasks (s : tstate) : outcome tstate :=
  _ ← assert_eq (task_count (x_exec (new_executor s))) 0%nat;
  Ok s.

Definition test_spawn_inserts_task_and_enqueues_id (s : tstate) : outcome tstate :=
  let '(task, x) := Task_new BEmpty (new_executor s) in
  let id := task_id task in
  x ← Executor.spawn task x;
  _ ← assert_eq (task_count (x_exec x)) 1%nat;
  _ ← assert_eq (fst <$> aq_pop (task_queue (x_exec x))) (Some id);
  Ok (leave x).

Fixpoint spawn_counting (n : nat) (x : xworld (F := block) (Env := tstate)) : outcome (xworld (F := block) (Env := tstate)) :=
  match n with
  | O => Ok x
  | S n => let '(task, x) := Task_new BCount x in x ← Executor.spawn task x; spawn_counting n x
  end.

Definition test_run_ready_tasks_completes_simple_futures (s : tstate) : outcome tstate :=
  let s := mkT (t_kernel s) (t_next_task s) (SWITCH_HITS s) 0 (RAN s) in
  x ← spawn_counting 3 (new_executor s);
  x ← run_ready_tasks poll_block 4 x;
  _ ← assert_eq (COUNT (x_env x)) 3;
  _ ← assert_eq (task_count (x_exec x)) 0%nat;
  Ok (leave x).

(** The queue after a [pop] that has to give [o]. *)
Definition pops (o : option Z) (q : aq) : outcome aq :=
  match aq_pop q with
  | Some (id, q) => _ ← assert_eq (Some id) o; Ok q
  | None => _ ← assert_eq None o; Ok q
  end.

Definition test_task_waker_pushes_id_to_queue (s : tstate) : outcome tstate :=
  let queue := aq_new 4 in
  let '(id, x) := TaskId_new (new_executor s) in
  let waker := TaskWaker_new id in
  queue ← wake_by_ref waker queue;
  queue ← Executor.wake waker queue;
  queue ← pops (Some id) queue;
  queue ← pops (Some id) queue;
  _ ← pops None queue;
  Ok (leave x).

Definition test_run_ready_tasks_ignores_unknown_ids (s : tstate) : outcome tstate :=
  let '(id, x) := TaskId_new (new_executor s) in
  q ← expect (aq_push (task_queue (x_exec x)) id) "queue should accept push";
  x ← run_ready_tasks poll_block 2 (set_queue q x);
  _ ← assert_eq (task_count (x_exec x)) 0%nat;
  Ok (leave x).

(** *** memory.rs *)

Definition test_page_containing_address : outcome unit :=
  addr ← virt_addr_new 0x8000;
  let page := page_containing addr in
  expected ← virt_addr_new 0x8000;
  assert_eq page expected.

Definition test_page_range_inclusive : outcome unit :=
  first ← virt_addr_new 0x1000;
  last ← virt_addr_new 0x3000;
  let count := length (page_range_inclusive (page_containing first) (page_containing last)) in
  assert_eq count 3%nat.

(** The start address of the frame that contains [a]. *)
Definition frame_start (a : Z) : outcome Z :=
  addr ← phys_addr_new a; Ok (start_address (containing_address addr)).

Definition test_phys_frame_containing_address : outcome unit :=
  start ← frame_start 0xb8000; assert_eq start 0xb8000.

Definition test_page_table_flags_present_writable : outcome unit :=
  let flags := Z.lor PRESENT WRITABLE in
  _ ← assert (Z.land flags PRESENT =? PRESENT);
  assert (Z.land flags WRITABLE =? WRITABLE).

Definition test_vga_frame_address : outcome unit :=
  let vga_addr := 0xb8000 in
  start ← frame_start vga_addr; assert_eq start vga_addr.

(** *** vga_buffer.rs *)

Definition print_line (pieces : list (list Z)) (s : tstate) : outcome tstate :=
  c ← console_do (println pieces) (kw_console (t_kernel s));
  Ok (on_kernel (with_console c (t_kernel s)) s).

Definition test_println_simple : tstate → outcome tstate := print_line [bytes "test_println_simple output"].

Fixpoint println_many (n : nat) (s : tstate) : outcome tstate :=
  match n with
  | O => Ok s
  | S n => s ← print_line [bytes "test_println_many output"] s; println_many n s
  end.

Definition test_println_many : tstate → outcome tstate := println_many 200.

(** The characters of [line], from column [i] of the row above the last. *)
Fixpoint check_row (i : nat) (line : list Z) (c : Writer) : outcome unit :=
  match line with
  | [] => Ok tt
  | ch :: line =>
      screen_char ← read_cell (buffer c) (BUFFER_HEIGHT - 2) i;
      _ ← assert_eq (ascii_character screen_char) ch;
      check_row (S i) line c
  end.

Definition test_println_output (s : tstate) : outcome tstate :=
  let line := bytes "Some test string that fits on a single line" in
  s ← print_line [newline; line] s;
  _ ← check_row 0 line (kw_console (t_kernel s));
  Ok s.

(** *** interrupts.rs *)

(** [int3]: the gate of vector 3. *)
Definition int3 (k : kworld) : outcome kworld :=
  match g_handler <$> IDT !! BREAKPOINT_VECTOR with
  | Some HBreakpoint => breakpoint_handler report k
  | _ => Undef
  end.

Definition test_breakpoint_exception (s : tstate) : outcome tstate :=
  k ← int3 (t_kernel s);
  Ok (on_kernel k s).

(** *** logger.rs and task/keyboard.rs: what they log goes out *)

Abbreviation hworld := (hworld (T := tstate)).

Definition test_dropped_messages_is_monotonic (w : hworld) : outcome hworld :=
  let before := dropped_messages (h_log w) in
  let log := klogln [bytes "logger monotonic dropped counter test"] (h_log w) in
  let after := dropped_messages log in
  _ ← assert (before <=? after);
  Ok (mkH (h_state w) log (h_io w)).

Definition test_add_scancode_does_not_panic_when_queue_uninitialized (w : hworld) : outcome hworld :=
  let s := h_state w in
  '(warning, i) ← add_scancode (λ _ woken, Ok woken) 0xAB (kw_input (t_kernel s));
  let log := match warning with
             | Some text => kwarnln (bytes "KBD ") [bytes text] (h_log w)
             | None => h_log w
             end in
  Ok (mkH (on_kernel (with_input i (t_kernel s)) s) log (h_io w)).

(** ** The suite *)

Definition state_tests : list (string * (tstate → outcome tstate)) :=
  (pure_test <$> (LinkedListTests.tests test_heap ++ BumpTests.tests ++ FixedTests.tests ++
     AllocModTests.tests ++ SchedulerTests.tests ++
   [ ("test_double_fault_ist_index_zero", ConstantTests.test_double_fault_ist_index_zero);
     ("test_ist_index_within_bounds", ConstantTests.test_ist_index_within_bounds);
     ("test_ist_stack_size_is_20_kib", ConstantTests.test_ist_stack_size_is_20_kib);
     ("test_user_selectors_have_rpl3", ConstantTests.test_user_selectors_have_rpl3);
     ("test_pic_offsets_are_standard", ConstantTests.test_pic_offsets_are_standard);
     ("test_interrupt_index_values", ConstantTests.test_interrupt_index_values);
     ("test_syscall_vector_value", ConstantTests.test_syscall_vector_value);
     ("test_request_service_mapping", ConstantTests.test_request_service_mapping);
     ("test_log_level_tags", ConstantTests.test_log_level_tags);
     ("test_page_containing_address", test_page_containing_address);
     ("test_page_range_inclusive", test_page_range_inclusive);
     ("test_phys_frame_containing_address", test_phys_frame_containing_address);
     ("test_page_table_flags_present_writable", test_page_table_flags_present_writable);
     ("test_vga_frame_address", test_vga_frame_address);
     ("test_kernel_pid_is_zero", test_kernel_pid_is_zero);
     ("test_serial_port_base_address", ConstantTests.test_serial_port_base_address);
     ("test_serial_port_base_valid_range", ConstantTests.test_serial_port_base_valid_range);
     ("test_serial_port_base_standard_com1", ConstantTests.test_serial_port_base_standard_com1);
     ("test_syscall_frame_layout_is_120_plus_40_bytes", ConstantTests.test_syscall_frame_layout_is_120_plus_40_bytes);
     ("test_user_buffer_validation_rejects_out_of_range", ConstantTests.test_user_buffer_validation_rejects_out_of_range);
     ("test_scancode_queue_capacity_constant", ConstantTests.test_scancode_queue_capacity_constant);
     ("test_user_addresses_are_page_aligned_and_distinct", ConstantTests.test_user_addresses_are_page_aligned_and_distinct);
     ("test_user_demo_fits_in_a_page", ConstantTests.test_user_demo_fits_in_a_page);
     ("test_qemu_exit_code_values", ConstantTests.test_qemu_exit_code_values);
     ("test_qemu_exit_codes_are_distinct", ConstantTests.test_qemu_exit_codes_are_distinct) ]%string)) ++
  [ ("test_breakpoint_exception", test_breakpoint_exception);
    ("test_process_lifecycle_through_call", test_process_lifecycle_through_call);
    ("test_user_cannot_exit_another_process", test_user_cannot_exit_another_process);
    ("test_user_cannot_create_processes", test_user_cannot_create_processes);
    ("test_memory_and_timer_requests", test_memory_and_timer_requests);
    ("test_new_pids_unique_and_skip_zero", test_new_pids_unique_and_skip_zero);
    ("test_process_register_and_exit_round_trip", test_process_register_and_exit_round_trip);
    ("test_new_executor_has_no_tasks", test_new_executor_has_no_tasks);
    ("test_spawn_inserts_task_and_enqueues_id", test_spawn_inserts_task_and_enqueues_id);
    ("test_run_ready_tasks_completes_simple_futures", test_run_ready_tasks_completes_simple_futures);
    ("test_task_waker_pushes_id_to_queue", test_task_waker_pushes_id_to_queue);
    ("test_run_ready_tasks_ignores_unknown_ids", test_run_ready_tasks_ignores_unknown_ids);
    ("test_task_ids_are_unique_and_monotonic", test_task_ids_are_unique_and_monotonic);
    ("test_task_carries_its_id", test_task_carries_its_id);
    ("test_task_runs_future_side_effects", test_task_runs_future_side_effects);
    ("test_thread_ids_are_unique_and_skip_zero", test_thread_ids_are_unique_and_skip_zero);
    ("test_kernel_thread_initial_state_and_stack_setup", test_kernel_thread_initial_state_and_stack_setup);
    ("test_scheduler_spawn_inserts_and_queues", test_scheduler_spawn_inserts_and_queues);
    ("test_yield_round_trips_through_spawned_thread", test_yield_round_trips_through_spawned_thread);
    ("test_println_simple", test_println_simple);
    ("test_println_many", test_println_many);
    ("test_println_output", test_println_output) ]%string.

(** In the order of the modules.  userland.rs defines
    [test_user_addresses_are_page_aligned_and_distinct] twice, with the same
    body, which the compiler refuses; it is here once. *)
Definition suite : list Test :=
  (silent <$> state_tests) ++
  [ mkTest "test_dropped_messages_is_monotonic" test_dropped_messages_is_monotonic;
    mkTest "test_add_scancode_does_not_panic_when_queue_uninitialized"
      test_add_scancode_does_not_panic_when_queue_uninitialized ].

(** ** [test_kernel_main] *)

(** Up to [test_main]: the CPU, the page tables, the heap. *)
Definition test_bring_up (boot_info : BootInfo) (Hmap : map_ok (bi_map boot_info)) (c : cpu) (k : kworld)
  : outcome kworld :=
  '(_, k, _, _) ← heap_bring_up cr3 boot_info Hmap c k;
  Ok k.

(** A panic goes to the panic handler of the test kernel; [format] renders
    it. *)
Definition test_kernel_main (boot_info : BootInfo) (Hmap : map_ok (bi_map boot_info)) (c : cpu)
  (format : string → list Z) (w : hworld) : hresult :=
  match test_bring_up boot_info Hmap c (t_kernel (h_state w)) with
  | Ok k => test_main format suite (mkH (on_kernel k (h_state w)) (h_log w) (h_io w))
  | Panic msg => test_panic_handler (format msg) w
  | _ => HStuck
  end.
End state.
