(* ===== verification/TestsThms.v ===== *)
(** * The unit tests on the model

    The suite of Tests.v, run by [test_kernel_main] from the state the
    bootloader leaves, as a check of the model against what the source expects
    of itself.  Libraries, placement and memory map are the examples the
    witnesses use, and the tests of the allocators, the threads, the processes
    and the executor are evaluated; those that print are proved for any
    contents of the screen. *)

From Stdlib Require Import ZArith Lia.
From stdpp Require Import base gmap list strings numbers.
From S2P Require Import Prelude Fmt AllocMod FixedSizeBlock FrameAlloc Scheduler Machine Thread ThreadThms Vga Libs.
From S2P Require Import Keyboard Executor Logger TestRunner TestsAlloc Paging FramePaging Gdt Kernel Userland.
From S2P Require Import Interrupts StartupThms Boot Main MainThms Tests.

Open Scope Z_scope.

(** ** Tests in a row *)

Section row.
Context {T : Type}.

Fixpoint pass_all (tests : list (string * (T → outcome T))) (s : T) : outcome T :=
  match tests with
  | [] => Ok s
  | t :: tests => s ← t.2 s; pass_all tests s
  end.

Lemma pass_all_app l k s : pass_all (l ++ k) s = (s ← pass_all l s; pass_all k s).
Proof. revert s. induction l as [|t l IH]; intros s; [done|]. cbn. destruct (t.2 s); [apply IH|done..]. Qed.

Lemma pass_all_report tests s s' : pass_all tests s = Ok s' → ∃ out, report tests s = Some (out, inr s').
Proof.
  revert s. induction tests as [|[name f] tests IH]; intros s Hp; [injection Hp as <-; by eexists|].
  cbn in *. destruct (f s) as [s1| | |]; try done. destruct (IH s1 Hp) as [out ->]. by eexists.
Qed.
End row.

Lemma run_tests_app {SP : SerialPort} {M : SpinMutex port} {IO : PortIo} {T} (l k : list (Test (T := T))) w :
  run_tests (l ++ k) w = hthen (run_tests l w) (run_tests k).
Proof.
  revert w. induction l as [|t l IH]; intros w; [done|].
  cbn. destruct (run t w) as [w1| |]; cbn; [apply IH|done..].
Qed.

(** Tests that write to the log. *)
Section logging.
Context {IO : PortIo} {SP : SerialPort} {SL : SerialPortLaws SP} {MX : SpinMutex port} {MXL : SpinMutexLaws port MX}.
Context {T : Type}.
Abbreviation hworld := (hworld (T := T)).

(** [P] is what the test does to the state, [g] what it does to the ports. *)
Lemma logging_test_post name f (w : hworld) (P : T → Prop) g :
  free w → Forall plain (bytes name) →
  (∀ w1, h_state w1 = h_state w → free w1 →
     ∃ w2, f w1 = Ok w2 ∧ free w2 ∧ P (h_state w2) ∧ h_io w2 = g (h_io w1)) →
  ∃ w', TestRunner.run (mkTest name f) w = HOn w' ∧ free w' ∧ P (h_state w') ∧ h_io w' = g (h_io w).
Proof.
  intros Hf Hn Ht. unfold TestRunner.run. cbn [type_name].
  destruct (print_serial_ok [bytes name; bytes "..." ++ [9]] w Hf) as (w1 & -> & F1 & _ & S1 & I1);
    [by repeat constructor|]. cbn [hthen]. unfold run_fn. cbn [test_fn].
  destruct (Ht w1 S1 F1) as (w2 & -> & F2 & S2 & I2). cbn [hthen].
  destruct (println_serial_ok [bytes "[ok]"] w2 F2) as (w3 & -> & F3 & _ & S3 & I3); [by repeat constructor|].
  exists w3. split; [done|]. split; [done|]. rewrite S3. split; [done|congruence].
Qed.

Lemma logging_test_ok name f (w : hworld) s :
  free w → Forall plain (bytes name) →
  (∀ w1, h_state w1 = h_state w → free w1 →
     ∃ w2, f w1 = Ok w2 ∧ free w2 ∧ h_state w2 = s ∧ h_io w2 = h_io w1) →
  ∃ w', TestRunner.run (mkTest name f) w = HOn w' ∧ free w' ∧ h_state w' = s ∧ h_io w' = h_io w.
Proof. apply (logging_test_post name f w (λ x, x = s) (λ p, p)). Qed.

Lemma emit_free pieces (l : lworld) :
  Forall (Forall plain) pieces → locked (SERIAL1 l) = false →
  locked (SERIAL1 (emit pieces l)) = false ∧ dropped_messages (emit pieces l) = dropped_messages l.
Proof. intros Hp Hl. destruct (emit_spec pieces l Hp) as [_ H]. destruct (H Hl) as (_ & ? & ?). done. Qed.
End logging.

(** ** The suite *)

Section suite.
Context {IO : PortIo} {SP : SerialPort} {SL : SerialPortLaws SP} {MX : SpinMutex port} {MXL : SpinMutexLaws port MX}.
Context {V : Volatile} {VL : VolatileLaws V}.
#[local] Existing Instances demo_gdt demo_pics list_array_queue option_cell option_waker demo_mapper demo_api demo_laws.

(** The formatted message of the breakpoint handler. *)
Context (breakpoint : list Z).

Abbreviation tstate := (tstate (Q := list_array_queue)).
Abbreviation hworld := (hworld (T := tstate)).
Abbreviation Tests := (state_tests 16 0x1000 0x100 0x200 0x7f80 0x5000 0x5100 0x10000 breakpoint).
Abbreviation Suite := (suite 16 0x1000 0x100 0x200 0x7f80 0x5000 0x5100 0x10000 breakpoint).
Abbreviation Main := (test_kernel_main 16 0x1000 0x100 0x200 0x7f80 0x5000 0x5100 0x10000 0x1000 breakpoint
  demo_info demo_info_map demo_reset).

(** The statics of the test kernel, with the screen [c] and the heap [h]. *)
Definition statics (h : Fixed.fworld) (c : Writer) : tstate :=
  mkT (mkKW (mkTW ts_new sched_new 1 h demo_machine) ∅ 1 (mkK (A := option_waker TaskWaker) None None None []) c)
    0 0 0 false.

Definition no_heap : Fixed.fworld := Fixed.mkFW Fixed.empty ∅.
Definition boot_heap : Fixed.fworld := value no_heap (Fixed.init no_heap HEAP_START HEAP_SIZE).

Lemma test_bring_up_ok c :
  test_bring_up 0x1000 demo_info demo_info_map demo_reset (t_kernel (statics no_heap c)) =
    Ok (t_kernel (statics boot_heap c)).
Proof. vm_compute. reflexivity. Qed.

(** The tests that touch no state. *)
Lemma pure_tests_pass s : pass_all (take 59 Tests) s = Ok s.
Proof. vm_compute. reflexivity. Qed.

(** Those that keep the screen, by evaluation. *)
Lemma state_tests_pass c :
  match pass_all (take 18 (drop 60 Tests)) (statics boot_heap c) with
  | Ok s => kw_console (t_kernel s) = c ∧ SCANCODE_QUEUE (kw_input (t_kernel s)) = None
  | _ => False
  end.
Proof. vm_compute. split; reflexivity. Qed.

(** *** The tests that print *)

Lemma print_line_ok pieces (s : tstate) t :
  shows (kw_console (t_kernel s)) t →
  ∃ c, print_line pieces s = Ok (on_kernel (with_console c (t_kernel s)) s) ∧
    shows c (t_write_string (mjoin (pieces ++ [newline])) t).
Proof.
  intros Ht. unfold print_line, console_do, println. destruct (print_refines (pieces ++ [newline]) _ _ Ht) as (c & -> & Hc).
  by exists c.
Qed.

(** A line of its own, on the row above the last. *)
Lemma own_line s t :
  length (bottom t) = BUFFER_WIDTH → (length s <= BUFFER_WIDTH)%nat →
  Forall (λ b, printable b = b ∧ b ≠ 10) s →
  ∃ t', t_write_string (newline ++ s ++ newline) t = t' ∧
    history t' = history t ++ [bottom t; ((λ b, mkChar b (t_color t)) <$> s) ++ drop (length s) (blank_row (t_color t))].
Proof.
  intros Hb Hl Hs. eexists. split; [done|]. unfold t_write_string. rewrite !foldl_app.
  change (foldl _ t newline) with (t_new_line t). fold (t_write_string s (t_new_line t)).
  assert (Forall (λ b, printable b ≠ 10) s) as Hn by (eapply Forall_impl; [|exact Hs]; by intros b [-> ?]).
  rewrite t_write_string_line; [|done|apply blank_row_length|done]. cbn [foldl newline].
  unfold t_write_byte. change (printable 10 =? 10) with true. cbn [t_new_line history bottom t_col t_color take app].
  rewrite <- app_assoc. cbn [app]. do 3 f_equal. rewrite take_0. cbn [app Nat.add].
  f_equal. apply list_fmap_ext. intros i b Hi.
  destruct (Forall_lookup_1 _ _ _ _ Hs Hi) as [-> _]. done.
Qed.

Lemma check_row_ok i line (c : Writer) row :
  screen c !! (BUFFER_HEIGHT - 2)%nat = Some row → (∀ j b, line !! j = Some b → ascii_character <$> row !! (i + j)%nat = Some b) →
  check_row i line c = Ok tt.
Proof.
  intros Hr. revert i. induction line as [|b line IH]; intros i Hl; [done|]. cbn [check_row].
  pose proof (Hl 0%nat b eq_refl) as Hb. rewrite Nat.add_0_r in Hb. destruct (row !! i) as [ch|] eqn:E; [|done].
  rewrite (read_cell_ok _ _ _ _ _ Hr E). bstep. injection Hb as Hb. unfold assert_eq. rewrite bool_decide_eq_true_2 by done.
  bstep. apply IH. intros j b' Hj. rewrite Nat.add_succ_comm. by apply Hl.
Qed.

Lemma println_output_ok (s : tstate) t :
  shows (kw_console (t_kernel s)) t →
  ∃ c t', test_println_output s = Ok (on_kernel (with_console c (t_kernel s)) s) ∧ shows c t'.
Proof.
  intros Ht. unfold test_println_output. set (line := bytes "Some test string that fits on a single line").
  destruct (print_line_ok [newline; line] s t Ht) as (c & -> & Hc). bstep. exists c. eexists. split; [|exact Hc].
  change (mjoin ([newline; line] ++ [newline])) with (newline ++ line ++ newline) in Hc.
  pose proof (sh_rows _ _ Ht) as Hw. apply Forall_app in Hw as [_ Hw]. rewrite Forall_singleton in Hw.
  destruct (own_line line t Hw) as (t' & E & Hh); [vm_compute; lia|repeat constructor; done|].
  rewrite E in Hc. cbn [t_kernel on_kernel kw_console with_console].
  rewrite (check_row_ok 0 line c (((λ b, mkChar b (t_color t)) <$> line) ++ drop (length line) (blank_row (t_color t)))); [done|..].
  - rewrite (sh_screen _ _ Hc), Hh. pose proof (sh_height _ _ Ht) as H24. unfold BUFFER_HEIGHT.
    rewrite lookup_app_l by (rewrite length_drop, !length_app; cbn [length]; lia).
    rewrite lookup_drop, length_app. cbn [length]. rewrite lookup_app_r by lia.
    by replace (_ - length (history t))%nat with 1%nat by lia.
  - intros j b Hj. rewrite Nat.add_0_l. rewrite lookup_app_l by (rewrite length_fmap; by eapply lookup_lt_Some).
    by rewrite list_lookup_fmap, Hj.
Qed.

Lemma println_many_ok n (s : tstate) t :
  shows (kw_console (t_kernel s)) t →
  ∃ c t', println_many n s = Ok (on_kernel (with_console c (t_kernel s)) s) ∧ shows c t'.
Proof.
  revert s t. induction n as [|n IH]; intros s t Ht.
  { exists (kw_console (t_kernel s)), t. split; [by destruct s as [[] ? ? ? ?]|done]. }
  cbn [println_many]. destruct (print_line_ok [bytes "test_println_many output"] s t Ht) as (c & -> & Hc). bstep.
  destruct (IH (on_kernel (with_console c (t_kernel s)) s) _ Hc) as (c' & t' & -> & Hc').
  exists c', t'. done.
Qed.

(** The three tests of the console. *)
Lemma console_tests_pass (s : tstate) t :
  shows (kw_console (t_kernel s)) t →
  ∃ c t', pass_all (drop 78 Tests) s = Ok (on_kernel (with_console c (t_kernel s)) s) ∧ shows c t'.
Proof.
  intros Ht. change (drop 78 Tests) with
    [ ("test_println_simple", test_println_simple); ("test_println_many", test_println_many);
      ("test_println_output", test_println_output) ]%string. cbn [pass_all snd].
  destruct (print_line_ok [bytes "test_println_simple output"] s t Ht) as (c1 & E1 & H1).
  unfold test_println_simple. rewrite E1. bstep.
  destruct (println_many_ok 200 (on_kernel (with_console c1 (t_kernel s)) s) _ H1) as (c2 & t2 & E2 & H2).
  unfold test_println_many. rewrite E2. bstep.
  destruct (println_output_ok (on_kernel (with_console c2 (t_kernel s)) s) _ H2) as (c3 & t3 & E3 & H3).
  exists c3, t3. split; [|done]. by apply (bind_ok _ _ _ E3).
Qed.

Lemma breakpoint_test_passes (s : tstate) t :
  shows (kw_console (t_kernel s)) t →
  ∃ c t', test_breakpoint_exception breakpoint s = Ok (on_kernel (with_console c (t_kernel s)) s) ∧ shows c t'.
Proof.
  intros Ht. destruct (write_string_refines breakpoint _ _ Ht) as (c & E & Hc). exists c. eexists. split; [|exact Hc].
  unfold test_breakpoint_exception. change (int3 breakpoint (t_kernel s)) with (breakpoint_handler breakpoint (t_kernel s)).
  unfold breakpoint_handler, write_str. by rewrite E.
Qed.

(** *** All tests that leave the log alone *)

Lemma all_pass c t :
  shows c t →
  ∃ s, pass_all Tests (statics boot_heap c) = Ok s ∧ SCANCODE_QUEUE (kw_input (t_kernel s)) = None.
Proof.
  intros Ht. destruct (breakpoint_test_passes (statics boot_heap c) t Ht) as (c1 & t1 & E1 & H1).
  change Tests with (take 59 Tests ++ [("test_breakpoint_exception"%string, test_breakpoint_exception breakpoint)] ++
    take 18 (drop 60 Tests) ++ drop 78 Tests).
  rewrite pass_all_app, pure_tests_pass. bstep. cbn [app pass_all snd]. rewrite (bind_ok _ _ _ E1), pass_all_app.
  change (on_kernel _ _) with (statics boot_heap c1). pose proof (state_tests_pass c1) as H2.
  destruct (pass_all (take 18 (drop 60 Tests)) (statics boot_heap c1)) as [s2| | |]; try done. destruct H2 as [H2 H3].
  bstep. rewrite <- H2 in H1. destruct (console_tests_pass s2 t1 H1) as (c3 & t3 & E3 & _).
  eexists. split; [exact E3|done].
Qed.

#[local] Instance plain_dec b : Decision (plain b).
Proof. unfold plain. apply _. Defined.

Lemma names_plain : Forall (λ t, Forall plain (bytes t.1)) Tests.
Proof. by_decide. Qed.

(** *** The two that log *)

Lemma dropped_test_passes (w : hworld) :
  free w → ∃ w', test_dropped_messages_is_monotonic w = Ok w' ∧ free w' ∧ h_state w' = h_state w ∧ h_io w' = h_io w.
Proof.
  intros Hf. unfold test_dropped_messages_is_monotonic, klogln, klog, log_print.
  destruct (emit_free ([bytes "logger monotonic dropped counter test"] ++ [[10]]) (h_log w)) as [H1 H2];
    [by_decide|done|]. rewrite H2. unfold assert. rewrite Z.leb_refl. cbn [rust_assert]. bstep. by eexists.
Qed.

Lemma scancode_test_passes (w : hworld) :
  free w → SCANCODE_QUEUE (kw_input (t_kernel (h_state w))) = None →
  ∃ w', test_add_scancode_does_not_panic_when_queue_uninitialized w = Ok w' ∧ free w' ∧ h_state w' = h_state w ∧ h_io w' = h_io w.
Proof.
  intros Hf Hq. unfold test_add_scancode_does_not_panic_when_queue_uninitialized, add_scancode.
  rewrite Hq. cbn [try_get option_cell]. bstep. unfold kwarnln, kwarn, log.
  eexists. split; [done|]. split; [|split; [by destruct (h_state w) as [[] ? ? ? ?]|done]].
  unfold free. cbn [h_log]. apply emit_free; [|done]. by_decide.
Qed.

Lemma suite_passes (w : hworld) c t :
  free w → shows c t → h_state w = statics boot_heap c →
  ∃ w', run_tests Suite w = HOn w' ∧ free w' ∧ h_io w' = h_io w.
Proof.
  intros Hf Hc Hs. destruct (all_pass c t Hc) as (s & Hp & Hq). rewrite <- Hs in Hp.
  destruct (pass_all_report _ _ _ Hp) as [out Hr].
  destruct (run_tests_ok Tests w out (inr s) Hf names_plain Hr) as (w1 & E1 & F1 & _ & I1 & S1).
  unfold suite. rewrite run_tests_app, E1. cbn [verdict hthen run_tests final] in *.
  destruct (logging_test_ok "test_dropped_messages_is_monotonic" test_dropped_messages_is_monotonic w1 s F1)
    as (w2 & -> & F2 & S2 & I2); [by_decide| |].
  { intros w' Hw' Hf'. rewrite S1 in Hw'. rewrite <- Hw'. by apply dropped_test_passes. }
  cbn [hthen].
  destruct (logging_test_ok "test_add_scancode_does_not_panic_when_queue_uninitialized"
    test_add_scancode_does_not_panic_when_queue_uninitialized w2 s F2) as (w3 & -> & F3 & S3 & I3); [by_decide| |].
  { intros w' Hw' Hf'. rewrite S2 in Hw'. rewrite <- Hw' in *. by apply scancode_test_passes. }
  exists w3. split; [done|]. split; [done|congruence].
Qed.

(** Started by the bootloader with the statics as initialised, whatever is on
    the screen and was sent before, the test kernel brings up the CPU and the
    heap, runs the 83 tests with every assertion holding, prints the closing
    line and writes the exit code for success, and nothing else, to the exit
    device. *)
Lemma unit_tests_pass format (w : hworld) c t :
  free w → shows c t → h_state w = statics no_heap c →
  length Suite = 83%nat ∧
  ∃ w' out, Main format w = HOn w' ∧ h_io w' = outl EXIT_PORT 0x10 (h_io w) ∧ printed w' = out ++ footer.
Proof.
  intros Hf Hc Hs. split; [done|]. unfold test_kernel_main. rewrite Hs, test_bring_up_ok. unfold test_main.
  set (w0 := mkH _ _ _). destruct (test_runner_eq Suite w0 Hf) as (w1 & -> & F1 & _ & S1 & I1).
  destruct (suite_passes w1 c t F1 Hc S1) as (w2 & -> & F2 & I2). cbn [hthen].
  destruct (closing_ok w2 F2) as (w3 & -> & P3 & _ & I3). exists w3, (printed w2).
  split; [done|]. split; [|done]. by rewrite I3, I2, I1.
Qed.
End suite.
