(* ===== verification/Integration.v ===== *)
(** * The integration tests

    Test kernels of src/tests: heap_allocation.rs (its tests are in
    HeapTests.v), async_tasks.rs, runtime_observability.rs, basic_boot.rs and
    should_panic.rs.  The first three bring up the heap like
    [test_kernel_main]; the fourth boots nothing; the fifth has no harness and
    succeeds by panicking.  Interrupts arrive only where a test halts the CPU
    to wait for one. *)

From Stdlib Require Import ZArith Lia.
From stdpp Require Import base gmap list strings numbers.
From S2P Require Import Prelude Fmt AllocMod FixedSizeBlock HeapProg HeapTests FrameAlloc Scheduler Machine Thread ThreadThms Vga Libs.
From S2P Require Import Keyboard Executor ExecLoop Logger TestRunner TestsAlloc Paging FramePaging Gdt Kernel Userland.
From S2P Require Import Interrupts Startup StartupThms Boot Main MainThms FaultRecovery Tests TestsThms.

Open Scope Z_scope.

Section integration.
Context {G : GdtApi} {PIC : ChainedPics} {IO : PortIo} {SP : SerialPort} {MX : SpinMutex port}.
Context {Q : ArrayQueue} {C : OnceCell aq} {A : AtomicWaker TaskWaker} {V : Volatile}.
Context {api : PhysApi} {laws : PhysLaws api} {M : MapperApi}.
Context (cr3 : Z).

#[local] Existing Instance monotonic_paging.

Abbreviation kworld := (kworld (W := TaskWaker) (E := list Z)).

(** The atomics of async_tasks.rs. *)
Record atomics := mkAt {
  SIMPLE_COUNTER : Z;
  EXECUTOR_COUNTER : Z;
  AWAITED_VALUE : Z;
  POLLS : Z;
  DONE : Z;
}.

(** The kernel and the next task id; the atomics and the waker of the tests;
    the interrupt controllers and the interrupts to come. *)
Record istate := mkI {
  i_kernel : kworld;
  i_next_task : Z;
  i_at : atomics;
  i_WAKER : aw;
  i_pics : pics;
  i_arrivals : list InterruptIndex;
}.

Definition set_kernel (k : kworld) (s : istate) : istate :=
  mkI k (i_next_task s) (i_at s) (i_WAKER s) (i_pics s) (i_arrivals s).
Definition set_next (n : Z) (s : istate) : istate :=
  mkI (i_kernel s) n (i_at s) (i_WAKER s) (i_pics s) (i_arrivals s).
Definition set_at (a : atomics) (s : istate) : istate :=
  mkI (i_kernel s) (i_next_task s) a (i_WAKER s) (i_pics s) (i_arrivals s).
Definition set_waker (a : aw) (s : istate) : istate :=
  mkI (i_kernel s) (i_next_task s) (i_at s) a (i_pics s) (i_arrivals s).

Definition SCHEDULER (s : istate) : Scheduler := tw_stats (kw_threads (i_kernel s)).

#[local] Instance istate_stats : HasStats istate := {|
  stats := SCHEDULER;
  set_stats c s := set_kernel (with_threads (with_stats c (kw_threads (i_kernel s))) (i_kernel s)) s;
  stats_set c s := eq_refl;
|}.

(** ** async_tasks.rs *)

(** The async functions and blocks. *)
Inductive future := FEmpty | FBumpSimple | FBumpExecutor | FAwaiting | FWakeOnSecondPoll.

Definition produce_number : Z := 42.

Definition poll_future (waker : TaskWaker) (f : future) (s : istate) : outcome (bool * future * list Z * istate) :=
  let a := i_at s in
  match f with
  | FEmpty => Ok (true, f, [], s)
  | FBumpSimple =>
      Ok (true, f, [], set_at (mkAt (wrapping_add (SIMPLE_COUNTER a) 1) (EXECUTOR_COUNTER a) (AWAITED_VALUE a)
                                 (POLLS a) (DONE a)) s)
  | FBumpExecutor =>
      Ok (true, f, [], set_at (mkAt (SIMPLE_COUNTER a) (wrapping_add (EXECUTOR_COUNTER a) 1) (AWAITED_VALUE a)
                                 (POLLS a) (DONE a)) s)
  | FAwaiting =>
      let n := produce_number in
      Ok (true, f, [], set_at (mkAt (SIMPLE_COUNTER a) (EXECUTOR_COUNTER a) n (POLLS a) (DONE a)) s)
  | FWakeOnSecondPoll =>
      let n := POLLS a in
      let a := mkAt (SIMPLE_COUNTER a) (EXECUTOR_COUNTER a) (AWAITED_VALUE a) (wrapping_add n 1) (DONE a) in
      if n =? 0 then Ok (false, f, [], set_waker (aw_register (i_WAKER s) waker) (set_at a s))
      else
        Ok (true, f, [], set_at (mkAt (SIMPLE_COUNTER a) (EXECUTOR_COUNTER a) (AWAITED_VALUE a) (POLLS a) 1) s)
  end.

Abbreviation exec := (xworld (F := future) (Env := istate)).

(** An executor of the test's own. *)
Definition executor (s : istate) : exec := mkX exec_new (i_next_task s) [] s.
Definition drop_executor (x : exec) : istate := set_next (x_next_id x) (x_env x).

(** At most four tasks are ready at a time. *)
Definition run_ready : exec → outcome exec := run_ready_tasks_for_test poll_future 5.

Fixpoint spawn_times (n : nat) (f : future) (x : exec) : outcome exec :=
  match n with
  | O => Ok x
  | S n => let '(task, x) := Task_new f x in x ← Executor.spawn task x; spawn_times n f x
  end.

Fixpoint drive_until_idle (max_iterations : nat) (x : exec) : outcome exec :=
  match max_iterations with
  | O => Ok x
  | S n =>
      let before := task_count (x_exec x) in
      x ← run_ready x;
      let after := task_count (x_exec x) in
      if (after =? before)%nat && negb (after =? 0)%nat then Ok x
      else if (after =? 0)%nat then Ok x
      else drive_until_idle n x
  end.

Definition executor_drains_multiple_ready_tasks (s : istate) : outcome istate :=
  let a := i_at s in
  let s := set_at (mkAt 0 (EXECUTOR_COUNTER a) (AWAITED_VALUE a) (POLLS a) (DONE a)) s in
  x ← spawn_times 4 FBumpSimple (executor s);
  x ← run_ready x;
  _ ← assert_eq (SIMPLE_COUNTER (i_at (x_env x))) 4;
  Ok (drop_executor x).

Definition executor_runs_and_drains_ready_tasks (s : istate) : outcome istate :=
  let a := i_at s in
  let s := set_at (mkAt (SIMPLE_COUNTER a) 0 (AWAITED_VALUE a) (POLLS a) (DONE a)) s in
  x ← spawn_times 3 FBumpExecutor (executor s);
  x ← drive_until_idle 8 x;
  _ ← assert_eq (EXECUTOR_COUNTER (i_at (x_env x))) 3;
  _ ← assert_eq (task_count (x_exec x)) 0%nat;
  Ok (drop_executor x).

Definition await_chain_propagates_value (s : istate) : outcome istate :=
  let a := i_at s in
  let s := set_at (mkAt (SIMPLE_COUNTER a) (EXECUTOR_COUNTER a) 0 (POLLS a) (DONE a)) s in
  x ← spawn_times 1 FAwaiting (executor s);
  x ← run_ready x;
  _ ← assert_eq (AWAITED_VALUE (i_at (x_env x))) 42;
  Ok (drop_executor x).

(** [WAKER.wake()]: the waker, if any, is called and forgotten. *)
Definition fire (x : exec) : outcome exec :=
  let '(o, a) := aw_take (i_WAKER (x_env x)) in
  let x := mkX (x_exec x) (x_next_id x) (x_log x) (set_waker a (x_env x)) in
  match o with
  | Some waker => q ← Executor.wake waker (task_queue (x_exec x)); Ok (set_queue q x)
  | None => Ok x
  end.

Definition pending_task_is_repolled_after_wake (s : istate) : outcome istate :=
  let a := i_at s in
  let s := set_at (mkAt (SIMPLE_COUNTER a) (EXECUTOR_COUNTER a) (AWAITED_VALUE a) 0 0) s in
  x ← spawn_times 1 FWakeOnSecondPoll (executor s);
  x ← drive_until_idle 1 x;
  _ ← assert_eq (POLLS (i_at (x_env x))) 1;
  _ ← assert_eq (DONE (i_at (x_env x))) 0;
  _ ← assert_eq (task_count (x_exec x)) 1%nat;
  x ← fire x;
  x ← drive_until_idle 4 x;
  _ ← assert_eq (DONE (i_at (x_env x))) 1;
  _ ← assert_eq (task_count (x_exec x)) 0%nat;
  Ok (drop_executor x).

Definition arc_array_queue_round_trip : outcome unit :=
  let unwrap := "called `Result::unwrap()` on an `Err` value"%string in
  q ← expect (aq_push (aq_new 4) 7) unwrap;
  q ← expect (aq_push q 11) unwrap;
  q ← pops (Some 7) q;
  q ← pops (Some 11) q;
  _ ← pops None q;
  Ok tt.

Definition pure (t : string * outcome unit) : string * (istate → outcome istate) :=
  (t.1, λ s, _ ← t.2; Ok s).

Definition async_tests : list (string * (istate → outcome istate)) :=
  [ ("executor_drains_multiple_ready_tasks", executor_drains_multiple_ready_tasks);
    ("executor_runs_and_drains_ready_tasks", executor_runs_and_drains_ready_tasks);
    ("await_chain_propagates_value", await_chain_propagates_value);
    ("pending_task_is_repolled_after_wake", pending_task_is_repolled_after_wake);
    pure ("arc_array_queue_round_trip", arc_array_queue_round_trip) ]%string.

(** ** runtime_observability.rs *)

Abbreviation hworld := (hworld (T := istate)).
Abbreviation hresult := (hresult (T := istate)).

Definition test_logger_macros_are_callable (w : hworld) : outcome hworld :=
  let before := dropped_messages (h_log w) in
  let log := ktraceln (bytes "TEST") [bytes "trace boot visibility test"] (h_log w) in
  let log := kdebugln (bytes "TEST") [bytes "debug boot visibility test"] log in
  let log := kinfoln (bytes "TEST") [bytes "info boot visibility test"] log in
  let log := kwarnln (bytes "TEST") [bytes "warn boot visibility test"] log in
  let log := kerrorln (bytes "TEST") [bytes "error boot visibility test"] log in
  let after := dropped_messages log in
  _ ← assert (before <=? after);
  Ok (mkH (h_state w) log (h_io w)).

Definition test_scheduler_observability_local_round_trip : outcome unit :=
  let scheduler := sched_new in
  _ ← assert_eq (tasks_alive scheduler) 0;
  _ ← assert_eq (tasks_spawned scheduler) 0;
  let scheduler := note_task_spawned (note_task_spawned scheduler) in
  _ ← assert_eq (tasks_alive scheduler) 2;
  _ ← assert_eq (tasks_spawned scheduler) 2;
  let scheduler := note_task_completed scheduler in
  _ ← assert_eq (tasks_alive scheduler) 1;
  assert_eq (tasks_completed scheduler) 1.

Definition test_executor_spawn_updates_global_scheduler_counts (s : istate) : outcome istate :=
  let before_alive := tasks_alive (SCHEDULER s) in
  let before_spawned := tasks_spawned (SCHEDULER s) in
  let before_completed := tasks_completed (SCHEDULER s) in
  x ← spawn_times 2 FEmpty (executor s);
  spawned ← add_u64 before_spawned 2;
  _ ← assert_eq (tasks_spawned (SCHEDULER (x_env x))) spawned;
  alive ← add_u64 before_alive 2;
  _ ← assert_eq (tasks_alive (SCHEDULER (x_env x))) alive;
  x ← run_ready x;
  _ ← assert_eq (tasks_alive (SCHEDULER (x_env x))) before_alive;
  completed ← add_u64 before_completed 2;
  _ ← assert_eq (tasks_completed (SCHEDULER (x_env x))) completed;
  Ok (drop_executor x).

(** [hlt] with interrupts on: the CPU wakes up for the next interrupt and its
    handler runs; without one it sleeps for ever. *)
Definition hlt (w : hworld) : outcome hworld :=
  let s := h_state w in
  match i_arrivals s with
  | [] => Diverge
  | i :: arrivals =>
      '(k, d) ← irq_handler note_wake i (i_kernel s) (mkDev (h_io w) (accept (as_u8 i) (i_pics s)));
      Ok (mkH (mkI k (i_next_task s) (i_at s) (i_WAKER s) (PICS d) arrivals) (h_log w) (dev_io d))
  end.

Fixpoint wait_for_tick (n : nat) (start_ticks : Z) (w : hworld) : outcome hworld :=
  match n with
  | O => Panic "timer tick counter did not advance"
  | S n =>
      w ← hlt w;
      let now := ticks (SCHEDULER (h_state w)) in
      if start_ticks <? now then Ok w else wait_for_tick n start_ticks w
  end.

Definition test_timer_interrupt_advances_tick_counter (w : hworld) : outcome hworld :=
  let start_ticks := ticks (SCHEDULER (h_state w)) in
  wait_for_tick 512 start_ticks w.

Definition test_syscall_vector_constant : outcome unit := assert_eq SYSCALL_VECTOR 0x80.

Definition observability_tests : list Test :=
  [ mkTest "test_logger_macros_are_callable" test_logger_macros_are_callable;
    silent (pure ("test_scheduler_observability_local_round_trip",
                  test_scheduler_observability_local_round_trip)%string);
    silent ("test_executor_spawn_updates_global_scheduler_counts"%string,
            test_executor_spawn_updates_global_scheduler_counts);
    mkTest "test_timer_interrupt_advances_tick_counter" test_timer_interrupt_advances_tick_counter;
    silent (pure ("test_syscall_vector_constant"%string, test_syscall_vector_constant)) ].

(** ** heap_allocation.rs *)

(** A test on the kernel's heap. *)
Definition on_heap (t : string * hprog unit) : string * (istate → outcome istate) :=
  (t.1, λ s,
    '(_, heap) ← fixed_run_prog t.2 (tw_heap (kw_threads (i_kernel s)));
    Ok (set_kernel (with_heap_of heap (i_kernel s)) s)).

(** ** [_start] of the three: the heap, then the tests *)

Definition heap_start (tests : list Test) (boot_info : BootInfo) (Hmap : map_ok (bi_map boot_info)) (c : cpu)
  (format : string → list Z) (w : hworld) : hresult :=
  let s := h_state w in
  match heap_bring_up cr3 boot_info Hmap c (i_kernel s) with
  | Ok (c, k, _, _) =>
      test_main format tests
        (mkH (mkI k (i_next_task s) (i_at s) (i_WAKER s) (c_pics c) (i_arrivals s)) (h_log w) (h_io w))
  | Panic msg => test_panic_handler (format msg) w
  | _ => HStuck
  end.

Definition heap_allocation_start := heap_start (silent <$> (on_heap <$> heap_tests)).
Definition async_start := heap_start (silent <$> async_tests).
Definition observability_start := heap_start observability_tests.

(** ** basic_boot.rs and should_panic.rs *)

Definition test_println (s : istate) : outcome istate :=
  c ← console_do (println [bytes "test_println output"]) (kw_console (i_kernel s));
  Ok (set_kernel (with_console c (i_kernel s)) s).

Definition basic_start (format : string → list Z) : hworld → hresult :=
  test_main format (silent <$> [("test_println"%string, test_println)]).

(** [should_fail] up to its panic, or its end. *)
Definition should_fail (w : hworld) : hresult :=
  hthen (print_serial [bytes "should_panic::should_fail..." ++ [9]] w) (λ w,
  match assert_eq 0 1 with Ok _ => HOn w | Panic msg => TestRunner.HPanic msg w | _ => HStuck end).

(** The panic handler of the test succeeds; to return is to fail. *)
Definition should_panic_start (w : hworld) : hresult :=
  match should_fail w with
  | TestRunner.HPanic _ w =>
      hthen (println_serial [bytes "[ok]"] w) (λ w, HOn (exit_qemu Success w))
  | HOn w => hthen (println_serial [bytes "[test did not panic]"] w) (λ w, HOn (exit_qemu Failed w))
  | HStuck => HStuck
  end.
End integration.

(** ** They pass *)

Section passes.
Context {G : GdtApi} {GL : GdtLaws G} {PIC : ChainedPics} {IO : PortIo}.
Context {SP : SerialPort} {SL : SerialPortLaws SP} {MX : SpinMutex port} {MXL : SpinMutexLaws port MX}.
Context {Q : ArrayQueue} {QL : ArrayQueueLaws Q} {C : OnceCell aq}.
Context {A : AtomicWaker TaskWaker} {AL : AtomicWakerLaws TaskWaker A} {V : Volatile} {VL : VolatileLaws V}.
Context {api : PhysApi} {laws : PhysLaws api} {M : MapperApi} {ML : MapperLaws M}.
Context (cr3 boot_lo boot_hi : Z).

#[local] Existing Instance istate_stats.

Abbreviation hworld := (hworld (T := istate)).
Abbreviation hresult := (hresult (T := istate)).
Abbreviation exec := (xworld (F := future) (Env := istate)).
Abbreviation Implements := (Fixed.implements HEAP_START (HEAP_START + HEAP_SIZE)).

(** *** The tests of async_tasks.rs *)

Lemma poll_future_alive k f s r f' l s' :
  poll_future k f s = Ok (r, f', l, s') → tasks_alive (stats s') = tasks_alive (stats s).
Proof. destruct f; cbn; [..|case_match]; by intros [= <- <- <- <-]. Qed.

(** Between two tests: no task is alive, and at most [n] have been made. *)
Definition idle (n : Z) (s : istate) : Prop := tasks_alive (SCHEDULER s) = 0 ∧ 0 <= i_next_task s <= n.

Definition spawned (s : istate) : istate := set_stats (note_task_spawned (stats s)) s.

Lemma spawn_times_ok n m f x :
  all_ready f m x → x_next_id x + Z.of_nat n < u64_modulus → (m + n <= TASK_QUEUE_CAPACITY)%nat →
  ∃ x', spawn_times n f x = Ok x' ∧ all_ready f (m + n) x' ∧ x_next_id x' = x_next_id x + Z.of_nat n ∧
    x_env x' = Nat.iter n spawned (x_env x).
Proof.
  revert m x. induction n as [|n IH]; intros m x Hx Hn Hc.
  { exists x. rewrite Nat.add_0_r, Z.add_0_r. done. }
  destruct (all_ready_spawn f m x Hx) as (x1 & E & Hx1 & Hn1 & He1); [lia..|]. cbn [spawn_times].
  destruct (Task_new f x) as [task x0]. rewrite E. bstep.
  destruct (IH (S m) x1 Hx1) as (x2 & -> & Hx2 & Hn2 & He2); [lia..|]. exists x2. split; [done|].
  rewrite Nat.add_succ_r. split; [done|]. split; [lia|]. rewrite He2, He1. symmetry. apply (Nat.iter_succ_r n spawned).
Qed.

Lemma executor_spawn_ok n f b s :
  idle b s → b + Z.of_nat n < u64_modulus → (n <= TASK_QUEUE_CAPACITY)%nat →
  ∃ x, spawn_times n f (executor s) = Ok x ∧ all_ready f n x ∧ x_next_id x = i_next_task s + Z.of_nat n ∧
    x_env x = Nat.iter n spawned s.
Proof. intros [Ha Hi] Hn Hc. apply (spawn_times_ok n 0); [by apply all_ready_new; [..|apply Hi|]|cbn; lia|done]. Qed.

(** A test that spawns [n] tasks that finish when polled, and runs them. *)
Lemma executor_runs n f g b s :
  (∀ k s, poll_future k f s = Ok (true, f, [], g s)) → idle b s → b + 4 < u64_modulus → (n <= 4)%nat →
  ∃ x x', spawn_times n f (executor s) = Ok x ∧ x_env x = Nat.iter n spawned s ∧
    run_ready x = Ok x' ∧ x_env x' = Nat.iter n (finish g) (Nat.iter n spawned s) ∧ task_count (x_exec x') = 0%nat ∧
    idle (b + Z.of_nat n) (drop_executor x').
Proof.
  intros Hp Hs Hb Hn. destruct (executor_spawn_ok n f b s Hs) as (x & Hx & Hr & Hid & He); [lia|unfold TASK_QUEUE_CAPACITY; lia|].
  destruct (run_all_ready poll_future poll_future_alive f g Hp 5 n x Hr) as (x' & Hx' & Hr' & Hid' & He');
    [unfold TASK_QUEUE_CAPACITY; lia|lia|].
  destruct (all_ready_none f x' Hr') as (Ht & _ & Ha). exists x, x'. rewrite He in He'.
  split_and!; try done; [unfold task_count; by rewrite Ht|]. destruct Hs as [_ Hs]. split; [exact Ha|].
  cbn [drop_executor set_next i_next_task]. rewrite Hid', Hid. lia.
Qed.

Lemma drains_multiple_passes b s :
  idle b s → b + 4 < u64_modulus → ∃ s', executor_drains_multiple_ready_tasks s = Ok s' ∧ idle (b + 4) s'.
Proof.
  intros Hs Hb. unfold executor_drains_multiple_ready_tasks. set (s0 := set_at _ s).
  destruct (executor_runs 4 FBumpSimple _ b s0 (λ _ _, eq_refl) Hs Hb) as (x & x' & -> & _ & E & He & _ & Hi); [lia|].
  bstep. rewrite E. bstep. rewrite He. by eexists.
Qed.

(** A round that leaves no task, or as many as before, is the last. *)
Lemma drive_stops n x x' :
  run_ready x = Ok x' → task_count (x_exec x') = 0%nat ∨ task_count (x_exec x') = task_count (x_exec x) →
  drive_until_idle (S n) x = Ok x'.
Proof.
  intros E Hc. cbn [drive_until_idle]. rewrite E. bstep. destruct Hc as [-> | ->]; [by rewrite andb_false_r|].
  rewrite Nat.eqb_refl. by destruct (_ =? 0)%nat.
Qed.

Lemma runs_and_drains_passes b s :
  idle b s → b + 4 < u64_modulus → ∃ s', executor_runs_and_drains_ready_tasks s = Ok s' ∧ idle (b + 3) s'.
Proof.
  intros Hs Hb. unfold executor_runs_and_drains_ready_tasks. set (s0 := set_at _ s).
  destruct (executor_runs 3 FBumpExecutor _ b s0 (λ _ _, eq_refl) Hs Hb) as (x & x' & -> & _ & E & He & Ht & Hi); [lia|].
  bstep. rewrite (drive_stops 7 x x' E) by lia. bstep. rewrite He, Ht. by eexists.
Qed.

Lemma await_chain_passes b s :
  idle b s → b + 4 < u64_modulus → ∃ s', await_chain_propagates_value s = Ok s' ∧ idle (b + 1) s'.
Proof.
  intros Hs Hb. unfold await_chain_propagates_value. set (s0 := set_at _ s).
  destruct (executor_runs 1 FAwaiting _ b s0 (λ _ _, eq_refl) Hs Hb) as (x & x' & -> & _ & E & He & _ & Hi); [lia|].
  bstep. rewrite E. bstep. rewrite He. by eexists.
Qed.

(** The only task is polled once. *)
Lemma only_task_polled id f (x : exec) r s :
  xinv x → ids x = [id] → tasks (x_exec x) = {[id := mkTask id f]} →
  poll_future (TaskWaker_new id) f (x_env x) = Ok (r, f, [], s) →
  ∃ x', run_ready x = Ok x' ∧ xinv x' ∧ ids x' = [] ∧ tasks (x_exec x') = (if r then ∅ else {[id := mkTask id f]}) ∧
    x_next_id x' = x_next_id x ∧ x_env x' = (if r then set_stats (note_task_completed (stats s)) s else s).
Proof.
  intros Hi Hl Ht Hp. unfold run_ready, run_ready_tasks_for_test. rewrite run_ready_tasks_turn.
  destruct (turn_poll poll_future poll_future_alive x id [] (mkTask id f) r (mkTask id f) [] s Hi Hl)
    as (x' & E & Hi' & Hl' & Ht' & He');
    [rewrite Ht; apply lookup_singleton_eq|unfold poll; cbn [task_future]; by rewrite Hp|cbn; lia|].
  rewrite E. bstep. rewrite run_ready_tasks_turn, (turn_none poll_future x') by done. bstep. exists x'. split_and!; try done;
    [|by eapply turn_next_id]. rewrite Ht', Ht. destruct r; [apply delete_singleton_eq|apply insert_singleton_eq].
Qed.

Lemma fire_ok id (x : exec) :
  xinv x → ids x = [] → aw_get (i_WAKER (x_env x)) = Some (TaskWaker_new id) →
  ∃ x', fire x = Ok x' ∧ xinv x' ∧ ids x' = [id] ∧ tasks (x_exec x') = tasks (x_exec x) ∧
    x_next_id x' = x_next_id x ∧ i_at (x_env x') = i_at (x_env x).
Proof.
  intros Hi Hl Hw. unfold fire. destruct (aw_take_ok (i_WAKER (x_env x))) as [Ho _]. rewrite Hw in Ho.
  destruct (aw_take (i_WAKER (x_env x))) as [o a]. cbn [fst] in Ho. subst o. set (x1 := mkX _ _ _ _).
  assert (xinv x1) as Hi1 by (by apply (set_env_inv x (set_waker a (x_env x)))).
  destruct (wake_all_ok [id] (task_queue (x_exec x1))) as (q & Hq & _).
  { change (aq_list (task_queue (x_exec x1))) with (ids x). rewrite Hl, (xi_cap _ Hi1). cbn. unfold TASK_QUEUE_CAPACITY. lia. }
  destruct (set_queue_inv x1 q [id] Hi1 Hq) as [Hi2 Hl2]. cbn [wake_all] in Hq.
  apply bind_inv in Hq as (q1 & -> & [= ->]). bstep. eexists. split; [done|]. split; [done|].
  change (ids x1) with (ids x) in Hl2. rewrite Hl in Hl2. done.
Qed.

Lemma second_poll k (x : exec) :
  POLLS (i_at (x_env x)) = 1 →
  poll_future k FWakeOnSecondPoll (x_env x) = Ok (true, FWakeOnSecondPoll, [],
    let a := i_at (x_env x) in
    set_at (mkAt (SIMPLE_COUNTER a) (EXECUTOR_COUNTER a) (AWAITED_VALUE a) 2 1) (x_env x)).
Proof. intros Hp. cbn [poll_future]. by rewrite Hp. Qed.

Lemma repolled_passes b s :
  idle b s → b + 4 < u64_modulus → ∃ s', pending_task_is_repolled_after_wake s = Ok s' ∧ idle (b + 1) s'.
Proof.
  intros Hs Hb. unfold pending_task_is_repolled_after_wake. set (s0 := set_at _ s).
  destruct (executor_spawn_ok 1 FWakeOnSecondPoll b s0 Hs) as (x & -> & Hr & Hn & He);
    [lia|unfold TASK_QUEUE_CAPACITY; lia|].
  bstep. destruct (all_ready_one _ _ Hr) as (id & Hl & Ht).
  assert (POLLS (i_at (x_env x)) = 0) as Hp0 by (by rewrite He).
  destruct (only_task_polled id FWakeOnSecondPoll x false (set_waker (aw_register (i_WAKER (x_env x)) (TaskWaker_new id))
    (set_at (mkAt (SIMPLE_COUNTER (i_at s)) (EXECUTOR_COUNTER (i_at s)) (AWAITED_VALUE (i_at s)) 1 0) (x_env x)))
    (ar_inv _ _ _ Hr) Hl Ht) as (x1 & E1 & Hi1 & Hl1 & Ht1 & Hn1 & He1); [cbn [poll_future]; by rewrite Hp0, He|].
  assert (task_count (x_exec x) = 1%nat ∧ task_count (x_exec x1) = 1%nat) as [C0 C1].
  { unfold task_count. rewrite Ht1, Ht, map_size_singleton. done. }
  assert (aw_get (i_WAKER (x_env x1)) = Some (TaskWaker_new id)) as Hw1 by (rewrite He1; apply aw_register_ok).
  rewrite (drive_stops 0 x x1 E1) by lia. bstep. rewrite C1, He1. cbn -[drive_until_idle fire].
  destruct (fire_ok id x1 Hi1 Hl1 Hw1) as (x2 & -> & Hi2 & Hl2 & Ht2 & Hn2 & Ha2). bstep. rewrite Ht1 in Ht2.
  destruct (only_task_polled id FWakeOnSecondPoll x2 true _ Hi2 Hl2 Ht2 (second_poll _ x2 ltac:(by rewrite Ha2, He1)))
    as (x3 & E3 & Hi3 & _ & Ht3 & Hn3 & He3).
  assert (task_count (x_exec x3) = 0%nat) as C3 by (unfold task_count; by rewrite Ht3).
  rewrite (drive_stops 3 x2 x3 E3) by lia. bstep. rewrite C3, He3. cbn. eexists. split; [done|]. split.
  - change (tasks_alive (stats (x_env x3)) = 0). rewrite (xi_alive _ Hi3), Ht3. done.
  - cbn. rewrite Hn3, Hn2, Hn1, Hn. destruct Hs. cbn in *. lia.
Qed.

Lemma pops_ok q : ∃ q', pops (head (aq_list q)) q = Ok q' ∧ aq_list q' = tail (aq_list q).
Proof.
  unfold pops, assert_eq. pose proof (aq_pop_ok q) as P. destruct (aq_list q) as [|x l] eqn:E; cbn [head tail].
  - rewrite P. exists q. by rewrite bool_decide_eq_true_2.
  - destruct P as (q' & -> & L & _). exists q'. by rewrite bool_decide_eq_true_2.
Qed.

Lemma round_trip_passes : arc_array_queue_round_trip (Q := Q) = Ok tt.
Proof.
  unfold arc_array_queue_round_trip. destruct (aq_new_ok 4) as [N1 N2]; [lia|].
  pose proof (aq_push_ok (aq_new 4) 7) as P1. rewrite N1, N2 in P1. destruct P1 as (q1 & -> & L1 & C1). cbn [expect]. bstep.
  pose proof (aq_push_ok q1 11) as P2. rewrite L1, C1 in P2. destruct P2 as (q2 & -> & L2 & _). cbn [expect]. bstep.
  destruct (pops_ok q2) as (q3 & E3 & L3). rewrite L2 in E3, L3. cbn [app head tail] in *. rewrite E3. bstep.
  destruct (pops_ok q3) as (q4 & E4 & L4). rewrite L3 in E4, L4. cbn [head tail] in *. rewrite E4. bstep.
  destruct (pops_ok q4) as (q5 & E5 & _). rewrite L4 in E5. cbn [head] in E5. by rewrite E5.
Qed.

Lemma async_tests_pass s : idle 0 s → ∃ s', pass_all async_tests s = Ok s'.
Proof.
  intros H0. unfold async_tests. cbn [pass_all snd pure]. unfold u64_modulus in *.
  destruct (drains_multiple_passes 0 s H0) as (s1 & -> & H1); [done|]. bstep.
  destruct (runs_and_drains_passes _ s1 H1) as (s2 & -> & H2); [done|]. bstep.
  destruct (await_chain_passes _ s2 H2) as (s3 & -> & H3); [done|]. bstep.
  destruct (repolled_passes _ s3 H3) as (s4 & -> & H4); [done|]. bstep.
  rewrite round_trip_passes. by eexists.
Qed.

(** *** The tests of heap_allocation.rs *)

Lemma heap_tests_in_a_row tests r r' s :
  Forall (λ t, gives_back t.2) tests → Implements (tw_heap (kw_threads (i_kernel s))) ∅ r →
  ref_run_all tests r = Some r' → ∃ s', pass_all (on_heap <$> tests) s = Ok s'.
Proof.
  revert r s. induction tests as [|[name t] tests IH]; intros r s Hg Hh Hr; [by eexists|].
  apply List.Forall_cons_iff in Hg as [Hg Hgs]. cbn [snd] in Hg. cbn [ref_run_all snd] in Hr.
  pose proof (run_implements _ _ _ _ _ _ _ Hh (Hg ∅)) as H. destruct (ref_run_prog t r) as [[[] r1]| | |]; try done.
  destruct H as (h & live & Hrun & Hi & ->). cbn [fmap list_fmap pass_all on_heap snd]. rewrite Hrun. bstep.
  by apply (IH r1).
Qed.

Lemma heap_allocation_tests_pass s :
  Implements (tw_heap (kw_threads (i_kernel s))) ∅ (Fixed.ref_init HEAP_START HEAP_SIZE) →
  ∃ s', pass_all (on_heap <$> heap_tests) s = Ok s'.
Proof.
  intros Hh. destruct heap_tests_fit_in_a_row as [r Hr]. by apply (heap_tests_in_a_row _ _ r s heap_tests_give_back Hh).
Qed.

(** *** The harness *)

(** [n] scancodes have been read from the keyboard controller. *)
Definition after_keys (n : nat) : io → io := Nat.iter n (λ ports, (inb DATA_PORT ports).2).

(** The test that has succeeded wrote the exit code for success, and nothing
    else, to the exit device; on the way it read [n] scancodes. *)
Definition exits_with_success (n : nat) (w : hworld) (r : hresult) : Prop :=
  ∃ w', r = HOn w' ∧ h_io w' = outl EXIT_PORT 0x10 (after_keys n (h_io w)).

Lemma test_main_passes n format tests (w : hworld) :
  free w →
  (∀ w1, free w1 → h_state w1 = h_state w →
     ∃ w2, run_tests tests w1 = HOn w2 ∧ free w2 ∧ h_io w2 = after_keys n (h_io w1)) →
  exits_with_success n w (test_main format tests w).
Proof.
  intros Hf Ht. unfold test_main. destruct (test_runner_eq tests w Hf) as (w1 & -> & F1 & _ & S1 & I1).
  destruct (Ht w1 F1 S1) as (w2 & -> & F2 & I2). cbn [hthen].
  destruct (closing_ok w2 F2) as (w3 & -> & _ & _ & I3). exists w3. split; [done|]. by rewrite I3, I2, I1.
Qed.

Lemma silent_passes tests (w : hworld) s :
  Forall (λ t, Forall plain (bytes t.1)) tests → free w → pass_all tests (h_state w) = Ok s →
  ∃ w', run_tests (silent <$> tests) w = HOn w' ∧ free w' ∧ h_state w' = s ∧ h_io w' = h_io w.
Proof.
  intros Hn Hf Hp. destruct (pass_all_report _ _ _ Hp) as [out Hr].
  destruct (run_tests_ok tests w out (inr s) Hf Hn Hr) as (w1 & E1 & F1 & _ & I1 & S1). eauto.
Qed.

#[local] Instance plain_decision b : Decision (plain b).
Proof. unfold plain. apply _. Defined.

Lemma async_names : Forall (λ t, Forall plain (bytes t.1)) async_tests.
Proof. by_decide. Qed.

Lemma heap_names : Forall (λ t, Forall plain (bytes t.1)) (on_heap <$> heap_tests).
Proof. by_decide. Qed.

(** *** The tests of runtime_observability.rs *)

Lemma test_log_free level text (l : lworld) :
  Forall plain (bytes text) → locked (SERIAL1 l) = false →
  locked (SERIAL1 (log level (bytes "TEST") [bytes text] l)) = false ∧
  dropped_messages (log level (bytes "TEST") [bytes text] l) = dropped_messages l.
Proof.
  intros Hp Hl. apply emit_free; [|done]. apply Forall_app. split; [|by repeat constructor].
  destruct level; by_decide.
Qed.

Lemma logger_test_passes (w : hworld) :
  free w → ∃ w', test_logger_macros_are_callable w = Ok w' ∧ free w' ∧ h_state w' = h_state w ∧ h_io w' = h_io w.
Proof.
  intros Hf. unfold test_logger_macros_are_callable, ktraceln, kdebugln, kinfoln, kwarnln, kerrorln.
  unfold ktrace, kdebug, kinfo, kwarn, kerror.
  destruct (test_log_free LTrace "trace boot visibility test" (h_log w)) as [F1 D1]; [by_decide|done|].
  destruct (test_log_free LDebug "debug boot visibility test" _ ltac:(by_decide) F1) as [F2 D2].
  destruct (test_log_free LInfo "info boot visibility test" _ ltac:(by_decide) F2) as [F3 D3].
  destruct (test_log_free LWarn "warn boot visibility test" _ ltac:(by_decide) F3) as [F4 D4].
  destruct (test_log_free LError "error boot visibility test" _ ltac:(by_decide) F4) as [F5 D5].
  rewrite D5, D4, D3, D2, D1. unfold assert. rewrite Z.leb_refl. cbn [rust_assert]. bstep. by eexists.
Qed.

Lemma counts_test_passes (s : istate) :
  idle 0 s → SCHEDULER s = sched_new →
  ∃ s', test_executor_spawn_updates_global_scheduler_counts s = Ok s' ∧ tick_count (SCHEDULER s') = 0 ∧
    i_arrivals s' = i_arrivals s.
Proof.
  intros Hi Hs. unfold test_executor_spawn_updates_global_scheduler_counts.
  destruct (executor_runs 2 FEmpty (λ s, s) 0 s (λ _ _, eq_refl) Hi) as (x & x' & -> & E1 & E2 & E3 & _ & _); [done|lia|].
  bstep. rewrite E1, Hs. cbn -[run_ready]. rewrite Hs. cbn -[run_ready]. rewrite E2. bstep. rewrite E3. cbn. rewrite Hs. cbn.
  exists (drop_executor x'). split; [reflexivity|]. unfold drop_executor. rewrite E3.
  split; [|done]. change (tick_count (SCHEDULER s) = 0). by rewrite Hs.
Qed.

Lemma key_wakes_hlt (w : hworld) l :
  i_arrivals (h_state w) = IKeyboard :: l →
  ∃ w1, hlt w = Ok w1 ∧ h_log w1 = h_log w ∧ h_io w1 = after_keys 1 (h_io w) ∧
    SCHEDULER (h_state w1) = SCHEDULER (h_state w) ∧ i_arrivals (h_state w1) = l.
Proof.
  intros Hl. unfold hlt. rewrite Hl. cbn [irq_handler]. unfold keyboard_interrupt_handler. cbn [dev_io].
  destruct (inb DATA_PORT (h_io w)) as [b ports] eqn:Ei. unfold on_scancode.
  destruct (add_scancode_total b (kw_input (i_kernel (h_state w)))) as (r & st & ->). bstep.
  eexists. split; [reflexivity|]. split_and!; try reflexivity. cbn. by rewrite Ei.
Qed.

(** The tick comes after [n] key presses. *)
Lemma tick_comes n m (w : hworld) l :
  free w → 0 <= tick_count (SCHEDULER (h_state w)) < u64_modulus - 1 →
  i_arrivals (h_state w) = replicate n IKeyboard ++ Timer :: l → (n < m)%nat →
  ∃ w', wait_for_tick m (ticks (SCHEDULER (h_state w))) w = Ok w' ∧ free w' ∧ h_io w' = after_keys n (h_io w).
Proof.
  revert m w. induction n as [|n IH]; intros [|m] w Hf Ht Hl Hm; try lia; cbn [wait_for_tick].
  - unfold hlt. rewrite Hl. cbn [replicate app irq_handler]. unfold timer_interrupt_handler, kernel_tick, tick.
    change (tw_stats (kw_threads (i_kernel (h_state w)))) with (SCHEDULER (h_state w)).
    rewrite add_u64_ok by lia. bstep. unfold ticks. cbn [set_ticks tick_count SCHEDULER i_kernel kw_threads tw_stats h_state].
    cbn. rewrite wrapping_add_ok by lia. rewrite (proj2 (Z.ltb_lt _ _)) by lia. by eexists.
  - destruct (key_wakes_hlt w _ Hl) as (w1 & -> & G1 & I1 & S1 & A1). bstep. rewrite S1. unfold ticks. rewrite Z.ltb_irrefl.
    rewrite <- S1. destruct (IH m w1) as (w2 & E2 & F2 & I2); [by unfold free; rewrite G1|by rewrite S1|done|lia|].
    exists w2. split; [exact E2|]. split; [done|]. rewrite I2, I1. symmetry. apply Nat.iter_succ_r.
Qed.

Lemma observability_tests_pass n (w : hworld) l :
  free w → idle 0 (h_state w) → SCHEDULER (h_state w) = sched_new →
  i_arrivals (h_state w) = replicate n IKeyboard ++ Timer :: l → (n < 512)%nat →
  ∃ w', run_tests observability_tests w = HOn w' ∧ free w' ∧ h_io w' = after_keys n (h_io w).
Proof.
  intros Hf Hi Hs Ha Hn. unfold observability_tests. cbn [run_tests].
  destruct (logging_test_ok "test_logger_macros_are_callable" test_logger_macros_are_callable w (h_state w) Hf)
    as (w1 & -> & F1 & S1 & I1); [by_decide| |].
  { intros w' Hw' Hf'. rewrite <- Hw'. by apply logger_test_passes. }
  cbn [hthen]. rewrite <- S1 in Hi, Hs, Ha. destruct (counts_test_passes (h_state w1) Hi Hs) as (s2 & E2 & T2 & A2).
  destruct (silent_passes
    [ pure ("test_scheduler_observability_local_round_trip"%string, test_scheduler_observability_local_round_trip);
      ("test_executor_spawn_updates_global_scheduler_counts"%string, test_executor_spawn_updates_global_scheduler_counts) ]
    w1 s2) as (w2 & R2 & F2 & S2 & I2); [by_decide|done| |].
  { cbn [pass_all pure snd]. change test_scheduler_observability_local_round_trip with (Ok tt). bstep. by rewrite E2. }
  cbn [fmap list_fmap run_tests] in R2.
  destruct (TestRunner.run _ w1) as [w1'| |]; try done. cbn [hthen] in *.
  destruct (TestRunner.run _ w1') as [w1''| |]; try done. cbn [hthen] in *. injection R2 as ->.
  destruct (logging_test_post "test_timer_interrupt_advances_tick_counter"
    test_timer_interrupt_advances_tick_counter w2 (λ _, True) (after_keys n) F2) as (w3 & -> & F3 & _ & I3); [by_decide| |].
  { intros w' Hw' Hf'. rewrite S2 in Hw'. rewrite <- Hw' in *.
    destruct (tick_comes n 512 w' l Hf') as (w'' & ? & ? & ?); [by rewrite T2|by rewrite A2|done|eauto]. }
  cbn [hthen].
  destruct (silent_passes [pure ("test_syscall_vector_constant"%string, test_syscall_vector_constant)] w3 (h_state w3))
    as (w4 & R4 & F4 & _ & I4); [by_decide|done|done|]. cbn [fmap list_fmap run_tests] in R4.
  exists w4. split; [exact R4|]. split; [done|]. by rewrite I4, I3, I2, I1.
Qed.

(** *** [_start] *)

(** A test kernel is started: the bootloader has handed over, the counters
    and the task ids are as initialised, the serial port is free; then [n]
    keys are pressed before the first tick. *)
Record test_started (info : BootInfo) (t : terminal) (b : boot_state) (n : nat) (w : hworld) : Prop := {
  st_boot : handed_over boot_lo boot_hi cr3 info t b;
  st_kernel : i_kernel (h_state w) = b_kernel b;
  st_stats : SCHEDULER (h_state w) = sched_new;
  st_next : i_next_task (h_state w) = 0;
  st_free : free w;
  st_keys : (n < 512)%nat ∧ ∃ l, i_arrivals (h_state w) = replicate n IKeyboard ++ Timer :: l;
}.

(** The same with the heap in place. *)
Lemma heap_start_passes keys tests format info Hmap t b n (w : hworld) :
  test_started info t b n w →
  (∀ w1, free w1 → Implements (tw_heap (kw_threads (i_kernel (h_state w1)))) ∅ (Fixed.ref_init HEAP_START HEAP_SIZE) →
     idle 0 (h_state w1) → SCHEDULER (h_state w1) = sched_new → i_arrivals (h_state w1) = i_arrivals (h_state w) →
     ∃ w2, run_tests tests w1 = HOn w2 ∧ free w2 ∧ h_io w2 = after_keys keys (h_io w1)) →
  exits_with_success keys w (heap_start cr3 tests info Hmap (b_cpu b) format w).
Proof.
  intros [Hb Hk Hs Hx Hf _] Ht. unfold heap_start.
  destruct (heap_bring_up_spec boot_lo boot_hi cr3 info Hmap t b Hb) as (c & h & m & f & Hup & Hh & _). rewrite Hk, Hup.
  set (w0 := mkH _ _ _). change (exits_with_success keys w0 (test_main format tests w0)).
  assert (SCHEDULER (h_state w0) = sched_new) as Hs0.
  { rewrite <- Hs. unfold SCHEDULER. by rewrite Hk. }
  apply test_main_passes; [done|]. intros w1 F1 S1. apply Ht; rewrite ?S1; try done.
  split; [by rewrite Hs0|]. cbn. lia.
Qed.

Lemma quiet_start_passes tests format info Hmap t b n (w : hworld) :
  test_started info t b n w → Forall (λ t, Forall plain (bytes t.1)) tests →
  (∀ s, Implements (tw_heap (kw_threads (i_kernel s))) ∅ (Fixed.ref_init HEAP_START HEAP_SIZE) → idle 0 s →
     ∃ s', pass_all tests s = Ok s') →
  exits_with_success 0 w (heap_start cr3 (silent <$> tests) info Hmap (b_cpu b) format w).
Proof.
  intros Hw Hn Hp. apply (heap_start_passes 0 _ format info Hmap t b n w Hw). intros w1 F1 H1 Hi1 _ _.
  destruct (Hp (h_state w1) H1 Hi1) as [s E]. destruct (silent_passes _ w1 s Hn F1 E) as (w2 & ? & ? & _ & ?). eauto.
Qed.

(** *** basic_boot.rs and should_panic.rs *)

Lemma basic_passes (w : hworld) t :
  free w → shows (kw_console (i_kernel (h_state w))) t →
  ∃ w', run_tests (silent <$> [("test_println"%string, test_println)]) w = HOn w' ∧ free w' ∧ h_io w' = h_io w.
Proof.
  intros Hf Ht. destruct (print_refines [bytes "test_println output"; newline] _ _ Ht) as (c & E & _).
  destruct (silent_passes [("test_println"%string, test_println)] w
    (set_kernel (with_console c (i_kernel (h_state w))) (h_state w))) as (w' & ? & ? & _ & ?); [by_decide|done| |eauto].
  cbn [pass_all snd]. unfold test_println, console_do, println. cbn [app]. by rewrite E.
Qed.

Lemma should_panic_passes (w : hworld) :
  free w → exits_with_success 0 w (should_panic_start w).
Proof.
  intros Hf. unfold should_panic_start, should_fail, assert_eq.
  destruct (print_serial_ok [bytes "should_panic::should_fail..." ++ [9]] w Hf) as (w1 & -> & F1 & _ & _ & I1);
    [by_decide|]. cbn [hthen].
  destruct (println_serial_ok [bytes "[ok]"] w1 F1) as (w2 & E2 & _ & _ & _ & I2); [by_decide|].
  change (bool_decide (0 = 1)) with false. cbn [assert rust_assert]. rewrite E2. cbn [hthen].
  eexists. split; [done|]. by rewrite <- I1, <- I2.
Qed.

(** ** Theorem *)

(** C23: five of the kernel's integration tests pass, on every machine.
    Started on a machine with enough memory, with the statics as initialised,
    whatever is on the screen and was sent before, the test kernels of
    heap_allocation.rs (its assertions on lengths and counts),
    async_tasks.rs, runtime_observability.rs, basic_boot.rs and
    should_panic.rs come to their end with every assertion as it should be,
    and write the exit code for success, and nothing else, to the exit
    device.  The test that waits for a timer interrupt does so through any
    [n] keyboard interrupts it has the patience for. *)
Theorem integration_tests_pass format info Hmap t b n (w : hworld) :
  test_started info t b n w →
  exits_with_success 0 w (heap_allocation_start cr3 info Hmap (b_cpu b) format w) ∧
  exits_with_success 0 w (async_start cr3 info Hmap (b_cpu b) format w) ∧
  exits_with_success n w (observability_start cr3 info Hmap (b_cpu b) format w) ∧
  exits_with_success 0 w (basic_start format w) ∧
  exits_with_success 0 w (should_panic_start w).
Proof.
  intros Hw. destruct (Hw) as [Hb Hk Hs Hx Hf [Hn [l Hl]]]. split_and!.
  - eapply quiet_start_passes; [done|apply heap_names|]. intros s Hh _. by apply heap_allocation_tests_pass.
  - eapply quiet_start_passes; [done|apply async_names|]. intros s _ Hi. by apply async_tests_pass.
  - eapply heap_start_passes; [done|]. intros w1 F1 _ Hi1 Hs1 Ha1. apply (observability_tests_pass n w1 l); try done.
    by rewrite Ha1.
  - apply test_main_passes; [done|]. intros w1 F1 S1. apply (basic_passes w1 t F1). rewrite S1, Hk. apply Hb.
  - by apply should_panic_passes.
Qed.
End passes.

(** ** Witness: the machine of MainThms.v with a silent serial port, and two
    keys before the tick *)

#[local] Existing Instances demo_gdt demo_pics demo_port_io list_array_queue option_cell option_waker
  demo_volatile demo_mapper demo_laws demo_port flag_mutex.

Definition demo_integration : hworld (SP := demo_port) (T := istate (Q := list_array_queue)) :=
  mkH (mkI (b_kernel demo_entry) 0 (mkAt 0 0 0 0 0) None (c_pics (PIC := demo_pics) demo_reset)
         [IKeyboard; IKeyboard; Timer]) (mkLog ([], false) 0) (mkPorts [0x1e; 0x9e] []).

Lemma integration_tests_pass_witness :
  ∃ w', observability_start (G := demo_gdt) (PIC := demo_pics) (M := demo_mapper) (laws := demo_laws)
    0x1000 demo_info demo_info_map demo_reset bytes demo_integration = HOn w' ∧ h_io w' = mkPorts [] [(0xf4, 0x10)].
Proof.
  destruct (integration_tests_pass (GL := demo_gdt_laws) (SL := demo_port_laws) (MXL := flag_mutex_laws _)
    (QL := list_array_queue_laws) (AL := option_waker_laws _) (VL := demo_volatile_laws)
    (ML := demo_mapper_laws) 0x1000 0x2000 0x4000
    bytes demo_info demo_info_map demo_term demo_entry 2 demo_integration) as (_ & _ & H & _).
  - split; try reflexivity; [apply demo_handed_over|]. split; [lia|]. by exists [].
  - exact H.
Defined.
