(* ===== verification/Locks.v ===== *)
(** * Spin locks, interrupts and threads

    A language for what a piece of kernel code does with the spin locks and
    with the interrupt flag, everything else abstracted to choice and
    iteration, and its semantics on one CPU: an interrupt comes in between any
    two steps while the flag is set, threads switch where the code says so,
    and a [lock()] on a lock that is taken spins for ever.  [safe] computes a
    condition under which code never spins, and [safe_run] shows that it is
    enough, whatever interrupts and switches happen.  KernelLocks.v writes the
    kernel in this language. *)

From Stdlib Require Import ZArith Lia.
From stdpp Require Import base list relations.
From S2P Require Import Prelude.

Section locks.
(** The locks; those an interrupt handler waits for; and the lock the panic
    handler waits for to print the message. *)
Context {lock : Type} `{EqDecision lock}.
Context (irq_lock : lock → bool) (console : lock).

Inductive cmd :=
| Skip
| Acquire (l : lock)                 (* [lock()] *)
| Release (l : lock)                 (* the guard is dropped *)
| Try (l : lock) (c : cmd)           (* [try_lock()]; [c] and the release if it succeeds *)
| Seq (c d : cmd)
| Or (c d : cmd)                     (* one or the other *)
| Star (c : cmd)                     (* any number of times *)
| Loop (c : cmd)                     (* for ever *)
| NoIrq (c : cmd)                    (* [without_interrupts] *)
| Gate (c : cmd)                     (* through an interrupt gate, and [iretq] *)
| Cli
| Sti
| Fork (c : cmd)                     (* a new thread, not yet running *)
| Switch                             (* to another thread, to continue later *)
| Leave                              (* to another thread, for ever *)
| Panic
(* the ends of [NoIrq] and of [Gate], with the flag at the beginning *)
| Restore (b : bool)
| Iret (b : bool).

(** The code of the running thread and of the others, the locks taken, the
    last first, and the interrupt flag. *)
Record state := mkState {
  code : list cmd;
  others : list (list cmd);
  held : list lock;
  flag : bool;
}.

(** ** Steps *)

(** The handlers of the hardware interrupts. *)
Context (handlers : list cmd).

Inductive step : state → state → Prop :=
| step_skip k o h b : step (mkState (Skip :: k) o h b) (mkState k o h b)
| step_acquire l k o h b :
    l ∉ h → step (mkState (Acquire l :: k) o h b) (mkState k o (l :: h) b)
| step_release l k o h b : step (mkState (Release l :: k) o (l :: h) b) (mkState k o h b)
| step_try l c k o h b :
    l ∉ h → step (mkState (Try l c :: k) o h b) (mkState (c :: Release l :: k) o (l :: h) b)
| step_try_held l c k o h b :
    l ∈ h → step (mkState (Try l c :: k) o h b) (mkState k o h b)
| step_seq c d k o h b : step (mkState (Seq c d :: k) o h b) (mkState (c :: d :: k) o h b)
| step_or_l c d k o h b : step (mkState (Or c d :: k) o h b) (mkState (c :: k) o h b)
| step_or_r c d k o h b : step (mkState (Or c d :: k) o h b) (mkState (d :: k) o h b)
| step_star_end c k o h b : step (mkState (Star c :: k) o h b) (mkState k o h b)
| step_star c k o h b : step (mkState (Star c :: k) o h b) (mkState (c :: Star c :: k) o h b)
| step_loop c k o h b : step (mkState (Loop c :: k) o h b) (mkState (c :: Loop c :: k) o h b)
| step_noirq c k o h b :
    step (mkState (NoIrq c :: k) o h b) (mkState (c :: Restore b :: k) o h false)
| step_gate c k o h b :
    step (mkState (Gate c :: k) o h b) (mkState (c :: Iret b :: k) o h false)
| step_restore b' k o h b : step (mkState (Restore b' :: k) o h b) (mkState k o h (b' || b))
| step_iret b' k o h b : step (mkState (Iret b' :: k) o h b) (mkState k o h b')
| step_cli k o h b : step (mkState (Cli :: k) o h b) (mkState k o h false)
| step_sti k o h b : step (mkState (Sti :: k) o h b) (mkState k o h true)
| step_fork c k o h b : step (mkState (Fork c :: k) o h b) (mkState k (o ++ [[c]]) h b)
| step_switch k o1 k' o2 h b :
    step (mkState (Switch :: k) (o1 ++ k' :: o2) h b) (mkState k' (o1 ++ o2 ++ [k]) h b)
| step_switch_none k h b : step (mkState (Switch :: k) [] h b) (mkState k [] h b)
| step_leave k o1 k' o2 h b :
    step (mkState (Leave :: k) (o1 ++ k' :: o2) h b) (mkState k' (o1 ++ o2) h b)
| step_leave_none k h b : step (mkState (Leave :: k) [] h b) (mkState [Panic] [] h b)
| step_interrupt c k o h : c ∈ handlers → step (mkState k o h true) (mkState (c :: Iret true :: k) o h false).

(** ** Safe code *)

(** No lock is taken that a handler waits for. *)
Definition clear (h : list lock) : Prop := ∀ l, l ∈ h → irq_lock l = false.

(** Run with the locks [h] taken and the flag [b], [c] waits only for locks
    that are free, takes the locks handlers wait for only with interrupts off,
    switches threads with no lock taken, panics only where the message can be
    printed, starts only threads whose code does not return, and ends, if it
    does, in a state that satisfies [Q]. *)
Fixpoint safe (c : cmd) (Q : list lock → bool → Prop) (h : list lock) (b : bool) : Prop :=
  match c with
  | Skip => Q h b
  | Acquire l => (l ∉ h) ∧ (irq_lock l = true → b = false) ∧ Q (l :: h) b
  | Release l => match h with l' :: h => l' = l ∧ Q h b | [] => False end
  | Try l c =>
      (l ∈ h → Q h b) ∧
      (l ∉ h → (irq_lock l = true → b = false) ∧
         safe c (λ h b, match h with l' :: h => l' = l ∧ Q h b | [] => False end) (l :: h) b)
  | Seq c d => safe c (safe d Q) h b
  | Or c d => safe c Q h b ∧ safe d Q h b
  | Star c => (∀ b, Q h b) ∧ ∀ b, safe c (λ h' _, h' = h) h b
  | Loop c => ∀ b, safe c (λ h' _, h' = h) h b
  | NoIrq c => safe c (λ h b', (b = true → clear h) ∧ Q h (b || b')) h false
  | Gate c => safe c (λ h _, (b = true → clear h) ∧ Q h b) h false
  | Cli => Q h false
  | Sti => clear h ∧ Q h true
  | Fork c => (∀ b, safe c (λ _ _, False) [] b) ∧ Q h b
  | Switch => h = [] ∧ ∀ b, Q [] b
  | Leave => h = []
  | Panic => console ∉ h
  | Restore b' => (b' = true → clear h) ∧ Q h (b' || b)
  | Iret b' => (b' = true → clear h) ∧ Q h b'
  end.

Lemma safe_mono c (Q R : list lock → bool → Prop) h b :
  (∀ h b, Q h b → R h b) → safe c Q h b → safe c R h b.
Proof.
  revert Q R h b.
  induction c as [|l|l|l c IH|c IHc d IHd|c IHc d IHd|c IH|c IH|c IH|c IH| | |c IH| | | |b'|b']; intros Q R h b HQ; cbn [safe].
  - apply HQ.
  - intros (H1 & H2 & H3). auto.
  - destruct h as [|l' h]; [done|]. intros [-> H5]. auto.
  - intros [H1 H2]. split; [auto|]. intros Hl. destruct (H2 Hl) as [? H3]. split; [done|].
    eapply IH, H3. intros [|l' h'] b'; [done|]. intros [-> H4]. auto.
  - apply IHc. intros h' b'. by apply IHd.
  - intros [H1 H2]. eauto.
  - intros [H1 H2]. auto.
  - done.
  - apply IH. intros h' b' [H1 H2]. auto.
  - apply IH. intros h' b' [H1 H2]. auto.
  - apply HQ.
  - intros [H1 H2]. auto.
  - intros [H1 H2]. auto.
  - intros [H1 H2]. auto.
  - done.
  - done.
  - intros [H1 H2]. auto.
  - intros [H1 H2]. auto.
Qed.

(** A thread does not return. *)
Fixpoint safe_all (k : list cmd) (h : list lock) (b : bool) : Prop :=
  match k with [] => False | c :: k => safe c (safe_all k) h b end.

(** A handler gives back what it takes, whatever harmless locks the code it
    interrupted has. *)
Definition handler_ok (c : cmd) : Prop := ∀ h, clear h → safe c (λ h' _, h' = h) h false.

Definition threads_ok (s : state) : Prop :=
  safe_all (code s) (held s) (flag s) ∧
  (∀ k, k ∈ others s → ∀ b, safe_all k [] b) ∧
  (flag s = true → clear (held s)).

Context (Hhandlers : ∀ c, c ∈ handlers → handler_ok c).

(** A lock the flag allows to be taken. *)
Lemma clear_cons l h b :
  (irq_lock l = true → b = false) → (b = true → clear h) → b = true → clear (l :: h).
Proof.
  intros Hi Hf -> l' [->|Hl]%elem_of_cons; [|by apply Hf].
  destruct (irq_lock l); [by specialize (Hi eq_refl)|done].
Qed.

Lemma step_ok s s' : threads_ok s → step s s' → threads_ok s'.
Proof.
  intros (Hc & Ho & Hf) Hs.
  destruct Hs; cbn [code others held flag safe_all safe] in *; unfold threads_ok; cbn [code others held flag].
  - done.
  - destruct Hc as (_ & Hi & Hc). split; [done|]. split; [done|]. by apply clear_cons.
  - destruct Hc as [_ Hc]. split; [done|]. split; [done|]. intros Hb l' Hl. apply Hf; [done|]. by right.
  - destruct Hc as [_ Hc]. destruct (Hc ltac:(done)) as [Hi Hs]. split; [exact Hs|]. split; [done|]. by apply clear_cons.
  - destruct Hc as [Hc _]. auto.
  - done.
  - by destruct Hc.
  - by destruct Hc.
  - by destruct Hc.
  - destruct Hc as [Hq Hc]. split; [|done]. eapply safe_mono; [|apply Hc]. intros h' b' ->. cbn. done.
  - split; [|done]. eapply safe_mono; [|apply Hc]. intros h' b' ->. cbn. done.
  - split; [exact Hc|done].
  - split; [exact Hc|done].
  - destruct Hc as [H1 Hc]. split; [done|]. split; [done|]. destruct b'; cbn; auto.
  - destruct Hc as [H1 Hc]. split; [done|]. done.
  - done.
  - destruct Hc as [H1 Hc]. done.
  - destruct Hc as [H1 Hc]. split; [done|]. split; [|done]. intros k' [Hk|Hk]%elem_of_app; [by apply Ho|].
    apply list_elem_of_singleton in Hk as ->. exact H1.
  - destruct Hc as [-> Hc]. split; [apply Ho, elem_of_app; right; by left|]. split; [|done].
    intros k'' Hk. rewrite !elem_of_app, list_elem_of_singleton in Hk.
    destruct Hk as [Hk|[Hk| ->]]; [apply Ho, elem_of_app; by left|apply Ho, elem_of_app; right; by right|exact Hc].
  - destruct Hc as [-> Hc]. done.
  - subst h. split; [apply Ho, elem_of_app; right; by left|]. split; [|done].
    intros k'' [Hk|Hk]%elem_of_app; apply Ho, elem_of_app; [by left|right; by right].
  - subst h. split; [by intros ?%elem_of_nil|done].
  - split; [|done]. specialize (Hf eq_refl). eapply safe_mono; [|by apply Hhandlers]. intros h' b' ->. cbn. done.
Qed.

(** What [safe] promises of the next step. *)
Definition next_ok (s : state) : Prop :=
  match code s with
  | Acquire l :: _ => l ∉ held s
  | Switch :: _ | Leave :: _ => held s = []
  | Panic :: _ => console ∉ held s
  | _ => True
  end.

Lemma next_safe s : threads_ok s → next_ok s.
Proof. intros (Hc & _). unfold next_ok. destruct (code s) as [|[] k]; cbn in Hc; naive_solver. Qed.

(** Code that has not panicked goes on. *)
Lemma progress s : threads_ok s → head (code s) = Some Panic ∨ ∃ s', step s s'.
Proof.
  intros (Hc & _). destruct s as [[|c k] o h b]; [done|]. cbn [code held flag safe_all] in *.
  destruct c; cbn in Hc; try by (right; eexists; constructor).
  - right. destruct Hc as [Hl _]. eexists. by apply step_acquire.
  - right. destruct h as [|l' h]; [done|]. destruct Hc as [-> _]. eexists. apply step_release.
  - right. destruct (decide (l ∈ h)); eexists; [by apply step_try_held|by apply step_try].
  - right. destruct o as [|k' o]; eexists; [apply step_switch_none|apply (step_switch k [])].
  - right. destruct o as [|k' o]; eexists; [apply step_leave_none|apply (step_leave k [])].
  - by left.
Qed.

Lemma safe_run c b s :
  safe c (λ _ _, False) [] b → rtc step (mkState [c] [] [] b) s →
  next_ok s ∧ (flag s = true → clear (held s)) ∧ (head (code s) = Some Panic ∨ ∃ s', step s s').
Proof.
  intros Hc Hs. assert (threads_ok s) as Hok.
  { assert (threads_ok (mkState [c] [] [] b)) as H0.
    { split; [|split]; cbn; [|by intros k ?%elem_of_nil|by intros _ l ?%elem_of_nil].
      eapply safe_mono; [|apply Hc]. done. }
    revert H0. induction Hs; eauto using step_ok. }
  split; [by apply next_safe|]. split; [apply Hok|by apply progress].
Qed.
End locks.
