(* ===== verification/KernelLocks.v ===== *)
(** * The kernel's locks

    The kernel's code in the language of Locks.v: for every function that
    takes a lock, masks interrupts or switches threads, the order in which it
    does so, up to [kernel_main].  Branches are choices, loops any number of
    turns, and heap activity, which the collections hide, is allowed wherever
    they are used.  The atomics, the lock-free queues and the page tables take
    no lock. *)

From Stdlib Require Import ZArith Lia.
From stdpp Require Import base list strings relations.
From S2P Require Import Prelude Kernel Locks.

Open Scope Z_scope.

(** The statics behind a [spin::Mutex]: THREADS, the registry of KERNEL,
    ALLOCATOR, WRITER, SERIAL1, PICS. *)
Inductive lock := LThreads | LProcesses | LAllocator | LWriter | LSerial | LPics.

#[global] Instance lock_eq_dec : EqDecision lock.
Proof. solve_decision. Defined.

(** A handler of a hardware interrupt acknowledges it through PICS, and may
    panic, which prints. *)
Definition irq_lock (l : lock) : bool := match l with LPics | LWriter => true | _ => false end.

Abbreviation cmd := (Locks.cmd (lock := lock)).

Fixpoint seqs (l : list cmd) : cmd :=
  match l with [] => Skip | c :: l => Seq c (seqs l) end.

(** The scope of a guard. *)
Definition guard (l : lock) (c : cmd) : cmd := seqs [Acquire l; c; Release l].

Definition may_panic : cmd := Or Skip Panic.

(** ** The heap, the console, the log *)

(** [alloc] or [dealloc] through [Locked], with [handle_alloc_error]. *)
Definition heap_op : cmd := Seq (guard LAllocator may_panic) may_panic.
Definition heap : cmd := Star heap_op.

(** [allocator::stats] *)
Definition heap_stats : cmd := guard LAllocator may_panic.

(** [vga_buffer::_print] and [set_color] *)
Definition print : cmd := NoIrq (guard LWriter Skip).
Definition set_color : cmd := NoIrq (guard LWriter Skip).

(** [logger::_log] *)
Definition log : cmd := Try LSerial Skip.

(** ** thread.rs *)

Definition spawn (entry : cmd) : cmd := guard LThreads (seqs [heap; may_panic; Fork entry]).

Definition current_process : cmd := guard LThreads Skip.
Definition current_id : cmd := guard LThreads Skip.
Definition ready_count : cmd := guard LThreads Skip.

Definition drain_reaper : cmd := seqs [NoIrq (guard LThreads Skip); heap].

Definition yield_now : cmd :=
  seqs [drain_reaper; NoIrq (guard LThreads (seqs [heap; may_panic])); Or Skip Switch].

Definition exit_thread : cmd :=
  seqs [drain_reaper; NoIrq (guard LThreads (seqs [heap; may_panic])); Leave].

(** ** The services and [Kernel::call] *)

Definition process_register : cmd := guard LProcesses heap.
Definition process_exit : cmd := guard LProcesses heap.
Definition process_snapshot : cmd := guard LProcesses Skip.
Definition process_count : cmd := guard LProcesses Skip.

(** A page fault in ring 0 ends in the panic. *)
Definition ring0_fault : cmd := Gate (seqs [print; Panic]).

(** Each byte is read, which may fault, and then printed. *)
Definition console_write : cmd := Star (seqs [Or Skip ring0_fault; print]).

(** [entry] is the code of the thread a [ThreadSpawn] names. *)
Definition call (entry : Z → cmd) (request : Request) : cmd :=
  match request with
  | ProcessCreate _ _ => Or Skip process_register
  | ProcessExit _ _ => Or Skip process_exit
  | ProcessSnapshotReq _ => Or Skip process_snapshot
  | ProcessCount => Or Skip process_count
  | ThreadSpawn e _ => Or Skip (spawn (entry e))
  | ThreadYield => yield_now
  | ThreadExit => exit_thread
  | SchedulerStatsReq | TimerTicks | InputReadByte => Skip
  | MemoryStatsReq => heap_stats
  | ConsoleWrite _ => console_write
  end.

(** ** Interrupts *)

(** The heartbeat is logged every so often. *)
Definition timer_interrupt_handler : cmd := seqs [may_panic; Or Skip log; guard LPics Skip].

(** The scancode is dropped with a warning, or queued and the task woken; the
    executor holds another reference to the waker, so nothing is freed here. *)
Definition keyboard_interrupt_handler : cmd := seqs [Or log may_panic; guard LPics Skip].

Definition irq_handlers : list cmd := [timer_interrupt_handler; keyboard_interrupt_handler].

(** No request of these spawns a thread. *)
Abbreviation Call := (call (λ _, Leave)).

Definition kill_faulting_process : cmd :=
  seqs [current_process; may_panic; log; Call (ProcessExit 0 (-1)); exit_thread].

(** The page fault and general protection handlers, entered from ring 3. *)
Definition ring3_fault : cmd := Gate (seqs [print; kill_faulting_process]).

(** ** syscall.rs *)

Definition sys_exit : cmd := seqs [log; Call (ProcessExit 0 0); exit_thread].
Definition sys_write : cmd := Or Skip (Call (ConsoleWrite [])).
Definition sys_read : cmd := Call InputReadByte.
Definition sys_yield : cmd := Call ThreadYield.

Definition syscall_dispatch : cmd :=
  seqs [current_process; Or sys_exit (Or sys_write (Or sys_read (Or sys_yield log)))].

(** ** userland.rs and demos.rs *)

(** In ring 3, with interrupts on: system calls, and at some point a fault. *)
Definition ring3 : cmd := seqs [Sti; Star (Gate syscall_dispatch); ring3_fault].

Definition user_thread_entry : cmd :=
  seqs [current_process; Call (ProcessSnapshotReq 0); may_panic; current_id; log; ring3].

(** Its error paths return before the registration, or after it was refused. *)
Definition create_process_from_program : cmd :=
  seqs [may_panic; Or Skip (seqs [Call (ProcessCreate 0 0); Or Skip log])].

(** [while thread::ready_count() > 0 { thread::yield_now() }] *)
Definition drive : cmd := seqs [Star (seqs [ready_count; yield_now]); ready_count].

Definition sample_heap_allocations : cmd := seqs [log; heap; log; heap; log; heap; log; heap; log; heap].

Definition worker : cmd := seqs [current_id; log; yield_now; log; exit_thread].

Definition threading_demo : cmd := seqs [log; spawn worker; spawn worker; drive; log].

Definition userland_demo : cmd :=
  seqs [log; create_process_from_program;
        Or log (seqs [spawn user_thread_entry; drive; yield_now; log])].

(** ** The executor and its tasks *)

Definition executor_spawn : cmd := seqs [heap; may_panic; log].

Definition example_task : cmd := log.

(** [ScancodeStream::new] allocates the queues, or panics. *)
Definition ScancodeStream_new : cmd := seqs [heap; may_panic; heap; may_panic].

(** One poll: the first makes the stream; each scancode that completes a key
    is logged, and shown if it is a character. *)
Definition print_keypresses : cmd :=
  seqs [Or Skip ScancodeStream_new; Star (seqs [may_panic; Or Skip (seqs [log; Or Skip print])]); may_panic].

Definition poll : cmd := Or example_task print_keypresses.

Definition run_ready_tasks : cmd := Star (seqs [heap; Or Skip log; poll; heap; Or Skip log]).

Definition sleep_if_idle : cmd := seqs [Cli; Or Sti Sti].

Definition run : cmd := seqs [log; Loop (seqs [run_ready_tasks; sleep_if_idle])].

(** ** Boot *)

Definition init : cmd := seqs [log; log; log; log; guard LPics Skip; log; Sti].

Definition print_banner : cmd :=
  seqs [set_color; print; print; set_color; print; print; print; print; print; print].

(** The pages are mapped, then the allocator gets them. *)
Definition init_heap : cmd := seqs [may_panic; Or Skip (guard LAllocator may_panic)].

Definition create_example_mapping : cmd := may_panic.

(** Each [log] is one line of the log; [memory::init] and the [expect] on the
    heap may panic. *)
Definition kernel_main : cmd :=
  seqs [log; init; may_panic; log; log; create_example_mapping; log; init_heap; may_panic; log; print_banner;
        sample_heap_allocations; threading_demo; userland_demo;
        heap; log; heap; executor_spawn; heap; executor_spawn; log; run].

(** ** Safety *)

Abbreviation safe := (Locks.safe irq_lock LWriter).

(** Code that runs with the locks [h] taken, whatever the interrupt flag, and
    gives back what it takes. *)
Definition keeps (h : list lock) (c : cmd) : Prop := ∀ Q, (∀ b, Q h b) → ∀ b, safe c Q h b.

(** The code of a thread, which runs with no lock taken and does not return. *)
Definition never (c : cmd) : Prop := ∀ Q b, safe c Q [] b.

Create HintDb locks.

Section keeps.
Context (h : list lock).

Lemma clear_bool : forallb (λ l, negb (irq_lock l)) h = true → clear irq_lock h.
Proof. intros Hh l Hl. apply list_elem_of_In in Hl. rewrite forallb_forall in Hh. by apply negb_true_iff, Hh. Qed.

Lemma keeps_skip : keeps h Skip.
Proof. intros Q HQ b. apply HQ. Qed.

Lemma keeps_seq c d : keeps h c → keeps h d → keeps h (Seq c d).
Proof. intros Hc Hd Q HQ b. apply Hc. intros b'. by apply Hd. Qed.

Lemma keeps_or c d : keeps h c → keeps h d → keeps h (Or c d).
Proof. intros Hc Hd Q HQ b. split; [by apply Hc|by apply Hd]. Qed.

Lemma keeps_star c : keeps h c → keeps h (Star c).
Proof. intros Hc Q HQ b. split; [done|]. intros b'. by apply Hc. Qed.

Lemma keeps_guard l c : irq_lock l = false → l ∉ h → keeps (l :: h) c → keeps h (guard l c).
Proof.
  intros Hi Hl Hc Q HQ b. split; [done|]. split; [by rewrite Hi|]. apply Hc. intros b'. split; [done|apply HQ].
Qed.

Lemma keeps_noirq c : forallb (λ l, negb (irq_lock l)) h = true → keeps h c → keeps h (NoIrq c).
Proof. intros Hh Hc Q HQ b. apply Hc. intros b'. split; [intros _; by apply clear_bool|apply HQ]. Qed.

Lemma keeps_gate c : forallb (λ l, negb (irq_lock l)) h = true → keeps h c → keeps h (Gate c).
Proof. intros Hh Hc Q HQ b. apply Hc. intros b'. split; [intros _; by apply clear_bool|apply HQ]. Qed.

Lemma keeps_print : forallb (λ l, negb (irq_lock l)) h = true → keeps h print.
Proof.
  intros Hh Q HQ b. split; [|split; [done|split; [done|split; [intros _; by apply clear_bool|apply HQ]]]].
  intros Hw. by pose proof (clear_bool Hh _ Hw).
Qed.

Lemma keeps_log : keeps h log.
Proof. intros Q HQ b. split; [done|]. intros _. split; [done|]. split; [done|apply HQ]. Qed.

Lemma keeps_panic : LWriter ∉ h → keeps h Panic.
Proof. by intros Hw Q HQ b. Qed.

End keeps.

Lemma keeps_sti : keeps [] Sti.
Proof. intros Q HQ b. split; [by intros l ?%elem_of_nil|apply HQ]. Qed.

Lemma keeps_cli : keeps [] Cli.
Proof. intros Q HQ b. apply HQ. Qed.

Lemma keeps_switch : keeps [] Switch.
Proof. intros Q HQ b. done. Qed.

Lemma keeps_fork h c : never c → keeps h (Fork c).
Proof. intros Hc Q HQ b. split; [|apply HQ]. intros b'. apply Hc. Qed.

Lemma never_keeps c : never c → keeps [] c.
Proof. intros Hc Q _. apply Hc. Qed.

Lemma never_leave : never Leave.
Proof. done. Qed.

Lemma never_seq c d : keeps [] c → never d → never (Seq c d).
Proof. intros Hc Hd Q b. apply Hc. intros b'. apply Hd. Qed.

Lemma never_last c : never c → never (Seq c Skip).
Proof. intros Hc Q b. apply Hc. Qed.

Lemma never_gate c : never c → never (Gate c).
Proof. intros Hc Q b. apply Hc. Qed.

Lemma never_loop c : keeps [] c → never (Loop c).
Proof. intros Hc Q b b'. by apply Hc. Qed.

#[export] Hint Resolve keeps_skip keeps_seq keeps_or keeps_star keeps_guard keeps_noirq keeps_gate keeps_print
  keeps_log keeps_panic keeps_fork keeps_sti keeps_cli keeps_switch never_leave : locks.
#[export] Hint Extern 1 (_ ∉ _) => by_decide : locks.
#[export] Hint Extern 1 (_ = _) => reflexivity : locks.

(** Unfolds one function of the kernel and follows its code. *)
Ltac lock_auto :=
  cbn [seqs call];
  repeat first
    [ solve [eauto 3 with locks]
    | apply keeps_guard | apply keeps_seq | apply keeps_or | apply keeps_star | apply keeps_noirq | apply keeps_gate
    | apply keeps_fork | apply never_loop | apply never_gate | apply never_last | apply never_seq ].

Lemma keeps_heap h : LAllocator ∉ h → LWriter ∉ h → keeps h heap.
Proof.
  intros Ha Hw. unfold heap, heap_op, guard, may_panic. apply keeps_star, keeps_seq; [apply keeps_guard|]; try done.
  - apply keeps_or; [apply keeps_skip|]. apply keeps_panic. intros [|]%elem_of_cons; done.
  - apply keeps_or; [apply keeps_skip|by apply keeps_panic].
Qed.
#[export] Hint Resolve keeps_heap : locks.

Lemma keeps_yield : keeps [] yield_now.
Proof. unfold yield_now, drain_reaper, may_panic. lock_auto. Qed.

Lemma never_exit : never exit_thread.
Proof. unfold exit_thread, drain_reaper, may_panic. lock_auto. Qed.

Lemma keeps_exit : keeps [] exit_thread.
Proof. apply never_keeps, never_exit. Qed.
#[export] Hint Resolve keeps_yield keeps_exit never_exit : locks.

Lemma keeps_spawn c : never c → keeps [] (spawn c).
Proof. intros Hc. unfold spawn, may_panic. lock_auto. Qed.
#[export] Hint Resolve keeps_spawn : locks.

(** Every request of the kernel call. *)
Lemma keeps_call entry request : (∀ e, never (entry e)) → keeps [] (call entry request).
Proof.
  intros He. destruct request; unfold process_register, process_exit, process_snapshot, process_count, heap_stats,
    console_write, ring0_fault, may_panic; lock_auto.
Qed.
#[export] Hint Resolve keeps_call : locks.

Lemma never_worker : never worker.
Proof. unfold worker, current_id. lock_auto. Qed.

Lemma keeps_dispatch : keeps [] syscall_dispatch.
Proof. unfold syscall_dispatch, sys_exit, sys_write, sys_read, sys_yield, current_process. lock_auto. Qed.
#[export] Hint Resolve never_worker keeps_dispatch : locks.

Lemma never_user_thread : never user_thread_entry.
Proof.
  unfold user_thread_entry, ring3, ring3_fault, kill_faulting_process, current_process, current_id, may_panic. lock_auto.
Qed.
#[export] Hint Resolve never_user_thread : locks.

Lemma keeps_demos : keeps [] sample_heap_allocations ∧ keeps [] threading_demo ∧ keeps [] userland_demo.
Proof.
  unfold sample_heap_allocations, threading_demo, userland_demo, drive, create_process_from_program, ready_count, may_panic.
  split; [|split]; lock_auto.
Qed.

Lemma never_run : never run.
Proof.
  unfold run, run_ready_tasks, poll, example_task, print_keypresses, ScancodeStream_new, sleep_if_idle, may_panic.
  lock_auto.
Qed.

Lemma keeps_banner : keeps [] print_banner.
Proof. unfold print_banner. lock_auto. Qed.
#[export] Hint Resolve never_run keeps_banner : locks.

(** PICS is taken before interrupts are on. *)
Lemma log_safe d Q h b : safe d Q h b → safe (Seq log d) Q h b.
Proof. intros Hd. split; [done|]. intros _. split; [done|]. by split. Qed.

Lemma init_safe (Q : list lock → bool → Prop) : Q [] true → safe init Q [] false.
Proof.
  intros HQ. do 4 apply log_safe. split; [by_decide|]. split; [done|]. split; [done|]. apply log_safe.
  split; [|done]. by intros l ?%elem_of_nil.
Qed.

(** What follows [init]. *)
Lemma never_after_init :
  never (seqs [may_panic; log; log; create_example_mapping; log; init_heap; may_panic; log; print_banner;
                sample_heap_allocations; threading_demo; userland_demo;
                heap; log; heap; executor_spawn; heap; executor_spawn; log; run]).
Proof.
  destruct keeps_demos as (H1 & H2 & H3).
  unfold init_heap, create_example_mapping, executor_spawn, may_panic. lock_auto.
Qed.

Lemma kernel_main_safe : safe kernel_main (λ _ _, False) [] false.
Proof.
  unfold kernel_main. cbn [seqs]. apply log_safe. cbn [Locks.safe]. apply init_safe.
  exact (never_after_init (λ _ _, False) true).
Qed.

(** A handler may find SERIAL1 taken, but neither PICS nor WRITER. *)
Lemma handlers_ok c : c ∈ irq_handlers → handler_ok irq_lock LWriter c.
Proof.
  intros Hc h Hh. assert (LPics ∉ h) as Hp by (intros Hl; by specialize (Hh _ Hl)).
  assert (LWriter ∉ h) as Hw by (intros Hl; by specialize (Hh _ Hl)).
  assert (safe (seqs [guard LPics Skip]) (λ h' _, h' = h) h false) as Hend by done.
  unfold irq_handlers in Hc. rewrite !elem_of_cons, elem_of_nil in Hc. destruct Hc as [-> |[-> |[]]].
  - split; [|exact Hw]. split; [exact Hend|by apply log_safe].
  - split; [by apply log_safe|by split].
Qed.

(** The kernel with its interrupts, from the boot loader's jump to
    [kernel_main] on. *)
Abbreviation kernel_step := (Locks.step irq_handlers).
Definition boot_state : Locks.state := mkState [kernel_main] [] [] false.

(** C6: The kernel cannot deadlock on its spin locks.  From [kernel_main] on,
    whatever the timer and the keyboard interrupt, however the threads
    interleave and whichever branches are taken: a [lock()] is only reached
    with that lock free; threads are switched with no lock taken; a panic
    finds WRITER free for its message; while interrupts are enabled, no lock
    is taken that a handler waits for; and the kernel always has a next step,
    unless it has panicked. *)
Theorem kernel_deadlock_free s :
  rtc kernel_step boot_state s →
  match code s with
  | Acquire l :: _ => l ∉ held s
  | Switch :: _ | Leave :: _ => held s = []
  | Panic :: _ => LWriter ∉ held s
  | _ => True
  end ∧
  (flag s = true → LPics ∉ held s ∧ LWriter ∉ held s) ∧
  (head (code s) = Some Panic ∨ ∃ s', kernel_step s s').
Proof.
  intros Hs. destruct (safe_run irq_lock LWriter irq_handlers handlers_ok _ _ _ kernel_main_safe Hs) as (H1 & H2 & H3).
  split; [unfold next_ok in H1; by destruct (code s) as [|[] ?]|]. split; [|done].
  intros Hf. split; intros Hl; by specialize (H2 Hf _ Hl).
Qed.

(** Follows code that takes no branch. *)
Ltac follow := eapply rtc_l; [first [apply step_seq | apply step_try; by_decide | apply step_skip | apply step_release]|].

(** At boot, just before [PICS.lock()]. *)
Lemma kernel_deadlock_free_witness :
  ∃ s, rtc kernel_step boot_state s ∧ head (code s) = Some (Acquire LPics) ∧ LPics ∉ held s ∧
    ∃ s', kernel_step s s'.
Proof.
  eassert (rtc kernel_step boot_state _) as Hs.
  { unfold boot_state, kernel_main. cbn [seqs]. do 5 follow. unfold init, guard. cbn [seqs]. do 18 follow. apply rtc_refl. }
  eexists. split; [exact Hs|]. split; [reflexivity|].
  destruct (kernel_deadlock_free _ Hs) as (H1 & _ & [H3|H3]); [discriminate|]. by split.
Defined.
